(** * json-parser (json.cpp): a shallow embedding of the two-pass parser

    The development follows [json.cpp]: the value shells and their payload
    buffers live in an explicit heap, the allocation service [json_alloc]
    and the shell constructor [new_value] thread that heap, the tokenizer
    is one loop body [iteration] run under both passes, and [parse] drives
    the two passes and the failure path [e_failed].  [value_free] is the
    teardown loop.

    Platform: LP64 (unsigned int 32 bits, long / unsigned long / size_t /
    pointers 64 bits), as the arithmetic of the source assumes. *)

From Stdlib Require Import ZArith List String Ascii Lia Bool Floats Uint63.
From stdpp Require Import base list.
Import ListNotations.
Open Scope Z_scope.
Set Warnings "-register-all".

(** ** Machine integers *)

Definition wrap_u8 (z : Z) : Z := z mod 2 ^ 8.
Definition wrap_u32 (z : Z) : Z := z mod 2 ^ 32.
Definition wrap_u64 (z : Z) : Z := z mod 2 ^ 64.
Definition wrap_s32 (z : Z) : Z := (z + 2 ^ 31) mod 2 ^ 32 - 2 ^ 31.
Definition wrap_s64 (z : Z) : Z := (z + 2 ^ 63) mod 2 ^ 64 - 2 ^ 63.

(** [std::numeric_limits<unsigned>::max() - 8] and its unsigned long twin:
    "limit of how much can be added before next check". *)
Definition uint_max : Z := 2 ^ 32 - 1 - 8.
Definition ulong_max : Z := 2 ^ 64 - 1 - 8.

(** [sizeof(value)] in [new_value]: [value] is declared a pointer to
    [json_value]. *)
Definition sizeof_value : Z := 8.
Definition sizeof_value_ptr : Z := 8.
Definition sizeof_object_entry : Z := 24.

(** [sizeof(json_value)] of the struct as it is declared, without
    [JSON_TRACK_SOURCE]: [parent] at offset 0, [type] at 8, the union [u] at
    16 (its pointers at 24) and [_reserved] at 32. *)
Definition sizeof_json_value : Z := 40.

(** Bytes of the input are the values of [unsigned char]; a character
    constant is its code. *)
Definition chr (c : ascii) : Z := Z.of_N (N_of_ascii c).
Definition bytes_of_string (s : string) : list Z := map chr (list_ascii_of_string s).

(** [(double) x] for a 64-bit signed [x]. *)
Definition double_of_int64 (z : Z) : float :=
  if z <? 0
  then if z =? - 2 ^ 63
       then PrimFloat.opp (PrimFloat.mul (PrimFloat.of_uint63 (Uint63.of_Z (2 ^ 62))) 2%float)
       else PrimFloat.opp (PrimFloat.of_uint63 (Uint63.of_Z (- z)))
  else PrimFloat.of_uint63 (Uint63.of_Z z).

(** ** The value tree in memory *)

Definition addr := nat.

(** A pointer-sized field.  The parser keeps integers in pointer fields
    during the counting pass ([u.object.values] accumulates the bytes of
    the member names), so a pointer is either an integer ([nullptr] is
    [Pint 0]) or a byte offset into a block handed out by the allocator. *)
Inductive pointer :=
| Pint (z : Z)
| Pblk (a : addr) (off : Z).

Definition nullptr : pointer := Pint 0.

Definition is_null (p : pointer) : bool :=
  match p with
  | Pint z => z =? 0
  | Pblk _ _ => false
  end.

(** Advancing a pointer field by [n] bytes, as the casts to a pointer to
    [char *] followed by [+=] do.  Pointer arithmetic does not wrap: a count
    kept in a pointer field is bounded by the length of the input. *)
Definition ptr_add (p : pointer) (n : Z) : pointer :=
  match p with
  | Pint z => Pint (z + n)
  | Pblk a off => Pblk a (off + n)
  end.

(** [json::type]; [json_none] is the value 0 of zeroed storage
    ("json_none = 0 not used anymore"). *)
Inductive json_type :=
| json_none | json_object | json_array | json_integer | json_double
| json_string | json_boolean | json_null.

Definition type_eqb (a b : json_type) : bool :=
  match a, b with
  | json_none, json_none | json_object, json_object | json_array, json_array
  | json_integer, json_integer | json_double, json_double
  | json_string, json_string | json_boolean, json_boolean
  | json_null, json_null => true
  | _, _ => false
  end.

Record object_entry := {
  name : pointer;
  name_length : Z;
  value : pointer
}.

(** [struct json_value].  The members of the union [u] that the parser reads
    through one another are one field here: [u_length] is
    [u.string.length], [u.object.length] and [u.array.length]; [u_values] is
    [u.string.ptr], [u.object.values] and [u.array.values]; [_reserved] is
    [_reserved.next_alloc] and [_reserved.object_mem]. *)
Record json_value := {
  parent : pointer;
  type : json_type;
  u_boolean : bool;
  u_integer : Z;
  u_dbl : float;
  u_length : Z;
  u_values : pointer;
  _reserved : pointer
}.

(** A shell as [calloc] returns it. *)
Definition zeroed_value : json_value :=
  {| parent := nullptr; type := json_none; u_boolean := false; u_integer := 0;
     u_dbl := 0%float; u_length := 0; u_values := nullptr; _reserved := nullptr |}.

Definition set_parent (p : pointer) (v : json_value) : json_value :=
  {| parent := p; type := type v; u_boolean := u_boolean v; u_integer := u_integer v;
     u_dbl := u_dbl v; u_length := u_length v; u_values := u_values v;
     _reserved := _reserved v |}.
Definition set_type (t : json_type) (v : json_value) : json_value :=
  {| parent := parent v; type := t; u_boolean := u_boolean v; u_integer := u_integer v;
     u_dbl := u_dbl v; u_length := u_length v; u_values := u_values v;
     _reserved := _reserved v |}.
Definition set_boolean (b : bool) (v : json_value) : json_value :=
  {| parent := parent v; type := type v; u_boolean := b; u_integer := u_integer v;
     u_dbl := u_dbl v; u_length := u_length v; u_values := u_values v;
     _reserved := _reserved v |}.
Definition set_integer (z : Z) (v : json_value) : json_value :=
  {| parent := parent v; type := type v; u_boolean := u_boolean v; u_integer := z;
     u_dbl := u_dbl v; u_length := u_length v; u_values := u_values v;
     _reserved := _reserved v |}.
Definition set_dbl (d : float) (v : json_value) : json_value :=
  {| parent := parent v; type := type v; u_boolean := u_boolean v; u_integer := u_integer v;
     u_dbl := d; u_length := u_length v; u_values := u_values v;
     _reserved := _reserved v |}.
Definition set_length (n : Z) (v : json_value) : json_value :=
  {| parent := parent v; type := type v; u_boolean := u_boolean v; u_integer := u_integer v;
     u_dbl := u_dbl v; u_length := n; u_values := u_values v;
     _reserved := _reserved v |}.
Definition set_values (p : pointer) (v : json_value) : json_value :=
  {| parent := parent v; type := type v; u_boolean := u_boolean v; u_integer := u_integer v;
     u_dbl := u_dbl v; u_length := u_length v; u_values := p;
     _reserved := _reserved v |}.
Definition set_reserved (p : pointer) (v : json_value) : json_value :=
  {| parent := parent v; type := type v; u_boolean := u_boolean v; u_integer := u_integer v;
     u_dbl := u_dbl v; u_length := u_length v; u_values := u_values v;
     _reserved := p |}.

(** What a block handed out by the allocator is used as.  A payload buffer
    is modelled by its typed cells, as many as the bytes that were asked
    for it hold: the chars of a string buffer, the child pointers of an
    array buffer, the entries of an object buffer followed by the packed
    names, which start [names_at] bytes into the block.

    A shell is modelled by the record [json_value] itself, whatever the
    number of bytes that was asked for it: the model follows the accesses
    to the fields of a shell as the source makes them, and says nothing of
    whether the bytes of the field lie inside the grant.  They do when
    [shell_room] holds, which is stated where it matters. *)
Inductive block :=
| Bvalue (v : json_value)
| Bchars (s : list Z)
| Bptrs (cells : list pointer)
| Bobject (entries : list object_entry) (names_at : Z) (names : list Z).

(** The allocate / free capabilities of [json::settings].  A custom
    allocator decides from the calls it has seen so far, the size, the zero
    flag and [user_data] whether it returns a block; the default one
    ([malloc] / [calloc]) is taken to succeed. *)
Record alloc_call := { call_size : Z; call_zero : bool; call_user_data : Z }.

Inductive alloc_fn :=
| default_alloc
| custom_alloc (grants : list alloc_call -> Z -> bool -> Z -> bool).

Inductive free_fn :=
| default_free
| custom_free.

Record free_call := { free_with : free_fn; freed : pointer; free_user_data : Z }.

Record settings := {
  max_memory : Z;
  allow_comments : bool;
  mem_alloc : option alloc_fn;
  mem_free : option free_fn;
  user_data : Z;
  value_extra : Z
}.

(** [const json::settings settings = { 0 }] *)
Definition zero_settings : settings :=
  {| max_memory := 0; allow_comments := false; mem_alloc := None; mem_free := None;
     user_data := 0; value_extra := 0 |}.

(** The memory: blocks by address ([None] once released), and the calls
    made to the two capabilities, latest first. *)
Record memory := {
  heap : list (option block);
  alloc_log : list alloc_call;
  free_log : list free_call
}.

Definition empty_memory : memory := {| heap := []; alloc_log := []; free_log := [] |}.

Definition load (mm : memory) (p : pointer) : option block :=
  match p with
  | Pblk a 0 => mjoin (heap mm !! a)
  | _ => None
  end.

Definition load_value (mm : memory) (p : pointer) : option json_value :=
  match load mm p with
  | Some (Bvalue v) => Some v
  | _ => None
  end.

Definition store (mm : memory) (a : addr) (b : block) : memory :=
  {| heap := <[a := Some b]> (heap mm); alloc_log := alloc_log mm; free_log := free_log mm |}.

(** [v->field = ...] through a pointer to a shell; dereferencing anything but a
    live shell is undefined. *)
Definition update_value (mm : memory) (p : pointer) (f : json_value -> json_value)
  : option memory :=
  match load_value mm p, p with
  | Some v, Pblk a _ => Some (store mm a (Bvalue (f v)))
  | _, _ => None
  end.

Definition Z_index (i : Z) : option nat :=
  if i <? 0 then None else Some (Z.to_nat i).

Definition write_at {A} (l : list A) (i : Z) (x : A) : option (list A) :=
  match Z_index i with
  | Some n => if (n <? length l)%nat then Some (<[n := x]> l) else None
  | None => None
  end.

Definition read_at {A} (l : list A) (i : Z) : option A :=
  match Z_index i with
  | Some n => l !! n
  | None => None
  end.

(** [string[i] = c] for the cursor [string] that points into a string buffer
    or into the name storage of an object buffer; a write outside the
    buffer is undefined. *)
Definition store_char (mm : memory) (s : pointer) (i : Z) (c : Z) : option memory :=
  match s with
  | Pblk a off =>
      match mjoin (heap mm !! a) with
      | Some (Bchars cs) =>
          match write_at cs (off + i) (wrap_u8 c) with
          | Some cs' => Some (store mm a (Bchars cs'))
          | None => None
          end
      | Some (Bobject es at_ ns) =>
          match write_at ns (off + i - at_) (wrap_u8 c) with
          | Some ns' => Some (store mm a (Bobject es at_ ns'))
          | None => None
          end
      | _ => None
      end
  | Pint _ => None
  end.

(** [values[i] = child] for an array of child pointers *)
Definition store_cell (mm : memory) (values : pointer) (i : Z) (child : pointer)
  : option memory :=
  match values, load mm values with
  | Pblk a _, Some (Bptrs cells) =>
      match write_at cells i child with
      | Some cells' => Some (store mm a (Bptrs cells'))
      | None => None
      end
  | _, _ => None
  end.

Definition load_cell (mm : memory) (values : pointer) (i : Z) : option pointer :=
  match load mm values with
  | Some (Bptrs cells) => read_at cells i
  | _ => None
  end.

(** [values[i].field = ...] for an array of object entries *)
Definition update_entry (mm : memory) (values : pointer) (i : Z)
  (f : object_entry -> object_entry) : option memory :=
  match values, load mm values with
  | Pblk a _, Some (Bobject es at_ ns) =>
      match read_at es i with
      | Some e =>
          match write_at es i (f e) with
          | Some es' => Some (store mm a (Bobject es' at_ ns))
          | None => None
          end
      | None => None
      end
  | _, _ => None
  end.

Definition load_entry (mm : memory) (values : pointer) (i : Z) : option object_entry :=
  match load mm values with
  | Some (Bobject es _ _) => read_at es i
  | _ => None
  end.

Definition set_name (p : pointer) (e : object_entry) : object_entry :=
  {| name := p; name_length := name_length e; value := value e |}.
Definition set_name_length (n : Z) (e : object_entry) : object_entry :=
  {| name := name e; name_length := n; value := value e |}.
Definition set_value (p : pointer) (e : object_entry) : object_entry :=
  {| name := name e; name_length := name_length e; value := p |}.

(** Calling the allocate capability: the call is logged, and a granted
    request appends a fresh block of the given shape. *)
Definition alloc_grants (f : alloc_fn) (log : list alloc_call) (size : Z) (zero : bool)
  (ud : Z) : bool :=
  match f with
  | default_alloc => true
  | custom_alloc grants => grants log size zero ud
  end.

Definition call_mem_alloc (f : alloc_fn) (ud : Z) (mm : memory) (size : Z) (zero : bool)
  (shape : block) : pointer * memory :=
  let log' := {| call_size := size; call_zero := zero; call_user_data := ud |} :: alloc_log mm in
  if alloc_grants f (alloc_log mm) size zero ud
  then (Pblk (length (heap mm)) 0,
        {| heap := heap mm ++ [Some shape]; alloc_log := log'; free_log := free_log mm |})
  else (nullptr, {| heap := heap mm; alloc_log := log'; free_log := free_log mm |}).

(** Calling the free capability on [p]: the call is logged; [nullptr] is
    accepted, a live block is released, anything else is undefined. *)
Definition call_mem_free (f : free_fn) (ud : Z) (mm : memory) (p : pointer) : option memory :=
  let log' := {| free_with := f; freed := p; free_user_data := ud |} :: free_log mm in
  match p with
  | Pint 0 => Some {| heap := heap mm; alloc_log := alloc_log mm; free_log := log' |}
  | Pblk a 0 =>
      match mjoin (heap mm !! a) with
      | Some _ => Some {| heap := <[a := None]> (heap mm); alloc_log := alloc_log mm;
                          free_log := log' |}
      | None => None
      end
  | _ => None
  end.

(** The blocks granted and not yet released: what a counting allocator
    would report. *)
Definition live_blocks (mm : memory) : nat :=
  length (filter (fun b => is_Some b) (heap mm)).

(** ** The error reporter

    An error text is the [sprintf] call that wrote it: the format and its
    arguments ([%d] and [%c]). *)
Inductive arg :=
| D (z : Z)
| C (c : Z).

Record message := { format : string; args : list arg }.

Definition sprintf (fmt : string) (l : list arg) : message :=
  {| format := fmt; args := l |}.

Definition dquote : string := String "034"%char EmptyString.

(** ** Parse state: [json_state] and the locals of [json::parse] *)

Record machine := {
  used_memory : Z;
  first_pass : Z;
  ptr : Z;
  cur_line : Z;
  cur_col : Z;
  top : pointer;
  root : pointer;
  alloc : pointer;
  flags : Z;
  string_ : pointer;
  string_length : Z;
  num_digits : Z;
  num_e : Z;
  num_fraction : Z;
  mem : memory
}.

Definition set_used_memory (x : Z) (m : machine) : machine :=
  {| used_memory := x; first_pass := first_pass m; ptr := ptr m; cur_line := cur_line m;
     cur_col := cur_col m; top := top m; root := root m; alloc := alloc m; flags := flags m;
     string_ := string_ m; string_length := string_length m; num_digits := num_digits m;
     num_e := num_e m; num_fraction := num_fraction m; mem := mem m |}.
Definition set_ptr (x : Z) (m : machine) : machine :=
  {| used_memory := used_memory m; first_pass := first_pass m; ptr := x; cur_line := cur_line m;
     cur_col := cur_col m; top := top m; root := root m; alloc := alloc m; flags := flags m;
     string_ := string_ m; string_length := string_length m; num_digits := num_digits m;
     num_e := num_e m; num_fraction := num_fraction m; mem := mem m |}.
Definition set_line_col (l c : Z) (m : machine) : machine :=
  {| used_memory := used_memory m; first_pass := first_pass m; ptr := ptr m; cur_line := l;
     cur_col := c; top := top m; root := root m; alloc := alloc m; flags := flags m;
     string_ := string_ m; string_length := string_length m; num_digits := num_digits m;
     num_e := num_e m; num_fraction := num_fraction m; mem := mem m |}.
Definition set_top (x : pointer) (m : machine) : machine :=
  {| used_memory := used_memory m; first_pass := first_pass m; ptr := ptr m; cur_line := cur_line m;
     cur_col := cur_col m; top := x; root := root m; alloc := alloc m; flags := flags m;
     string_ := string_ m; string_length := string_length m; num_digits := num_digits m;
     num_e := num_e m; num_fraction := num_fraction m; mem := mem m |}.
Definition set_root (x : pointer) (m : machine) : machine :=
  {| used_memory := used_memory m; first_pass := first_pass m; ptr := ptr m; cur_line := cur_line m;
     cur_col := cur_col m; top := top m; root := x; alloc := alloc m; flags := flags m;
     string_ := string_ m; string_length := string_length m; num_digits := num_digits m;
     num_e := num_e m; num_fraction := num_fraction m; mem := mem m |}.
Definition set_alloc (x : pointer) (m : machine) : machine :=
  {| used_memory := used_memory m; first_pass := first_pass m; ptr := ptr m; cur_line := cur_line m;
     cur_col := cur_col m; top := top m; root := root m; alloc := x; flags := flags m;
     string_ := string_ m; string_length := string_length m; num_digits := num_digits m;
     num_e := num_e m; num_fraction := num_fraction m; mem := mem m |}.
Definition set_flags (x : Z) (m : machine) : machine :=
  {| used_memory := used_memory m; first_pass := first_pass m; ptr := ptr m; cur_line := cur_line m;
     cur_col := cur_col m; top := top m; root := root m; alloc := alloc m; flags := x;
     string_ := string_ m; string_length := string_length m; num_digits := num_digits m;
     num_e := num_e m; num_fraction := num_fraction m; mem := mem m |}.
Definition set_string (x : pointer) (m : machine) : machine :=
  {| used_memory := used_memory m; first_pass := first_pass m; ptr := ptr m; cur_line := cur_line m;
     cur_col := cur_col m; top := top m; root := root m; alloc := alloc m; flags := flags m;
     string_ := x; string_length := string_length m; num_digits := num_digits m;
     num_e := num_e m; num_fraction := num_fraction m; mem := mem m |}.
Definition set_string_length (x : Z) (m : machine) : machine :=
  {| used_memory := used_memory m; first_pass := first_pass m; ptr := ptr m; cur_line := cur_line m;
     cur_col := cur_col m; top := top m; root := root m; alloc := alloc m; flags := flags m;
     string_ := string_ m; string_length := x; num_digits := num_digits m;
     num_e := num_e m; num_fraction := num_fraction m; mem := mem m |}.
Definition set_num_digits (x : Z) (m : machine) : machine :=
  {| used_memory := used_memory m; first_pass := first_pass m; ptr := ptr m; cur_line := cur_line m;
     cur_col := cur_col m; top := top m; root := root m; alloc := alloc m; flags := flags m;
     string_ := string_ m; string_length := string_length m; num_digits := x;
     num_e := num_e m; num_fraction := num_fraction m; mem := mem m |}.
Definition set_num_e (x : Z) (m : machine) : machine :=
  {| used_memory := used_memory m; first_pass := first_pass m; ptr := ptr m; cur_line := cur_line m;
     cur_col := cur_col m; top := top m; root := root m; alloc := alloc m; flags := flags m;
     string_ := string_ m; string_length := string_length m; num_digits := num_digits m;
     num_e := x; num_fraction := num_fraction m; mem := mem m |}.
Definition set_num_fraction (x : Z) (m : machine) : machine :=
  {| used_memory := used_memory m; first_pass := first_pass m; ptr := ptr m; cur_line := cur_line m;
     cur_col := cur_col m; top := top m; root := root m; alloc := alloc m; flags := flags m;
     string_ := string_ m; string_length := string_length m; num_digits := num_digits m;
     num_e := num_e m; num_fraction := x; mem := mem m |}.
Definition set_mem (x : memory) (m : machine) : machine :=
  {| used_memory := used_memory m; first_pass := first_pass m; ptr := ptr m; cur_line := cur_line m;
     cur_col := cur_col m; top := top m; root := root m; alloc := alloc m; flags := flags m;
     string_ := string_ m; string_length := string_length m; num_digits := num_digits m;
     num_e := num_e m; num_fraction := num_fraction m; mem := x |}.

(** ** The flag word *)

Definition flag_next : Z := Z.shiftl 1 0.
Definition flag_reproc : Z := Z.shiftl 1 1.
Definition flag_need_comma : Z := Z.shiftl 1 2.
Definition flag_seek_value : Z := Z.shiftl 1 3.
Definition flag_escaped : Z := Z.shiftl 1 4.
Definition flag_string : Z := Z.shiftl 1 5.
Definition flag_need_colon : Z := Z.shiftl 1 6.
Definition flag_done : Z := Z.shiftl 1 7.
Definition flag_num_negative : Z := Z.shiftl 1 8.
Definition flag_num_zero : Z := Z.shiftl 1 9.
Definition flag_num_e : Z := Z.shiftl 1 10.
Definition flag_num_e_got_sign : Z := Z.shiftl 1 11.
Definition flag_num_e_negative : Z := Z.shiftl 1 12.
Definition flag_line_comment : Z := Z.shiftl 1 13.
Definition flag_block_comment : Z := Z.shiftl 1 14.

(** [flags & f] as a condition, [flags | f], [flags & ~f] *)
Definition has (fl f : Z) : bool := negb (Z.land fl f =? 0).
Definition bis (fl f : Z) : Z := Z.lor fl f.
Definition bic (fl f : Z) : Z := Z.land fl (Z.lnot f).

(** ** Characters *)

Definition isdigit (b : Z) : bool := (chr "0" <=? b) && (b <=? chr "9").

Definition hex_value (c : Z) : Z :=
  if (chr "0" <=? c) && (c <=? chr "9") then c - chr "0"
  else if (c =? chr "a") || (c =? chr "A") then 10
  else if (c =? chr "b") || (c =? chr "B") then 11
  else if (c =? chr "c") || (c =? chr "C") then 12
  else if (c =? chr "d") || (c =? chr "D") then 13
  else if (c =? chr "e") || (c =? chr "E") then 14
  else if (c =? chr "f") || (c =? chr "F") then 15
  else 255.

(** The characters the building pass skips over a number. *)
Definition number_char (b : Z) : bool :=
  isdigit b || (b =? chr "+") || (b =? chr "-") || (b =? chr "e") || (b =? chr "E")
  || (b =? chr ".").

(** How control leaves a piece of the loop body. *)
Inductive flow :=
| Continue (m : machine)
| Fall (m : machine)
| Break (m : machine)
| Failed (error : message) (m : machine)
| Undefined.

Definition and_then (f : flow) (k : machine -> flow) : flow :=
  match f with
  | Fall m => k m
  | r => r
  end.

Definition defined {A} (o : option A) (k : A -> flow) : flow :=
  match o with
  | Some a => k a
  | None => Undefined
  end.

(** ** Teardown *)

Inductive result (A : Type) :=
| Ok (a : A)
| Undef
| Out_of_fuel.
Arguments Ok {A} a.
Arguments Undef {A}.
Arguments Out_of_fuel {A}.

Definition result_of {A} (o : option A) : result A :=
  match o with
  | Some a => Ok a
  | None => Undef
  end.

Definition result_bind {A B} (r : result A) (k : A -> result B) : result B :=
  match r with
  | Ok a => k a
  | Undef => Undef
  | Out_of_fuel => Out_of_fuel
  end.

(** [settings.mem_free(p, settings.user_data)] *)
Definition settings_mem_free (st : settings) (mm : memory) (p : pointer) : option memory :=
  match mem_free st with
  | Some f => call_mem_free f (user_data st) mm p
  | None => None
  end.

(** The [while (value)] loop of [json::value_free]: a container with
    children left descends into its last one, anything else releases its
    payload, then itself, and climbs to its parent. *)
Fixpoint value_free_loop (fuel : nat) (st : settings) (mm : memory) (val : pointer)
  : result memory :=
  match fuel with
  | O => Out_of_fuel
  | S fuel =>
      if is_null val then Ok mm
      else
        result_bind (result_of (load_value mm val)) (fun v =>
        let release (mm : memory) : result memory :=
          result_bind (result_of (settings_mem_free st mm val)) (fun mm =>
          value_free_loop fuel st mm (parent v)) in
        match type v with
        | json_array =>
            if u_length v =? 0 then
              result_bind (result_of (settings_mem_free st mm (u_values v))) release
            else
              let n := wrap_u32 (u_length v - 1) in
              result_bind (result_of (update_value mm val (set_length n))) (fun mm =>
              result_bind (result_of (load_cell mm (u_values v) n)) (fun child =>
              value_free_loop fuel st mm child))
        | json_object =>
            if u_length v =? 0 then
              result_bind (result_of (settings_mem_free st mm (u_values v))) release
            else
              let n := wrap_u32 (u_length v - 1) in
              result_bind (result_of (update_value mm val (set_length n))) (fun mm =>
              result_bind (result_of (load_entry mm (u_values v) n)) (fun e =>
              value_free_loop fuel st mm (value e)))
        | json_string =>
            result_bind (result_of (settings_mem_free st mm (u_values v))) release
        | _ => release mm
        end)
  end.

(** [json::value_free(settings, val)] *)
Definition value_free (st : settings) (mm : memory) (val : pointer) : result memory :=
  if is_null val then Ok mm
  else
    result_bind (result_of (update_value mm val (set_parent nullptr))) (fun mm =>
    value_free_loop (2 * length (heap mm) + 2) st mm val).

(** [json::value_free(value)]: zero settings with the default free. *)
Definition value_free_default (mm : memory) (val : pointer) : result memory :=
  value_free {| max_memory := 0; allow_comments := false; mem_alloc := None;
                mem_free := Some default_free; user_data := 0; value_extra := 0 |}
             mm val.

Section Parser.

(** [std::pow] of <cmath>, which the number state calls with base 10. *)
Variable pow : float -> float -> float.
(** [state.settings], and the buffer [json .. end) after the BOM skip. *)
Variable cfg : settings.
Variable json : list Z.

Definition end_ : Z := Z.of_nat (length json).

(** [*p]: reading outside the buffer is undefined. *)
Definition deref (p : Z) : option Z :=
  if (0 <=? p) && (p <? end_) then json !! Z.to_nat p else None.

(** ** Allocation and quota service *)

Definition json_alloc (m : machine) (size : Z) (zero : bool) (shape : block)
  : option (pointer * machine) :=
  if ulong_max - used_memory m <? size then Some (nullptr, m)
  else
    let m1 := if max_memory cfg =? 0 then m
              else set_used_memory (wrap_u64 (used_memory m + size)) m in
    if negb (max_memory cfg =? 0) && (used_memory m1 >? max_memory cfg)
    then Some (nullptr, m1)
    else
      match mem_alloc cfg with
      | Some f =>
          let '(p, mm) := call_mem_alloc f (user_data cfg) (mem m1) size zero shape in
          Some (p, set_mem mm m1)
      | None => None
      end.

Definition zero_entry : object_entry :=
  {| name := nullptr; name_length := 0; value := nullptr |}.

(** The size [new_value] asks for a shell in the counting pass:
    [sizeof(value) + value_extra], where [value] is the pointer. *)
Definition shell_bytes : Z := wrap_u64 (sizeof_value + value_extra cfg).

(** A grant of that size has room for a [json_value]: not so with the
    default [value_extra] of 0. *)
Definition shell_room : Prop := sizeof_json_value <= shell_bytes.

(** The typed cells of a payload buffer of [size] bytes: the characters of
    a string, one to the byte; the child pointers of an array, as many as
    fit. *)
Definition string_buffer (size : Z) : block := Bchars (replicate (Z.to_nat size) 0).

Definition array_buffer (size : Z) : block :=
  Bptrs (replicate (Z.to_nat (size / sizeof_value_ptr)) nullptr).

(** The buffer of an object, [size] bytes of which [new_value] takes the
    first [values_size] for the entries and the rest for the names:
    as many whole entries as lie in the first part, and the bytes from
    there to the end of the grant.  [values_size] is an [int] and may have
    come out negative: no entry has room then, and the cursor for the
    names, [values + values_size], starts before the block. *)
Definition object_buffer (values_size size : Z) : block :=
  let at_ := Z.max 0 values_size in
  Bobject (replicate (Z.to_nat (at_ / sizeof_object_entry)) zero_entry) at_
          (replicate (Z.to_nat (size - at_)) 0).

(** [new_value]: [Some (true, m)] and [Some (false, m)] are its two returns,
    [None] is undefined behaviour. *)
Definition new_value (m : machine) (ty : json_type) : option (bool * machine) :=
  if first_pass m =? 0 then
    let value := alloc m in
    v ← load_value (mem m) value;
    let m := set_alloc (_reserved v) (set_top value m) in
    let m := if is_null (root m) then set_root value m else m in
    match type v with
    | json_array =>
        if u_length v =? 0 then Some (true, m)
        else
          let size := wrap_u64 (u_length v * sizeof_value_ptr) in
          '(p, m) ← json_alloc m size false (array_buffer size);
          mm ← update_value (mem m) value (set_values p);
          if is_null p then Some (false, set_mem mm m)
          else
            mm ← update_value mm value (set_length 0);
            Some (true, set_mem mm m)
    | json_object =>
        if u_length v =? 0 then Some (true, m)
        else
          let values_size := wrap_s32 (wrap_u64 (sizeof_object_entry * u_length v)) in
          match u_values v with
          | Pint names =>
              let size := wrap_u64 (values_size + names) in
              '(p, m) ← json_alloc m size false (object_buffer values_size size);
              mm ← update_value (mem m) value (set_values p);
              if is_null p then Some (false, set_mem mm m)
              else
                mm ← update_value mm value
                       (fun v => set_length 0 (set_reserved (ptr_add p values_size) v));
                Some (true, set_mem mm m)
          | Pblk _ _ => None
          end
    | json_string =>
        let size := wrap_u64 (wrap_u32 (u_length v + 1) * 1) in
        '(p, m) ← json_alloc m size false (string_buffer size);
        mm ← update_value (mem m) value (set_values p);
        if is_null p then Some (false, set_mem mm m)
        else
          mm ← update_value mm value (set_length 0);
          Some (true, set_mem mm m)
    | _ => Some (true, m)
    end
  else
    '(value, m) ← json_alloc m shell_bytes true (Bvalue zeroed_value);
    if is_null value then Some (false, m)
    else
      let m := if is_null (root m) then set_root value m else m in
      mm ← update_value (mem m) value (fun v => set_parent (top m) (set_type ty v));
      mm ← (if is_null (alloc m) then Some mm
            else update_value mm (alloc m) (set_reserved value));
      Some (true, set_top value (set_alloc value (set_mem mm m))).

(** ** The tokenizer / builder: one iteration of the inner [for] loop *)

(** [LINE_AND_COL] *)
Definition LINE_AND_COL (m : machine) : list arg := [D (cur_line m); D (cur_col m)].

(** The labels [e_unknown_value], [e_alloc_failure] and [e_overflow] write
    their text and go to [e_failed]. *)
Definition e_unknown_value (m : machine) : flow :=
  Failed (sprintf "%d:%d: Unknown value" (LINE_AND_COL m)) m.
Definition e_alloc_failure (m : machine) : flow :=
  Failed (sprintf "Memory allocation failure" []) m.
Definition e_overflow (m : machine) : flow :=
  Failed (sprintf "%d:%d: Too long (caught overflow)" (LINE_AND_COL m)) m.

(** [WHITESPACE]: the newline case counts the line, resets the column and
    falls into the blank cases. *)
Definition WHITESPACE (b : Z) (m : machine) : option machine :=
  if b =? chr "010" then Some (set_line_col (wrap_u32 (cur_line m + 1)) 0 m)
  else if (b =? chr " ") || (b =? chr "009") || (b =? chr "013") then Some m
  else None.

(** [STRING_ADD(b)] *)
Definition STRING_ADD (m : machine) (b : Z) : option machine :=
  m ← (if first_pass m =? 0
       then mm ← store_char (mem m) (string_ m) (string_length m) b; Some (set_mem mm m)
       else Some m);
  Some (set_string_length (wrap_u32 (string_length m + 1)) m).

(** [string[string_length++] = c] for each [c] in turn (building pass) *)
Fixpoint store_chars (m : machine) (cs : list Z) : option machine :=
  match cs with
  | [] => Some m
  | c :: cs =>
      mm ← store_char (mem m) (string_ m) (string_length m) c;
      store_chars (set_string_length (wrap_u32 (string_length m + 1)) (set_mem mm m)) cs
  end.

(** The multi-byte cases of the UTF-8 encoder: the counting pass adds the
    number of bytes, the building pass writes them. *)
Definition add_utf8 (m : machine) (cs : list Z) : option machine :=
  if first_pass m =? 0 then store_chars m cs
  else Some (set_string_length (wrap_u32 (string_length m + Z.of_nat (length cs))) m).

(** Four hex digits read by pre-incrementing [state.ptr] from [p], combined as the code
    combines them: [Some (Some uchar)], or [Some None] at the first byte
    that is not a hex digit. *)
Definition read_hex4 (p : Z) : option (option Z) :=
  c1 ← deref (p + 1);
  if hex_value c1 =? 255 then Some None else
  c2 ← deref (p + 2);
  if hex_value c2 =? 255 then Some None else
  c3 ← deref (p + 3);
  if hex_value c3 =? 255 then Some None else
  c4 ← deref (p + 4);
  if hex_value c4 =? 255 then Some None else
  let uc_b1 := wrap_u8 (Z.lor (Z.shiftl (hex_value c1) 4) (hex_value c2)) in
  let uc_b2 := wrap_u8 (Z.lor (Z.shiftl (hex_value c3) 4) (hex_value c4)) in
  Some (Some (Z.lor (Z.shiftl uc_b1 8) uc_b2)).

Definition invalid_character_value (b : Z) (m : machine) : flow :=
  Failed (sprintf "Invalid character value `%c` (at %d:%d)" (C b :: LINE_AND_COL m)) m.

(** The second half of a surrogate pair: [Some (Some (uchar', m'))], or
    [Some None] for the error exit. *)
Definition surrogate (m : machine) (uchar : Z) : option (option (Z * machine)) :=
  if Z.land uchar 63488 =? 55296 then
    if end_ - ptr m <=? 6 then Some None else
    c1 ← deref (ptr m + 1);
    if negb (c1 =? chr "\") then Some None else
    c2 ← deref (ptr m + 2);
    if negb (c2 =? chr "u") then Some None else
    h ← read_hex4 (ptr m + 2);
    match h with
    | None => Some None
    | Some uchar2 =>
        Some (Some (Z.lor (Z.lor 65536 (Z.shiftl (Z.land uchar 1023) 10))
                          (Z.land uchar2 1023),
                    set_ptr (ptr m + 6) m))
    end
  else Some (Some (uchar, m)).

(** Re-encoding a code point as UTF-8 *)
Definition encode_utf8 (m : machine) (uchar : Z) : option machine :=
  if uchar <=? 127 then STRING_ADD m uchar
  else if uchar <=? 2047 then
    add_utf8 m [Z.lor 192 (Z.shiftr uchar 6); Z.lor 128 (Z.land uchar 63)]
  else if uchar <=? 65535 then
    add_utf8 m [Z.lor 224 (Z.shiftr uchar 12);
                Z.lor 128 (Z.land (Z.shiftr uchar 6) 63);
                Z.lor 128 (Z.land uchar 63)]
  else
    add_utf8 m [Z.lor 240 (Z.shiftr uchar 18);
                Z.lor 128 (Z.land (Z.shiftr uchar 12) 63);
                Z.lor 128 (Z.land (Z.shiftr uchar 6) 63);
                Z.lor 128 (Z.land uchar 63)].

(** [case 'u':] of the escape switch *)
Definition escape_u (m : machine) (b : Z) : flow :=
  if end_ - ptr m <=? 4 then invalid_character_value b m
  else
    defined (read_hex4 (ptr m)) (fun h =>
    match h with
    | None => invalid_character_value b m
    | Some uchar =>
        let m := set_ptr (ptr m + 4) m in
        defined (surrogate m uchar) (fun s =>
        match s with
        | None => invalid_character_value b m
        | Some (uchar, m) => defined (encode_utf8 m uchar) Continue
        end)
    end).

(** [if (flags & flag_escaped) { ... continue; }] *)
Definition escaped (m : machine) (b : Z) : flow :=
  let m := set_flags (bic (flags m) flag_escaped) m in
  if b =? chr "b" then defined (STRING_ADD m 8) Continue
  else if b =? chr "f" then defined (STRING_ADD m 12) Continue
  else if b =? chr "n" then defined (STRING_ADD m 10) Continue
  else if b =? chr "r" then defined (STRING_ADD m 13) Continue
  else if b =? chr "t" then defined (STRING_ADD m 9) Continue
  else if b =? chr "u" then escape_u m b
  else defined (STRING_ADD m b) Continue.

(** The closing quote: the string is terminated and committed to [top], a
    string value or the object whose member name it is. *)
Definition close_string (m : machine) : flow :=
  defined (if first_pass m =? 0
           then mm ← store_char (mem m) (string_ m) (string_length m) 0;
                Some (set_mem mm m)
           else Some m) (fun m =>
  let m := set_string nullptr (set_flags (bic (flags m) flag_string) m) in
  defined (load_value (mem m) (top m)) (fun t =>
  match type t with
  | json_string =>
      defined (update_value (mem m) (top m) (set_length (string_length m))) (fun mm =>
      Fall (set_flags (bis (flags m) flag_next) (set_mem mm m)))
  | json_object =>
      defined
        (if first_pass m =? 0
         then
           mm ← update_entry (mem m) (u_values t) (u_length t)
                  (fun e => set_name_length (string_length m) (set_name (_reserved t) e));
           update_value mm (top m)
             (fun v => set_reserved (ptr_add (_reserved v) (wrap_u32 (string_length m + 1))) v)
         else
           update_value (mem m) (top m)
             (fun v => set_values (ptr_add (u_values v) (wrap_u32 (string_length m + 1))) v))
        (fun mm =>
           Continue (set_flags (bis (flags m) (Z.lor flag_seek_value flag_need_colon))
                               (set_mem mm m)))
  | _ => Fall m
  end)).

(** [if (flags & flag_string) { ... }] *)
Definition in_string (m : machine) (b : Z) : flow :=
  if b =? 0 then
    Failed (sprintf "Unexpected EOF in string (at %d:%d)" (LINE_AND_COL m)) m
  else if string_length m >? uint_max then e_overflow m
  else if has (flags m) flag_escaped then escaped m b
  else if b =? chr "\" then Continue (set_flags (bis (flags m) flag_escaped) m)
  else if b =? chr "034" then close_string m
  else defined (STRING_ADD m b) Continue.

(** [if (state.settings.allow_comments) { ... }] *)
Definition comments (m : machine) (b : Z) : flow :=
  if has (flags m) (Z.lor flag_line_comment flag_block_comment) then
    if has (flags m) flag_line_comment then
      if (b =? chr "013") || (b =? chr "010") || (b =? 0)
      then Continue (set_ptr (ptr m - 1) (set_flags (bic (flags m) flag_line_comment) m))
      else Continue m
    else if has (flags m) flag_block_comment then
      if b =? 0 then
        Failed (sprintf "%d:%d: Unexpected EOF in block comment" (LINE_AND_COL m)) m
      else if (b =? chr "*") && (ptr m <? end_ - 1) then
        defined (deref (ptr m + 1)) (fun c =>
        if c =? chr "/"
        then Continue (set_ptr (ptr m + 1) (set_flags (bic (flags m) flag_block_comment) m))
        else Continue m)
      else Continue m
    else Fall m
  else if b =? chr "/" then
    defined (if has (flags m) (Z.lor flag_seek_value flag_done) then Some true
             else t ← load_value (mem m) (top m); Some (type_eqb (type t) json_object))
      (fun allowed =>
    if negb allowed then
      Failed (sprintf "%d:%d: Comment not allowed here" (LINE_AND_COL m)) m
    else
      let m := set_ptr (ptr m + 1) m in
      if ptr m =? end_ then
        Failed (sprintf "%d:%d: EOF unexpected" (LINE_AND_COL m)) m
      else
        defined (deref (ptr m)) (fun b =>
        if b =? chr "/" then Continue (set_flags (bis (flags m) flag_line_comment) m)
        else if b =? chr "*" then Continue (set_flags (bis (flags m) flag_block_comment) m)
        else Failed (sprintf "%d:%d: Unexpected `%c` in comment opening sequence"
                             (LINE_AND_COL m ++ [C b])) m))
  else Fall m.

(** [if (flags & flag_done) { ... }] *)
Definition done_ (m : machine) (b : Z) : flow :=
  if b =? 0 then Break m
  else
    match WHITESPACE b m with
    | Some m => Continue m
    | None => Failed (sprintf "%d:%d: Trailing garbage: `%c`" (LINE_AND_COL m ++ [C b])) m
    end.

(** The rest of a keyword, each byte read by pre-incrementing [state.ptr]:
    [Some (Some p)] when all of [cs] matched and the cursor stands at [p]. *)
Fixpoint keyword (p : Z) (cs : list Z) : option (option Z) :=
  match cs with
  | [] => Some (Some p)
  | c :: cs =>
      x ← deref (p + 1);
      if x =? c then keyword (p + 1) cs else Some None
  end.

(** The building pass steps over a number: from a number character at [p],
    with [rest] the bytes after it, to the first byte that is none (or to
    the end of the buffer). *)
Fixpoint skip_number (rest : list Z) (p : Z) : Z :=
  match rest with
  | [] => p + 1
  | b :: rest => if number_char b then skip_number rest (p + 1) else p + 1
  end.

(** A call of [new_value] followed by [goto e_alloc_failure] on [false] *)
Definition with_new_value (m : machine) (ty : json_type) (k : machine -> flow) : flow :=
  defined (new_value m ty) (fun r =>
  if fst r then k (snd r) else e_alloc_failure (snd r)).

Definition start_keyword (m : machine) (least : Z) (cs : string) (ty : json_type)
  (k : machine -> flow) : flow :=
  if end_ - ptr m <? least then e_unknown_value m
  else
    defined (keyword (ptr m) (bytes_of_string cs)) (fun r =>
    match r with
    | None => e_unknown_value m
    | Some p => with_new_value (set_ptr p m) ty k
    end).

(** [default:] of the value switch: a number, or an unexpected byte *)
Definition start_number (m : machine) (b : Z) : flow :=
  if isdigit b || (b =? chr "-") then
    with_new_value m json_integer (fun m =>
    if first_pass m =? 0 then
      let p := skip_number (drop (Z.to_nat (ptr m + 1)) json) (ptr m) in
      Fall (set_flags (bis (flags m) (Z.lor flag_next flag_reproc)) (set_ptr p m))
    else
      let m := set_flags
                 (bic (flags m)
                      (Z.lor (Z.lor (Z.lor (Z.lor flag_num_negative flag_num_e)
                                           flag_num_e_got_sign) flag_num_e_negative)
                             flag_num_zero)) m in
      let m := set_num_e 0 (set_num_fraction 0 (set_num_digits 0 m)) in
      if negb (b =? chr "-") then Fall (set_flags (bis (flags m) flag_reproc) m)
      else Continue (set_flags (bis (flags m) flag_num_negative) m))
  else
    Failed (sprintf "%d:%d: Unexpected %c when seeking value" (LINE_AND_COL m ++ [C b])) m.

(** [if (flags & flag_seek_value) { ... }] *)
Definition seek_value (m : machine) (b : Z) : flow :=
  match WHITESPACE b m with
  | Some m => Continue m
  | None =>
      if b =? chr "]" then
        defined (if is_null (top m) then Some false
                 else t ← load_value (mem m) (top m); Some (type_eqb (type t) json_array))
          (fun in_array =>
        if in_array
        then Fall (set_flags
                     (bis (bic (flags m) (Z.lor flag_need_comma flag_seek_value)) flag_next) m)
        else Failed (sprintf "%d:%d: Unexpected ]" (LINE_AND_COL m)) m)
      else if has (flags m) flag_need_comma then
        if b =? chr "," then Continue (set_flags (bic (flags m) flag_need_comma) m)
        else Failed (sprintf "%d:%d: Expected , before %c" (LINE_AND_COL m ++ [C b])) m
      else if has (flags m) flag_need_colon then
        if b =? chr ":" then Continue (set_flags (bic (flags m) flag_need_colon) m)
        else Failed (sprintf "%d:%d: Expected : before %c" (LINE_AND_COL m ++ [C b])) m
      else
        let m := set_flags (bic (flags m) flag_seek_value) m in
        if b =? chr "{" then with_new_value m json_object Continue
        else if b =? chr "[" then
          with_new_value m json_array (fun m =>
          Continue (set_flags (bis (flags m) flag_seek_value) m))
        else if b =? chr "034" then
          with_new_value m json_string (fun m =>
          defined (load_value (mem m) (top m)) (fun t =>
          Continue (set_string_length 0
                      (set_string (u_values t)
                         (set_flags (bis (flags m) flag_string) m)))))
        else if b =? chr "t" then
          start_keyword m 3 "rue" json_boolean (fun m =>
          defined (update_value (mem m) (top m) (set_boolean true)) (fun mm =>
          Fall (set_flags (bis (flags m) flag_next) (set_mem mm m))))
        else if b =? chr "f" then
          start_keyword m 4 "alse" json_boolean (fun m =>
          Fall (set_flags (bis (flags m) flag_next) m))
        else if b =? chr "n" then
          start_keyword m 3 "ull" json_null (fun m =>
          Fall (set_flags (bis (flags m) flag_next) m))
        else start_number m b
  end.

(** [case json_object:] of the switch on [top->type] *)
Definition in_object (m : machine) (t : json_value) (b : Z) : flow :=
  match WHITESPACE b m with
  | Some m => Continue m
  | None =>
      if b =? chr "034" then
        if has (flags m) flag_need_comma then
          Failed (sprintf ("%d:%d: Expected , before " ++ dquote) (LINE_AND_COL m)) m
        else
          Fall (set_string_length 0
                  (set_string (_reserved t) (set_flags (bis (flags m) flag_string) m)))
      else if b =? chr "}" then
        Fall (set_flags (bis (bic (flags m) flag_need_comma) flag_next) m)
      else if (b =? chr ",") && has (flags m) flag_need_comma then
        Fall (set_flags (bic (flags m) flag_need_comma) m)
      else
        Failed (sprintf "%d:%d: Unexpected `%c` in object" (LINE_AND_COL m ++ [C b])) m
  end.

(** The end of a number: the deferred sign, then [flag_next | flag_reproc]. *)
Definition finish_number (m : machine) : flow :=
  defined
    (if has (flags m) flag_num_negative then
       update_value (mem m) (top m)
         (fun v => if type_eqb (type v) json_integer
                   then set_integer (wrap_s64 (- u_integer v)) v
                   else set_dbl (PrimFloat.opp (u_dbl v)) v)
     else Some (mem m))
    (fun mm => Fall (set_flags (bis (flags m) (Z.lor flag_next flag_reproc)) (set_mem mm m))).

(** [case json_integer: case json_double:] of the switch on [top->type] *)
Definition in_number (m : machine) (t : json_value) (b : Z) : flow :=
  if isdigit b then
    let m := set_num_digits (wrap_s64 (num_digits m + 1)) m in
    if type_eqb (type t) json_integer || has (flags m) flag_num_e then
      if negb (has (flags m) flag_num_e) then
        if has (flags m) flag_num_zero then
          Failed (sprintf "%d:%d: Unexpected `0` before `%c`" (LINE_AND_COL m ++ [C b])) m
        else
          let m := if (num_digits m =? 1) && (b =? chr "0")
                   then set_flags (bis (flags m) flag_num_zero) m else m in
          defined (update_value (mem m) (top m)
                     (fun v => set_integer (wrap_s64 (u_integer v * 10 + (b - chr "0"))) v))
                  (fun mm => Continue (set_mem mm m))
      else
        Continue (set_num_e (wrap_s64 (num_e m * 10 + (b - chr "0")))
                    (set_flags (bis (flags m) flag_num_e_got_sign) m))
    else
      Continue (set_num_fraction (wrap_s64 (num_fraction m * 10 + (b - chr "0"))) m)
  else
    let after_sign_and_point (m : machine) (t : json_value) : flow :=
      if negb (has (flags m) flag_num_e) then
        and_then
          (if type_eqb (type t) json_double then
             if num_digits m =? 0 then
               Failed (sprintf "%d:%d: Expected digit after `.`" (LINE_AND_COL m)) m
             else
               defined (update_value (mem m) (top m)
                          (fun v => set_dbl
                             (PrimFloat.add (u_dbl v)
                                (PrimFloat.div (double_of_int64 (num_fraction m))
                                   (pow 10%float (double_of_int64 (num_digits m))))) v))
                       (fun mm => Fall (set_mem mm m))
           else Fall m)
          (fun m =>
           if (b =? chr "e") || (b =? chr "E") then
             let m := set_flags (bis (flags m) flag_num_e) m in
             defined (if type_eqb (type t) json_integer
                      then update_value (mem m) (top m)
                             (fun v => set_dbl (double_of_int64 (u_integer v))
                                         (set_type json_double v))
                      else Some (mem m))
                     (fun mm =>
                        Continue (set_flags (bic (flags m) flag_num_zero)
                                    (set_num_digits 0 (set_mem mm m))))
           else finish_number m)
      else
        if num_digits m =? 0 then
          Failed (sprintf "%d:%d: Expected digit after `e`" (LINE_AND_COL m)) m
        else
          defined (update_value (mem m) (top m)
                     (fun v => set_dbl
                        (PrimFloat.mul (u_dbl v)
                           (pow 10%float
                              (double_of_int64
                                 (if has (flags m) flag_num_e_negative
                                  then wrap_s64 (- num_e m) else num_e m)))) v))
                  (fun mm => finish_number (set_mem mm m)) in
    if (b =? chr "+") || (b =? chr "-") then
      if has (flags m) flag_num_e && negb (has (flags m) flag_num_e_got_sign) then
        let m := set_flags (bis (flags m) flag_num_e_got_sign) m in
        Continue (if b =? chr "-" then set_flags (bis (flags m) flag_num_e_negative) m else m)
      else after_sign_and_point m t
    else if (b =? chr ".") && type_eqb (type t) json_integer then
      if num_digits m =? 0 then
        Failed (sprintf "%d:%d: Expected digit before `.`" (LINE_AND_COL m)) m
      else
        defined (update_value (mem m) (top m)
                   (fun v => set_dbl (double_of_int64 (u_integer v)) (set_type json_double v)))
                (fun mm => Continue (set_num_digits 0 (set_mem mm m)))
    else after_sign_and_point m t.

(** The [else] of the seek-value test: [switch (top->type)] *)
Definition in_value (m : machine) (b : Z) : flow :=
  defined (load_value (mem m) (top m)) (fun t =>
  match type t with
  | json_object => in_object m t b
  | json_integer | json_double => in_number m t b
  | _ => Fall m
  end).

(** The end of the loop body: [flag_reproc], then [flag_next], which links
    the finished value into its parent and climbs. *)
Definition next (m : machine) : flow :=
  let m := if has (flags m) flag_reproc
           then set_ptr (ptr m - 1) (set_flags (bic (flags m) flag_reproc) m) else m in
  if has (flags m) flag_next then
    let m := set_flags (bis (bic (flags m) flag_next) flag_need_comma) m in
    defined (load_value (mem m) (top m)) (fun t =>
    if is_null (parent t) then Continue (set_flags (bis (flags m) flag_done) m)
    else
      defined (load_value (mem m) (parent t)) (fun p =>
      let m := if type_eqb (type p) json_array
               then set_flags (bis (flags m) flag_seek_value) m else m in
      defined
        (if first_pass m =? 0 then
           match type p with
           | json_object => update_entry (mem m) (u_values p) (u_length p) (set_value (top m))
           | json_array => store_cell (mem m) (u_values p) (u_length p) (top m)
           | _ => Some (mem m)
           end
         else Some (mem m))
        (fun mm =>
      let n := wrap_u32 (u_length p + 1) in
      defined (update_value mm (parent t) (set_length n)) (fun mm =>
      let m := set_mem mm m in
      if n >? uint_max then e_overflow m
      else Continue (set_top (parent t) m)))))
  else Continue m.

(** The body of [for (state.ptr = json;; ++state.ptr)] *)
Definition iteration (m : machine) : flow :=
  defined (if ptr m =? end_ then Some 0 else deref (ptr m)) (fun b =>
  and_then (if has (flags m) flag_string then in_string m b else Fall m) (fun m =>
  and_then (if allow_comments cfg then comments m b else Fall m) (fun m =>
  and_then (if has (flags m) flag_done then done_ m b else Fall m) (fun m =>
  and_then (if has (flags m) flag_seek_value then seek_value m b else in_value m b)
  next)))).

(** How one pass ends. *)
Inductive pass_end :=
| Pass_done (m : machine)
| Pass_failed (error : message) (m : machine)
| Pass_undefined
| Pass_out_of_fuel.

Fixpoint pass (fuel : nat) (m : machine) : pass_end :=
  match fuel with
  | O => Pass_out_of_fuel
  | S fuel =>
      match iteration m with
      | Continue m | Fall m => pass fuel (set_ptr (ptr m + 1) m)
      | Break m => Pass_done m
      | Failed e m => Pass_failed e m
      | Undefined => Pass_undefined
      end
  end.

(** The head of the outer loop: the locals as each pass starts with them. *)
Definition start_pass (first : Z) (m : machine) : machine :=
  {| used_memory := used_memory m; first_pass := first; ptr := 0; cur_line := 1;
     cur_col := cur_col m; top := nullptr; root := nullptr; alloc := alloc m;
     flags := flag_seek_value; string_ := nullptr; string_length := 0; num_digits := 0;
     num_e := 0; num_fraction := 0; mem := mem m |}.

(** [json_state state = {0}] and [alloc = nullptr], over the memory [mm] *)
Definition initial (mm : memory) : machine :=
  {| used_memory := 0; first_pass := 1; ptr := 0; cur_line := 0; cur_col := 0;
     top := nullptr; root := nullptr; alloc := nullptr; flags := 0; string_ := nullptr;
     string_length := 0; num_digits := 0; num_e := 0; num_fraction := 0; mem := mm |}.

(** Every byte is looked at twice at most (a reprocessed byte), and once
    more at the end of the buffer. *)
Definition pass_fuel : nat := 2 * length json + 4.

(** What [json::parse] gives back: the root with the memory it lives in, or
    [nullptr] with the text copied to [error_buf] (when there is one). *)
Inductive parsed :=
| Tree (root : pointer) (mm : memory)
| No_tree (error_buf : option message) (mm : memory)
| Undefined_behaviour
| Fuel_exhausted.

(** The [while (alloc)] loop of [e_failed] *)
Fixpoint free_chain (fuel : nat) (mm : memory) (a : pointer) : result memory :=
  match fuel with
  | O => Out_of_fuel
  | S fuel =>
      if is_null a then Ok mm
      else
        result_bind (result_of (load_value mm a)) (fun v =>
        result_bind (result_of (settings_mem_free cfg mm a)) (fun mm =>
        free_chain fuel mm (_reserved v)))
  end.

(** [e_failed:] *)
Definition e_failed (error_buf : bool) (error : message) (m : machine) : parsed :=
  let text := if error_buf
              then Some (if (format error =? EmptyString)%string
                         then sprintf "Unknown error" [] else error)
              else None in
  let a := if negb (first_pass m =? 0) then root m else alloc m in
  match free_chain (S (length (heap (mem m)))) (mem m) a with
  | Ok mm =>
      if first_pass m =? 0 then
        match value_free cfg mm (root m) with
        | Ok mm => No_tree text mm
        | Undef => Undefined_behaviour
        | Out_of_fuel => Fuel_exhausted
        end
      else No_tree text mm
  | Undef => Undefined_behaviour
  | Out_of_fuel => Fuel_exhausted
  end.

(** The two passes and the return *)
Definition two_passes (error_buf : bool) (mm : memory) : parsed :=
  match pass pass_fuel (start_pass 1 (initial mm)) with
  | Pass_done m =>
      match pass pass_fuel (start_pass 0 (set_alloc (root m) m)) with
      | Pass_done m => Tree (root m) (mem m)
      | Pass_failed e m => e_failed error_buf e m
      | Pass_undefined => Undefined_behaviour
      | Pass_out_of_fuel => Fuel_exhausted
      end
  | Pass_failed e m => e_failed error_buf e m
  | Pass_undefined => Undefined_behaviour
  | Pass_out_of_fuel => Fuel_exhausted
  end.

End Parser.

(** ** The entry points *)

(** "Skip UTF-8 BOM" *)
Definition skip_bom (json : list Z) : list Z :=
  match json with
  | b0 :: b1 :: b2 :: rest =>
      if (b0 =? 239) && (b1 =? 187) && (b2 =? 191) then rest else json
  | _ => json
  end.

(** [state.settings]: the caller's settings with the two null capabilities
    replaced by the defaults. *)
Definition state_settings (st : settings) : settings :=
  {| max_memory := max_memory st; allow_comments := allow_comments st;
     mem_alloc := Some (default default_alloc (mem_alloc st));
     mem_free := Some (default default_free (mem_free st));
     user_data := user_data st; value_extra := value_extra st |}.

(** [json::parse(settings, json, length, error_buf)], started in the memory
    [mm]; [error_buf] tells whether the caller passed a buffer. *)
Definition parse_in (pow : float -> float -> float) (mm : memory) (st : settings)
  (json : list Z) (error_buf : bool) : parsed :=
  two_passes pow (state_settings st) (skip_bom json) error_buf mm.

Definition parse_ex (pow : float -> float -> float) (st : settings) (json : list Z) : parsed :=
  parse_in pow empty_memory st json true.

(** [json::parse(json, length)] *)
Definition parse (pow : float -> float -> float) (json : list Z) : parsed :=
  parse_in pow empty_memory zero_settings json false.

(** ** Reading a finished tree back

    What a caller sees through the public [json::value] view: the type tag
    and the payload of each node, children in slot order. *)
Inductive tree :=
| Tnull
| Tboolean (b : bool)
| Tinteger (z : Z)
| Tdouble (d : float)
| Tstring (s : list Z)
| Tarray (l : list tree)
| Tobject (l : list (list Z * tree)).

(** [n] chars from the char pointer [p] *)
Definition read_chars (mm : memory) (p : pointer) (n : Z) : option (list Z) :=
  match p with
  | Pblk a off =>
      match mjoin (heap mm !! a) with
      | Some (Bchars cs) =>
          if (0 <=? off) && (off + n <=? Z.of_nat (length cs))
          then Some (take (Z.to_nat n) (drop (Z.to_nat off) cs)) else None
      | Some (Bobject _ at_ ns) =>
          if (0 <=? off - at_) && (off - at_ + n <=? Z.of_nat (length ns))
          then Some (take (Z.to_nat n) (drop (Z.to_nat (off - at_)) ns)) else None
      | _ => None
      end
  | Pint _ => None
  end.

Fixpoint read_tree (fuel : nat) (mm : memory) (p : pointer) : option tree :=
  match fuel with
  | O => None
  | S fuel =>
      v ← load_value mm p;
      match type v with
      | json_null => Some Tnull
      | json_boolean => Some (Tboolean (u_boolean v))
      | json_integer => Some (Tinteger (u_integer v))
      | json_double => Some (Tdouble (u_dbl v))
      | json_string => s ← read_chars mm (u_values v) (u_length v); Some (Tstring s)
      | json_array =>
          if u_length v =? 0 then Some (Tarray [])
          else
            match load mm (u_values v) with
            | Some (Bptrs cells) =>
                l ← mapM (read_tree fuel mm) (take (Z.to_nat (u_length v)) cells);
                Some (Tarray l)
            | _ => None
            end
      | json_object =>
          if u_length v =? 0 then Some (Tobject [])
          else
            match load mm (u_values v) with
            | Some (Bobject es _ _) =>
                l ← mapM (fun e =>
                            k ← read_chars mm (name e) (name_length e);
                            t ← read_tree fuel mm (value e);
                            Some (k, t))
                         (take (Z.to_nat (u_length v)) es);
                Some (Tobject l)
            | _ => None
            end
      | json_none => None
      end
  end.

(** The tree a parse returned, read back; [None] when it returned none. *)
Definition parsed_tree (r : parsed) : option tree :=
  match r with
  | Tree root mm => read_tree (length (heap mm)) mm root
  | _ => None
  end.

(** [std::pow] is outside the repository; where a statement needs one
    that computes, this is it: powers of the base by repeated
    multiplication, for an exponent that is a whole number. *)
Fixpoint pow_nat (x : float) (n : nat) : float :=
  match n with
  | O => 1%float
  | S n => PrimFloat.mul x (pow_nat x n)
  end.

Definition pow_whole (x y : float) : float :=
  match Prim2SF (PrimFloat.abs y) with
  | S754_finite _ mnt e =>
      let n := Z.to_nat (Z.shiftl (Z.pos mnt) e) in
      if PrimFloat.ltb y 0%float then PrimFloat.div 1%float (pow_nat x n) else pow_nat x n
  | _ => 1%float
  end.

(** JSON text written with ['] standing for the double quote. *)
Definition json_text (s : string) : list Z :=
  map (fun b => if b =? chr "'" then chr "034" else b) (bytes_of_string s).

(** The bytes the tokenizer skips as whitespace. *)
Definition is_whitespace (b : Z) : bool :=
  (b =? chr "010") || (b =? chr " ") || (b =? chr "009") || (b =? chr "013").

(** A [\uXXXX] escape, and a string literal around a body. *)
Definition u_escape (hex : string) : list Z := chr "\" :: chr "u" :: bytes_of_string hex.
Definition quoted (body : list Z) : list Z := chr "034" :: body ++ [chr "034"].

(** What the caller of a failed parse has: the text in its error buffer,
    and, counting grants and releases, the blocks still allocated. *)
Definition failure (r : parsed) : option (option message * nat) :=
  match r with
  | No_tree e mm => Some (e, live_blocks mm)
  | _ => None
  end.

(** The UTF-8 byte-order mark *)
Definition bom : list Z := [239; 187; 191].

Definition settings_with_ceiling (ceiling : Z) : settings :=
  {| max_memory := ceiling; allow_comments := false; mem_alloc := None; mem_free := None;
     user_data := 0; value_extra := 0 |}.

(** An allocate capability that refuses its [n]-th call (counting from 0)
    and grants every other, paired with a custom free. *)
Definition settings_failing_at (n : nat) : settings :=
  {| max_memory := 0; allow_comments := false;
     mem_alloc := Some (custom_alloc (fun log _ _ _ => negb (length log =? n)%nat));
     mem_free := Some custom_free; user_data := 0; value_extra := 0 |}.

(** Every JSON value holds a digit, a quote, a bracket, a brace or a letter
    of [true], [false] or [null]; a text with none of these bytes holds no
    value. *)
Definition holds_value_byte (json : list Z) : bool :=
  existsb (fun b => isdigit b || (b =? chr "034") || (b =? chr "[") || (b =? chr "{")
                    || (b =? chr "t") || (b =? chr "f") || (b =? chr "n")) json.

(** ** The two passes compared: what is kept in step *)

(** A shell at address [a] *)
Definition shell (mm : memory) (a : addr) (v : json_value) : Prop :=
  heap mm !! a = Some (Some (Bvalue v)).

(** The flags of the number state ([flag_num_negative] .. [flag_num_e_negative]),
    and a flag word without them: the building pass never sets them, and
    nothing outside the number state reads them. *)
Definition numeric_flags : Z := 7936.
Definition ctl (fl : Z) : Z := Z.land fl (Z.lnot numeric_flags).

(** An integer shell may become a double one; no other type changes. *)
Definition type_le (t1 t2 : json_type) : Prop :=
  t1 = t2 \/ (t1 = json_integer /\ t2 = json_double).

Definition is_number (t : json_type) : bool :=
  type_eqb t json_integer || type_eqb t json_double.

Definition is_container (t : json_type) : bool :=
  type_eqb t json_array || type_eqb t json_object.

(** The byte count kept in [u.object.values] during the counting pass *)
Definition names_of (v : json_value) : Z :=
  match u_values v with
  | Pint z => z
  | Pblk _ _ => 0
  end.

(** [v'] is a later state of the shell [v] in the counting pass. *)
Definition value_le (v v' : json_value) : Prop :=
  parent v' = parent v
  /\ type_le (type v) (type v')
  /\ u_length v <= u_length v'
  /\ (exists z z', u_values v = Pint z /\ u_values v' = Pint z' /\ z <= z').

Definition heap_le (mm mm' : memory) : Prop :=
  (length (heap mm) <= length (heap mm'))%nat
  /\ forall a v, shell mm a v -> exists v', shell mm' a v' /\ value_le v v'.

(** [c] is [t] or one of its ancestors. *)
Inductive on_stack (mm : memory) : pointer -> addr -> Prop :=
| on_stack_top a : on_stack mm (Pblk a 0) a
| on_stack_up a v c : shell mm a v -> on_stack mm (parent v) c -> on_stack mm (Pblk a 0) c.

(** *** The counting pass between two iterations *)

Definition value_wf (mm : memory) (a : addr) (v : json_value) : Prop :=
  ((a = 0%nat /\ parent v = nullptr) \/
   exists p vp, parent v = Pblk p 0 /\ (p < a)%nat /\ shell mm p vp
                /\ is_container (type vp) = true)
  /\ 0 <= u_length v <= uint_max
  /\ (exists z, u_values v = Pint z /\ 0 <= z)
  /\ _reserved v = (if (S a <? length (heap mm))%nat then Pblk (S a) 0 else nullptr).

(** In the counting pass every block is a shell, and the shells are
    chained through [_reserved.next_alloc] in the order of their
    addresses. *)
Definition heap_wf (mm : memory) : Prop :=
  (forall a, (a < length (heap mm))%nat -> exists v, shell mm a v)
  /\ (forall a v, shell mm a v -> value_wf mm a v).

Definition top_is (m : machine) (P : json_value -> Prop) : Prop :=
  exists a v, top m = Pblk a 0 /\ shell (mem m) a v /\ P v.

Definition no_comment (fl : Z) : Prop :=
  has fl flag_line_comment = false /\ has fl flag_block_comment = false.

(** The part of the invariant that does not depend on where the tokenizer
    stands: it also holds in the middle of an iteration. *)
Record base_inv (cfg : settings) (m : machine) : Prop := {
  bi_first : first_pass m = 1;
  bi_heap : heap_wf (mem m);
  bi_ptrs :
    (heap (mem m) = [] /\ top m = nullptr /\ root m = nullptr /\ alloc m = nullptr)
    \/ (heap (mem m) <> [] /\ root m = Pblk 0%nat 0
        /\ alloc m = Pblk (length (heap (mem m)) - 1)%nat 0 /\ top_is m (fun _ => True));
  bi_length : 0 <= string_length m;
  bi_comments : allow_comments cfg = false -> no_comment (flags m)
}.

(** The flags against the type of [top], between two iterations. *)
Record flags_inv (m : machine) : Prop := {
  fi_clean : has (flags m) flag_next = false /\ has (flags m) flag_reproc = false;
  fi_done :
    has (flags m) flag_done = true ->
    has (flags m) flag_string = false /\ top_is m (fun v => parent v = nullptr);
  fi_seek :
    has (flags m) flag_seek_value = true -> has (flags m) flag_done = false ->
    has (flags m) flag_string = false
    /\ (top m = nullptr \/ top_is m (fun v => is_container (type v) = true));
  fi_string :
    has (flags m) flag_string = true ->
    has (flags m) flag_seek_value = false /\ has (flags m) flag_done = false
    /\ no_comment (flags m)
    /\ top_is m (fun v => (type v = json_string /\ u_length v = 0)
                          \/ type v = json_object);
  fi_value :
    has (flags m) flag_seek_value = false -> has (flags m) flag_done = false ->
    has (flags m) flag_string = false ->
    top_is m (fun v => type v = json_object)
    \/ (top_is m (fun v => is_number (type v) = true) /\ no_comment (flags m))
}.

Definition counting_inv (cfg : settings) (m : machine) : Prop :=
  base_inv cfg m /\ flags_inv m.

(** The container at [a], with [n] members so far, has one more member
    under way in the state [m]: its value is being sought, or is open on
    the stack, or has just been counted. *)
Definition pending (m : machine) (a : addr) (n : Z) : Prop :=
  (has (flags m) flag_seek_value = true /\ has (flags m) flag_done = false
   /\ top m = Pblk a 0
   /\ exists v, shell (mem m) a v /\ type v = json_object /\ n <= u_length v)
  \/ (has (flags m) flag_done = false
      /\ exists c vc v, on_stack (mem m) (top m) c /\ shell (mem m) c vc
                        /\ parent vc = Pblk a 0 /\ shell (mem m) a v /\ n <= u_length v)
  \/ (exists v, shell (mem m) a v /\ n + 1 <= u_length v).

(** What one or more steps of the counting pass do to the counts, from
    the state [m] to the later state [m']. *)
Record step_facts (m m' : machine) : Prop := {
  sf_heap : heap_le (mem m) (mem m');
  sf_string :
    has (flags m) flag_string = true ->
    forall a v, top m = Pblk a 0 -> shell (mem m) a v -> type v = json_string ->
    (has (flags m') flag_string = true /\ top m' = top m
     /\ string_length m <= string_length m')
    \/ (exists v', shell (mem m') a v' /\ string_length m <= u_length v');
  sf_name :
    has (flags m) flag_string = true -> has (flags m) flag_done = false ->
    forall a v, top m = Pblk a 0 -> shell (mem m) a v -> type v = json_object ->
    (has (flags m') flag_string = true /\ has (flags m') flag_done = false
     /\ top m' = top m /\ string_length m <= string_length m' /\ shell (mem m') a v)
    \/ ((exists v', shell (mem m') a v'
                    /\ names_of v + string_length m + 1 <= names_of v')
        /\ pending m' a (u_length v));
  sf_pending :
    has (flags m) flag_seek_value = true -> has (flags m) flag_done = false ->
    forall a v, top m = Pblk a 0 -> shell (mem m) a v -> type v = json_object ->
    pending m' a (u_length v);
  sf_stack :
    has (flags m) flag_done = false ->
    forall c vc p vp, on_stack (mem m) (top m) c -> shell (mem m) c vc ->
    parent vc = Pblk p 0 -> shell (mem m) p vp ->
    pending m' p (u_length vp)
}.

(** What the rest of a counting pass that ends with the memory [hf] will
    have added to the counts of the state [m]. *)
Record future (hf : memory) (m : machine) : Prop := {
  fu_heap : heap_le (mem m) hf;
  fu_string :
    has (flags m) flag_string = true ->
    forall a v, top m = Pblk a 0 -> shell (mem m) a v -> type v = json_string ->
    exists vf, shell hf a vf /\ string_length m <= u_length vf;
  fu_name :
    has (flags m) flag_string = true -> has (flags m) flag_done = false ->
    forall a v, top m = Pblk a 0 -> shell (mem m) a v -> type v = json_object ->
    exists vf, shell hf a vf
               /\ names_of v + string_length m + 1 <= names_of vf
               /\ u_length v + 1 <= u_length vf;
  fu_pending :
    forall a n, pending m a n -> exists vf, shell hf a vf /\ n + 1 <= u_length vf
}.

(** *** Escapes, decoded without the machine *)

Inductive decoded :=
| Dec_ok (cs : list Z) (d : Z)
| Dec_bad (d : Z)
| Dec_undef.

(** The bytes [encode_utf8] adds for a code point *)
Definition utf8_bytes (uchar : Z) : list Z :=
  if uchar <=? 127 then [uchar]
  else if uchar <=? 2047 then [Z.lor 192 (Z.shiftr uchar 6); Z.lor 128 (Z.land uchar 63)]
  else if uchar <=? 65535 then
    [Z.lor 224 (Z.shiftr uchar 12);
     Z.lor 128 (Z.land (Z.shiftr uchar 6) 63);
     Z.lor 128 (Z.land uchar 63)]
  else
    [Z.lor 240 (Z.shiftr uchar 18);
     Z.lor 128 (Z.land (Z.shiftr uchar 12) 63);
     Z.lor 128 (Z.land (Z.shiftr uchar 6) 63);
     Z.lor 128 (Z.land uchar 63)].

(** What the escape switch does with the byte [b] at [p]: the bytes to add
    and how far the cursor moves, or the error exit, with the cursor where
    the code left it. *)
Definition decode_escape (json : list Z) (p : Z) (b : Z) : decoded :=
  if b =? chr "b" then Dec_ok [8] 0
  else if b =? chr "f" then Dec_ok [12] 0
  else if b =? chr "n" then Dec_ok [10] 0
  else if b =? chr "r" then Dec_ok [13] 0
  else if b =? chr "t" then Dec_ok [9] 0
  else if b =? chr "u" then
    if end_ json - p <=? 4 then Dec_bad 0
    else
      match read_hex4 json p with
      | None => Dec_undef
      | Some None => Dec_bad 0
      | Some (Some uchar) =>
          if Z.land uchar 63488 =? 55296 then
            if end_ json - (p + 4) <=? 6 then Dec_bad 4
            else
              match deref json (p + 4 + 1) with
              | None => Dec_undef
              | Some c1 =>
                  if negb (c1 =? chr "\") then Dec_bad 4
                  else
                    match deref json (p + 4 + 2) with
                    | None => Dec_undef
                    | Some c2 =>
                        if negb (c2 =? chr "u") then Dec_bad 4
                        else
                          match read_hex4 json (p + 4 + 2) with
                          | None => Dec_undef
                          | Some None => Dec_bad 4
                          | Some (Some uchar2) =>
                              Dec_ok (utf8_bytes
                                        (Z.lor (Z.lor 65536 (Z.shiftl (Z.land uchar 1023) 10))
                                               (Z.land uchar2 1023)))
                                     (4 + 6)
                          end
                    end
              end
          else Dec_ok (utf8_bytes uchar) 4
      end
  else Dec_ok [b] 0.

(** Two machines with the same memory and the same pointers into it *)
Definition same_core (m m' : machine) : Prop :=
  first_pass m' = first_pass m /\ mem m' = mem m /\ top m' = top m
  /\ root m' = root m /\ alloc m' = alloc m.

(** The counts of a shell are unchanged ([_reserved] and the scalar
    payload may differ). *)
Definition same_counts (v v' : json_value) : Prop :=
  parent v' = parent v /\ type v' = type v /\ u_length v' = u_length v
  /\ u_values v' = u_values v.

(** The state handed to the end of the loop body when a value has just
    been completed. *)
Record next_ready (cfg : settings) (m : machine) : Prop := {
  nr_base : base_inv cfg m;
  nr_next : has (flags m) flag_next = true;
  nr_string : has (flags m) flag_string = false;
  nr_done : has (flags m) flag_done = false;
  nr_seek : has (flags m) flag_seek_value = false;
  nr_top : top_is m (fun _ => True)
}.

(** [m'] is [m] but for the memory and the byte counter. *)
Definition same_locals (m m' : machine) : Prop :=
  first_pass m' = first_pass m /\ ptr m' = ptr m /\ cur_line m' = cur_line m
  /\ cur_col m' = cur_col m /\ top m' = top m /\ root m' = root m /\ alloc m' = alloc m
  /\ flags m' = flags m /\ string_ m' = string_ m /\ string_length m' = string_length m
  /\ num_digits m' = num_digits m /\ num_e m' = num_e m /\ num_fraction m' = num_fraction m.

(** What one stage of the loop body, run to the end of the body, does in
    the counting pass: it fails, or it leaves a state that satisfies the
    invariant again. *)
Definition counting_step (cfg : settings) (m : machine) (f : flow) : Prop :=
  match f with
  | Continue m' => counting_inv cfg m' /\ step_facts m m'
  | Failed _ _ | Undefined => True
  | Fall _ | Break _ => False
  end.

(** [v'] is the shell [v] after a scalar has been written to it: the links
    and the counts are kept, an integer may have become a double. *)
Definition kept (v v' : json_value) : Prop :=
  parent v' = parent v /\ u_length v' = u_length v /\ u_values v' = u_values v
  /\ _reserved v' = _reserved v /\ type_le (type v) (type v').

(** The state [m] inside the number state that was entered at [m0]: only
    the scalars of the number on top and the flags of the number state have
    changed. *)
Definition number_state (cfg : settings) (m0 m : machine) : Prop :=
  base_inv cfg m /\ heap_le (mem m0) (mem m) /\ top m = top m0
  /\ top_is m (fun v => is_number (type v) = true)
  /\ ctl (flags m) = ctl (flags m0)
  /\ ptr m = ptr m0 /\ string_length m = string_length m0
  /\ length (heap (mem m)) = length (heap (mem m0))
  /\ (forall a v', shell (mem m) a v' -> exists v, shell (mem m0) a v /\ kept v v').

(** An update of a number that keeps it a number *)
Definition keeps_number (f : json_value -> json_value) : Prop :=
  forall v, is_number (type v) = true -> kept v (f v) /\ is_number (type (f v)) = true.

(** The flags that the invariant reads are unchanged. *)
Definition same_atoms (f f' : Z) : Prop :=
  has f' flag_next = has f flag_next /\ has f' flag_reproc = has f flag_reproc
  /\ has f' flag_done = has f flag_done /\ has f' flag_seek_value = has f flag_seek_value
  /\ has f' flag_string = has f flag_string
  /\ has f' flag_line_comment = has f flag_line_comment
  /\ has f' flag_block_comment = has f flag_block_comment.

(** ** The building pass against the counting pass *)

(** The payload of the shell [v2] of the building pass, against the shell
    [v1] of the counting pass at the same point of the input and the final
    counts [vF]: the buffer has the final size, the fill cursor stands at
    the running count. *)
Definition buffer_ok (mm2 : memory) (v1 v2 vF : json_value) : Prop :=
  match type vF with
  | json_string =>
      u_length v2 = u_length v1
      /\ exists (b : addr) cs, u_values v2 = Pblk b 0 /\ heap mm2 !! b = Some (Some (Bchars cs))
                      /\ Z.of_nat (length cs) = u_length vF + 1
  | json_array =>
      u_length v2 = u_length v1
      /\ (u_length vF = 0
          \/ exists (b : addr) cells, u_values v2 = Pblk b 0
                             /\ heap mm2 !! b = Some (Some (Bptrs cells))
                             /\ Z.of_nat (length cells) = u_length vF)
  | json_object =>
      u_length v2 = u_length v1
      /\ (u_length vF = 0
          \/ exists (b : addr) es at_ ns, u_values v2 = Pblk b 0
                                 /\ heap mm2 !! b = Some (Some (Bobject es at_ ns))
                                 /\ Z.of_nat (length es) = u_length vF
                                 /\ Z.of_nat (length ns) = names_of vF
                                 /\ _reserved v2 = Pblk b (at_ + names_of v1))
  | _ => True
  end.

(** The sizes that [new_value] computes for the buffer of the object [v]
    come out as they are meant: [values_size], an [int], holds the size of
    [length] entries, and its sum with the bytes of the names fits the
    [unsigned long] that is passed on.  An object of 89478486 members is
    the first for which it does not. *)
Definition int_max : Z := 2 ^ 31 - 1.

Definition entries_fit (v : json_value) : bool :=
  negb (type_eqb (type v) json_object)
  || ((sizeof_object_entry * u_length v <=? int_max)
      && (sizeof_object_entry * u_length v + names_of v <? 2 ^ 64)).

(** The same of every object that the counting pass has left in [mm]. *)
Definition objects_fit (mm : memory) : bool :=
  forallb (fun b => match b with
                    | Some (Bvalue v) => entries_fit v
                    | _ => true
                    end) (heap mm).

(** The memory [mm2] of the building pass against the memory [mm1] of the
    counting pass at the same point of the input, [hf] being the memory the
    counting pass ended with: the shells not yet visited are as the counting
    pass left them, the visited ones have their buffers. *)
Definition built (hf mm1 mm2 : memory) : Prop :=
  (length (heap mm1) <= length (heap hf) <= length (heap mm2))%nat
  /\ (forall a vF, shell hf a vF -> (length (heap mm1) <= a)%nat -> shell mm2 a vF)
  /\ (forall a v1, shell mm1 a v1 ->
        exists v2 vF, shell mm2 a v2 /\ shell hf a vF
                      /\ parent v2 = parent v1 /\ type v2 = type vF
                      /\ buffer_ok mm2 v1 v2 vF).

(** The state [m2] of the building pass against the state [m1] of the
    counting pass at the same point of the input. *)
Definition paired (hf : memory) (m1 m2 : machine) : Prop :=
  first_pass m2 = 0 /\ ptr m2 = ptr m1 /\ string_length m2 = string_length m1
  /\ ctl (flags m2) = ctl (flags m1) /\ top m2 = top m1 /\ root m2 = root m1
  /\ alloc m2 = (if (length (heap (mem m1)) <? length (heap hf))%nat
                 then Pblk (length (heap (mem m1))) 0 else nullptr)
  /\ built hf (mem m1) (mem m2)
  /\ (has (flags m1) flag_string = true ->
      forall a v2, top m2 = Pblk a 0 -> shell (mem m2) a v2 ->
      string_ m2 = (if type_eqb (type v2) json_string then u_values v2 else _reserved v2)).

(** No number is under way. *)
Definition settled (m : machine) : Prop :=
  has (flags m) flag_string = false -> has (flags m) flag_done = false ->
  has (flags m) flag_seek_value = false ->
  top_is m (fun v => type v = json_object).

(** Two blocks of the same kind and size *)
Definition same_shape (b b' : block) : Prop :=
  match b, b' with
  | Bchars cs, Bchars cs' => length cs = length cs'
  | Bptrs cells, Bptrs cells' => length cells = length cells'
  | Bobject es at_ ns, Bobject es' at_' ns' =>
      length es = length es' /\ at_ = at_' /\ length ns = length ns'
  | _, _ => False
  end.

Definition alloc_failure : message := sprintf "Memory allocation failure" [].

(** What a stage of the loop body does in the building pass, against what
    it does in the counting pass: where the counting pass goes on, the
    building pass goes on the same way, or it runs out of memory. *)
Definition building_step (hf : memory) (f1 f2 : flow) : Prop :=
  match f1 with
  | Continue m1 =>
      match f2 with
      | Continue m2 => paired hf m1 m2 /\ settled m1
      | Failed e _ => e = alloc_failure
      | _ => False
      end
  | Fall m1 =>
      match f2 with
      | Fall m2 => paired hf m1 m2
      | Failed e _ => e = alloc_failure
      | _ => False
      end
  | Break m1 =>
      match f2 with
      | Break m2 => paired hf m1 m2
      | Failed e _ => e = alloc_failure
      | _ => False
      end
  | _ => True
  end.

(** [mm'] is [mm] with cells of buffers overwritten. *)
Definition rewritten (mm mm' : memory) : Prop :=
  length (heap mm') = length (heap mm)
  /\ (forall a v, shell mm' a v <-> shell mm a v)
  /\ (forall (b : addr) blk, heap mm !! b = Some (Some blk) -> (forall v, blk <> Bvalue v) ->
                    exists blk', heap mm' !! b = Some (Some blk') /\ same_shape blk blk').

(** The cells [0 .. n) from the cursor [s] lie inside the characters of a
    buffer. *)
Definition cursor_room (mm : memory) (s : pointer) (n : Z) : Prop :=
  exists (b : addr) off blk,
    s = Pblk b off /\ heap mm !! b = Some (Some blk)
    /\ match blk with
       | Bchars cs => 0 <= off /\ off + n <= Z.of_nat (length cs)
       | Bobject _ at_ ns => 0 <= off - at_ /\ off - at_ + n <= Z.of_nat (length ns)
       | _ => False
       end.

(** [m'] is [m] but for the memory, the string length and the fields that
    only the counting pass or the error texts read. *)
Definition same_regs (m m' : machine) : Prop :=
  first_pass m' = first_pass m /\ ptr m' = ptr m /\ top m' = top m /\ root m' = root m
  /\ alloc m' = alloc m /\ flags m' = flags m /\ string_ m' = string_ m.

(** [mm'] is [mm] with the block at [a] replaced at most, and blocks added. *)
Definition pokes (a : addr) (mm mm' : memory) : Prop :=
  (length (heap mm) <= length (heap mm'))%nat
  /\ forall x : addr, x <> a -> (x < length (heap mm))%nat -> heap mm' !! x = heap mm !! x.

(** The first step of the end of the loop body: a byte to look at again. *)
Definition reproc_step (m : machine) : machine :=
  if has (flags m) flag_reproc
  then set_ptr (ptr m - 1) (set_flags (bic (flags m) flag_reproc) m) else m.

(** The value [t] on top is linked into its parent [p], and the parent
    becomes the top. *)
Definition link (m : machine) (t p : json_value) : flow :=
  defined
    (if first_pass m =? 0 then
       match type p with
       | json_object => update_entry (mem m) (u_values p) (u_length p) (set_value (top m))
       | json_array => store_cell (mem m) (u_values p) (u_length p) (top m)
       | _ => Some (mem m)
       end
     else Some (mem m))
    (fun mm =>
  let n := wrap_u32 (u_length p + 1) in
  defined (update_value mm (parent t) (set_length n)) (fun mm =>
  let m := set_mem mm m in
  if n >? uint_max then e_overflow m
  else Continue (set_top (parent t) m))).

(** The end of the loop body after [flag_reproc] has been dealt with:
    [flag_next] links the finished value into its parent and climbs. *)
Definition climb (m : machine) : flow :=
  if has (flags m) flag_next then
    let m := set_flags (bis (bic (flags m) flag_next) flag_need_comma) m in
    defined (load_value (mem m) (top m)) (fun t =>
    if is_null (parent t) then Continue (set_flags (bis (flags m) flag_done) m)
    else
      defined (load_value (mem m) (parent t)) (fun p =>
      link (if type_eqb (type p) json_array
            then set_flags (bis (flags m) flag_seek_value) m else m) t p))
  else Continue m.

(** What the number state does with the byte [b], from the state [n]
    between two iterations: it goes on inside the number, which [b] then
    belongs to, or it finishes the number. *)
Definition number_flow (cfg : settings) (n : machine) (b : Z) (f : flow) : Prop :=
  match f with
  | Continue x => number_state cfg n x /\ number_char b = true
  | Fall mid =>
      exists x, number_state cfg n x
                /\ mid = set_flags (bis (flags x) (Z.lor flag_next flag_reproc)) x
  | Failed _ _ => True
  | Break _ | Undefined => False
  end.

(** The byte an iteration looks at: the one under the cursor, or 0 at the
    end of the buffer. *)
Definition byte_at (json : list Z) (p : Z) : option Z :=
  if p =? end_ json then Some 0 else deref json p.

(** The state and the byte with which an iteration enters the number
    state. *)
Definition starts_number (fl : Z) (b : Z) : bool :=
  negb (has fl flag_string) && negb (has fl flag_line_comment)
  && negb (has fl flag_block_comment) && negb (has fl flag_done)
  && has fl flag_seek_value && negb (has fl flag_need_comma)
  && negb (has fl flag_need_colon) && (isdigit b || (b =? chr "-")).

(** The bytes of [p .. q) are characters of a number. *)
Definition number_chars (json : list Z) (p q : Z) : Prop :=
  forall i, p <= i < q -> exists c, deref json i = Some c /\ number_char c = true.

(** The counting pass, in the state [n] between two iterations inside a
    number, against the building pass, which has stepped over the number
    and stands in [mid2] before the end of its loop body. *)
Record lag (json : list Z) (hf : memory) (n mid2 : machine) : Prop := {
  lag_top : top_is n (fun v => is_number (type v) = true);
  lag_string : has (flags n) flag_string = false;
  lag_done : has (flags n) flag_done = false;
  lag_seek : has (flags n) flag_seek_value = false;
  lag_comment : no_comment (flags n);
  lag_paired :
    paired hf (set_ptr (ptr mid2)
                 (set_flags (bis (flags n) (Z.lor flag_next flag_reproc)) n)) mid2;
  lag_ptr : ptr n <= ptr mid2;
  lag_chars : number_chars json (ptr n) (ptr mid2);
  lag_stop : forall c, byte_at json (ptr mid2) = Some c -> number_char c = false
}.

(** What is left of a pass once the body of the loop has been run: the
    loop goes on with the next byte, or it ends. *)
Definition resume (pow : float -> float -> float) (cfg : settings) (json : list Z)
  (fuel : nat) (f : flow) : pass_end :=
  match f with
  | Continue m | Fall m => pass pow cfg json fuel (set_ptr (ptr m + 1) m)
  | Break m => Pass_done m
  | Failed e m => Pass_failed e m
  | Undefined => Pass_undefined
  end.

(** How the building pass may end, where the counting pass has ended in
    [mF]: in step with it, or out of memory. *)
Definition in_step (hf : memory) (mF : machine) (r : pass_end) : Prop :=
  match r with
  | Pass_done m2 => paired hf mF m2
  | Pass_failed e _ => e = alloc_failure
  | Pass_undefined | Pass_out_of_fuel => False
  end.

(** The state in which a counting pass over [json] ends, when it ends well
    (and the initial state otherwise). *)
Definition counted (pow : float -> float -> float) (cfg : settings) (json : list Z)
  (mm : memory) : machine :=
  match pass pow cfg json (pass_fuel json) (start_pass 1 (initial mm)) with
  | Pass_done m => m
  | _ => initial mm
  end.

(** ** The counting pass: what it reads *)

(** The text ends in a keyword cut short by one byte. *)
Definition cut_short (json : list Z) : Prop :=
  exists before kw, json = before ++ bytes_of_string kw
                    /\ In kw ["tru"; "fals"; "nul"]%string.

(** The cursor of a state between two iterations is inside the buffer or
    at its end. *)
Definition in_buffer (json : list Z) (m : machine) : Prop := 0 <= ptr m <= end_ json.

(** The value on top and its parent, when it has one, are shells. *)
Definition linked (m : machine) : Prop :=
  exists a t, top m = Pblk a 0 /\ shell (mem m) a t
              /\ (parent t = nullptr
                  \/ exists p vp, parent t = Pblk p 0 /\ shell (mem m) p vp).

(** What the end of the loop body needs of the state it is handed in the
    counting pass: a value on top when one has been completed; a byte to
    look at again has been read inside the buffer or at its end, any other
    byte inside it. *)
Definition closing (json : list Z) (m : machine) : Prop :=
  first_pass m = 1
  /\ (has (flags m) flag_next = true -> linked m)
  /\ (if has (flags m) flag_reproc then 0 <= ptr m <= end_ json
      else 0 <= ptr m < end_ json).

(** A piece of the loop body run in the counting pass reads no byte outside
    the buffer and no value through a pointer that holds none, but for a
    keyword cut short; where it goes on to the next byte, that byte is in
    the buffer or at its end. *)
Definition reads_inside (json : list Z) (f : flow) : Prop :=
  match f with
  | Continue m' => -1 <= ptr m' < end_ json
  | Fall _ | Break _ | Failed _ _ => True
  | Undefined => cut_short json
  end.

(** ** The counting pass: the chain that a failure walks *)

(** The blocks of the counting pass: every block is a shell whose
    [_reserved.next_alloc] holds the shell allocated after it, [root] is the
    first shell and [alloc] the last. *)
Definition chain (mm : memory) (root alloc : pointer) : Prop :=
  (forall a, (a < length (heap mm))%nat ->
     exists v, shell mm a v
               /\ _reserved v
                  = (if (S a <? length (heap mm))%nat then Pblk (S a) 0 else nullptr))
  /\ ((heap mm = [] /\ root = nullptr /\ alloc = nullptr)
      \/ (heap mm <> [] /\ root = Pblk 0%nat 0
          /\ alloc = Pblk (length (heap mm) - 1)%nat 0)).

Definition chained (m : machine) : Prop :=
  first_pass m = 1 /\ chain (mem m) (root m) (alloc m).

(** Wherever a piece of the loop body leaves, the chain is whole. *)
Definition flow_chained (f : flow) : Prop :=
  match f with
  | Continue m | Fall m | Break m | Failed _ m => chained m
  | Undefined => True
  end.

(** An update of a shell that leaves its link alone *)
Definition keeps_link (f : json_value -> json_value) : Prop :=
  forall v, _reserved (f v) = _reserved v.

(** Every block has been released. *)
Definition all_released (mm : memory) : Prop :=
  forall a, (a < length (heap mm))%nat -> heap mm !! a = Some None.

(** ** Trees in memory, as [json::value_free] walks them *)

(** Where a tree lies: the address of each shell and of its buffer, and the
    children of a container in slot order.  A container without members
    has no buffer when the parser has built it. *)
#[local] Set Warnings "-register-all".
Inductive layout :=
| Lscalar (a : addr)
| Lstring (a b : addr)
| Lempty (a : addr)
| Lnode (a b : addr) (kids : list layout).

Definition addr_of (l : layout) : addr :=
  match l with
  | Lscalar a | Lstring a _ | Lempty a | Lnode a _ _ => a
  end.

Definition ptr_of (l : layout) : pointer := Pblk (addr_of l) 0.

(** The blocks of a tree *)
Fixpoint footprint (l : layout) : list addr :=
  match l with
  | Lscalar a | Lempty a => [a]
  | Lstring a b => [a; b]
  | Lnode a b kids => a :: b :: concat (map footprint kids)
  end.

(** The number of turns of the loop of [json::value_free] over a tree: one
    for each value, and one more for each member of a container. *)
Fixpoint turns (l : layout) : nat :=
  match l with
  | Lnode _ _ kids => S (list_sum (map (fun k => S (turns k)) kids))
  | _ => 1
  end.

Definition is_scalar (t : json_type) : bool :=
  negb (is_container t) && negb (type_eqb t json_string).

Definition pointer_eqb (p q : pointer) : bool :=
  match p, q with
  | Pint x, Pint y => x =? y
  | Pblk a x, Pblk b y => (a =? b)%nat && (x =? y)
  | _, _ => false
  end.

Fixpoint pointers_eqb (ps qs : list pointer) : bool :=
  match ps, qs with
  | [], [] => true
  | p :: ps, q :: qs => pointer_eqb p q && pointers_eqb ps qs
  | _, _ => false
  end.

(** The child pointers that the buffer of a container of type [t] holds:
    the cells of an array, the [value] members of the entries of an
    object. *)
Definition slots (t : json_type) (blk : block) : option (list pointer) :=
  match t, blk with
  | json_array, Bptrs cells => Some cells
  | json_object, Bobject es _ _ => Some (value <$> es)
  | _, _ => None
  end.

(** The tree laid out as [l] is in the memory [mm], below the parent [q]:
    every shell has the type of its place and points to its parent, a
    string to its buffer, and the slots of a container, as many as its
    length says, to its children in order. *)
Fixpoint well_laid (mm : memory) (q : pointer) (l : layout) : bool :=
  match l with
  | Lscalar a =>
      match load_value mm (Pblk a 0) with
      | Some v => pointer_eqb (parent v) q && is_scalar (type v)
      | None => false
      end
  | Lstring a b =>
      match load_value mm (Pblk a 0), load mm (Pblk b 0) with
      | Some v, Some _ =>
          pointer_eqb (parent v) q && type_eqb (type v) json_string
          && pointer_eqb (u_values v) (Pblk b 0)
      | _, _ => false
      end
  | Lempty a =>
      match load_value mm (Pblk a 0) with
      | Some v =>
          pointer_eqb (parent v) q && is_container (type v) && (u_length v =? 0)
          && pointer_eqb (u_values v) nullptr
      | None => false
      end
  | Lnode a b kids =>
      match load_value mm (Pblk a 0), load mm (Pblk b 0) with
      | Some v, Some blk =>
          match slots (type v) blk with
          | Some ps =>
              pointer_eqb (parent v) q && is_container (type v)
              && (u_length v =? Z.of_nat (length kids)) && (u_length v <? 2 ^ 32)
              && pointer_eqb (u_values v) (Pblk b 0)
              && pointers_eqb ps (ptr_of <$> kids)
              && forallb (well_laid mm (Pblk a 0)) kids
          | None => false
          end
      | _, _ => false
      end
  end.

(** The same, with the slots of a container that are still in use: its
    first [length kids] ones. *)
Inductive sits (mm : memory) : pointer -> layout -> Prop :=
| sits_scalar a q v :
    shell mm a v -> parent v = q -> is_scalar (type v) = true -> sits mm q (Lscalar a)
| sits_string a b q v blk :
    shell mm a v -> parent v = q -> type v = json_string -> u_values v = Pblk b 0 ->
    heap mm !! b = Some (Some blk) -> sits mm q (Lstring a b)
| sits_empty a q v :
    shell mm a v -> parent v = q -> is_container (type v) = true -> u_length v = 0 ->
    u_values v = nullptr -> sits mm q (Lempty a)
| sits_node a b q v blk ps kids :
    shell mm a v -> parent v = q -> is_container (type v) = true ->
    u_length v = Z.of_nat (length kids) -> u_length v < 2 ^ 32 ->
    u_values v = Pblk b 0 -> heap mm !! b = Some (Some blk) ->
    slots (type v) blk = Some ps -> take (length kids) ps = ptr_of <$> kids ->
    Forall (sits mm (Pblk a 0)) kids -> sits mm q (Lnode a b kids).

(** [mm'] is [mm] with the blocks at the addresses [fp] released, and with
    nothing else changed or allocated. *)
Definition released (fp : list addr) (mm mm' : memory) : Prop :=
  length (heap mm') = length (heap mm)
  /\ (forall a, a ∈ fp -> heap mm' !! a = Some None)
  /\ (forall a, a ∉ fp -> heap mm' !! a = heap mm !! a)
  /\ alloc_log mm' = alloc_log mm.

(** [mm'] is [mm] but for the blocks at the addresses [fp]. *)
Definition within (fp : list addr) (mm mm' : memory) : Prop :=
  length (heap mm') = length (heap mm)
  /\ (forall a, a ∉ fp -> heap mm' !! a = heap mm !! a)
  /\ alloc_log mm' = alloc_log mm.

(** The loop of [json::value_free], started on the tree [l] below [q] in
    [mm], comes to [q] in [mm'] after [turns l] turns. *)
Definition walked (st : settings) (l : layout) (q : pointer) (mm mm' : memory) : Prop :=
  (forall k, value_free_loop (turns l + k) st mm (ptr_of l) = value_free_loop k st mm' q)
  /\ released (footprint l) mm mm'.

(** ** The quota *)

(** The bytes asked of the allocate capability in the calls of a log *)
Definition requested (log : list alloc_call) : Z :=
  fold_right (fun c n => call_size c + n) 0 log.

(** Since the log stood at [base] bytes, the allocate capability has been
    asked for no more than the counter has counted, and for no more than
    the ceiling. *)
Definition within_quota (cfg : settings) (base : Z) (m : machine) : Prop :=
  0 <= requested (alloc_log (mem m)) - base <= used_memory m
  /\ requested (alloc_log (mem m)) - base <= max_memory cfg.

Definition flow_quota (cfg : settings) (base : Z) (f : flow) : Prop :=
  match f with
  | Continue m | Fall m | Break m | Failed _ m => within_quota cfg base m
  | Undefined => True
  end.

(** [m'] has the counter and the log of allocator calls of [m]. *)
Definition same_quota (m m' : machine) : Prop :=
  used_memory m' = used_memory m /\ alloc_log (mem m') = alloc_log (mem m).

(** ** The members of a container, counted *)

(** The block [b] is a shell whose parent is the shell at [p]. *)
Definition child_of (p : addr) (b : option block) : bool :=
  match b with
  | Some (Bvalue v) => pointer_eqb (parent v) (Pblk p 0)
  | _ => false
  end.

(** The number of values of [mm] that the tokenizer has begun inside the
    container at [p]: the shells that [new_value] has given it as their
    parent. *)
Definition children (mm : memory) (p : addr) : Z :=
  Z.of_nat (length (List.filter (child_of p) (heap mm))).






(** A text with a value of every kind, and the settings [json::parse]
    runs with by default. *)
Definition sample_text : list Z := json_text "[1, 'ab', {'k': [2.5, true], 'n': null}]".
Definition default_settings : settings := state_settings zero_settings.

(** Settings under which a shell has room for a whole [json_value]:
    [value_extra] makes up for the 32 bytes by which [sizeof(value)], the
    size of a pointer, falls short of it. *)
Definition roomy : settings :=
  {| max_memory := 0; allow_comments := false; mem_alloc := None; mem_free := None;
     user_data := 0; value_extra := sizeof_json_value - sizeof_value |}.
Definition roomy_settings : settings := state_settings roomy.

(** The shell at the address [a] ([zeroed_value] where there is none). *)
Definition shell_at (mm : memory) (a : addr) : json_value :=
  default zeroed_value (load_value mm (Pblk a 0)).

(** The state in which the building pass over [json] ends after a counting
    pass that ended well (the initial state otherwise). *)
Definition rebuilt (pow : float -> float -> float) (cfg : settings) (json : list Z)
  (mm : memory) : machine :=
  match pass pow cfg json (pass_fuel json)
          (start_pass 0 (set_alloc (root (counted pow cfg json mm))
                           (counted pow cfg json mm))) with
  | Pass_done m => m
  | _ => initial mm
  end.

(** The line counter after the bytes [bs], from the value [l]: every
    newline adds one, in 32 bits. *)
Definition lines_after (bs : list Z) (l : Z) : Z :=
  fold_left (fun l b => if b =? chr "010" then wrap_u32 (l + 1) else l) bs l.

(** The column after the bytes [bs]: a newline resets it, a pass never
    advances it. *)
Definition column_after (bs : list Z) (c : Z) : Z :=
  if existsb (fun b => b =? chr "010") bs then 0 else c.

(** The state a pass is in after the blanks [bs], from the state [m]. *)
Definition after_blanks (bs : list Z) (m : machine) : machine :=
  set_ptr (ptr m + Z.of_nat (length bs))
    (set_line_col (lines_after bs (cur_line m)) (column_after bs (cur_col m)) m).

(** The column an error text reports: the second number of the position
    [%d:%d], which comes first among the arguments or after the character
    the text names; no column where the text names no position. *)
Definition reported_column (e : message) : option Z :=
  match args e with
  | D _ :: D c :: _ => Some c
  | C _ :: D _ :: D c :: _ => Some c
  | _ => None
  end.

(** An error text that reports no column but 0. *)
Definition column_zero (e : message) : Prop :=
  match reported_column e with
  | Some c => c = 0
  | None => True
  end.

(** A piece of the loop body leaves the column at 0, and an error it
    raises reports no other column. *)
Definition flow_column_zero (f : flow) : Prop :=
  match f with
  | Continue m | Fall m | Break m => cur_col m = 0
  | Failed e m => cur_col m = 0 /\ column_zero e
  | Undefined => True
  end.

(** A Unicode scalar value: a code point up to U+10FFFF that is no
    surrogate (RFC 3629, section 3). *)
Definition scalar_value (u : Z) : bool :=
  (0 <=? u) && (u <=? 1114111) && negb ((55296 <=? u) && (u <=? 57343)).

(** UTF-8 read back by the syntax of RFC 3629, section 4:
<<
   UTF8-1 = %x00-7F
   UTF8-2 = %xC2-DF UTF8-tail
   UTF8-3 = %xE0 %xA0-BF UTF8-tail / %xE1-EC 2( UTF8-tail ) /
            %xED %x80-9F UTF8-tail / %xEE-EF 2( UTF8-tail )
   UTF8-4 = %xF0 %x90-BF 2( UTF8-tail ) / %xF1-F3 3( UTF8-tail ) /
            %xF4 %x80-8F 2( UTF8-tail )
   UTF8-tail = %x80-BF
>>
    which leaves out the overlong forms, the surrogates and what lies
    above U+10FFFF.  The value is made of the low bits of the lead byte
    and six bits of each byte that follows. *)
Definition between (lo hi b : Z) : bool := (lo <=? b) && (b <=? hi).

Definition is_continuation (b : Z) : bool := between 128 191 b.

Definition utf8_decode (bs : list Z) : option Z :=
  match bs with
  | [b0] => if between 0 127 b0 then Some b0 else None
  | [b0; b1] =>
      if between 194 223 b0 && is_continuation b1
      then Some ((b0 - 192) * 64 + (b1 - 128)) else None
  | [b0; b1; b2] =>
      if (((b0 =? 224) && between 160 191 b1)
          || (between 225 236 b0 && is_continuation b1)
          || ((b0 =? 237) && between 128 159 b1)
          || (between 238 239 b0 && is_continuation b1))
         && is_continuation b2
      then Some ((b0 - 224) * 4096 + (b1 - 128) * 64 + (b2 - 128)) else None
  | [b0; b1; b2; b3] =>
      if (((b0 =? 240) && between 144 191 b1)
          || (between 241 243 b0 && is_continuation b1)
          || ((b0 =? 244) && between 128 143 b1))
         && is_continuation b2 && is_continuation b3
      then Some ((b0 - 240) * 262144 + (b1 - 128) * 4096 + (b2 - 128) * 64 + (b3 - 128))
      else None
  | _ => None
  end.

(** What [e_failed] copies to [error_buf], when the caller has passed one. *)
Definition copied_text (error_buf : bool) (e : message) : option message :=
  if error_buf
  then Some (if (format e =? EmptyString)%string then sprintf "Unknown error" [] else e)
  else None.

(** The memory in which the parse of [sample_text] leaves its tree, and
    where the tree lies in it: the eight shells in the order of the text,
    then the four buffers. *)
Definition sample_memory : memory :=
  match parse_in pow_whole empty_memory roomy sample_text false with
  | Tree _ mm => mm
  | _ => empty_memory
  end.

Definition sample_layout : layout :=
  (Lnode 0 8 [Lscalar 1; Lstring 2 9;
              Lnode 3 10 [Lnode 4 11 [Lscalar 5; Lscalar 6]; Lscalar 7]])%nat.

(** The memory [mm] after every block but those at the addresses [fp] has
    been released: an access to any other block is undefined in it. *)
Definition without_others (fp : list addr) (mm : memory) : memory :=
  {| heap := imap (fun a b => if bool_decide (a ∈ fp) then b else None) (heap mm);
     alloc_log := alloc_log mm; free_log := free_log mm |}.

(** The state after the first call of [new_value] in a counting pass with
    the default settings. *)
Definition first_shell : machine :=
  match new_value default_settings (start_pass 1 (initial empty_memory)) json_integer with
  | Some (_, m') => m'
  | None => initial empty_memory
  end.

(** An object for which the counting pass has counted 178956971 members
    with empty names, as the only block of a heap, and the building pass
    about to take it up. *)
Definition large_object : json_value :=
  set_values (Pint 178956971) (set_length 178956971 (set_type json_object zeroed_value)).

Definition large_object_state : machine :=
  start_pass 0
    (set_alloc (Pblk 0%nat 0)
       (initial {| heap := [Some (Bvalue large_object)]; alloc_log := []; free_log := [] |})).

(** [roomy] settings with a ceiling on the memory. *)
Definition roomy_with_ceiling (ceiling : Z) : settings :=
  {| max_memory := ceiling; allow_comments := false; mem_alloc := None; mem_free := None;
     user_data := 0; value_extra := sizeof_json_value - sizeof_value |}.

(** An array that has kept the length the counting pass gave it and has
    been refused its buffer, as the only block of a heap. *)
Definition array_without_buffer : memory :=
  {| heap := [Some (Bvalue (set_length 1 (set_type json_array zeroed_value)))];
     alloc_log := []; free_log := [] |}.

(** * Properties *)

(** Closed statements about concrete inputs are settled by running the
    model. *)
Ltac split_all := repeat match goal with |- _ /\ _ => split end.
Ltac evaluate := vm_compute; reflexivity.

(** ** Teardown of a null tree *)

(** C10: [value_free], in both overloads, returns at once on a null tree
    pointer: the memory, and with it the log of calls to the free
    capability, is what it was. *)
Theorem value_free_null (st : settings) (mm : memory) :
  value_free st mm nullptr = Ok mm /\ value_free_default mm nullptr = Ok mm.
Proof. split; reflexivity. Qed.

(** ** The allocation and quota service *)

Lemma wrap_u64_small (z : Z) : 0 <= z < 2 ^ 64 -> wrap_u64 z = z.
Proof. intros H. unfold wrap_u64. apply Z.mod_small. exact H. Qed.

(** C6, as the code has it: a request that would overflow the counter, or
    (under a ceiling) take the total past the ceiling, is refused with the
    memory and the log of allocator calls untouched; any other request is
    one call of the allocate capability.  The counter is advanced by every
    request that passes the overflow check when a ceiling is configured,
    granted or not, and never when there is none. *)
Theorem json_alloc_checks_first (cfg : settings) (f : alloc_fn) (m : machine)
  (size : Z) (zero : bool) (shape : block) :
  mem_alloc cfg = Some f -> 0 <= used_memory m -> 0 <= size ->
  let overflow := ulong_max - used_memory m <? size in
  let over_ceiling :=
    negb (max_memory cfg =? 0) && (used_memory m + size >? max_memory cfg) in
  exists p m',
    json_alloc cfg m size zero shape = Some (p, m')
    /\ (if overflow || over_ceiling
        then p = nullptr /\ mem m' = mem m
        else (p, mem m') = call_mem_alloc f (user_data cfg) (mem m) size zero shape)
    /\ used_memory m' =
         if overflow || (max_memory cfg =? 0) then used_memory m
         else used_memory m + size.
Proof.
  intros Hf Hused Hsize overflow over_ceiling.
  subst overflow over_ceiling. unfold json_alloc. rewrite Hf.
  destruct (ulong_max - used_memory m <? size) eqn:Hov; simpl.
  - exists nullptr, m. auto.
  - apply Z.ltb_ge in Hov.
    destruct (max_memory cfg =? 0) eqn:Hmax; simpl.
    + destruct (call_mem_alloc f (user_data cfg) (mem m) size zero shape) as [p mm] eqn:Hc.
      exists p, (set_mem mm m). auto.
    + rewrite wrap_u64_small by (unfold ulong_max in Hov; lia).
      destruct (used_memory m + size >? max_memory cfg) eqn:Hc.
      * eexists _, _. split; [reflexivity |]. auto.
      * destruct (call_mem_alloc f (user_data cfg) (mem m) size zero shape) as [p mm] eqn:Hc'.
        exists p, (set_mem mm (set_used_memory (used_memory m + size) m)). auto.
Qed.

Lemma json_alloc_checks_first_witness :
  exists p m',
    json_alloc (state_settings (settings_with_ceiling 20)) (initial empty_memory) 8 true
               (Bvalue zeroed_value) = Some (p, m')
    /\ (p, mem m') = call_mem_alloc default_alloc 0 empty_memory 8 true (Bvalue zeroed_value)
    /\ used_memory m' = 8.
Proof.
  exact (json_alloc_checks_first (state_settings (settings_with_ceiling 20)) default_alloc
           (initial empty_memory) 8 true (Bvalue zeroed_value)
           eq_refl (Z.le_refl 0) (Zle_0_pos 8)).
Defined.

(** C6, the claim as stated fails: with no ceiling configured a granted
    request leaves the running counter where it was. *)
Lemma json_alloc_counter_not_advanced :
  exists p m',
    json_alloc (state_settings zero_settings) (initial empty_memory) 8 true
               (Bvalue zeroed_value) = Some (p, m')
    /\ is_null p = false
    /\ used_memory m' = 0
    /\ used_memory m' <> used_memory (initial empty_memory) + 8.
Proof.
  eexists _, _. split; [reflexivity |]. repeat split. discriminate.
Qed.

(** ** The byte-order mark *)

(** C8, as the code has it: one mark is skipped.  A buffer that begins
    with the mark parses as the buffer without these three bytes does,
    provided what follows does not begin with a mark again; a buffer that
    does not begin with the mark is scanned from its first byte. *)
Theorem bom_skipped_once (pow : float -> float -> float) (mm : memory) (st : settings)
  (rest : list Z) (error_buf : bool) :
  take 3 rest <> bom ->
  parse_in pow mm st (bom ++ rest) error_buf = parse_in pow mm st rest error_buf
  /\ parse_in pow mm st rest error_buf
     = two_passes pow (state_settings st) rest error_buf mm.
Proof.
  intros Hrest.
  assert (Hskip : skip_bom rest = rest).
  { destruct rest as [|a [|b [|c r]]]; try reflexivity.
    simpl.
    destruct (Z.eqb_spec a 239) as [-> |]; [| reflexivity].
    destruct (Z.eqb_spec b 187) as [-> |]; [| reflexivity].
    destruct (Z.eqb_spec c 191) as [-> |]; [| reflexivity].
    exfalso. apply Hrest. reflexivity. }
  unfold parse_in. rewrite Hskip. split; reflexivity.
Qed.

Lemma bom_skipped_once_witness :
  take 3 (json_text "[1]") <> bom
  /\ parse_in pow_whole empty_memory zero_settings (bom ++ json_text "[1]") true
     = parse_in pow_whole empty_memory zero_settings (json_text "[1]") true
  /\ parse_in pow_whole empty_memory zero_settings (json_text "[1]") true
     = two_passes pow_whole (state_settings zero_settings) (json_text "[1]") true empty_memory.
Proof.
  split; [ discriminate |].
  exact (bom_skipped_once pow_whole empty_memory zero_settings (json_text "[1]") true
           ltac:(discriminate)).
Defined.

(** C8, the claim as stated fails on a buffer with two marks: the parse of
    the whole buffer stops at the second mark, while the buffer without
    its first three bytes parses to the integer 1. *)
Lemma bom_twice_differs :
  parsed_tree (parse pow_whole (bom ++ bom ++ json_text "1")) = None
  /\ parsed_tree (parse pow_whole (bom ++ json_text "1")) = Some (Tinteger 1).
Proof. split_all; evaluate. Qed.

(** ** Numbers *)



(** ** Unicode escapes *)

(** C4, evaluated: the escape of U+0041 gives the byte [A], the pair
    D83D DE00 the four bytes of U+1F600, and a lone D800 is refused.  But a
    first escape anywhere in D800..DFFF is combined with whatever escape
    follows: D83D followed by 0041 is accepted (as U+1F441), and so is a
    low surrogate that comes first. *)
Theorem unicode_escapes (pow : float -> float -> float) :
  parsed_tree (parse pow (quoted (u_escape "0041"))) = Some (Tstring [chr "A"])
  /\ parsed_tree (parse pow (quoted (u_escape "D83D" ++ u_escape "DE00")))
     = Some (Tstring [240; 159; 152; 128])
  /\ failure (parse_ex pow zero_settings (quoted (u_escape "D800")))
     = Some (Some (sprintf "Invalid character value `%c` (at %d:%d)"
                           [C (chr "u"); D 1; D 0]), 0%nat)
  /\ parsed_tree (parse pow (quoted (u_escape "D83D" ++ u_escape "0041")))
     = Some (Tstring [240; 159; 145; 129])
  /\ parsed_tree (parse pow (quoted (u_escape "DC00" ++ u_escape "D800")))
     = Some (Tstring [240; 144; 128; 128]).
Proof. split_all; evaluate. Qed.

(** ** Error positions *)

(** C5, evaluated: the text [{"a":}] is refused at its closing brace, the
    sixth byte of line 1, and the position written into the message is
    line 1, column 0: [cur_col] is reset at a newline and never counted
    up. *)
Theorem missing_value_position (pow : float -> float -> float) :
  json_text "{'a':}" !! 5%nat = Some (chr "}")
  /\ failure (parse_ex pow zero_settings (json_text "{'a':}"))
     = Some (Some (sprintf "%d:%d: Unexpected %c when seeking value"
                           [D 1; D 0; C (chr "}")]), 0%nat).
Proof. split_all; evaluate. Qed.

(** ** Release on failure *)

(** C2, evaluated: when the allocation of the inner array's buffer is
    refused in the building pass of [[[1]]] (by the ceiling, or by the
    allocate capability itself), [parse] returns no tree, and the shell of
    the inner array, not yet linked into the root, is never released. *)
Theorem building_pass_failure_leaks (pow : float -> float -> float) :
  failure (parse_ex pow (settings_with_ceiling 35) (json_text "[[1]]"))
  = Some (Some (sprintf "Memory allocation failure" []), 1%nat)
  /\ failure (parse_ex pow (settings_failing_at 4) (json_text "[[1]]"))
     = Some (Some (sprintf "Memory allocation failure" []), 1%nat).
Proof. split_all; evaluate. Qed.

(** ** Inputs without a value *)

(** C9, evaluated: a lone minus sign holds no JSON value, and both parse
    operations return a tree for it, the integer 0. *)
Theorem lone_minus_accepted (pow : float -> float -> float) :
  holds_value_byte (json_text "-") = false
  /\ parsed_tree (parse pow (json_text "-")) = Some (Tinteger 0)
  /\ parsed_tree (parse_ex pow zero_settings (json_text "-")) = Some (Tinteger 0).
Proof. split_all; evaluate. Qed.

(** * The two passes in step *)


(** ** Flag words *)

Lemma ctl_bis (f x : Z) : ctl (bis f x) = Z.lor (ctl f) (ctl x).
Proof. unfold ctl, bis. apply Z.land_lor_distr_l. Qed.

Lemma ctl_bic (f x : Z) : ctl (bic f x) = Z.land (ctl f) (Z.lnot x).
Proof.
  unfold ctl, bic. rewrite <- !Z.land_assoc. f_equal. apply Z.land_comm.
Qed.

Lemma has_ctl (f x : Z) : ctl x = x -> has f x = has (ctl f) x.
Proof.
  intros Hx. unfold has. f_equal. f_equal.
  unfold ctl in *. rewrite <- Z.land_assoc, (Z.land_comm (Z.lnot numeric_flags) x), Hx.
  reflexivity.
Qed.

Lemma ctl_agree_has (f1 f2 x : Z) : ctl f1 = ctl f2 -> ctl x = x -> has f1 x = has f2 x.
Proof. intros H Hx. rewrite (has_ctl f1 x Hx), (has_ctl f2 x Hx), H. reflexivity. Qed.

Lemma ctl_bis_numeric (f x : Z) : ctl x = 0 -> ctl (bis f x) = ctl f.
Proof. intros Hx. rewrite ctl_bis, Hx. apply Z.lor_0_r. Qed.

Lemma ctl_bic_numeric (f x : Z) : Z.land (Z.lnot x) (Z.lnot numeric_flags) = Z.lnot numeric_flags -> ctl (bic f x) = ctl f.
Proof.
  intros Hx. unfold ctl, bic. rewrite <- Z.land_assoc, Hx. reflexivity.
Qed.

Lemma has_bis (f x y : Z) : has (bis f x) y = has f y || has x y.
Proof.
  unfold has, bis. rewrite Z.land_lor_distr_l.
  destruct (Z.eqb_spec (Z.land f y) 0) as [E1|E1], (Z.eqb_spec (Z.land x y) 0) as [E2|E2];
    simpl; destruct (Z.eqb_spec (Z.lor (Z.land f y) (Z.land x y)) 0) as [E|E];
    try reflexivity; exfalso.
  - apply E. apply Z.lor_eq_0_iff. auto.
  - apply Z.lor_eq_0_iff in E. tauto.
  - apply Z.lor_eq_0_iff in E. tauto.
  - apply Z.lor_eq_0_iff in E. tauto.
Qed.

Lemma has_bic (f x y : Z) : has (bic f x) y = has f (Z.land (Z.lnot x) y).
Proof. unfold has, bic. rewrite Z.land_assoc. reflexivity. Qed.

Lemma has_lor (f a b : Z) : has f (Z.lor a b) = has f a || has f b.
Proof.
  unfold has. rewrite Z.land_lor_distr_r.
  destruct (Z.eqb_spec (Z.land f a) 0) as [E1|E1], (Z.eqb_spec (Z.land f b) 0) as [E2|E2];
    simpl; destruct (Z.eqb_spec (Z.lor (Z.land f a) (Z.land f b)) 0) as [E|E];
    try reflexivity; exfalso.
  - apply E. apply Z.lor_eq_0_iff. auto.
  - apply Z.lor_eq_0_iff in E. tauto.
  - apply Z.lor_eq_0_iff in E. tauto.
  - apply Z.lor_eq_0_iff in E. tauto.
Qed.

Lemma has_0 (f : Z) : has f 0 = false.
Proof. unfold has. rewrite Z.land_0_r. reflexivity. Qed.

Arguments has : simpl never.
Arguments bis : simpl never.
Arguments bic : simpl never.

(** Flag words in canonical form: tests of single flags of the variable
    word, masks as numerals. *)
Ltac flag_consts :=
  change flag_next with 1 in *; change flag_reproc with 2 in *;
  change flag_need_comma with 4 in *; change flag_seek_value with 8 in *;
  change flag_escaped with 16 in *; change flag_string with 32 in *;
  change flag_need_colon with 64 in *; change flag_done with 128 in *;
  change flag_num_negative with 256 in *; change flag_num_zero with 512 in *;
  change flag_num_e with 1024 in *; change flag_num_e_got_sign with 2048 in *;
  change flag_num_e_negative with 4096 in *; change flag_line_comment with 8192 in *;
  change flag_block_comment with 16384 in *.

Ltac closed_flags :=
  repeat match goal with
    | |- context [Z.lor (Zpos ?a) (Zpos ?b)] =>
        let v := eval vm_compute in (Z.lor (Zpos a) (Zpos b)) in
        change (Z.lor (Zpos a) (Zpos b)) with v
    | H : context [Z.lor (Zpos ?a) (Zpos ?b)] |- _ =>
        let v := eval vm_compute in (Z.lor (Zpos a) (Zpos b)) in
        change (Z.lor (Zpos a) (Zpos b)) with v in H
    | |- context [Z.land (Z.lnot (Zpos ?a)) (Zpos ?b)] =>
        let v := eval vm_compute in (Z.land (Z.lnot (Zpos a)) (Zpos b)) in
        change (Z.land (Z.lnot (Zpos a)) (Zpos b)) with v
    | H : context [Z.land (Z.lnot (Zpos ?a)) (Zpos ?b)] |- _ =>
        let v := eval vm_compute in (Z.land (Z.lnot (Zpos a)) (Zpos b)) in
        change (Z.land (Z.lnot (Zpos a)) (Zpos b)) with v in H
    | |- context [has (Zpos ?a) (Zpos ?b)] =>
        let v := eval vm_compute in (has (Zpos a) (Zpos b)) in
        change (has (Zpos a) (Zpos b)) with v
    | H : context [has (Zpos ?a) (Zpos ?b)] |- _ =>
        let v := eval vm_compute in (has (Zpos a) (Zpos b)) in
        change (has (Zpos a) (Zpos b)) with v in H
    end.

Lemma has_136 f : has f 136 = has f 8 || has f 128.
Proof. exact (has_lor f 8 128). Qed.
Lemma has_24576 f : has f 24576 = has f 8192 || has f 16384.
Proof. exact (has_lor f 8192 16384). Qed.

Ltac flags_norm :=
  flag_consts; closed_flags;
  repeat (first [ rewrite has_bis in * | rewrite has_bic in * | rewrite has_0 in *
                | rewrite has_136 in * | rewrite has_24576 in * ]; closed_flags);
  rewrite ?orb_false_r, ?orb_true_r, ?orb_false_l, ?orb_true_l, ?andb_false_r, ?andb_true_r in *.

Example flags_norm_test f :
  has f flag_string = true ->
  has (bis (bic f (Z.lor flag_need_comma flag_seek_value)) flag_next) flag_seek_value = false
  /\ has (bis (bic f flag_string) (Z.lor flag_seek_value flag_need_colon)) flag_string = false
  /\ has (bis f flag_escaped) flag_string = true.
Proof. intros H. flags_norm. rewrite H. auto. Qed.

(** ** Shells in the heap *)

Lemma shell_inj mm a v v' : shell mm a v -> shell mm a v' -> v = v'.
Proof. unfold shell. intros H H'. rewrite H in H'. congruence. Qed.

Lemma shell_lt mm a v : shell mm a v -> (a < length (heap mm))%nat.
Proof. unfold shell. intros H. apply lookup_lt_Some in H. exact H. Qed.

Lemma load_value_shell mm p v :
  load_value mm p = Some v <-> exists a, p = Pblk a 0 /\ shell mm a v.
Proof.
  unfold load_value, load, shell. split.
  - destruct p as [z|a off]; [discriminate|].
    destruct off; try discriminate.
    destruct (heap mm !! a) as [[b|]|] eqn:E; simpl; try discriminate.
    destruct b; try discriminate. intros [= ->]. eauto.
  - intros (a & -> & H). rewrite H. reflexivity.
Qed.

Lemma load_value_at mm a v : shell mm a v -> load_value mm (Pblk a 0) = Some v.
Proof. intros H. apply load_value_shell. eauto. Qed.

Lemma update_value_shell mm p f mm' :
  update_value mm p f = Some mm' <->
  exists a v, p = Pblk a 0 /\ shell mm a v /\ mm' = store mm a (Bvalue (f v)).
Proof.
  unfold update_value. split.
  - destruct (load_value mm p) as [v|] eqn:E; [|discriminate].
    apply load_value_shell in E as (a & -> & Ha). intros [= <-]. eauto.
  - intros (a & v & -> & Ha & ->). rewrite (load_value_at _ _ _ Ha). reflexivity.
Qed.

Lemma shell_store_eq mm a blk v :
  (a < length (heap mm))%nat -> (shell (store mm a blk) a v <-> blk = Bvalue v).
Proof.
  intros Hlt. unfold shell, store. simpl.
  rewrite list_lookup_insert_eq by exact Hlt. split; congruence.
Qed.

Lemma shell_store_ne mm a b blk v :
  a <> b -> (shell (store mm a blk) b v <-> shell mm b v).
Proof.
  intros Hne. unfold shell, store. simpl.
  rewrite list_lookup_insert_ne by exact Hne. reflexivity.
Qed.

Lemma length_store mm a blk : length (heap (store mm a blk)) = length (heap mm).
Proof. unfold store. simpl. apply length_insert. Qed.

(** ** The order on shells and heaps *)

Lemma type_le_refl t : type_le t t.
Proof. left. reflexivity. Qed.

Lemma type_le_trans t1 t2 t3 : type_le t1 t2 -> type_le t2 t3 -> type_le t1 t3.
Proof.
  unfold type_le. intros [->|[-> ->]] [->|[E ->]]; auto; discriminate.
Qed.

Lemma value_le_trans v1 v2 v3 : value_le v1 v2 -> value_le v2 v3 -> value_le v1 v3.
Proof.
  intros (P1 & T1 & L1 & z1 & z1' & Z1 & Z1' & Hz1) (P2 & T2 & L2 & z2 & z2' & Z2 & Z2' & Hz2).
  repeat split.
  - congruence.
  - eapply type_le_trans; eauto.
  - lia.
  - exists z1, z2'. repeat split; auto. rewrite Z1' in Z2. injection Z2 as <-. lia.
Qed.

Lemma value_le_refl mm a v : value_wf mm a v -> value_le v v.
Proof.
  intros (_ & _ & (z & Hz & _) & _). repeat split; try lia.
  - apply type_le_refl.
  - exists z, z. auto with zarith.
Qed.

Lemma heap_le_refl mm : heap_wf mm -> heap_le mm mm.
Proof.
  intros [_ Hwf]. split; [lia|]. intros a v Hs. exists v. split; [exact Hs|].
  eapply value_le_refl; eauto.
Qed.

Lemma heap_le_trans m1 m2 m3 : heap_le m1 m2 -> heap_le m2 m3 -> heap_le m1 m3.
Proof.
  intros [L1 H1] [L2 H2]. split; [lia|].
  intros a v Hs. destruct (H1 a v Hs) as (v' & Hs' & Hle).
  destruct (H2 a v' Hs') as (v'' & Hs'' & Hle'). exists v''. split; [exact Hs''|].
  eapply value_le_trans; eauto.
Qed.

Lemma value_le_names v v' : value_le v v' -> names_of v <= names_of v'.
Proof.
  intros (_ & _ & _ & z & z' & Hz & Hz' & Hle). unfold names_of. rewrite Hz, Hz'. exact Hle.
Qed.

Lemma type_le_not_number t t' :
  type_le t t' -> is_number t = false -> t' = t.
Proof. intros [->|[-> _]]; [reflexivity|discriminate]. Qed.

(** ** From the facts of one step to the facts of the rest of the pass *)

Lemma pending_mono m a n n' : pending m a n -> n' <= n -> pending m a n'.
Proof.
  intros [(H1 & H2 & H3 & v & Hv & Hty & Hl) | [(H1 & c & vc & v & Hon & Hc & Hp & Hv & Hl)
         | (v & Hv & Hl)]] Hle.
  - left. repeat split; auto. exists v. repeat split; auto. lia.
  - right. left. split; auto. exists c, vc, v. repeat split; auto. lia.
  - right. right. exists v. split; auto. lia.
Qed.

(** A pending member stays pending, or gets counted, over further steps. *)
Lemma pending_step m m' a n :
  heap_wf (mem m) -> step_facts m m' -> pending m a n -> pending m' a n.
Proof.
  intros Hwf Hsf Hp. destruct Hsf.
  destruct Hp as [(H1 & H2 & H3 & v & Hv & Hty & Hl)
                 | [(H1 & c & vc & v & Hon & Hc & Hp & Hv & Hl) | (v & Hv & Hl)]].
  - eapply pending_mono; [eapply sf_pending0; eauto | lia].
  - eapply pending_mono; [eapply sf_stack0; eauto | lia].
  - right. right. destruct sf_heap0 as [_ H]. destruct (H a v Hv) as (v' & Hv' & Hle).
    exists v'. split; auto. destruct Hle as (_ & _ & Hl' & _). lia.
Qed.

Lemma step_facts_trans m1 m2 m3 :
  heap_wf (mem m1) -> heap_wf (mem m2) ->
  step_facts m1 m2 -> step_facts m2 m3 -> step_facts m1 m3.
Proof.
  intros Hwf1 Hwf2 H12 H23.
  pose proof (pending_step m2 m3) as Hpend.
  destruct H12 as [h1 s1 n1 p1 k1]. pose proof H23 as H23'. destruct H23 as [h2 s2 n2 p2 k2].
  assert (Hmono : forall a v v', shell (mem m1) a v -> shell (mem m2) a v' -> value_le v v').
  { intros a v v' Hs Hs'. destruct h1 as [_ H]. destruct (H a v Hs) as (w & Hw & Hle).
    rewrite (shell_inj _ _ _ _ Hs' Hw). exact Hle. }
  assert (Hex : forall a v, shell (mem m1) a v -> exists v', shell (mem m2) a v').
  { intros a v Hs. destruct h1 as [_ H]. destruct (H a v Hs) as (w & Hw & _). eauto. }
  assert (Hex2 : forall a v, shell (mem m2) a v ->
                             exists v', shell (mem m3) a v' /\ value_le v v').
  { intros a v Hs. destruct h2 as [_ H]. exact (H a v Hs). }
  split.
  - eapply heap_le_trans; eauto.
  - intros Hstr a v Ht Hs Hty.
    destruct (s1 Hstr a v Ht Hs Hty) as [(Hstr' & Ht' & Hsl) | (v' & Hs' & Hsl)].
    + destruct (Hex a v Hs) as (v' & Hs').
      assert (Hty' : type v' = json_string).
      { destruct (Hmono a v v' Hs Hs') as (_ & Hle & _).
        rewrite (type_le_not_number _ _ Hle); rewrite Hty; reflexivity. }
      destruct (s2 Hstr' a v' (eq_trans Ht' Ht) Hs' Hty') as [(A & B & C0) | (v'' & A & B)].
      * left. repeat split; auto; [congruence | lia].
      * right. exists v''. split; auto. lia.
    + destruct (Hex2 a v' Hs') as (v'' & Hs'' & (_ & _ & Hl & _)).
      right. exists v''. split; auto. lia.
  - intros Hstr Hnd a v Ht Hs Hty.
    destruct (n1 Hstr Hnd a v Ht Hs Hty)
      as [(Hstr' & Hnd' & Ht' & Hsl & Hs') | ((v' & Hs' & Hn) & Hp)].
    + destruct (n2 Hstr' Hnd' a v (eq_trans Ht' Ht) Hs' Hty)
        as [(A & B & C0 & D0 & E) | ((v'' & A & B) & C0)].
      * left. repeat split; auto; [congruence | lia].
      * right. split; auto. exists v''. split; auto. lia.
    + right. split; [| apply Hpend; auto].
      destruct (Hex2 a v' Hs') as (v'' & Hs'' & Hle). exists v''. split; auto.
      pose proof (value_le_names _ _ Hle). lia.
  - intros Hseek Hnd a v Ht Hs Hty. apply Hpend; auto; eapply p1; eauto.
  - intros Hnd c vc p vp Hon Hc Hp Hvp. apply Hpend; auto; eapply k1; eauto.
Qed.

Lemma future_of_step hf m m' :
  heap_wf (mem m) -> heap_wf (mem m') -> step_facts m m' -> future hf m' -> future hf m.
Proof.
  intros Hwf Hwf' Hsf Hfu. pose proof (pending_step m m' ) as Hpend.
  destruct Hsf as [h1 s1 n1 p1 k1]. destruct Hfu as [h2 s2 n2 p2].
  assert (Hmono : forall a v v', shell (mem m) a v -> shell (mem m') a v' -> value_le v v').
  { intros a v v' Hs Hs'. destruct h1 as [_ H]. destruct (H a v Hs) as (w & Hw & Hle).
    rewrite (shell_inj _ _ _ _ Hs' Hw). exact Hle. }
  assert (Hfin : forall a v' vf, shell (mem m') a v' -> shell hf a vf -> value_le v' vf).
  { intros a v' vf Hs Hs'. destruct h2 as [_ H]. destruct (H a v' Hs) as (w & Hw & Hle).
    rewrite (shell_inj _ _ _ _ Hs' Hw). exact Hle. }
  assert (Hex : forall a v, shell (mem m) a v -> exists v', shell (mem m') a v').
  { intros a v Hs. destruct h1 as [_ H]. destruct (H a v Hs) as (w & Hw & _). eauto. }
  assert (Hexf : forall a v, shell (mem m') a v -> exists vf, shell hf a vf).
  { intros a v Hs. destruct h2 as [_ H]. destruct (H a v Hs) as (w & Hw & _). eauto. }
  split.
  - eapply heap_le_trans; eauto.
  - intros Hstr a v Ht Hs Hty.
    destruct (s1 Hstr a v Ht Hs Hty) as [(Hstr' & Ht' & Hsl) | (v' & Hs' & Hsl)].
    + destruct (Hex a v Hs) as (v' & Hs').
      assert (Hty' : type v' = json_string).
      { destruct (Hmono a v v' Hs Hs') as (_ & Hle & _).
        rewrite (type_le_not_number _ _ Hle); rewrite Hty; reflexivity. }
      destruct (s2 Hstr' a v' (eq_trans Ht' Ht) Hs' Hty') as (vf & Hvf & Hl).
      exists vf. split; [exact Hvf | lia].
    + destruct (Hexf a v' Hs') as (vf & Hvf). exists vf. split; [exact Hvf|].
      destruct (Hfin a v' vf Hs' Hvf) as (_ & _ & Hl & _). lia.
  - intros Hstr Hnd a v Ht Hs Hty.
    destruct (n1 Hstr Hnd a v Ht Hs Hty)
      as [(Hstr' & Hnd' & Ht' & Hsl & Hs') | ((v' & Hs' & Hn) & Hp)].
    + destruct (n2 Hstr' Hnd' a v (eq_trans Ht' Ht) Hs' Hty) as (vf & Hvf & H1 & H2).
      exists vf. repeat split; auto; lia.
    + destruct (p2 a (u_length v) Hp) as (vf & Hvf & H1).
      exists vf. repeat split; auto.
      pose proof (value_le_names _ _ (Hfin a v' vf Hs' Hvf)). lia.
  - intros a n Hp. apply p2. apply Hpend; auto.
    split; auto.
Qed.

Lemma future_at_end cfg m :
  counting_inv cfg m -> has (flags m) flag_done = true -> future (mem m) m.
Proof.
  intros [Hb Hf] Hdone. destruct (fi_done m Hf Hdone) as [Hstr _].
  split.
  - apply heap_le_refl. apply Hb.
  - congruence.
  - congruence.
  - intros a n [(H1 & H2 & _) | [(H1 & _) | (v & Hv & Hl)]]; try congruence.
    exists v. auto.
Qed.

(** ** Machines up to the fields that matter *)

Ltac msimpl :=
  cbn [used_memory first_pass ptr cur_line cur_col top root alloc flags string_
       string_length num_digits num_e num_fraction mem
       set_used_memory set_ptr set_line_col set_top set_root set_alloc set_flags
       set_string set_string_length set_num_digits set_num_e set_num_fraction set_mem] in *.

(** ** Adding bytes to the string under way *)

Lemma STRING_ADD_add_utf8 m b : STRING_ADD m b = add_utf8 m [b].
Proof.
  unfold STRING_ADD, add_utf8. destruct (first_pass m =? 0); simpl; [|reflexivity].
  destruct (store_char (mem m) (string_ m) (string_length m) b); reflexivity.
Qed.

Lemma encode_utf8_add m uchar : encode_utf8 m uchar = add_utf8 m (utf8_bytes uchar).
Proof.
  unfold encode_utf8, utf8_bytes.
  destruct (uchar <=? 127); [apply STRING_ADD_add_utf8|].
  destruct (uchar <=? 2047); [reflexivity|].
  destruct (uchar <=? 65535); reflexivity.
Qed.

Lemma utf8_bytes_length uchar : (1 <= length (utf8_bytes uchar) <= 4)%nat.
Proof.
  unfold utf8_bytes.
  destruct (uchar <=? 127); [simpl; lia|].
  destruct (uchar <=? 2047); [simpl; lia|].
  destruct (uchar <=? 65535); simpl; lia.
Qed.

(** ** Steps that leave the memory alone *)

Lemma same_core_refl m : same_core m m.
Proof. repeat split. Qed.

Lemma top_is_same m m' P : top m' = top m -> mem m' = mem m -> top_is m P -> top_is m' P.
Proof. unfold top_is. intros -> ->. auto. Qed.

Lemma base_inv_same cfg m m' :
  same_core m m' -> 0 <= string_length m' ->
  (allow_comments cfg = false -> no_comment (flags m')) ->
  base_inv cfg m -> base_inv cfg m'.
Proof.
  intros (Hfp & Hmem & Htop & Hroot & Halloc) Hsl Hcom [F H P L K].
  split; auto.
  - congruence.
  - rewrite Hmem. exact H.
  - rewrite Hmem, Htop, Hroot, Halloc.
    destruct P as [P | (P1 & P2 & P3 & P4)]; [left; exact P | right].
    repeat split; auto. eapply top_is_same; eauto.
Qed.

Lemma flags_inv_same m m' :
  top m' = top m -> mem m' = mem m -> same_atoms (flags m) (flags m') ->
  flags_inv m -> flags_inv m'.
Proof.
  intros Htop Hmem (A1 & A2 & A3 & A4 & A5 & A6 & A7) [C D S T V].
  unfold no_comment in *.
  split; unfold no_comment; rewrite ?A1, ?A2, ?A3, ?A4, ?A5, ?A6, ?A7.
  - exact C.
  - intros H. destruct (D H) as [? ?]. split; auto. eapply top_is_same; eauto.
  - intros H1 H2. destruct (S H1 H2) as [? [?|?]]; split; auto.
    + left. congruence.
    + right. eapply top_is_same; eauto.
  - intros H. destruct (T H) as (? & ? & ? & ?). repeat split; auto; try tauto.
    eapply top_is_same; eauto.
  - intros H1 H2 H3. destruct (V H1 H2 H3) as [?|[? ?]]; [left | right; split; auto];
      eapply top_is_same; eauto.
Qed.


Lemma step_facts_same m m' :
  heap_wf (mem m) ->
  mem m' = mem m -> top m' = top m -> string_length m <= string_length m' ->
  (has (flags m) flag_string = true -> has (flags m') flag_string = true) ->
  (has (flags m) flag_seek_value = true -> has (flags m) flag_done = false ->
   has (flags m') flag_seek_value = true) ->
  (has (flags m) flag_done = false -> has (flags m') flag_done = false) ->
  step_facts m m'.
Proof.
  intros Hwf Hmem Htop Hsl Hstr Hseek Hdone.
  split; rewrite ?Hmem, ?Htop.
  - apply heap_le_refl. exact Hwf.
  - intros H a v Ht Hs Hty. left. auto.
  - intros H1 H2 a v Ht Hs Hty. left. repeat split; auto.
  - intros H1 H2 a v Ht Hs Hty. left. rewrite Hmem, Htop. repeat split; auto.
    exists v. repeat split; auto. lia.
  - intros H c vc p vp Hon Hc Hp Hvp. right. left. rewrite Hmem, Htop. split; auto.
    exists c, vc, vp. repeat split; auto. lia.
Qed.

(** ** Steps that update one shell *)

Lemma heap_wf_store mm a v v' :
  heap_wf mm -> shell mm a v ->
  parent v' = parent v -> _reserved v' = _reserved v ->
  is_container (type v') = is_container (type v) ->
  0 <= u_length v' <= uint_max -> (exists z, u_values v' = Pint z /\ 0 <= z) ->
  heap_wf (store mm a (Bvalue v')).
Proof.
  intros [Hall Hwf] Hs Hp Hr Hc Hl Hz.
  pose proof (shell_lt _ _ _ Hs) as Hlt.
  assert (Hsh : forall b vb, shell mm b vb ->
                 exists vb', shell (store mm a (Bvalue v')) b vb'
                             /\ is_container (type vb') = is_container (type vb)).
  { intros b vb Hb. destruct (Nat.eq_dec a b) as [<-|Hne].
    - exists v'. split; [apply shell_store_eq; auto|].
      rewrite (shell_inj _ _ _ _ Hb Hs). exact Hc.
    - exists vb. split; [apply shell_store_ne; auto | reflexivity]. }
  split.
  - intros b Hb. rewrite length_store in Hb. destruct (Hall b Hb) as (vb & Hvb).
    destruct (Hsh b vb Hvb) as (vb' & Hvb' & _). eauto.
  - intros b vb Hb.
    assert (Hold : exists vb0, shell mm b vb0 /\ parent vb = parent vb0
                               /\ _reserved vb = _reserved vb0
                               /\ 0 <= u_length vb <= uint_max
                               /\ (exists z, u_values vb = Pint z /\ 0 <= z)).
    { destruct (Nat.eq_dec a b) as [<-|Hne].
      - apply shell_store_eq in Hb; [|exact Hlt]. injection Hb as <-.
        exists v. repeat split; auto; lia.
      - apply shell_store_ne in Hb; [|exact Hne]. exists vb.
        destruct (Hwf b vb Hb) as (_ & H2 & H3 & _). repeat split; auto; lia. }
    destruct Hold as (vb0 & Hvb0 & Hpar & Hres & Hlen & Hval).
    destruct (Hwf b vb0 Hvb0) as (Hparent & _ & _ & Hchain).
    unfold value_wf. rewrite length_store, Hpar, Hres. repeat split; auto; try lia.
    destruct Hparent as [Hn | (p & vp & Hpp & Hlt' & Hvp & Hcont)]; [left; exact Hn | right].
    destruct (Hsh p vp Hvp) as (vp' & Hvp' & Hc').
    exists p, vp'. repeat split; auto. congruence.
Qed.

Lemma heap_le_store mm a v v' :
  heap_wf mm -> shell mm a v -> value_le v v' -> heap_le mm (store mm a (Bvalue v')).
Proof.
  intros [Hall Hwf] Hs Hle. split; [rewrite length_store; lia|].
  intros b vb Hb. destruct (Nat.eq_dec a b) as [<-|Hne].
  - exists v'. split; [apply shell_store_eq; eauto using shell_lt|].
    rewrite (shell_inj _ _ _ _ Hb Hs). exact Hle.
  - exists vb. split; [apply shell_store_ne; auto|]. eapply value_le_refl; eauto.
Qed.

Lemma on_stack_le mm mm' t c :
  heap_le mm mm' -> on_stack mm t c -> on_stack mm' t c.
Proof.
  intros [_ Hle] H. induction H.
  - constructor.
  - destruct (Hle a v H) as (v' & Hv' & (Hp & _)). econstructor; eauto. rewrite Hp. exact IHon_stack.
Qed.

Lemma on_stack_shell mm t c : on_stack mm t c -> forall v, shell mm c v -> t <> nullptr.
Proof. intros H. destruct H; intros; discriminate. Qed.

(** ** Steps that allocate a shell *)

Lemma shell_app_old mm mm' blk a v :
  heap mm' = heap mm ++ [blk] -> (a < length (heap mm))%nat ->
  (shell mm' a v <-> shell mm a v).
Proof.
  intros Hh Hlt. unfold shell. rewrite Hh, lookup_app_l by exact Hlt. reflexivity.
Qed.

Lemma shell_app_new mm mm' v :
  heap mm' = heap mm ++ [Some (Bvalue v)] -> shell mm' (length (heap mm)) v.
Proof.
  intros Hh. unfold shell. rewrite Hh, lookup_app_r by lia.
  rewrite Nat.sub_diag. reflexivity.
Qed.

(** The heap of the counting pass after [new_value]: the new shell [vnew]
    at the end, and the shell before it pointing to it. *)
Lemma push_shell mm mm1 vnew :
  heap_wf mm ->
  heap mm1 = heap mm ++ [Some (Bvalue zeroed_value)] ->
  ((heap mm = [] /\ parent vnew = nullptr) \/
   exists p vp, parent vnew = Pblk p 0 /\ shell mm p vp /\ is_container (type vp) = true) ->
  u_length vnew = 0 -> u_values vnew = nullptr -> _reserved vnew = nullptr ->
  let a := length (heap mm) in
  let mm2 := store mm1 a (Bvalue vnew) in
  forall mm3,
    (heap mm = [] /\ mm3 = mm2
     \/ exists vlast, shell mm (a - 1)%nat vlast
                      /\ mm3 = store mm2 (a - 1)%nat
                                 (Bvalue (set_reserved (Pblk a 0) vlast))) ->
    heap_wf mm3 /\ heap_le mm mm3 /\ shell mm3 a vnew
    /\ length (heap mm3) = S a
    /\ (forall x v, shell mm x v -> exists v', shell mm3 x v' /\ same_counts v v')
    /\ (forall x v', shell mm3 x v' ->
                     (x = a /\ v' = vnew) \/ exists v, shell mm x v /\ same_counts v v').
Proof.
  intros [Hall Hwf] Hh1 Hpar Hlen Hval Hres a mm2 mm3 H3.
  assert (Hl1 : length (heap mm1) = S a).
  { rewrite Hh1, length_app. simpl. lia. }
  assert (Hl2 : length (heap mm2) = S a).
  { unfold mm2. rewrite length_store. exact Hl1. }
  assert (Hl3 : length (heap mm3) = S a).
  { destruct H3 as [(_ & ->) | (vl & _ & ->)]; [|rewrite length_store]; exact Hl2. }
  assert (Hnew2 : shell mm2 a vnew).
  { unfold mm2. apply shell_store_eq; [lia | reflexivity]. }
  assert (Hold2 : forall x v, (x < a)%nat -> (shell mm2 x v <-> shell mm x v)).
  { intros x v Hx. unfold mm2. rewrite shell_store_ne by lia.
    apply shell_app_old with (blk := Some (Bvalue zeroed_value)); auto. }
  assert (Hnew3 : shell mm3 a vnew).
  { destruct H3 as [(_ & ->) | (vl & Hvl & ->)]; [exact Hnew2|].
    apply shell_store_ne; [|exact Hnew2]. apply shell_lt in Hvl. fold a in Hvl. lia. }
  (* every shell of mm3 against the shells of mm *)
  assert (Hfwd : forall x v, shell mm x v ->
            exists v', shell mm3 x v' /\ same_counts v v'
                       /\ _reserved v' = (if (S x <? S a)%nat then Pblk (S x) 0 else nullptr)).
  { intros x v Hx. pose proof (shell_lt _ _ _ Hx) as Hlt. fold a in Hlt.
    destruct (Hwf x v Hx) as (_ & _ & _ & Hchain). fold a in Hchain.
    destruct H3 as [(Hnil & ->) | (vl & Hvl & ->)].
    - exfalso. unfold a in Hlt. rewrite Hnil in Hlt. simpl in Hlt. lia.
    - destruct (Nat.eq_dec (a - 1)%nat x) as [<-|Hne].
      + exists (set_reserved (Pblk a 0) vl).
        rewrite (shell_inj _ _ _ _ Hx Hvl).
        split; [apply shell_store_eq; [lia | reflexivity]|]. split; [repeat split|]. simpl.
        replace (S (a - 1)) with a by lia.
        destruct (Nat.ltb_spec a (S a)); [reflexivity | lia].
      + exists v. split; [apply shell_store_ne; auto; apply Hold2; auto|].
        split; [repeat split|]. rewrite Hchain.
        destruct (Nat.ltb_spec (S x) a), (Nat.ltb_spec (S x) (S a)); try reflexivity; lia. }
  assert (Hbwd : forall x v', shell mm3 x v' ->
            (x = a /\ v' = vnew) \/ exists v, shell mm x v /\ same_counts v v').
  { intros x v' Hx. pose proof (shell_lt _ _ _ Hx) as Hlt. rewrite Hl3 in Hlt.
    destruct (Nat.eq_dec x a) as [->|Hne].
    - left. split; [reflexivity|]. eapply shell_inj; eauto.
    - right. destruct (Hall x ltac:(fold a; lia)) as (v & Hv).
      destruct (Hfwd x v Hv) as (v'' & Hv'' & Hsame & _).
      rewrite (shell_inj _ _ _ _ Hx Hv''). eauto. }
  split; [split|split; [|split; [|split; [|split]]]].
  - intros x Hx. rewrite Hl3 in Hx. destruct (Nat.eq_dec x a) as [->|Hne]; [eauto|].
    destruct (Hall x ltac:(fold a; lia)) as (v & Hv).
    destruct (Hfwd x v Hv) as (v' & Hv' & _). eauto.
  - intros x v' Hx. unfold value_wf. rewrite Hl3.
    destruct (Hbwd x v' Hx) as [(-> & ->) | (v & Hv & (Sp & St & Sl & Sv))].
    + rewrite Hlen, Hval, Hres. repeat split; try (unfold uint_max; lia).
      * destruct Hpar as [(Hnil & Hn) | (p & vp & Hp & Hvp & Hc)];
          [left; split; [unfold a; rewrite Hnil; reflexivity | exact Hn] | right].
        destruct (Hfwd p vp Hvp) as (vp' & Hvp' & (_ & Tp & _) & _).
        exists p, vp'. repeat split; auto; [eapply shell_lt; eauto | congruence].
      * exists 0. split; [reflexivity | lia].
      * destruct (Nat.ltb_spec (S a) (S a)); [lia | reflexivity].
    + destruct (Hwf x v Hv) as (Hp & Hl & Hz & _).
      destruct (Hfwd x v Hv) as (v'' & Hv'' & _ & Hr).
      rewrite (shell_inj _ _ _ _ Hx Hv''), <- (shell_inj _ _ _ _ Hx Hv'') in *.
      rewrite Sp, Sl, Sv. repeat split; auto; try lia.
      destruct Hp as [Hn | (p & vp & Hpp & Hlt & Hvp & Hc)]; [left; exact Hn | right].
      destruct (Hfwd p vp Hvp) as (vp' & Hvp' & (_ & Tp & _) & _).
      exists p, vp'. repeat split; auto. congruence.
  - split; [lia|].
    intros x v Hx. destruct (Hfwd x v Hx) as (v' & Hv' & (Sp & St & Sl & Sv) & _).
    exists v'. split; [exact Hv'|].
    destruct (Hwf x v Hx) as (_ & _ & (z & Hz & _) & _).
    repeat split; auto; try lia.
    + rewrite St. apply type_le_refl.
    + exists z, z. rewrite Sv. auto with zarith.
  - exact Hnew3.
  - exact Hl3.
  - intros x v Hx. destruct (Hfwd x v Hx) as (v' & Hv' & Hs & _). eauto.
  - exact Hbwd.
Qed.

Section Stages.
Variable pow : float -> float -> float.
Variable cfg : settings.
Variable json : list Z.

(** The escape switch is the decoded escape, added. *)
Lemma escaped_decoded m b :
  escaped json m b =
  match decode_escape json (ptr m) b with
  | Dec_ok cs d =>
      defined (add_utf8 (set_ptr (ptr m + d) (set_flags (bic (flags m) flag_escaped) m)) cs)
              Continue
  | Dec_bad d =>
      invalid_character_value b
        (set_ptr (ptr m + d) (set_flags (bic (flags m) flag_escaped) m))
  | Dec_undef => Undefined
  end.
Proof.
  assert (Hp0 : forall f, set_ptr (ptr m + 0) (set_flags f m) = set_flags f m).
  { intros f. rewrite Z.add_0_r. destruct m; reflexivity. }
  unfold escaped, decode_escape. cbv zeta.
  repeat match goal with
         | |- context [if ?b =? ?c then _ else _] =>
             lazymatch c with
             | chr "u" => fail
             | _ => destruct (b =? c); [rewrite Hp0; rewrite STRING_ADD_add_utf8; reflexivity|]
             end
         end.
  destruct (b =? chr "u").
  2:{ rewrite Hp0, STRING_ADD_add_utf8. reflexivity. }
  unfold escape_u. msimpl.
  destruct (end_ json - ptr m <=? 4); [rewrite Hp0; reflexivity|].
  destruct (read_hex4 json (ptr m)) as [[uchar|]|]; simpl; [| rewrite Hp0; reflexivity | reflexivity].
  unfold surrogate. msimpl.
  destruct (Z.land uchar 63488 =? 55296); simpl.
  2:{ rewrite encode_utf8_add. reflexivity. }
  destruct (end_ json - (ptr m + 4) <=? 6); simpl; [reflexivity|].
  destruct (deref json (ptr m + 4 + 1)) as [c1|]; simpl; [|reflexivity].
  destruct (negb (c1 =? chr "\")); simpl; [reflexivity|].
  destruct (deref json (ptr m + 4 + 2)) as [c2|]; simpl; [|reflexivity].
  destruct (negb (c2 =? chr "u")); simpl; [reflexivity|].
  destruct (read_hex4 json (ptr m + 4 + 2)) as [[uchar2|]|]; simpl; try reflexivity.
  rewrite encode_utf8_add. msimpl.
  replace (ptr m + 4 + 6) with (ptr m + (4 + 6)) by lia. reflexivity.
Qed.



Lemma add_utf8_first m cs :
  first_pass m = 1 ->
  add_utf8 m cs
  = Some (set_string_length (wrap_u32 (string_length m + Z.of_nat (length cs))) m).
Proof. intros H. unfold add_utf8. rewrite H. reflexivity. Qed.

Lemma wrap_u32_small z : 0 <= z < 2 ^ 32 -> wrap_u32 z = z.
Proof. intros H. unfold wrap_u32. apply Z.mod_small. exact H. Qed.

Lemma sf_stack_keep m m' :
  heap_le (mem m) (mem m') -> top m' = top m ->
  (has (flags m) flag_done = false -> has (flags m') flag_done = false) ->
  has (flags m) flag_done = false ->
  forall c vc p vp, on_stack (mem m) (top m) c -> shell (mem m) c vc ->
  parent vc = Pblk p 0 -> shell (mem m) p vp ->
  pending m' p (u_length vp).
Proof.
  intros Hle Htop Hd Hnd c vc p vp Hon Hc Hp Hvp. right. left. split; auto.
  pose proof Hle as [_ H].
  destruct (H c vc Hc) as (vc' & Hvc' & (Hpar & _)).
  destruct (H p vp Hvp) as (vp' & Hvp' & (_ & _ & Hl & _)).
  exists c, vc', vp'. repeat split; auto.
  - rewrite Htop. eapply on_stack_le; eauto.
  - congruence.
Qed.

Lemma string_add_counting m m' k :
  counting_inv cfg m -> has (flags m) flag_string = true ->
  string_length m <= uint_max -> 0 <= k <= 4 ->
  same_core m m' -> same_atoms (flags m) (flags m') ->
  string_length m' = wrap_u32 (string_length m + k) ->
  counting_inv cfg m' /\ step_facts m m'.
Proof.
  intros [Hb Hf] Hstr Hmax Hk Hcore Hat Hsl.
  pose proof (bi_length _ _ Hb) as H0.
  rewrite wrap_u32_small in Hsl by (unfold uint_max in Hmax; lia).
  pose proof Hcore as (Hfp & Hmem & Htop & Hroot & Halloc).
  pose proof Hat as (A1 & A2 & A3 & A4 & A5 & A6 & A7).
  split; [split|].
  - eapply base_inv_same; eauto; [lia|].
    intros Hc. pose proof (bi_comments _ _ Hb Hc) as [? ?]. split; congruence.
  - eapply flags_inv_same; eauto.
  - apply step_facts_same; auto; try congruence; try lia. apply Hb.
Qed.

Lemma decode_escape_length p b cs d :
  decode_escape json p b = Dec_ok cs d -> (length cs <= 4)%nat.
Proof.
  unfold decode_escape.
  repeat match goal with
         | |- context [if ?c then _ else _] => destruct c
         | |- context [match ?x with _ => _ end] => destruct x
         end; intros [= <- <-]; try (simpl; lia);
    match goal with |- context [utf8_bytes ?u] => pose proof (utf8_bytes_length u); lia end.
Qed.



Lemma close_string_counting m :
  counting_inv cfg m -> has (flags m) flag_string = true ->
  string_length m <= uint_max ->
  match close_string m with
  | Continue m' => counting_inv cfg m' /\ step_facts m m'
  | Fall mid =>
      next_ready cfg mid /\ step_facts m mid /\ no_comment (flags mid)
      /\ top_is mid (fun v => type v = json_string)
  | Break _ => False
  | _ => True
  end.
Proof.
  intros [Hb Hf] Hstr Hmax.
  pose proof (bi_length _ _ Hb) as H0. pose proof (bi_first _ _ Hb) as Hfp.
  pose proof (bi_heap _ _ Hb) as Hwf.
  destruct (fi_string _ Hf Hstr) as (Hseek & Hdone & Hcom & (a & v & Ht & Hv & Hty)).
  destruct (fi_clean _ Hf) as [Hnext Hreproc].
  unfold close_string. rewrite Hfp. simpl. msimpl.
  rewrite Ht, (load_value_at _ _ _ Hv). simpl. rewrite ?Hfp. simpl.
  destruct (proj2 Hwf a v Hv) as (Hpar & Hlen & (z & Hz & Hz0) & Hres).
  destruct Hty as [[Hty Hl0] | Hty]; rewrite Hty.
  - (* a string value *)
    assert (Hup : update_value (mem m) (Pblk a 0) (set_length (string_length m))
                  = Some (store (mem m) a (Bvalue (set_length (string_length m) v)))).
    { apply update_value_shell. eauto. }
    rewrite Hup. simpl.
    assert (Hle : value_le v (set_length (string_length m) v)).
    { repeat split; simpl; try lia. apply type_le_refl. exists z, z. auto with zarith. }
    assert (Hwf' : heap_wf (store (mem m) a (Bvalue (set_length (string_length m) v)))).
    { eapply heap_wf_store; eauto; simpl; eauto; lia. }
    assert (Hhle := heap_le_store _ _ _ _ Hwf Hv Hle).
    assert (Hsh : shell (store (mem m) a (Bvalue (set_length (string_length m) v))) a
                        (set_length (string_length m) v)).
    { apply shell_store_eq; eauto using shell_lt. }
    unfold no_comment in *. destruct Hcom as [Hc1 Hc2].
    split; [split|split; [|split]]; msimpl.
    + split; msimpl; auto.
      * destruct (bi_ptrs _ _ Hb) as [(E & _) | (E & R & A & _)].
        -- exfalso. apply shell_lt in Hv. rewrite E in Hv. simpl in Hv. lia.
        -- right. rewrite length_store. repeat split; auto.
           ++ unfold store. simpl. intros Hnil. apply (f_equal length) in Hnil.
              rewrite length_insert in Hnil. destruct (heap (mem m)); [congruence|discriminate].
           ++ exists a, (set_length (string_length m) v). msimpl. auto.
      * intros Hc. pose proof (bi_comments _ _ Hb Hc) as [? ?].
        unfold no_comment. flags_norm. auto.
    + flags_norm. reflexivity.
    + flags_norm. reflexivity.
    + flags_norm. exact Hdone.
    + flags_norm. exact Hseek.
    + exists a, (set_length (string_length m) v). msimpl. auto.
    + split; msimpl; auto.
      * intros _ a' v' Ht' Hv' Hty'. right. rewrite Ht in Ht'. injection Ht' as <-.
        exists (set_length (string_length m) v). split; auto. simpl. lia.
      * intros _ _ a' v' Ht' Hv' Hty'. rewrite Ht in Ht'. injection Ht' as <-.
        rewrite (shell_inj _ _ _ _ Hv' Hv) in Hty'. congruence.
      * congruence.
      * apply sf_stack_keep; msimpl; auto. flags_norm. auto.
    + flags_norm. auto.
    + exists a, (set_length (string_length m) v). msimpl. auto.
  - (* a member name *)
    set (v' := set_values (ptr_add (u_values v) (wrap_u32 (string_length m + 1))) v).
    assert (Hup : update_value (mem m) (Pblk a 0)
                    (fun v => set_values (ptr_add (u_values v) (wrap_u32 (string_length m + 1))) v)
                  = Some (store (mem m) a (Bvalue v'))).
    { apply update_value_shell. eauto. }
    rewrite Hup. simpl.
    assert (Hv'z : u_values v' = Pint (z + (string_length m + 1))).
    { unfold v'. simpl. rewrite Hz. simpl.
      rewrite wrap_u32_small by (unfold uint_max in Hmax; lia). reflexivity. }
    assert (Hle : value_le v v').
    { repeat split; simpl; try lia. apply type_le_refl.
      exists z, (z + (string_length m + 1)). repeat split; auto. lia. }
    assert (Hwf' : heap_wf (store (mem m) a (Bvalue v'))).
    { eapply heap_wf_store; eauto; simpl; eauto.
      exists (z + (string_length m + 1)). split; [exact Hv'z | lia]. }
    assert (Hhle := heap_le_store _ _ _ _ Hwf Hv Hle).
    assert (Hsh : shell (store (mem m) a (Bvalue v')) a v').
    { apply shell_store_eq; eauto using shell_lt. }
    unfold no_comment in *. destruct Hcom as [Hc1 Hc2].
    split; [split|]; msimpl.
    + split; msimpl; auto.
      * destruct (bi_ptrs _ _ Hb) as [(E & _) | (E & R & A & _)].
        -- exfalso. apply shell_lt in Hv. rewrite E in Hv. simpl in Hv. lia.
        -- right. rewrite length_store. repeat split; auto.
           ++ unfold store. simpl. intros Hnil. apply (f_equal length) in Hnil.
              rewrite length_insert in Hnil. destruct (heap (mem m)); [congruence|discriminate].
           ++ exists a, v'. msimpl. auto.
      * intros Hc. pose proof (bi_comments _ _ Hb Hc) as [? ?].
        unfold no_comment. flags_norm. auto.
    + split; msimpl; unfold no_comment; flags_norm.
      * auto.
      * congruence.
      * intros _ _. split; auto. right. exists a, v'. msimpl. repeat split; auto.
        unfold v'. simpl. rewrite Hty. reflexivity.
      * discriminate.
      * discriminate.
    + split; msimpl; auto.
      * intros _ a' v0 Ht' Hv0 Hty'. rewrite Ht in Ht'. injection Ht' as <-.
        rewrite (shell_inj _ _ _ _ Hv0 Hv) in Hty'. congruence.
      * intros _ _ a' v0 Ht' Hv0 Hty'. rewrite Ht in Ht'. injection Ht' as <-.
        rewrite (shell_inj _ _ _ _ Hv0 Hv) in *. right. split.
        -- exists v'. split; auto. unfold names_of. rewrite Hz, Hv'z. lia.
        -- left. msimpl. flags_norm. repeat split; auto.
           exists v'. repeat split; auto. simpl. lia.
      * congruence.
      * apply sf_stack_keep; msimpl; auto. flags_norm. auto.
Qed.



Lemma same_atoms_bic_escaped f : same_atoms f (bic f flag_escaped).
Proof. unfold same_atoms. flags_norm. repeat split. Qed.

Lemma same_atoms_bis_escaped f : same_atoms f (bis f flag_escaped).
Proof. unfold same_atoms. flags_norm. repeat split. Qed.

Lemma same_atoms_refl f : same_atoms f f.
Proof. repeat split. Qed.

Lemma in_string_counting m b :
  counting_inv cfg m -> has (flags m) flag_string = true ->
  match in_string json m b with
  | Continue m' => counting_inv cfg m' /\ step_facts m m'
  | Fall mid =>
      b = chr "034"
      /\ next_ready cfg mid /\ step_facts m mid /\ no_comment (flags mid)
      /\ top_is mid (fun v => type v = json_string)
  | Break _ => False
  | _ => True
  end.
Proof.
  intros Hinv Hstr. pose proof Hinv as [Hb Hf].
  pose proof (bi_first _ _ Hb) as Hfp.
  unfold in_string.
  destruct (b =? 0); [exact I|].
  destruct (string_length m >? uint_max) eqn:Hmax; [exact I|].
  assert (Hmax' : string_length m <= uint_max) by lia.
  destruct (has (flags m) flag_escaped).
  - rewrite escaped_decoded.
    destruct (decode_escape json (ptr m) b) as [cs d| |] eqn:Hdec; try exact I.
    rewrite add_utf8_first by (msimpl; exact Hfp). simpl.
    apply decode_escape_length in Hdec.
    eapply string_add_counting with (k := Z.of_nat (length cs)); eauto; msimpl.
    + lia.
    + unfold same_core; msimpl; repeat split.
    + apply same_atoms_bic_escaped.
  - destruct (b =? chr "\").
    + eapply string_add_counting with (k := 0); eauto; msimpl.
      * lia.
      * unfold same_core; msimpl; repeat split.
      * apply same_atoms_bis_escaped.
      * rewrite Z.add_0_r, wrap_u32_small; [reflexivity|].
        pose proof (bi_length _ _ Hb). unfold uint_max in Hmax'. lia.
    + destruct (b =? chr "034") eqn:Hq.
      * pose proof (close_string_counting m Hinv Hstr Hmax') as H.
        destruct (close_string m); auto.
        split; [lia | exact H].
      * rewrite STRING_ADD_add_utf8, add_utf8_first by exact Hfp. simpl.
        eapply string_add_counting with (k := 1); eauto; msimpl.
        -- lia.
        -- unfold same_core; msimpl; repeat split.
        -- apply same_atoms_refl.
Qed.



(** What a call of the allocation service leaves behind *)
Lemma json_alloc_inv m size zero shape p m' :
  json_alloc cfg m size zero shape = Some (p, m') ->
  same_locals m m'
  /\ ((p = nullptr /\ heap (mem m') = heap (mem m))
      \/ (p = Pblk (length (heap (mem m))) 0
          /\ heap (mem m') = heap (mem m) ++ [Some shape])).
Proof.
  unfold json_alloc.
  destruct (ulong_max - used_memory m <? size).
  { intros [= <- <-]. split; [repeat split | left; auto]. }
  assert (Hloc : same_locals m (if max_memory cfg =? 0 then m
                                else set_used_memory (wrap_u64 (used_memory m + size)) m)).
  { destruct (max_memory cfg =? 0); repeat split. }
  assert (Hmem : mem (if max_memory cfg =? 0 then m
                      else set_used_memory (wrap_u64 (used_memory m + size)) m) = mem m).
  { destruct (max_memory cfg =? 0); reflexivity. }
  revert Hloc Hmem.
  generalize (if max_memory cfg =? 0 then m
              else set_used_memory (wrap_u64 (used_memory m + size)) m).
  intros m1 Hloc Hmem.
  match goal with |- context [if ?c then _ else _] => destruct c end.
  { intros [= <- <-]. split; [exact Hloc | left; rewrite Hmem; auto]. }
  destruct (mem_alloc cfg) as [f|]; [|discriminate].
  unfold call_mem_alloc. rewrite Hmem.
  destruct (alloc_grants f (alloc_log (mem m)) size zero (user_data cfg));
    intros [= <- <-]; (split; [exact Hloc|]); msimpl; simpl; auto.
Qed.

(** [new_value] in the counting pass *)
Lemma new_value_counting m ty :
  base_inv cfg m ->
  (top m = nullptr \/ top_is m (fun v => is_container (type v) = true)) ->
  match new_value cfg m ty with
  | Some (true, m') =>
      let a := length (heap (mem m)) in
      let vnew := set_parent (top m) (set_type ty zeroed_value) in
      first_pass m' = 1 /\ flags m' = flags m /\ string_length m' = string_length m
      /\ ptr m' = ptr m /\ top m' = Pblk a 0 /\ alloc m' = Pblk a 0
      /\ root m' = Pblk 0%nat 0
      /\ heap_wf (mem m') /\ heap_le (mem m) (mem m') /\ shell (mem m') a vnew
      /\ length (heap (mem m')) = S a
      /\ (forall x v, shell (mem m) x v -> exists v', shell (mem m') x v' /\ same_counts v v')
      /\ (forall x v', shell (mem m') x v' ->
                       (x = a /\ v' = vnew) \/ exists v, shell (mem m) x v /\ same_counts v v')
  | _ => True
  end.
Proof.
  intros Hb Htop. pose proof (bi_first _ _ Hb) as Hfp. pose proof (bi_heap _ _ Hb) as Hwf.
  unfold new_value. rewrite Hfp. simpl.
  destruct (json_alloc cfg m (shell_bytes cfg) true
              (Bvalue zeroed_value)) as [[p m1]|] eqn:Hja; [|exact I].
  simpl.
  apply json_alloc_inv in Hja
    as ((L1 & L2 & L3 & L4 & L5 & L6 & L7 & L8 & L9 & L10 & L11 & L12 & L13)
        & [(-> & Hh) | (-> & Hh)]); [exact I|].
  simpl.
  set (a := length (heap (mem m))).
  set (vnew := set_parent (top m) (set_type ty zeroed_value)).
  assert (Hpar : (heap (mem m) = [] /\ parent vnew = nullptr) \/
                 exists p vp, parent vnew = Pblk p 0 /\ shell (mem m) p vp
                              /\ is_container (type vp) = true).
  { unfold vnew. simpl. destruct Htop as [Hnull | (p & vp & Hp & Hvp & Hc)].
    - left. destruct (bi_ptrs _ _ Hb) as [(E & _) | (_ & _ & _ & (a' & v' & Ht & _))].
      + split; [exact E | exact Hnull].
      + rewrite Hnull in Ht. discriminate.
    - right. exists p, vp. auto. }
  assert (Hup : forall mx, mem mx = mem m1 -> top mx = top m ->
                update_value (mem mx) (Pblk a 0)
                  (fun v => set_parent (top mx) (set_type ty v))
                = Some (store (mem m1) a (Bvalue vnew))).
  { intros mx Hmx Htx. rewrite Hmx, Htx. apply update_value_shell.
    exists a, zeroed_value. repeat split.
    apply (shell_app_new (mem m) (mem m1)). exact Hh. }
  destruct (bi_ptrs _ _ Hb) as [(E & _ & R & Al) | (E & R & Al & _)].
  - (* the first shell *)
    rewrite L6, R. simpl. rewrite Hup by (msimpl; auto). simpl. msimpl.
    rewrite L7, Al. simpl. msimpl.
    destruct (push_shell (mem m) (mem m1) vnew Hwf Hh Hpar eq_refl eq_refl eq_refl
                (store (mem m1) a (Bvalue vnew)) (or_introl (conj E eq_refl)))
      as (H1 & H2 & H3 & H4 & H5 & H6).
    split_all; auto; try congruence.
    unfold a. rewrite E. reflexivity.
  - (* a later one *)
    rewrite L6, R. simpl. rewrite Hup by auto. simpl. msimpl.
    rewrite L7, Al. simpl.
    assert (Hlast : exists vlast, shell (mem m) (a - 1)%nat vlast).
    { destruct Hwf as [Hall _]. apply Hall. unfold a. destruct (heap (mem m)); [congruence|].
      simpl. lia. }
    destruct Hlast as (vlast & Hvlast).
    assert (Hup2 : update_value (store (mem m1) a (Bvalue vnew)) (Pblk (a - 1)%nat 0)
                     (set_reserved (Pblk a 0))
                   = Some (store (store (mem m1) a (Bvalue vnew)) (a - 1)%nat
                                 (Bvalue (set_reserved (Pblk a 0) vlast)))).
    { apply update_value_shell. exists (a - 1)%nat, vlast. repeat split.
      pose proof (shell_lt _ _ _ Hvlast) as Hlt. fold a in Hlt.
      apply shell_store_ne; [lia|].
      apply (shell_app_old (mem m) (mem m1) (Some (Bvalue zeroed_value))); auto. }
    fold a. rewrite Hup2. simpl.
    destruct (push_shell (mem m) (mem m1) vnew Hwf Hh Hpar eq_refl eq_refl eq_refl
                _ (or_intror (ex_intro _ vlast (conj Hvlast eq_refl))))
      as (H1 & H2 & H3 & H4 & H5 & H6).
    msimpl. split_all; auto; congruence.
Qed.



Lemma type_eqb_eq t t' : type_eqb t t' = true <-> t = t'.
Proof. destruct t, t'; simpl; split; congruence. Qed.

Lemma on_stack_inv mm a c :
  on_stack mm (Pblk a 0) c ->
  c = a \/ exists v, shell mm a v /\ on_stack mm (parent v) c.
Proof. intros H. inversion H; subst; eauto. Qed.

Lemma on_stack_null mm c : ~ on_stack mm nullptr c.
Proof. intros H. inversion H. Qed.

(** The end of the loop body after a value has been completed *)
Lemma next_counting mid :
  next_ready cfg mid ->
  match next mid with
  | Continue m' => counting_inv cfg m' /\ step_facts mid m'
  | Fall _ | Break _ => False
  | _ => True
  end.
Proof.
  intros [Hb Hnext Hstr Hdone Hseek (a & t & Ht & Hta & _)].
  pose proof (bi_first _ _ Hb) as Hfp. pose proof (bi_heap _ _ Hb) as Hwf.
  pose proof (bi_length _ _ Hb) as Hsl.
  unfold next.
  set (m1 := if has (flags mid) flag_reproc
             then set_ptr (ptr mid - 1) (set_flags (bic (flags mid) flag_reproc) mid)
             else mid).
  assert (Hcore : same_core mid m1) by (unfold m1; destruct (has (flags mid) flag_reproc); repeat split).
  assert (Hsl1 : string_length m1 = string_length mid)
    by (unfold m1; destruct (has (flags mid) flag_reproc); reflexivity).
  assert (Hfl : forall x, Z.land (Z.lnot 2) x = x -> has (flags m1) x = has (flags mid) x).
  { intros x Hx. unfold m1. destruct (has (flags mid) flag_reproc); [|reflexivity].
    msimpl. rewrite has_bic. change flag_reproc with 2. rewrite Hx. reflexivity. }
  assert (Hrep : has (flags m1) flag_reproc = false).
  { unfold m1. destruct (has (flags mid) flag_reproc) eqn:E; [|exact E]. msimpl. flags_norm.
    reflexivity. }
  destruct Hcore as (C1 & C2 & C3 & C4 & C5).
  clearbody m1.
  rewrite (Hfl flag_next eq_refl), Hnext. msimpl. rewrite C2, C3, Ht, (load_value_at _ _ _ Hta).
  simpl.
  assert (Hcom : allow_comments cfg = false -> no_comment (flags m1)).
  { intros Hc. destruct (bi_comments _ _ Hb Hc) as [? ?]. unfold no_comment.
    rewrite (Hfl flag_line_comment eq_refl), (Hfl flag_block_comment eq_refl). auto. }
  pose proof (Hfl flag_done eq_refl) as Fd. pose proof (Hfl flag_seek_value eq_refl) as Fs.
  pose proof (Hfl flag_string eq_refl) as Fst.
  pose proof (Hfl flag_line_comment eq_refl) as Fl.
  pose proof (Hfl flag_block_comment eq_refl) as Fb.
  rewrite Hdone in Fd. rewrite Hseek in Fs. rewrite Hstr in Fst.
  destruct (proj2 Hwf a t Hta) as (Hpar & _).
  destruct (is_null (parent t)) eqn:Hnull.
  - (* the root is complete *)
    assert (Hpn : parent t = nullptr).
    { destruct (parent t) as [z|]; [|discriminate]. simpl in Hnull.
      apply Z.eqb_eq in Hnull. subst. reflexivity. }
    split; [split|]; msimpl.
    + eapply base_inv_same; eauto; msimpl.
      * repeat split; auto.
      * lia.
      * intros Hc. destruct (Hcom Hc). unfold no_comment. flags_norm. auto.
    + split; msimpl; unfold no_comment; flags_norm; rewrite ?Fs, ?Fst, ?Hrep; try discriminate.
      * auto.
      * intros _. split; auto. exists a, t. msimpl. rewrite C2, C3. auto.
    + split; msimpl; rewrite ?C2; try congruence.
      * apply heap_le_refl. exact Hwf.
      * intros _ c vc p vp Hon Hc Hp Hvp. exfalso.
        rewrite Ht in Hon. apply on_stack_inv in Hon as [-> | (v & Hv & Hon)].
        -- rewrite (shell_inj _ _ _ _ Hc Hta) in Hp. rewrite Hpn in Hp. discriminate.
        -- rewrite (shell_inj _ _ _ _ Hv Hta), Hpn in Hon. eapply on_stack_null; eauto.
  - (* climb to the parent *)
    destruct Hpar as [(_ & Hpn) | (p & vp & Hp & Hlt & Hvp & Hcont)];
      [rewrite Hpn in Hnull; discriminate|].
    rewrite Hp, (load_value_at _ _ _ Hvp). simpl.
    destruct (proj2 Hwf p vp Hvp) as (Hppar & Hplen & (z & Hz & Hz0) & Hpres).
    assert (Hup : update_value (mem mid) (Pblk p 0) (set_length (wrap_u32 (u_length vp + 1)))
                  = Some (store (mem mid) p
                                (Bvalue (set_length (wrap_u32 (u_length vp + 1)) vp)))).
    { apply update_value_shell. eauto. }
    rewrite wrap_u32_small in Hup by (unfold uint_max in Hplen; lia).
    set (vp' := set_length (u_length vp + 1) vp) in *.
    assert (Hle : value_le vp vp').
    { repeat split; simpl; try lia. apply type_le_refl. exists z, z. auto with zarith. }
    assert (Hhle := heap_le_store _ _ _ _ Hwf Hvp Hle).
    assert (Hsh : shell (store (mem mid) p (Bvalue vp')) p vp').
    { apply shell_store_eq; eauto using shell_lt. }
    pose proof (Hfl flag_next eq_refl) as Fn. rewrite Hnext in Fn.
    assert (Hobj : type_eqb (type vp) json_array = false -> type vp' = json_object).
    { intros Harr. unfold vp'. simpl. unfold is_container in Hcont. rewrite Harr in Hcont.
      simpl in Hcont. apply type_eqb_eq. exact Hcont. }
    destruct (type_eqb (type vp) json_array) eqn:Harr; msimpl; rewrite C1, Hfp; simpl;
      rewrite C2, wrap_u32_small by (unfold uint_max in Hplen; lia); rewrite Hup; simpl;
      (destruct (u_length vp + 1 >? uint_max) eqn:Hov; [exact I|]);
      (assert (Hwf' : heap_wf (store (mem mid) p (Bvalue vp')))
        by (eapply heap_wf_store; eauto; simpl; eauto; lia));
      (split; [split|]; msimpl).
    1,4: (split; msimpl; auto;
              [ congruence | 
                destruct (bi_ptrs _ _ Hb) as [(E & _) | (E & R & A & _)];
                [ exfalso; apply shell_lt in Hta; rewrite E in Hta; simpl in Hta; lia
                | right; rewrite length_store; split_all; try congruence;
                  [ unfold store; simpl; intros Hnil; apply (f_equal length) in Hnil;
                    rewrite length_insert in Hnil;
                    destruct (heap (mem mid)); [congruence|discriminate]
                  | exists p, vp'; msimpl; auto ] ]
              | lia
              | intros Hc; specialize (Hcom Hc); destruct Hcom as [? ?]; unfold no_comment;
                flags_norm; auto ]).
    1,3: (split; msimpl; unfold no_comment; flags_norm;
              rewrite ?Fn, ?Fd, ?Fs, ?Fst, ?Hrep; try discriminate; auto; intros).
    1: (split; auto; right; exists p, vp'; msimpl; split_all; auto).
    1: (left; exists p, vp'; msimpl; split_all; auto).
    all: split; msimpl; rewrite ?Hstr, ?Hseek; try discriminate; try exact Hhle.
    all: intros _ c vc q vq Hon Hc Hq Hvq;
      rewrite Ht in Hon; apply on_stack_inv in Hon as [-> | (v & Hv & Hon)].
    1,3: (rewrite (shell_inj _ _ _ _ Hc Hta), Hp in Hq; injection Hq as <-;
        rewrite (shell_inj _ _ _ _ Hvq Hvp);
        right; right; exists vp'; msimpl; split; auto; simpl; lia).
    all: rewrite (shell_inj _ _ _ _ Hv Hta), Hp in Hon;
        right; left; msimpl; flags_norm; rewrite Fd; split; auto;
        pose proof Hhle as [_ Hl];
        destruct (Hl c vc Hc) as (vc' & Hvc' & (Hcp & _));
        destruct (Hl q vq Hvq) as (vq' & Hvq' & (_ & _ & Hql & _));
        exists c, vc', vq'; split_all; auto; try congruence;
        eapply on_stack_le; eauto.
Qed.

(** Without [flag_next] the end of the loop body only steps back for a
    byte to look at again. *)
Lemma next_plain m :
  has (flags m) flag_next = false ->
  next m = Continue (if has (flags m) flag_reproc
                     then set_ptr (ptr m - 1) (set_flags (bic (flags m) flag_reproc) m)
                     else m).
Proof.
  intros H. unfold next. destruct (has (flags m) flag_reproc) eqn:E; msimpl.
  - flags_norm. rewrite H. reflexivity.
  - rewrite H. reflexivity.
Qed.

Lemma next_step m mid :
  heap_wf (mem m) -> next_ready cfg mid -> step_facts m mid ->
  counting_step cfg m (next mid).
Proof.
  intros Hwf Hr Hs. pose proof (next_counting mid Hr) as H.
  destruct (next mid); simpl; auto. destruct H as [Hc Hs'].
  split; auto. apply (step_facts_trans m mid m0); auto. apply Hr.
Qed.

Lemma WHITESPACE_same b m m' :
  WHITESPACE b m = Some m' ->
  same_core m m' /\ flags m' = flags m /\ string_length m' = string_length m.
Proof.
  unfold WHITESPACE. intros H.
  destruct (b =? chr "010"); [injection H as <-; repeat split|].
  destruct ((b =? chr " ") || (b =? chr "009") || (b =? chr "013")); [|discriminate].
  injection H as <-. repeat split.
Qed.

(** A step that changes neither the memory nor [top], and no flag that the
    invariant looks at but for the comment flags *)
Lemma quiet_step m m' :
  counting_inv cfg m -> same_core m m' -> string_length m' = string_length m ->
  same_atoms (flags m) (flags m') ->
  counting_inv cfg m' /\ step_facts m m'.
Proof.
  intros [Hb Hf] Hc Hl Ha.
  pose proof Hc as (C1 & C2 & C3 & C4 & C5).
  pose proof Ha as (A1 & A2 & A3 & A4 & A5 & A6 & A7).
  split; [split|].
  - eapply base_inv_same; eauto.
    + rewrite Hl. apply Hb.
    + intros Hcm. destruct (bi_comments _ _ Hb Hcm). unfold no_comment. rewrite A6, A7. auto.
  - eapply flags_inv_same; eauto.
  - apply step_facts_same; auto; try congruence.
    + apply Hb.
    + lia.
Qed.

Lemma done_counting m b :
  counting_inv cfg m -> has (flags m) flag_done = true ->
  match done_ m b with
  | Continue m' => counting_inv cfg m' /\ step_facts m m'
  | Break m' => m' = m
  | Failed _ _ => True
  | _ => False
  end.
Proof.
  intros Hi Hd. unfold done_. destruct (b =? 0); [reflexivity|].
  destruct (WHITESPACE b m) as [m'|] eqn:E; [|exact I].
  apply WHITESPACE_same in E as (Hc & Hf & Hl).
  apply quiet_step; auto. rewrite Hf. apply same_atoms_refl.
Qed.

(** A step of the comment stage: only the comment flags and the cursor
    change. *)
Lemma comment_step m m' :
  counting_inv cfg m -> same_core m m' -> string_length m' = string_length m ->
  has (flags m) flag_string = false -> allow_comments cfg = true ->
  has (flags m') flag_next = has (flags m) flag_next ->
  has (flags m') flag_reproc = has (flags m) flag_reproc ->
  has (flags m') flag_done = has (flags m) flag_done ->
  has (flags m') flag_seek_value = has (flags m) flag_seek_value ->
  has (flags m') flag_string = has (flags m) flag_string ->
  (has (flags m) flag_seek_value = false -> has (flags m) flag_done = false ->
   top_is m (fun v => is_number (type v) = true) -> no_comment (flags m')) ->
  counting_inv cfg m' /\ step_facts m m'.
Proof.
  intros [Hb [C D S T V]] Hc Hl Hs Hall A1 A2 A3 A4 A5 Hn.
  pose proof Hc as (C1 & C2 & C3 & C4 & C5).
  split; [split|].
  - eapply base_inv_same; eauto.
    + rewrite Hl. apply Hb.
    + congruence.
  - split; rewrite ?A1, ?A2, ?A3, ?A4, ?A5.
    + exact C.
    + intros H. destruct (D H) as [? ?]. split; auto. eapply top_is_same; eauto.
    + intros H1 H2. destruct (S H1 H2) as [? [?|?]]; split; auto.
      * left. congruence.
      * right. eapply top_is_same; eauto.
    + congruence.
    + intros H1 H2 H3. destruct (V H1 H2 H3) as [?|[? ?]]; [left | right; split; auto];
        eapply top_is_same; eauto.
  - apply step_facts_same; auto; try congruence.
    + apply Hb.
    + lia.
Qed.

Lemma comments_counting m b :
  counting_inv cfg m -> has (flags m) flag_string = false -> allow_comments cfg = true ->
  match comments json m b with
  | Continue m' => counting_inv cfg m' /\ step_facts m m'
  | Fall m' => m' = m /\ no_comment (flags m)
  | Break _ => False
  | _ => True
  end.
Proof.
  intros Hi Hs Hall. pose proof Hi as [Hb Hf]. unfold comments.
  assert (Hq : counting_inv cfg m /\ step_facts m m).
  { apply quiet_step; auto using same_core_refl, same_atoms_refl. }
  rewrite has_lor.
  destruct (has (flags m) flag_line_comment) eqn:Hl; simpl.
  { destruct ((b =? chr "013") || (b =? chr "010") || (b =? 0)); [|exact Hq].
    apply comment_step; auto; msimpl; flags_norm; auto.
    - repeat split.
    - intros H1 H2 Ht. destruct (fi_value _ Hf) as [Hv | [_ [Hv _]]]; auto.
      + destruct Ht as (a & v & Ha & Hv1 & Hn). destruct Hv as (a' & v' & Ha' & Hv' & Ho).
        rewrite Ha in Ha'. injection Ha' as <-. rewrite (shell_inj _ _ _ _ Hv1 Hv') in Hn.
        rewrite Ho in Hn. discriminate.
      + flag_consts. congruence. }
  destruct (has (flags m) flag_block_comment) eqn:Hk; simpl.
  { destruct (b =? 0); [exact I|].
    destruct ((b =? chr "*") && (ptr m <? end_ json - 1)); [|exact Hq].
    destruct (deref json (ptr m + 1)) as [c|]; simpl; [|exact I].
    destruct (c =? chr "/"); [|exact Hq].
    apply comment_step; auto; msimpl; flags_norm; auto.
    - repeat split.
    - intros H1 H2 Ht. destruct (fi_value _ Hf) as [Hv | [_ [_ Hv]]]; auto.
      + destruct Ht as (a & v & Ha & Hv1 & Hn). destruct Hv as (a' & v' & Ha' & Hv' & Ho).
        rewrite Ha in Ha'. injection Ha' as <-. rewrite (shell_inj _ _ _ _ Hv1 Hv') in Hn.
        rewrite Ho in Hn. discriminate.
      + flag_consts. congruence. }
  destruct (b =? chr "/"); [|split; [reflexivity|split; assumption]].
  rewrite has_lor.
  assert (Hal : forall allowed,
    (if has (flags m) flag_seek_value || has (flags m) flag_done then Some true
     else t ← load_value (mem m) (top m); Some (type_eqb (type t) json_object)) = Some allowed ->
    allowed = true ->
    has (flags m) flag_seek_value = false -> has (flags m) flag_done = false ->
    top_is m (fun v => is_number (type v) = true) -> False).
  { intros al E -> H1 H2 (a & v & Ha & Hv & Hn). rewrite H1, H2 in E. simpl in E.
    rewrite Ha, (load_value_at _ _ _ Hv) in E. simpl in E. injection E as E.
    apply type_eqb_eq in E. rewrite E in Hn. discriminate. }
  destruct (if has (flags m) flag_seek_value || has (flags m) flag_done then Some true
            else t ← load_value (mem m) (top m); Some (type_eqb (type t) json_object))
    as [allowed|] eqn:E; simpl; [|exact I].
  destruct allowed; simpl; [|exact I]. specialize (Hal true eq_refl eq_refl).
  destruct (ptr m + 1 =? end_ json); [exact I|].
  destruct (deref json (ptr m + 1)) as [c|]; simpl; [|exact I].
  destruct (c =? chr "/"); [|destruct (c =? chr "*"); [|exact I]].
  - apply comment_step; auto; msimpl; flags_norm; auto.
    + repeat split.
    + intros H1 H2 Ht. exfalso. flag_consts. eauto.
  - apply comment_step; auto; msimpl; flags_norm; auto.
    + repeat split.
    + intros H1 H2 Ht. exfalso. flag_consts. eauto.
Qed.

(** ** Scalars written to a shell *)

Lemma kept_container v v' : kept v v' -> is_container (type v') = is_container (type v).
Proof. intros (_ & _ & _ & _ & [-> | [-> ->]]); reflexivity. Qed.

Lemma kept_number v v' : kept v v' -> is_number (type v') = is_number (type v).
Proof. intros (_ & _ & _ & _ & [-> | [-> ->]]); reflexivity. Qed.

Lemma kept_type v v' t : kept v v' -> is_number t = false -> type v = t -> type v' = t.
Proof. intros (_ & _ & _ & _ & [-> | [-> ->]]) Hn; auto. intros <-. discriminate. Qed.

Lemma store_kept mm a v v' :
  heap_wf mm -> shell mm a v -> kept v v' ->
  heap_wf (store mm a (Bvalue v')) /\ heap_le mm (store mm a (Bvalue v'))
  /\ shell (store mm a (Bvalue v')) a v'.
Proof.
  intros Hwf Hv Hk. pose proof Hk as (K1 & K2 & K3 & K4 & K5).
  destruct (proj2 Hwf a v Hv) as (_ & Hl & (z & Hz & Hz0) & _).
  split_all.
  - eapply heap_wf_store; eauto.
    + apply kept_container. exact Hk.
    + rewrite K2. exact Hl.
    + exists z. rewrite K3. auto.
  - eapply heap_le_store; eauto. unfold value_le. split_all; auto.
    + lia.
    + exists z, z. rewrite K3. split_all; auto. lia.
  - apply shell_store_eq; [eapply shell_lt; eauto | reflexivity].
Qed.

Lemma top_is_store m m' a v v' (P : json_value -> Prop) :
  top m' = top m -> mem m' = store (mem m) a (Bvalue v') -> shell (mem m) a v ->
  (P v -> P v') -> top_is m P -> top_is m' P.
Proof.
  intros Ht Hm Hv HP (x & w & Hx & Hw & Hpw). unfold top_is. rewrite Ht, Hm.
  destruct (Nat.eq_dec a x) as [<-|Hne].
  - rewrite (shell_inj _ _ _ _ Hw Hv) in Hpw. exists a, v'. split_all; auto.
    apply shell_store_eq; [eapply shell_lt; eauto | reflexivity].
  - exists x, w. split_all; auto. apply shell_store_ne; auto.
Qed.

Lemma base_inv_store m m' a v v' :
  base_inv cfg m -> shell (mem m) a v -> kept v v' ->
  first_pass m' = first_pass m -> top m' = top m -> root m' = root m -> alloc m' = alloc m ->
  mem m' = store (mem m) a (Bvalue v') -> 0 <= string_length m' ->
  (allow_comments cfg = false -> no_comment (flags m')) ->
  base_inv cfg m'.
Proof.
  intros Hb Hv Hk H1 H2 H3 H4 Hm Hs Hc.
  destruct (store_kept _ _ _ _ (bi_heap _ _ Hb) Hv Hk) as (Hwf & Hle & Hsh).
  split; auto.
  - rewrite H1. apply Hb.
  - rewrite Hm. exact Hwf.
  - destruct (bi_ptrs _ _ Hb) as [(E & _) | (E & R & A & T)].
    + apply shell_lt in Hv. rewrite E in Hv. simpl in Hv. lia.
    + right. rewrite Hm at 1 2. rewrite length_store. split_all; try congruence.
      * intros Hnil. apply (f_equal length) in Hnil. rewrite length_store in Hnil.
        destruct (heap (mem m)); [congruence|discriminate].
      * eapply top_is_store; eauto.
Qed.

Lemma flags_inv_store m m' a v v' :
  flags_inv m -> shell (mem m) a v -> kept v v' ->
  top m' = top m -> mem m' = store (mem m) a (Bvalue v') ->
  same_atoms (flags m) (flags m') ->
  flags_inv m'.
Proof.
  intros [C D S T V] Hv Hk Ht Hm (A1 & A2 & A3 & A4 & A5 & A6 & A7).
  pose proof Hk as (K1 & K2 & K3 & K4 & K5).
  split; unfold no_comment in *; rewrite ?A1, ?A2, ?A3, ?A4, ?A5, ?A6, ?A7.
  - exact C.
  - intros H. destruct (D H) as [? ?]. split; auto. eapply top_is_store; eauto. congruence.
  - intros H1 H2. destruct (S H1 H2) as [? [?|?]]; split; auto.
    + left. congruence.
    + right. eapply top_is_store; eauto. rewrite (kept_container _ _ Hk). auto.
  - intros H. destruct (T H) as (? & ? & ? & ?). split_all; auto; try tauto.
    eapply top_is_store; eauto. intros [[? ?]|?]; [left; split|right].
    + eapply kept_type; eauto.
    + congruence.
    + eapply kept_type; eauto.
  - intros H1 H2 H3. destruct (V H1 H2 H3) as [?|[? ?]]; [left | right; split; auto];
      eapply top_is_store; eauto.
    + intros ?. eapply kept_type; eauto.
    + rewrite (kept_number _ _ Hk). auto.
Qed.

Lemma keep_step_facts m m' :
  heap_le (mem m) (mem m') -> top m' = top m ->
  has (flags m) flag_string = false -> has (flags m) flag_seek_value = false ->
  (has (flags m) flag_done = false -> has (flags m') flag_done = false) ->
  step_facts m m'.
Proof.
  intros Hle Ht Hs Hk Hd. split; rewrite ?Hs, ?Hk; try discriminate; auto.
  intros H. apply sf_stack_keep; auto.
Qed.

(** ** A value opened while a value is sought *)

Lemma push_step m m0 ty m' :
  counting_inv cfg m ->
  has (flags m) flag_string = false -> has (flags m) flag_done = false ->
  has (flags m) flag_seek_value = true ->
  same_core m m0 -> string_length m0 = string_length m ->
  (allow_comments cfg = false -> no_comment (flags m0)) ->
  new_value cfg m0 ty = Some (true, m') ->
  let a := length (heap (mem m)) in
  let vnew := set_parent (top m) (set_type ty zeroed_value) in
  flags m' = flags m0 /\ ptr m' = ptr m0 /\ first_pass m' = 1
  /\ string_length m' = string_length m
  /\ forall m'',
      first_pass m'' = first_pass m' -> mem m'' = mem m' -> top m'' = top m' ->
      root m'' = root m' -> alloc m'' = alloc m' -> 0 <= string_length m'' ->
      (allow_comments cfg = false -> no_comment (flags m'')) ->
      has (flags m'') flag_done = false ->
      base_inv cfg m'' /\ step_facts m m'' /\ top m'' = Pblk a 0 /\ shell (mem m'') a vnew.
Proof.
  intros [Hb Hf] Hs Hd Hk Hc Hl Hcom Hnew a vnew. subst a vnew.
  pose proof Hc as (C1 & C2 & C3 & C4 & C5).
  assert (Hb0 : base_inv cfg m0).
  { eapply base_inv_same; eauto. rewrite Hl. apply Hb. }
  assert (Htop : top m0 = nullptr \/ top_is m0 (fun v => is_container (type v) = true)).
  { destruct (fi_seek _ Hf Hk Hd) as [_ [H|H]]; [left; congruence|right].
    eapply top_is_same; eauto. }
  pose proof (new_value_counting m0 ty Hb0 Htop) as H. rewrite Hnew in H.
  cbv zeta in H. rewrite C2, C3 in H.
  destruct H as (N1 & N2 & N3 & N4 & N5 & N6 & N7 & N8 & N9 & N10 & N11 & N12 & N13).
  split_all; auto; [congruence|].
  intros m'' M1 M2 M3 M4 M5 M6 M7 M8.
  set (a := length (heap (mem m))) in *.
  set (vnew := set_parent (top m) (set_type ty zeroed_value)) in *.
  assert (Hsh : shell (mem m'') a vnew) by (rewrite M2; exact N10).
  split_all; auto.
  - split; auto; try congruence.
    right. rewrite M2, M4, M5, N11. simpl. rewrite Nat.sub_0_r. split_all; auto.
    + intros E. rewrite E in N11. discriminate.
    + exists a, vnew. split_all; auto. rewrite M3. exact N5.
  - split; rewrite ?Hs; try discriminate.
    + rewrite M2. exact N9.
    + intros _ _ x v Hx Hv Hty. right. left. split; auto.
      destruct (N12 x v Hv) as (v' & Hv' & (S1 & S2 & S3 & S4)).
      exists a, vnew, v'. rewrite M2, M3, N5. split_all; auto.
      * constructor.
      * lia.
    + intros _ c vc q vq Hon Hcv Hq Hvq. right. left. split; auto.
      destruct (N12 c vc Hcv) as (vc' & Hvc' & (S1 & S2 & S3 & S4)).
      destruct (N12 q vq Hvq) as (vq' & Hvq' & (T1 & T2 & T3 & T4)).
      exists c, vc', vq'. rewrite M2, M3, N5. split_all; auto; try congruence; try lia.
      econstructor; [exact N10|]. simpl. eapply on_stack_le; eauto.
  - congruence.
Qed.

Lemma with_new_value_counting m m0 ty k :
  counting_inv cfg m ->
  has (flags m) flag_string = false -> has (flags m) flag_done = false ->
  has (flags m) flag_seek_value = true ->
  same_core m m0 -> string_length m0 = string_length m ->
  (allow_comments cfg = false -> no_comment (flags m0)) ->
  (forall m',
     let a := length (heap (mem m)) in
     let vnew := set_parent (top m) (set_type ty zeroed_value) in
     flags m' = flags m0 -> ptr m' = ptr m0 -> first_pass m' = 1 ->
     string_length m' = string_length m ->
     (forall m'',
        first_pass m'' = first_pass m' -> mem m'' = mem m' -> top m'' = top m' ->
        root m'' = root m' -> alloc m'' = alloc m' -> 0 <= string_length m'' ->
        (allow_comments cfg = false -> no_comment (flags m'')) ->
        has (flags m'') flag_done = false ->
        base_inv cfg m'' /\ step_facts m m'' /\ top m'' = Pblk a 0
        /\ shell (mem m'') a vnew) ->
     counting_step cfg m (and_then (k m') next)) ->
  counting_step cfg m (and_then (with_new_value cfg m0 ty k) next).
Proof.
  intros Hi Hs Hd Hk Hc Hl Hcom Hcont. unfold with_new_value.
  destruct (new_value cfg m0 ty) as [[[|] m']|] eqn:E; simpl; try exact I.
  destruct (push_step m m0 ty m' Hi Hs Hd Hk Hc Hl Hcom E) as (P1 & P2 & P3 & P4 & P5).
  apply Hcont; auto.
Qed.

Lemma seek_value_counting m b :
  counting_inv cfg m ->
  has (flags m) flag_string = false -> has (flags m) flag_done = false ->
  has (flags m) flag_seek_value = true -> no_comment (flags m) ->
  counting_step cfg m (and_then (seek_value cfg json m b) next).
Proof.
  intros Hi Hs Hd Hk Hnc. pose proof Hi as [Hb Hf]. unfold seek_value.
  pose proof (proj1 (fi_clean _ Hf)) as Hn. pose proof (proj2 (fi_clean _ Hf)) as Hr.
  destruct Hnc as [Hlc Hbc].
  destruct (WHITESPACE b m) as [m'|] eqn:E.
  { apply WHITESPACE_same in E as (Hc & Hfl & Hl). simpl.
    apply quiet_step; auto. rewrite Hfl. apply same_atoms_refl. }
  destruct (b =? chr "]").
  { destruct (is_null (top m)) eqn:Hnull; simpl; [exact I|].
    destruct (fi_seek _ Hf Hk Hd) as [_ [Ht|(a & t & Ht & Hta & Hcn)]];
      [rewrite Ht in Hnull; discriminate|].
    rewrite Ht, (load_value_at _ _ _ Hta). simpl.
    destruct (type_eqb (type t) json_array) eqn:Harr; simpl; [|exact I].
    apply type_eqb_eq in Harr.
    apply next_step; [apply Hb| |].
    - split; msimpl; flags_norm; rewrite ?Hs, ?Hd, ?Hk; auto.
      + eapply base_inv_same; eauto; msimpl.
        * repeat split.
        * apply Hb.
        * intros H. destruct (bi_comments _ _ Hb H). unfold no_comment. flags_norm. auto.
      + exists a, t. msimpl. auto.
    - split; msimpl; rewrite ?Hs; try discriminate.
      + apply heap_le_refl. apply Hb.
      + intros _ _ x v Hx Hv Hty. exfalso. rewrite Ht in Hx. injection Hx as <-.
        rewrite (shell_inj _ _ _ _ Hv Hta) in Hty.
        congruence.
      + apply sf_stack_keep; msimpl; auto.
        * apply heap_le_refl. apply Hb.
        * intros _. flags_norm. exact Hd. }
  destruct (has (flags m) flag_need_comma) eqn:Hcm.
  { destruct (b =? chr ","); simpl; [|exact I].
    apply quiet_step; auto; msimpl.
    - repeat split.
    - unfold same_atoms. msimpl. flags_norm. repeat split. }
  destruct (has (flags m) flag_need_colon) eqn:Hcl.
  { destruct (b =? chr ":"); simpl; [|exact I].
    apply quiet_step; auto; msimpl.
    - repeat split.
    - unfold same_atoms. msimpl. flags_norm. repeat split. }
  set (m0 := set_flags (bic (flags m) flag_seek_value) m).
  assert (Hnv : forall mx ty k,
    same_core m mx -> string_length mx = string_length m -> flags mx = flags m0 ->
    (forall m',
       let a := length (heap (mem m)) in
       let vnew := set_parent (top m) (set_type ty zeroed_value) in
       flags m' = flags m0 -> first_pass m' = 1 -> string_length m' = string_length m ->
       (forall m'',
          first_pass m'' = first_pass m' -> mem m'' = mem m' -> top m'' = top m' ->
          root m'' = root m' -> alloc m'' = alloc m' -> 0 <= string_length m'' ->
          (allow_comments cfg = false -> no_comment (flags m'')) ->
          has (flags m'') flag_done = false ->
          base_inv cfg m'' /\ step_facts m m'' /\ top m'' = Pblk a 0
          /\ shell (mem m'') a vnew) ->
       counting_step cfg m (and_then (k m') next)) ->
    counting_step cfg m (and_then (with_new_value cfg mx ty k) next)).
  { intros mx ty k Hcx Hlx Hfx Hcont. apply (with_new_value_counting m mx ty k); auto.
    - intros _. rewrite Hfx. unfold no_comment, m0. msimpl. flags_norm. auto.
    - intros m' a vnew Q1 Q2 Q3 Q4 Q5. apply Hcont; auto. congruence. }
  assert (Hkey : forall least cs ty k,
    (forall p, counting_step cfg m (and_then (with_new_value cfg (set_ptr p m0) ty k) next)) ->
    counting_step cfg m (and_then (start_keyword cfg json m0 least cs ty k) next)).
  { intros least cs ty k H. unfold start_keyword.
    destruct (end_ json - ptr m0 <? least); [exact I|].
    destruct (keyword json (ptr m0) (bytes_of_string cs)) as [[p|]|]; simpl; try exact I.
    apply H. }
  pose proof (bi_length _ _ Hb) as Hsl.
  destruct (b =? chr "{").
  { apply Hnv; [repeat split..|]. intros m' a vnew Fm' Fp Fl Hpush. simpl.
    destruct (Hpush m') as (B & S & T & Sh); auto; try lia.
    { intros _. rewrite Fm'. unfold no_comment, m0. msimpl. flags_norm. auto. }
    { rewrite Fm'. unfold m0. msimpl. flags_norm. auto. }
    split; [split|]; auto.
    split; rewrite ?Fm'; unfold m0, no_comment; msimpl; flags_norm;
      rewrite ?Hn, ?Hr, ?Hs, ?Hd, ?Hlc, ?Hbc; auto; try discriminate.
    intros _ _ _. left. exists a, vnew. auto. }
  destruct (b =? chr "[").
  { apply Hnv; [repeat split..|]. intros m' a vnew Fm' Fp Fl Hpush. simpl.
    destruct (Hpush (set_flags (bis (flags m') flag_seek_value) m'))
      as (B & S & T & Sh); auto; msimpl; try lia.
    { intros _. rewrite Fm'. unfold no_comment, m0. msimpl. flags_norm. auto. }
    { rewrite Fm'. unfold m0. msimpl. flags_norm. auto. }
    split; [split|]; auto.
    split; rewrite ?Fm'; unfold m0, no_comment; msimpl; flags_norm;
      rewrite ?Hn, ?Hr, ?Hs, ?Hd, ?Hlc, ?Hbc; auto; try discriminate.
    intros _ _. split; auto. right. exists a, vnew. auto. }
  destruct (b =? chr "034").
  { apply Hnv; [repeat split..|]. intros m' a vnew Fm' Fp Fl Hpush.
    destruct (Hpush m') as (B0 & S0 & T0 & Sh0); auto; try lia.
    { intros _. rewrite Fm'. unfold no_comment, m0. msimpl. flags_norm. auto. }
    { rewrite Fm'. unfold m0. msimpl. flags_norm. auto. }
    rewrite T0, (load_value_at _ _ _ Sh0). simpl.
    destruct (Hpush (set_string_length 0
                       (set_string nullptr (set_flags (bis (flags m') flag_string) m'))))
      as (B & S & T & Sh); auto; msimpl; try lia.
    { intros _. rewrite Fm'. unfold no_comment, m0. msimpl. flags_norm. auto. }
    { rewrite Fm'. unfold m0. msimpl. flags_norm. auto. }
    split; [split|]; auto.
    split; rewrite ?Fm'; unfold m0, no_comment; msimpl; flags_norm;
      rewrite ?Hn, ?Hr, ?Hs, ?Hd, ?Hlc, ?Hbc; auto; try discriminate.
    intros _. split_all; auto. exists a, vnew. auto. }
  assert (Hfalse : forall ty p,
    counting_step cfg m
      (and_then (with_new_value cfg (set_ptr p m0) ty
                   (fun m1 => Fall (set_flags (bis (flags m1) flag_next) m1))) next)).
  { intros ty p. apply Hnv; [repeat split..|]. intros m' a vnew Fm' Fp Fl Hpush. simpl.
    destruct (Hpush (set_flags (bis (flags m') flag_next) m'))
      as (B & S & T & Sh); auto; msimpl; try lia.
    { intros _. rewrite Fm'. unfold no_comment, m0. msimpl. flags_norm. auto. }
    { rewrite Fm'. unfold m0. msimpl. flags_norm. auto. }
    apply next_step; auto; [apply Hb|].
    split; auto; msimpl; rewrite ?Fm'; unfold m0; msimpl; flags_norm; auto.
    exists a, vnew. auto. }
  destruct (b =? chr "t").
  { apply Hkey. intros p. apply Hnv; [repeat split..|].
    intros m' a vnew Fm' Fp Fl Hpush.
    destruct (Hpush m') as (B0 & S0 & T0 & Sh0); auto; try lia.
    { intros _. rewrite Fm'. unfold no_comment, m0. msimpl. flags_norm. auto. }
    { rewrite Fm'. unfold m0. msimpl. flags_norm. auto. }
    assert (Hup : update_value (mem m') (top m') (set_boolean true)
                  = Some (store (mem m') a (Bvalue (set_boolean true vnew)))).
    { apply update_value_shell. eauto. }
    rewrite Hup. simpl.
    assert (Hkp : kept vnew (set_boolean true vnew)).
    { unfold kept. simpl. split_all; auto. apply type_le_refl. }
    destruct (store_kept _ _ _ _ (bi_heap _ _ B0) Sh0 Hkp) as (W1 & W2 & W3).
    set (mid := set_flags (bis (flags m') flag_next)
                  (set_mem (store (mem m') a (Bvalue (set_boolean true vnew))) m')).
    assert (Bm : base_inv cfg mid).
    { eapply (base_inv_store m' mid); eauto; unfold mid; msimpl; try lia.
      intros _. rewrite Fm'. unfold no_comment, m0. msimpl. flags_norm. auto. }
    apply next_step; auto; [apply Hb| |].
    - split; auto; unfold mid; msimpl; rewrite ?Fm'; unfold m0; msimpl; flags_norm; auto.
      exists a, (set_boolean true vnew). msimpl. auto.
    - apply (step_facts_trans m m' mid); auto; [apply Hb|apply B0|].
      apply keep_step_facts; unfold mid; msimpl; auto;
        rewrite ?Fm'; unfold m0; msimpl; flags_norm; auto. }
  destruct (b =? chr "f"); [apply Hkey; intros p; apply Hfalse|].
  destruct (b =? chr "n"); [apply Hkey; intros p; apply Hfalse|].
  unfold start_number.
  destruct (isdigit b || (b =? chr "-")); [|exact I].
  apply Hnv; [repeat split..|]. intros m' a vnew Fm' Fp Fl Hpush.
  rewrite Fp. simpl.
  destruct (negb (b =? chr "-")); simpl.
  - rewrite next_plain by (msimpl; rewrite Fm'; unfold m0; msimpl; flags_norm; auto).
    msimpl.
    match goal with |- context [if has ?f flag_reproc then _ else _] =>
      replace (has f flag_reproc) with true by (flags_norm; reflexivity) end.
    simpl.
    match goal with |- counting_inv cfg ?x /\ _ =>
      destruct (Hpush x) as (B & S & T & Sh); auto; msimpl; try lia end.
    { intros _. rewrite Fm'. unfold no_comment, m0. msimpl. flags_norm. auto. }
    { rewrite Fm'. unfold m0. msimpl. flags_norm. auto. }
    split; [split|]; auto.
    split; rewrite ?Fm'; unfold m0, no_comment; msimpl; flags_norm;
      rewrite ?Hn, ?Hr, ?Hs, ?Hd, ?Hlc, ?Hbc; auto; try discriminate.
    intros _ _ _. right. split; auto. exists a, vnew. auto.
  - match goal with |- counting_inv cfg ?x /\ _ =>
      destruct (Hpush x) as (B & S & T & Sh); auto; msimpl; try lia end.
    { intros _. rewrite Fm'. unfold no_comment, m0. msimpl. flags_norm. auto. }
    { rewrite Fm'. unfold m0. msimpl. flags_norm. auto. }
    split; [split|]; auto.
    split; rewrite ?Fm'; unfold m0, no_comment; msimpl; flags_norm;
      rewrite ?Hn, ?Hr, ?Hs, ?Hd, ?Hlc, ?Hbc; auto; try discriminate.
    intros _ _ _. right. split; auto. exists a, vnew. auto.
Qed.

(** ** The number state *)

Lemma ctl_same_atoms f f' : ctl f' = ctl f -> same_atoms f f'.
Proof.
  intros H. unfold same_atoms. split_all; apply ctl_agree_has; auto; reflexivity.
Qed.

Lemma kept_refl v : kept v v.
Proof. unfold kept. split_all; auto. apply type_le_refl. Qed.

Lemma kept_trans v1 v2 v3 : kept v1 v2 -> kept v2 v3 -> kept v1 v3.
Proof.
  intros (A1 & A2 & A3 & A4 & A5) (B1 & B2 & B3 & B4 & B5). unfold kept.
  split_all; try congruence. eapply type_le_trans; eauto.
Qed.

Lemma number_state_refl m :
  counting_inv cfg m -> top_is m (fun v => is_number (type v) = true) ->
  number_state cfg m m.
Proof.
  intros [Hb Hf] Ht. unfold number_state. split_all; auto.
  - apply heap_le_refl. apply Hb.
  - intros a v Hv. exists v. split; auto. apply kept_refl.
Qed.

Lemma number_state_flags m0 m m' :
  number_state cfg m0 m -> same_core m m' -> string_length m' = string_length m ->
  ptr m' = ptr m ->
  ctl (flags m') = ctl (flags m) ->
  number_state cfg m0 m'.
Proof.
  intros (Hb & Hle & Ht & Hn & Hc & Hp & Hsl & Hlen & Hk) Hcore Hl Hpt Hfl.
  pose proof Hcore as (C1 & C2 & C3 & C4 & C5).
  pose proof (ctl_same_atoms _ _ Hfl) as (A1 & A2 & A3 & A4 & A5 & A6 & A7).
  unfold number_state. rewrite C2, C3. split_all; auto; try congruence.
  - eapply base_inv_same; eauto.
    + rewrite Hl. apply Hb.
    + intros H. destruct (bi_comments _ _ Hb H). unfold no_comment. rewrite A6, A7. auto.
  - eapply top_is_same; eauto.
Qed.

Lemma number_state_update m0 m f :
  number_state cfg m0 m -> keeps_number f ->
  exists mm, update_value (mem m) (top m) f = Some mm
             /\ number_state cfg m0 (set_mem mm m).
Proof.
  intros (Hb & Hle & Ht & (a & v & Ha & Hv & Hn) & Hc & Hp & Hsl & Hlen & Hk) Hf.
  destruct (Hf v Hn) as [Hkp Hn'].
  exists (store (mem m) a (Bvalue (f v))). split.
  - apply update_value_shell. eauto.
  - destruct (store_kept _ _ _ _ (bi_heap _ _ Hb) Hv Hkp) as (W1 & W2 & W3).
    unfold number_state. msimpl. split_all; auto.
    + eapply (base_inv_store m); eauto; msimpl; try apply Hb.
    + eapply heap_le_trans; eauto.
    + exists a, (f v). msimpl. auto.
    + rewrite length_store. exact Hlen.
    + intros x v' Hv'. destruct (Nat.eq_dec a x) as [<-|Hne].
      * apply shell_store_eq in Hv'; [|eapply shell_lt; eauto]. injection Hv' as <-.
        destruct (Hk a v Hv) as (v0 & Hv0 & Hk0). exists v0. split; auto.
        eapply kept_trans; eauto.
      * apply shell_store_ne in Hv'; auto.
Qed.

Lemma number_state_counting m0 m :
  counting_inv cfg m0 ->
  has (flags m0) flag_string = false -> has (flags m0) flag_done = false ->
  has (flags m0) flag_seek_value = false -> no_comment (flags m0) ->
  number_state cfg m0 m ->
  counting_inv cfg m /\ step_facts m0 m.
Proof.
  intros [Hb0 Hf0] Hs Hd Hk [Hl Hbk] (Hb & Hle & Ht & Hn & Hc & _).
  pose proof (ctl_same_atoms _ _ Hc) as (A1 & A2 & A3 & A4 & A5 & A6 & A7).
  split; [split; auto|].
  - destruct (fi_clean _ Hf0). split; unfold no_comment;
      rewrite ?A1, ?A2, ?A3, ?A4, ?A5, ?A6, ?A7, ?Hs, ?Hd, ?Hk; auto; try discriminate.
  - apply keep_step_facts; auto. congruence.
Qed.

Lemma number_state_finish m0 m :
  counting_inv cfg m0 ->
  has (flags m0) flag_string = false -> has (flags m0) flag_done = false ->
  has (flags m0) flag_seek_value = false ->
  number_state cfg m0 m ->
  keeps_number (fun v => if type_eqb (type v) json_integer
                         then set_integer (wrap_s64 (- u_integer v)) v
                         else set_dbl (PrimFloat.opp (u_dbl v)) v) ->
  counting_step cfg m0 (and_then (finish_number m) next).
Proof.
  intros Hi Hs Hd Hk HN Hkeep. unfold finish_number.
  assert (H : exists mm, (if has (flags m) flag_num_negative then
       update_value (mem m) (top m)
         (fun v => if type_eqb (type v) json_integer
                   then set_integer (wrap_s64 (- u_integer v)) v
                   else set_dbl (PrimFloat.opp (u_dbl v)) v)
     else Some (mem m)) = Some mm /\ number_state cfg m0 (set_mem mm m)).
  { destruct (has (flags m) flag_num_negative).
    - apply number_state_update; auto.
    - exists (mem m). split; auto. eapply number_state_flags; eauto. repeat split. }
  destruct H as (mm & -> & (Hb & Hle & Ht & Hn & Hc & _)). simpl.
  pose proof (ctl_same_atoms _ _ Hc) as (A1 & A2 & A3 & A4 & A5 & A6 & A7). msimpl.
  apply next_step; [apply Hi| |].
  - split; msimpl; flags_norm; auto; try congruence.
    + eapply base_inv_same; eauto; msimpl.
      * repeat split.
      * apply Hb.
      * intros H. destruct (bi_comments _ _ Hb H). unfold no_comment. flags_norm. auto.
    + destruct Hn as (a & v & ? & ? & ?). exists a, v. msimpl. auto.
  - apply keep_step_facts; msimpl; auto. intros _. flags_norm. congruence.
Qed.

Lemma keeps_number_intro f :
  (forall v, parent (f v) = parent v /\ u_length (f v) = u_length v
             /\ u_values (f v) = u_values v /\ _reserved (f v) = _reserved v
             /\ (type (f v) = type v \/ type (f v) = json_double)) ->
  keeps_number f.
Proof.
  intros H v Hn. destruct (H v) as (H1 & H2 & H3 & H4 & H5). unfold kept.
  split; [split_all; auto|].
  - destruct H5 as [->| ->]; [apply type_le_refl|].
    destruct (type v); try discriminate; [right|left]; auto.
  - destruct H5 as [->| ->]; auto.
Qed.

Lemma keeps_negation :
  keeps_number (fun v => if type_eqb (type v) json_integer
                         then set_integer (wrap_s64 (- u_integer v)) v
                         else set_dbl (PrimFloat.opp (u_dbl v)) v).
Proof.
  apply keeps_number_intro. intros v. destruct (type_eqb (type v) json_integer); simpl; auto 10.
Qed.

Ltac solve_ctl :=
  msimpl;
  repeat first [rewrite ctl_bis_numeric by reflexivity | rewrite ctl_bic_numeric by reflexivity];
  reflexivity.

Ltac solve_number_state :=
  match goal with
  | HN : number_state ?c ?m0 ?y |- number_state ?c ?m0 ?x =>
      first [ exact HN
            | apply (number_state_flags m0 y x HN);
              [repeat split | reflexivity | reflexivity | solve_ctl] ]
  end.

Ltac number_update :=
  match goal with
  | |- counting_step _ ?m0 ?g =>
    match g with
    | context [update_value (mem ?x) (top ?x) ?f] =>
      let mm := fresh "mm" in
      let E := fresh "E" in
      let HN := fresh "HN" in
      assert (exists mm, update_value (mem x) (top x) f = Some mm
                         /\ number_state cfg m0 (set_mem mm x)) as (mm & E & HN)
        by (apply number_state_update;
            [solve_number_state | apply keeps_number_intro; intros ?; simpl; auto 10]);
      rewrite E; cbn [and_then defined]
    end
  end.

Lemma in_number_counting m t b :
  counting_inv cfg m ->
  has (flags m) flag_string = false -> has (flags m) flag_done = false ->
  has (flags m) flag_seek_value = false -> no_comment (flags m) ->
  top_is m (fun v => is_number (type v) = true) ->
  counting_step cfg m (and_then (in_number pow m t b) next).
Proof.
  intros Hi Hs Hd Hk Hnc Ht.
  pose proof (number_state_refl m Hi Ht) as HN0.
  unfold in_number. cbv zeta.
  repeat first
    [ exact I
    | progress cbn [and_then defined]
    | match goal with
      | |- counting_step _ _ (Continue _) =>
          apply number_state_counting; auto; solve_number_state
      | |- counting_step _ _ (and_then (finish_number _) next) =>
          apply number_state_finish; auto; solve [solve_number_state | apply keeps_negation]
      | |- counting_step _ _ (and_then (defined (update_value _ _ _) _) _) => number_update
      | |- counting_step _ _ (and_then (and_then (defined (update_value _ _ _) _) _) _) =>
          number_update
      | |- counting_step _ _ (and_then (defined (if ?c then _ else _) _) _) => destruct c
      | |- counting_step _ _ (and_then (and_then (if ?c then _ else _) _) _) => destruct c
      | |- counting_step _ _ (and_then (if ?c then _ else _) _) => destruct c
      | |- counting_step _ _ (Continue (if ?c then _ else _)) => destruct c
      | |- context [update_value (mem (if ?c then _ else _))] => destruct c
      end ].
Qed.

(** ** The object state *)

Lemma in_object_counting m a t b :
  counting_inv cfg m ->
  has (flags m) flag_string = false -> has (flags m) flag_done = false ->
  has (flags m) flag_seek_value = false -> no_comment (flags m) ->
  top m = Pblk a 0 -> shell (mem m) a t -> type t = json_object ->
  counting_step cfg m (and_then (in_object m t b) next).
Proof.
  intros Hi Hs Hd Hk [Hlc Hbc] Ht Hta Hty. pose proof Hi as [Hb Hf]. unfold in_object.
  pose proof (proj1 (fi_clean _ Hf)) as Hn. pose proof (proj2 (fi_clean _ Hf)) as Hr.
  destruct (WHITESPACE b m) as [m'|] eqn:E.
  { apply WHITESPACE_same in E as (Hc & Hfl & Hl). simpl.
    apply quiet_step; auto. rewrite Hfl. apply same_atoms_refl. }
  destruct (b =? chr "034").
  { destruct (has (flags m) flag_need_comma); [exact I|]. simpl.
    rewrite next_plain by (msimpl; flags_norm; auto). msimpl.
    replace (has (bis (flags m) flag_string) flag_reproc) with false
      by (flags_norm; auto).
    split; [split|].
    - eapply base_inv_same; eauto; msimpl; try lia.
      + repeat split.
      + intros _. unfold no_comment. flags_norm. auto.
    - split; unfold no_comment; msimpl; flags_norm;
        rewrite ?Hn, ?Hr, ?Hs, ?Hd, ?Hk, ?Hlc, ?Hbc; auto; try discriminate.
      intros _. split_all; auto. exists a, t. auto.
    - apply keep_step_facts; msimpl; auto.
      + apply heap_le_refl. apply Hb.
      + intros _. flags_norm. auto. }
  destruct (b =? chr "}").
  { simpl. apply next_step; [apply Hb| |].
    - split; msimpl; flags_norm; rewrite ?Hs, ?Hd, ?Hk; auto.
      + eapply base_inv_same; eauto; msimpl.
        * repeat split.
        * apply Hb.
        * intros _. unfold no_comment. flags_norm. auto.
      + exists a, t. msimpl. auto.
    - apply keep_step_facts; msimpl; auto.
      + apply heap_le_refl. apply Hb.
      + intros _. flags_norm. auto. }
  destruct ((b =? chr ",") && has (flags m) flag_need_comma); [|exact I].
  simpl. rewrite next_plain by (msimpl; flags_norm; auto). msimpl.
  replace (has (bic (flags m) flag_need_comma) flag_reproc) with false
    by (flags_norm; auto).
  apply quiet_step; auto; msimpl.
  - repeat split.
  - unfold same_atoms. msimpl. flags_norm. repeat split.
Qed.

Lemma in_value_counting m b :
  counting_inv cfg m ->
  has (flags m) flag_string = false -> has (flags m) flag_done = false ->
  has (flags m) flag_seek_value = false -> no_comment (flags m) ->
  counting_step cfg m (and_then (in_value pow m b) next).
Proof.
  intros Hi Hs Hd Hk Hnc. pose proof Hi as [Hb Hf]. unfold in_value.
  destruct (fi_value _ Hf Hk Hd Hs) as [(a & t & Ht & Hta & Hty) | [Hnum _]].
  - rewrite Ht, (load_value_at _ _ _ Hta). simpl. rewrite Hty.
    eapply in_object_counting; eauto.
  - pose proof Hnum as (a & t & Ht & Hta & Hty).
    rewrite Ht, (load_value_at _ _ _ Hta). simpl.
    destruct (type t); try discriminate; apply in_number_counting; auto.
Qed.

(** ** One iteration of the counting pass *)

Lemma comments_fall m b :
  no_comment (flags m) -> (b =? chr "/") = false -> comments json m b = Fall m.
Proof.
  intros [Hl Hb] Hs. unfold comments. rewrite has_lor, Hl, Hb, Hs. reflexivity.
Qed.

Lemma counting_step_flow m f (P : machine -> Prop) :
  counting_step cfg m f ->
  match f with
  | Continue m' => counting_inv cfg m' /\ step_facts m m'
  | Break m' => P m'
  | Fall _ => False
  | _ => True
  end.
Proof. destruct f; simpl; tauto. Qed.

Lemma iteration_counting m :
  counting_inv cfg m ->
  match iteration pow cfg json m with
  | Continue m' => counting_inv cfg m' /\ step_facts m m'
  | Break m' => m' = m /\ has (flags m) flag_done = true
  | Fall _ => False
  | _ => True
  end.
Proof.
  intros Hi. pose proof Hi as [Hb Hf]. unfold iteration.
  destruct (if ptr m =? end_ json then Some 0 else deref json (ptr m)) as [b|];
    simpl; [|exact I].
  destruct (has (flags m) flag_string) eqn:Hs.
  - (* inside a string *)
    pose proof (in_string_counting m b Hi Hs) as H.
    destruct (in_string json m b) as [m'|mid| | |]; simpl; auto; try contradiction.
    destruct H as (-> & Hr & Hsf & Hnc & (a & t & Ht & Hta & Hty)).
    assert (Hc : (if allow_comments cfg then comments json mid (chr "034") else Fall mid)
                 = Fall mid).
    { destruct (allow_comments cfg); auto. apply comments_fall; auto. }
    rewrite Hc. simpl. rewrite (nr_done _ _ Hr). simpl. rewrite (nr_seek _ _ Hr).
    unfold in_value. rewrite Ht, (load_value_at _ _ _ Hta). simpl. rewrite Hty. simpl.
    apply (counting_step_flow m _ (fun m' => m' = m /\ has (flags m) flag_done = true)).
    apply next_step; auto. apply Hb.
  - (* between tokens *)
    simpl.
    assert (Hstage : no_comment (flags m) ->
      match
        and_then (if has (flags m) flag_done then done_ m b else Fall m) (fun m =>
        and_then (if has (flags m) flag_seek_value then seek_value cfg json m b
                  else in_value pow m b) next)
      with
      | Continue m' => counting_inv cfg m' /\ step_facts m m'
      | Break m' => m' = m /\ has (flags m) flag_done = true
      | Fall _ => False
      | _ => True
      end).
    { intros Hnc. destruct (has (flags m) flag_done) eqn:Hd.
      - pose proof (done_counting m b Hi Hd) as H.
        destruct (done_ m b); simpl; auto; try contradiction.
      - simpl. apply (counting_step_flow m _ (fun m' => m' = m /\ false = true)).
        destruct (has (flags m) flag_seek_value) eqn:Hk.
        + apply seek_value_counting; auto.
        + apply in_value_counting; auto. }
    destruct (allow_comments cfg) eqn:Hall.
    + pose proof (comments_counting m b Hi Hs Hall) as H.
      destruct (comments json m b) as [m'|m'| | |]; simpl; auto; try contradiction.
      destruct H as [-> Hnc]. apply Hstage. exact Hnc.
    + simpl. apply Hstage. apply (bi_comments _ _ Hb Hall).
Qed.

(** ** The counting pass as a whole *)

Lemma counting_inv_ptr m p :
  counting_inv cfg m -> counting_inv cfg (set_ptr p m) /\ step_facts m (set_ptr p m).
Proof.
  intros Hi. apply quiet_step; auto.
  - repeat split.
  - apply same_atoms_refl.
Qed.

Lemma pass_counting fuel : forall m mF,
  counting_inv cfg m -> pass pow cfg json fuel m = Pass_done mF ->
  counting_inv cfg mF /\ has (flags mF) flag_done = true /\ future (mem mF) m.
Proof.
  induction fuel as [|fuel IH]; intros m mF Hi Hp; [discriminate|].
  simpl in Hp. pose proof (iteration_counting m Hi) as H.
  destruct (iteration pow cfg json m) as [m'|m'|m'| |]; try discriminate; try contradiction.
  - destruct H as [Hi' Hs].
    destruct (counting_inv_ptr m' (ptr m' + 1) Hi') as [Hi'' Hs'].
    destruct (IH _ _ Hi'' Hp) as (H1 & H2 & H3). split_all; auto.
    eapply (future_of_step _ m m'); auto; try apply Hi; try apply Hi'.
    eapply (future_of_step _ m' (set_ptr (ptr m' + 1) m')); auto; try apply Hi'.
  - destruct H as [-> Hd]. injection Hp as <-. split_all; auto.
    eapply future_at_end; eauto.
Qed.

Lemma counting_inv_start mm :
  heap mm = [] -> counting_inv cfg (start_pass 1 (initial mm)).
Proof.
  intros Hh. split; split; simpl; rewrite ?Hh; auto; try lia; try discriminate.
  - split.
    + simpl. rewrite Hh. simpl. intros a Ha. lia.
    + intros a v Hv. apply shell_lt in Hv. simpl in Hv. rewrite Hh in Hv. simpl in Hv. lia.
  - intros _. split; reflexivity.
Qed.

End Stages.


Lemma shell_not_buffer mm (a : addr) v blk :
  shell mm a v -> heap mm !! a = Some (Some blk) -> blk = Bvalue v.
Proof. unfold shell. intros H1 H2. congruence. Qed.

Lemma buffer_ok_same mm2 mm2' v1 v1' v2 vF :
  buffer_ok mm2 v1 v2 vF ->
  u_length v1' = u_length v1 -> u_values v1' = u_values v1 ->
  (forall (b : addr) blk, heap mm2 !! b = Some (Some blk) -> (forall v, blk <> Bvalue v) ->
                 exists blk', heap mm2' !! b = Some (Some blk') /\ same_shape blk blk') ->
  buffer_ok mm2' v1' v2 vF.
Proof.
  intros H Hl Hv Hb. unfold buffer_ok, names_of in *. rewrite Hl, Hv.
  destruct (type vF); auto.
  - destruct H as (H1 & [H2 | (b & es & at_ & ns & E1 & E2 & E3 & E4 & E5)]); split; auto.
    right. destruct (Hb _ _ E2) as (blk' & Hb' & Hs); [discriminate|].
    destruct blk'; simpl in Hs; try contradiction. destruct Hs as (S1 & <- & S3).
    exists b, entries, at_, names. split_all; auto; congruence.
  - destruct H as (H1 & [H2 | (b & cells & E1 & E2 & E3)]); split; auto.
    right. destruct (Hb _ _ E2) as (blk' & Hb' & Hs); [discriminate|].
    destruct blk'; simpl in Hs; try contradiction.
    exists b, cells0. split_all; auto; congruence.
  - destruct H as (H1 & (b & cs & E1 & E2 & E3)); split; auto.
    destruct (Hb _ _ E2) as (blk' & Hb' & Hs); [discriminate|].
    destruct blk'; simpl in Hs; try contradiction.
    exists b, s. split_all; auto; congruence.
Qed.

(** The relation of the two memories after a step that touches the shell at
    [a] at most (in either memory), and buffers. *)
Lemma built_general hf mm1 mm2 mm1' mm2' a :
  built hf mm1 mm2 ->
  (length (heap mm1) <= length (heap mm1') <= length (heap hf))%nat ->
  (length (heap mm2) <= length (heap mm2'))%nat ->
  (forall x v, x <> a -> shell mm2 x v -> shell mm2' x v) ->
  (forall (b : addr) blk, heap mm2 !! b = Some (Some blk) -> (forall v, blk <> Bvalue v) ->
                 exists blk', heap mm2' !! b = Some (Some blk') /\ same_shape blk blk') ->
  (forall x v', x <> a -> shell mm1' x v' -> exists v, shell mm1 x v /\ same_counts v v') ->
  (forall v1', shell mm1' a v1' ->
     exists v2' vF, shell mm2' a v2' /\ shell hf a vF
                    /\ parent v2' = parent v1' /\ type v2' = type vF
                    /\ buffer_ok mm2' v1' v2' vF) ->
  (a < length (heap mm1'))%nat ->
  built hf mm1' mm2'.
Proof.
  intros (Hlen & Hun & Hvis) Hl1 Hl2 Hsh Hbuf Hold Hnew Ha.
  unfold built. split_all; try lia.
  - intros x vF HF Hx. apply Hsh; [lia|]. apply Hun; auto. lia.
  - intros x v1' Hv1'. destruct (Nat.eq_dec x a) as [->|Hne]; [apply Hnew; auto|].
    destruct (Hold x v1' Hne Hv1') as (v1 & Hv1 & (S1 & S2 & S3 & S4)).
    destruct (Hvis x v1 Hv1) as (v2 & vF & H2 & HF & Hp & Ht & Hbo).
    exists v2, vF. split_all; auto; try congruence.
    eapply buffer_ok_same; eauto.
Qed.

(** ** Writing into buffers *)

Lemma same_shape_refl blk : (forall v, blk <> Bvalue v) -> same_shape blk blk.
Proof. destruct blk; simpl; auto. intros H. exact (H v eq_refl). Qed.

Lemma same_shape_trans b1 b2 b3 : same_shape b1 b2 -> same_shape b2 b3 -> same_shape b1 b3.
Proof.
  destruct b1, b2, b3; simpl; try tauto; try congruence.
  intros (? & ? & ?) (? & ? & ?). split_all; congruence.
Qed.

Lemma same_shape_buffer b1 b2 : same_shape b1 b2 -> forall v, b2 <> Bvalue v.
Proof. destruct b1, b2; simpl; try tauto; discriminate. Qed.

Lemma rewritten_refl mm : rewritten mm mm.
Proof.
  unfold rewritten. split_all; auto.
  intros b blk H Hn. exists blk. split; auto. apply same_shape_refl. auto.
Qed.

Lemma rewritten_trans m1 m2 m3 : rewritten m1 m2 -> rewritten m2 m3 -> rewritten m1 m3.
Proof.
  intros (L1 & S1 & B1) (L2 & S2 & B2). unfold rewritten. split_all; try congruence.
  - intros a v. rewrite S2. apply S1.
  - intros b blk H Hn. destruct (B1 b blk H Hn) as (blk' & H' & Hs).
    destruct (B2 b blk' H' (same_shape_buffer _ _ Hs)) as (blk'' & H'' & Hs').
    exists blk''. split; auto. eapply same_shape_trans; eauto.
Qed.

Lemma rewritten_store mm (b : addr) blk blk' :
  heap mm !! b = Some (Some blk) -> same_shape blk blk' -> rewritten mm (store mm b blk').
Proof.
  intros Hb Hs. pose proof (same_shape_buffer _ _ Hs) as Hn.
  assert (Hlt : (b < length (heap mm))%nat) by (eapply lookup_lt_Some; eauto).
  unfold rewritten. split_all.
  - apply length_store.
  - intros a v. destruct (Nat.eq_dec b a) as [<-|Hne].
    + rewrite shell_store_eq by auto. split.
      * intros ->. exfalso. exact (Hn v eq_refl).
      * intros Hv. pose proof (shell_not_buffer _ _ _ _ Hv Hb) as ->.
        simpl in Hs. contradiction.
    + apply shell_store_ne. auto.
  - intros x blk0 Hx Hn0. destruct (Nat.eq_dec b x) as [<-|Hne].
    + exists blk'. split.
      * unfold store. simpl. rewrite list_lookup_insert_eq; auto.
      * rewrite Hb in Hx. injection Hx as <-. auto.
    + exists blk0. split; [|apply same_shape_refl; auto].
      unfold store. simpl. rewrite list_lookup_insert_ne; auto.
Qed.

Lemma built_rewritten hf mm1 mm2 mm2' :
  built hf mm1 mm2 -> rewritten mm2 mm2' -> built hf mm1 mm2'.
Proof.
  intros (Hlen & Hun & Hvis) (L & S & B). unfold built. split_all; try lia.
  - intros a vF HF Ha. apply S. auto.
  - intros a v1 Hv1. destruct (Hvis a v1 Hv1) as (v2 & vF & H2 & HF & Hp & Ht & Hbo).
    exists v2, vF. split_all; auto.
    + apply S. auto.
    + eapply buffer_ok_same; eauto.
Qed.

Lemma cursor_room_rewritten mm mm' s n :
  cursor_room mm s n -> rewritten mm mm' -> cursor_room mm' s n.
Proof.
  intros (b & off & blk & -> & Hb & Hr) (L & S & B).
  destruct (B b blk Hb) as (blk' & Hb' & Hs).
  { intros v ->. contradiction. }
  exists b, off, blk'. split_all; auto.
  destruct blk, blk'; simpl in Hs; try contradiction.
  - rewrite <- Hs. auto.
  - destruct Hs as (? & <- & <-). auto.
Qed.

Lemma cursor_room_less mm s n n' : cursor_room mm s n -> n' <= n -> cursor_room mm s n'.
Proof.
  intros (b & off & blk & -> & Hb & Hr) Hle. exists b, off, blk. split_all; auto.
  destruct blk; auto; lia.
Qed.

Lemma store_char_room mm s n i c :
  cursor_room mm s n -> 0 <= i < n ->
  exists mm', store_char mm s i c = Some mm' /\ rewritten mm mm'.
Proof.
  intros (b & off & blk & -> & Hb & Hr) Hi. unfold store_char. rewrite Hb. simpl.
  destruct blk as [|cs| |es at_ ns]; try contradiction.
  - unfold write_at, Z_index. destruct (off + i <? 0) eqn:E; [lia|].
    destruct (Z.to_nat (off + i) <? length cs)%nat eqn:E2.
    + eexists. split; [reflexivity|]. eapply rewritten_store; eauto. simpl.
      rewrite length_insert. reflexivity.
    + apply Nat.ltb_ge in E2. lia.
  - unfold write_at, Z_index. destruct (off + i - at_ <? 0) eqn:E; [lia|].
    destruct (Z.to_nat (off + i - at_) <? length ns)%nat eqn:E2.
    + eexists. split; [reflexivity|]. eapply rewritten_store; eauto. simpl.
      rewrite length_insert. auto.
    + apply Nat.ltb_ge in E2. lia.
Qed.

Lemma store_chars_room n : forall cs m,
  cursor_room (mem m) (string_ m) n -> 0 <= string_length m ->
  string_length m + Z.of_nat (length cs) <= n -> n < 2 ^ 32 ->
  exists m', store_chars m cs = Some m' /\ same_regs m m'
             /\ string_length m' = string_length m + Z.of_nat (length cs)
             /\ rewritten (mem m) (mem m').
Proof.
  induction cs as [|c cs IH]; intros m Hr H0 Hn Hb.
  - exists m. simpl. split_all; auto; try lia.
    + repeat split.
    + apply rewritten_refl.
  - simpl in Hn |- *.
    destruct (store_char_room _ _ n (string_length m) c Hr) as (mm & E & Hw); [lia|].
    rewrite E. simpl.
    destruct (IH (set_string_length (wrap_u32 (string_length m + 1)) (set_mem mm m)))
      as (m' & E' & Hs & Hl & Hw'); msimpl; auto.
    + eapply cursor_room_rewritten; eauto.
    + rewrite wrap_u32_small; lia.
    + rewrite wrap_u32_small; lia.
    + rewrite wrap_u32_small in Hl by lia.
      exists m'. split; [exact E'|]. split; [|split; [lia|]].
      * destruct Hs as (S1 & S2 & S3 & S4 & S5 & S6 & S7). msimpl. repeat split; auto.
      * eapply rewritten_trans; eauto.
Qed.

Lemma update_entry_room mm (b : addr) es at_ ns i f :
  heap mm !! b = Some (Some (Bobject es at_ ns)) -> 0 <= i < Z.of_nat (length es) ->
  exists mm', update_entry mm (Pblk b 0) i f = Some mm' /\ rewritten mm mm'.
Proof.
  intros Hb Hi. unfold update_entry, load. rewrite Hb. simpl.
  unfold read_at, write_at, Z_index. destruct (i <? 0) eqn:E; [lia|].
  destruct (lookup_lt_is_Some_2 es (Z.to_nat i)) as [e He]; [lia|].
  rewrite He. destruct (Z.to_nat i <? length es)%nat eqn:E2.
  - eexists. split; [reflexivity|]. eapply rewritten_store; eauto. simpl.
    rewrite length_insert. auto.
  - apply Nat.ltb_ge in E2. lia.
Qed.

Lemma store_cell_room mm (b : addr) cells i c :
  heap mm !! b = Some (Some (Bptrs cells)) -> 0 <= i < Z.of_nat (length cells) ->
  exists mm', store_cell mm (Pblk b 0) i c = Some mm' /\ rewritten mm mm'.
Proof.
  intros Hb Hi. unfold store_cell, load. rewrite Hb. simpl.
  unfold write_at, Z_index. destruct (i <? 0) eqn:E; [lia|].
  destruct (Z.to_nat i <? length cells)%nat eqn:E2.
  - eexists. split; [reflexivity|]. eapply rewritten_store; eauto. simpl.
    rewrite length_insert. auto.
  - apply Nat.ltb_ge in E2. lia.
Qed.

Lemma store_other mm (a b : addr) blk :
  b <> a -> heap (store mm a blk) !! b = heap mm !! b.
Proof. intros H. unfold store. simpl. apply list_lookup_insert_ne. auto. Qed.

Lemma buffer_ok_step mm mm' v1 v2 vF v1' v2' :
  buffer_ok mm v1 v2 vF ->
  (forall (b : addr) blk, heap mm !! b = Some (Some blk) -> (forall v, blk <> Bvalue v) ->
     exists blk', heap mm' !! b = Some (Some blk') /\ same_shape blk blk') ->
  u_values v2' = u_values v2 ->
  u_length v2' = u_length v1' ->
  (forall (b : addr) at_, _reserved v2 = Pblk b (at_ + names_of v1) ->
                          _reserved v2' = Pblk b (at_ + names_of v1')) ->
  buffer_ok mm' v1' v2' vF.
Proof.
  intros H Hb Hv Hl Hr. unfold buffer_ok in *. rewrite Hv.
  destruct (type vF); auto.
  - destruct H as (H1 & [H2 | (b & es & at_ & ns & E1 & E2 & E3 & E4 & E5)]); split; auto.
    right. destruct (Hb _ _ E2) as (blk' & Hb' & Hs); [discriminate|].
    destruct blk'; simpl in Hs; try contradiction. destruct Hs as (S1 & <- & S3).
    exists b, entries, at_, names. split_all; auto; congruence.
  - destruct H as (H1 & [H2 | (b & cells & E1 & E2 & E3)]); split; auto.
    right. destruct (Hb _ _ E2) as (blk' & Hb' & Hs); [discriminate|].
    destruct blk'; simpl in Hs; try contradiction.
    exists b, cells0. split_all; auto; congruence.
  - destruct H as (H1 & (b & cs & E1 & E2 & E3)); split; auto.
    destruct (Hb _ _ E2) as (blk' & Hb' & Hs); [discriminate|].
    destruct blk'; simpl in Hs; try contradiction.
    exists b, s. split_all; auto; congruence.
Qed.

(** The buffers of [mm] after cells have been overwritten and the shell at
    [a] has been updated *)
Lemma store_shell_buffers mm mm' (a : addr) v2 v2' :
  rewritten mm mm' -> shell mm' a v2 ->
  forall (b : addr) blk, heap mm !! b = Some (Some blk) -> (forall v, blk <> Bvalue v) ->
    exists blk', heap (store mm' a (Bvalue v2')) !! b = Some (Some blk')
                 /\ same_shape blk blk'.
Proof.
  intros (L & S & B) Hv b blk Hb Hn. destruct (B b blk Hb Hn) as (blk' & Hb' & Hs).
  exists blk'. split; auto. rewrite store_other; auto.
  intros ->. apply (same_shape_buffer _ _ Hs v2). eapply shell_not_buffer; eauto.
Qed.

Lemma store_shell_shells mm mm' (a : addr) v2' :
  rewritten mm mm' ->
  forall x v, x <> a -> shell mm x v -> shell (store mm' a (Bvalue v2')) x v.
Proof. intros (L & S & B) x v Hx Hv. apply shell_store_ne; auto. apply S. auto. Qed.

Lemma pokes_refl a mm : pokes a mm mm.
Proof. split; auto. Qed.

Lemma pokes_trans a m1 m2 m3 : pokes a m1 m2 -> pokes a m2 m3 -> pokes a m1 m3.
Proof.
  intros [L1 H1] [L2 H2]. split; [lia|]. intros x Hx Hl.
  rewrite H2, H1; auto. lia.
Qed.

Lemma pokes_store a mm blk : pokes a mm (store mm a blk).
Proof.
  split; [rewrite length_store; lia|]. intros x Hx Hl. apply store_other. auto.
Qed.

Lemma pokes_app a mm mm' blk : heap mm' = heap mm ++ [blk] -> pokes a mm mm'.
Proof.
  intros H. split; rewrite H; [rewrite length_app; lia|].
  intros x Hx Hl. apply lookup_app_l. auto.
Qed.

Lemma pokes_eq a mm mm' : heap mm' = heap mm -> pokes a mm mm'.
Proof. intros H. split; rewrite H; auto. Qed.

Lemma pokes_shell a mm mm' x v : pokes a mm mm' -> x <> a -> shell mm x v -> shell mm' x v.
Proof.
  intros [L H] Hx Hv. unfold shell in *. rewrite H; auto. eapply lookup_lt_Some; eauto.
Qed.

Lemma pokes_buffers (a : addr) mm mm' va :
  pokes a mm mm' -> shell mm a va ->
  forall (b : addr) blk, heap mm !! b = Some (Some blk) -> (forall v, blk <> Bvalue v) ->
    exists blk', heap mm' !! b = Some (Some blk') /\ same_shape blk blk'.
Proof.
  intros [L H] Ha b blk Hb Hn. exists blk. split; [|apply same_shape_refl; auto].
  rewrite H; auto.
  - intros ->. apply (Hn va). eapply shell_not_buffer; eauto.
  - eapply lookup_lt_Some; eauto.
Qed.

Ltac ctl_norm :=
  repeat first [rewrite ctl_bis | rewrite ctl_bic]; congruence.

Lemma settled_string m : has (flags m) flag_string = true -> settled m.
Proof. intros H H'. congruence. Qed.

Lemma settled_done m : has (flags m) flag_done = true -> settled m.
Proof. intros H _ H'. congruence. Qed.

Lemma settled_seek m : has (flags m) flag_seek_value = true -> settled m.
Proof. intros H _ _ H'. congruence. Qed.

Lemma settled_object m : top_is m (fun v => type v = json_object) -> settled m.
Proof. intros H _ _ _. exact H. Qed.

Lemma settled_same m m' :
  settled m -> top m' = top m -> mem m' = mem m ->
  has (flags m') flag_string = has (flags m) flag_string ->
  has (flags m') flag_done = has (flags m) flag_done ->
  has (flags m') flag_seek_value = has (flags m) flag_seek_value ->
  settled m'.
Proof.
  intros H Ht Hm H1 H2 H3 S1 S2 S3. eapply top_is_same; eauto.
Qed.

Lemma objects_fit_shell mm (a : addr) v :
  objects_fit mm = true -> shell mm a v -> type v = json_object ->
  sizeof_object_entry * u_length v <= int_max
  /\ sizeof_object_entry * u_length v + names_of v < 2 ^ 64.
Proof.
  unfold objects_fit, shell. intros Hall Hs Hty.
  rewrite forallb_forall in Hall.
  specialize (Hall (Some (Bvalue v))
                (proj1 (list_elem_of_In _ _) (list_elem_of_lookup_2 _ _ _ Hs))).
  unfold entries_fit in Hall. rewrite Hty in Hall. simpl in Hall.
  apply andb_prop in Hall as [H1 H2]. lia.
Qed.

Section Building.
Variable pow : float -> float -> float.
Variable cfg : settings.
Variable json : list Z.
Variable hf : memory.
Hypothesis Hhf : heap_wf hf.
Hypothesis Hallocator : mem_alloc cfg <> None.
Hypothesis Hfit : objects_fit hf = true.

Lemma paired_ctl m1 m2 : paired hf m1 m2 -> ctl (flags m2) = ctl (flags m1).
Proof. intros (_ & _ & _ & H & _). exact H. Qed.

Lemma paired_flag m1 m2 x :
  paired hf m1 m2 -> ctl x = x -> has (flags m2) x = has (flags m1) x.
Proof. intros (_ & _ & _ & H & _) Hx. apply ctl_agree_has; auto. Qed.

(** The counting pass moves without touching its memory; the building pass
    writes into buffers at most. *)
Lemma paired_quiet m1 m2 m1' m2' :
  paired hf m1 m2 ->
  mem m1' = mem m1 -> top m1' = top m1 -> root m1' = root m1 ->
  first_pass m2' = 0 -> ptr m2' = ptr m1' -> string_length m2' = string_length m1' ->
  ctl (flags m2') = ctl (flags m1') ->
  top m2' = top m2 -> root m2' = root m2 -> alloc m2' = alloc m2 ->
  rewritten (mem m2) (mem m2') ->
  (has (flags m1') flag_string = true ->
   has (flags m1) flag_string = true /\ string_ m2' = string_ m2) ->
  paired hf m1' m2'.
Proof.
  intros (P1 & P2 & P3 & P4 & P5 & P6 & P7 & P8 & P9) M1 M2 M3 Q1 Q2 Q3 Q4 Q5 Q6 Q7 Hw Hs.
  unfold paired. rewrite M1. split_all; auto; try congruence.
  - eapply built_rewritten; eauto.
  - intros H a v2 Ha Hv2. destruct (Hs H) as [H' ->].
    apply (P9 H' a v2); [congruence|]. apply Hw. exact Hv2.
Qed.

(** ** Strings *)

Lemma string_top m1 m2 :
  paired hf m1 m2 -> counting_inv cfg m1 -> has (flags m1) flag_string = true ->
  heap_le (mem m1) hf ->
  exists a v1 v2 vF,
    top m1 = Pblk a 0 /\ shell (mem m1) a v1 /\ shell (mem m2) a v2 /\ shell hf a vF
    /\ value_le v1 vF /\ parent v2 = parent v1 /\ type v2 = type vF
    /\ buffer_ok (mem m2) v1 v2 vF
    /\ ((type v1 = json_string /\ u_length v1 = 0 /\ type vF = json_string)
        \/ (type v1 = json_object /\ type vF = json_object))
    /\ string_ m2 = (if type_eqb (type v2) json_string then u_values v2 else _reserved v2).
Proof.
  intros (P1 & P2 & P3 & P4 & P5 & P6 & P7 & P8 & P9) [Hb Hf] Hs Hle.
  destruct (fi_string _ Hf Hs) as (_ & _ & _ & (a & v1 & Ha & Hv1 & Hty)).
  destruct P8 as (_ & _ & Hvis).
  destruct (Hvis a v1 Hv1) as (v2 & vF & H2 & HF & Hp & Ht & Hbo).
  destruct (proj2 Hle a v1 Hv1) as (vF' & HF' & Hvle).
  rewrite (shell_inj _ _ _ _ HF' HF) in Hvle.
  exists a, v1, v2, vF. split_all; auto.
  - destruct Hvle as (_ & Htl & _).
    destruct Hty as [[Hty Hl]|Hty]; [left|right]; split_all; auto;
      rewrite <- Hty; apply (type_le_not_number _ _ Htl); rewrite Hty; reflexivity.
  - apply (P9 Hs a v2); auto. congruence.
Qed.

Lemma string_cursor m1 m2 m1' :
  paired hf m1 m2 -> counting_inv cfg m1 -> has (flags m1) flag_string = true ->
  future hf m1' ->
  has (flags m1') flag_string = true -> has (flags m1') flag_done = false ->
  top m1' = top m1 -> mem m1' = mem m1 ->
  cursor_room (mem m2) (string_ m2) (string_length m1' + 1).
Proof.
  intros Hp Hi Hs Hfu Hs' Hd' Ht' Hm'.
  assert (Hle : heap_le (mem m1) hf) by (rewrite <- Hm'; apply Hfu).
  destruct (string_top m1 m2 Hp Hi Hs Hle)
    as (a & v1 & v2 & vF & Ha & Hv1 & Hv2 & HF & Hvle & Hpar & Hty2 & Hbo & Hcase & Hstr).
  rewrite Hstr, Hty2. unfold buffer_ok in Hbo.
  destruct Hcase as [(T1 & L1 & TF) | (T1 & TF)]; rewrite TF in Hbo |- *; simpl.
  - destruct Hbo as (_ & b & cs & E1 & E2 & E3).
    destruct (fu_string _ _ Hfu Hs' a v1) as (vf & Hvf & Hlen); auto; try congruence.
    rewrite (shell_inj _ _ _ _ Hvf HF) in Hlen.
    exists b, 0, (Bchars cs). rewrite E1. split_all; auto; lia.
  - destruct (fu_name _ _ Hfu Hs' Hd' a v1) as (vf & Hvf & Hn & Hl); auto; try congruence.
    rewrite (shell_inj _ _ _ _ Hvf HF) in Hn, Hl.
    destruct (proj2 (bi_heap _ _ (proj1 Hi)) a v1 Hv1) as (_ & Hl1 & (z & Hz & Hz0) & _).
    destruct Hbo as (_ & [H0 | (b & es & at_ & ns & E1 & E2 & E3 & E4 & E5)]); [lia|].
    exists b, (at_ + names_of v1), (Bobject es at_ ns). rewrite E5. split_all; auto.
    + unfold names_of. rewrite Hz. lia.
    + lia.
Qed.

(** Both passes write to the shell at [a] (or one of them does). *)
Lemma paired_update m1 m2 m1' m2' a v1' v2' vF :
  paired hf m1 m2 ->
  length (heap (mem m1')) = length (heap (mem m1)) ->
  (a < length (heap (mem m1)))%nat ->
  (forall x v', x <> a -> shell (mem m1') x v' -> shell (mem m1) x v') ->
  (forall v', shell (mem m1') a v' -> v' = v1') ->
  (length (heap (mem m2)) <= length (heap (mem m2')))%nat ->
  (forall x v, x <> a -> shell (mem m2) x v -> shell (mem m2') x v) ->
  (forall (b : addr) blk, heap (mem m2) !! b = Some (Some blk) -> (forall v, blk <> Bvalue v) ->
     exists blk', heap (mem m2') !! b = Some (Some blk') /\ same_shape blk blk') ->
  shell (mem m2') a v2' -> shell hf a vF ->
  parent v2' = parent v1' -> type v2' = type vF -> buffer_ok (mem m2') v1' v2' vF ->
  root m1' = root m1 ->
  first_pass m2' = 0 -> ptr m2' = ptr m1' -> string_length m2' = string_length m1' ->
  ctl (flags m2') = ctl (flags m1') -> top m2' = top m1' -> root m2' = root m2 ->
  alloc m2' = alloc m2 ->
  has (flags m1') flag_string = false ->
  paired hf m1' m2'.
Proof.
  intros (P1 & P2 & P3 & P4 & P5 & P6 & P7 & P8 & P9)
    L1 La S1 S1a L2 S2 B2 Sa HF Hpar Hty Hbo R1 Q1 Q2 Q3 Q4 Q5 Q6 Q7 Hs.
  unfold paired. rewrite L1, Hs. split_all; auto; try congruence; try discriminate.
  apply (built_general hf (mem m1) (mem m2) (mem m1') (mem m2') a); auto.
  - destruct P8 as (? & _). lia.
  - intros x v' Hx Hv'. exists v'. split; auto. repeat split.
  - intros v1 Hv1. rewrite (S1a _ Hv1). exists v2', vF. auto.
  - lia.
Qed.

Lemma add_building m1 m2 cs :
  paired hf m1 m2 -> counting_inv cfg m1 -> has (flags m1) flag_string = true ->
  string_length m1 <= uint_max -> (length cs <= 4)%nat ->
  (forall m1', defined (add_utf8 m1 cs) Continue = Continue m1' -> future hf m1') ->
  building_step hf (defined (add_utf8 m1 cs) Continue) (defined (add_utf8 m2 cs) Continue).
Proof.
  intros Hp Hi Hs Hmax Hcs Hfut.
  pose proof Hp as (P1 & P2 & P3 & P4 & P5 & P6 & P7 & P8 & P9).
  pose proof (bi_length _ _ (proj1 Hi)) as Hl0.
  rewrite add_utf8_first in * by apply Hi. simpl in *.
  specialize (Hfut _ eq_refl).
  rewrite wrap_u32_small in * by (unfold uint_max in Hmax; lia).
  destruct (fi_string _ (proj2 Hi) Hs) as (_ & Hd & _).
  pose proof (string_cursor m1 m2 _ Hp Hi Hs Hfut Hs Hd eq_refl eq_refl) as Hroom.
  msimpl.
  unfold add_utf8. rewrite P1. simpl.
  destruct (store_chars_room _ cs m2 Hroom) as (m2' & E & Hr & Hl & Hw);
    try (unfold uint_max in Hmax; lia).
  rewrite E. simpl.
  destruct Hr as (R1 & R2 & R3 & R4 & R5 & R6 & R7).
  split; [|apply settled_string; exact Hs].
  apply (paired_quiet m1 m2); msimpl; auto; try congruence; lia.
Qed.

Lemma close_string_building m1 m2 :
  paired hf m1 m2 -> counting_inv cfg m1 -> has (flags m1) flag_string = true ->
  string_length m1 <= uint_max -> future hf m1 ->
  building_step hf (close_string m1) (close_string m2).
Proof.
  intros Hp Hi Hs Hmax Hfu.
  pose proof Hp as (P1 & P2 & P3 & P4 & P5 & P6 & P7 & P8 & P9).
  pose proof (bi_length _ _ (proj1 Hi)) as Hl0.
  pose proof (bi_first _ _ (proj1 Hi)) as Hfp.
  destruct (fi_string _ (proj2 Hi) Hs) as (_ & Hd & _).
  destruct (string_top m1 m2 Hp Hi Hs (fu_heap _ _ Hfu))
    as (a & v1 & v2 & vF & Ha & Hv1 & Hv2 & HF & Hvle & Hpar & Hty2 & Hbo & Hcase & Hstr).
  pose proof (string_cursor m1 m2 m1 Hp Hi Hs Hfu Hs Hd eq_refl eq_refl) as Hroom.
  destruct (store_char_room _ _ _ (string_length m2) 0 Hroom) as (mm & E & Hw); [lia|].
  assert (Hv2' : shell mm a v2) by (apply Hw; exact Hv2).
  unfold close_string. rewrite Hfp, P1, E. simpl. msimpl.
  rewrite P5, Ha, (load_value_at _ _ _ Hv1), (load_value_at _ _ _ Hv2'). simpl.
  rewrite Hty2.
  assert (Hlenw : length (heap mm) = length (heap (mem m2))) by apply Hw.
  destruct Hcase as [(T1 & L1 & TF) | (T1 & TF)]; rewrite T1, TF.
  - (* a string value *)
    rewrite (proj2 (update_value_shell _ _ _ _)) by eauto.
    rewrite (proj2 (update_value_shell mm _ _ _)) by eauto.
    simpl.
    eapply (paired_update m1 m2 _ _ a (set_length (string_length m1) v1)
              (set_length (string_length m2) v2) vF); msimpl; eauto;
      rewrite ?length_store; try lia.
    + eapply shell_lt; eauto.
    + intros x v' Hx. apply shell_store_ne. auto.
    + intros v'. rewrite shell_store_eq by (eapply shell_lt; eauto). congruence.
    + apply store_shell_shells. auto.
    + eapply store_shell_buffers; eauto.
    + apply shell_store_eq; [eapply shell_lt; eauto|reflexivity].
    + eapply buffer_ok_step; eauto. eapply store_shell_buffers; eauto.
    + ctl_norm.
    + flags_norm. reflexivity.
  - (* a member name *)
    destruct (fu_name _ _ Hfu Hs Hd a v1) as (vf & Hvf & Hn & Hl); auto.
    rewrite (shell_inj _ _ _ _ Hvf HF) in Hn, Hl.
    destruct (proj2 (bi_heap _ _ (proj1 Hi)) a v1 Hv1) as (_ & Hl1 & (z & Hz & Hz0) & _).
    pose proof Hbo as Hbo0.
    unfold buffer_ok in Hbo. rewrite TF in Hbo.
    destruct Hbo as (Hlen & [H0 | (b & es & at_ & ns & E1 & E2 & E3 & E4 & E5)]); [lia|].
    destruct (proj2 (proj2 Hw) b _ E2) as (blk' & Hb' & Hsh); [discriminate|].
    destruct blk' as [| | |es' at_' ns']; simpl in Hsh; try contradiction.
    destruct Hsh as (S1 & <- & S3).
    destruct (update_entry_room mm b es' at_ ns' (u_length v2)
                (fun e => set_name_length (string_length m2) (set_name (_reserved v2) e)) Hb')
      as (mm3 & E3' & Hw3); [lia|].
    assert (Hw' : rewritten (mem m2) mm3) by (eapply rewritten_trans; eauto).
    assert (Hv3 : shell mm3 a v2) by (apply Hw'; exact Hv2).
    rewrite E1, E3'. simpl.
    rewrite (proj2 (update_value_shell _ _ _ _)) by eauto.
    rewrite (proj2 (update_value_shell mm3 _ _ _)) by eauto.
    rewrite Hfp, P1. simpl.
    assert (Hlen3 : length (heap mm3) = length (heap (mem m2))) by apply Hw'.
    split; [|apply settled_seek; msimpl; flags_norm; reflexivity].
    eapply (paired_update m1 m2 _ _ a
              (set_values (ptr_add (u_values v1) (wrap_u32 (string_length m1 + 1))) v1)
              (set_reserved (ptr_add (_reserved v2) (wrap_u32 (string_length m2 + 1))) v2)
              vF); msimpl; eauto;
      rewrite ?length_store; try lia.
    + eapply shell_lt; eauto.
    + intros x v' Hx. apply shell_store_ne. auto.
    + intros v'. rewrite shell_store_eq by (eapply shell_lt; eauto). congruence.
    + apply store_shell_shells. auto.
    + eapply store_shell_buffers; eauto.
    + apply shell_store_eq; [eapply shell_lt; eauto|reflexivity].
    + eapply (buffer_ok_step (mem m2) _ v1 v2 vF); [exact Hbo0 | | | |]; simpl; auto.
      * eapply store_shell_buffers; eauto.
      * intros b0 at0 Hr. rewrite Hr, Hz, P3. unfold names_of. simpl.
        rewrite Hz. simpl. f_equal. lia.
    + ctl_norm.
    + flags_norm. reflexivity.
Qed.

Lemma in_string_building m1 m2 b :
  paired hf m1 m2 -> counting_inv cfg m1 -> has (flags m1) flag_string = true ->
  future hf m1 ->
  (forall m1', in_string json m1 b = Continue m1' -> future hf m1') ->
  building_step hf (in_string json m1 b) (in_string json m2 b).
Proof.
  intros Hp Hi Hs Hfu Hfut.
  pose proof Hp as (P1 & P2 & P3 & P4 & P5 & P6 & P7 & P8 & P9).
  unfold in_string in *. rewrite P3, (paired_flag m1 m2 flag_escaped Hp eq_refl).
  destruct (b =? 0); [exact I|].
  destruct (string_length m1 >? uint_max) eqn:Hmax; [exact I|].
  assert (Hmax' : string_length m1 <= uint_max) by lia.
  assert (Hq : forall f1 f2 p,
    ctl (bis f2 0) = ctl (bis f1 0) ->
    (has f1 flag_string = true) ->
    same_atoms (flags m1) f1 ->
    paired hf (set_ptr p (set_flags f1 m1)) (set_ptr p (set_flags f2 m2))
    /\ counting_inv cfg (set_ptr p (set_flags f1 m1))).
  { intros f1 f2 p Hc Hs1 Ha. split.
    - apply (paired_quiet m1 m2); msimpl; auto.
      + rewrite !ctl_bis in Hc. change (ctl 0) with 0 in Hc.
        rewrite !Z.lor_0_r in Hc. exact Hc.
      + apply rewritten_refl.
    - apply (quiet_step cfg m1); auto. repeat split. }
  destruct (has (flags m1) flag_escaped) eqn:Hesc.
  - rewrite !escaped_decoded in *. rewrite P2.
    destruct (decode_escape json (ptr m1) b) as [cs d|d|] eqn:Hdec; try exact I.
    destruct (Hq (bic (flags m1) flag_escaped) (bic (flags m2) flag_escaped) (ptr m1 + d))
      as [Hp' Hi'].
    { ctl_norm. } { flags_norm. exact Hs. } { apply same_atoms_bic_escaped. }
    apply add_building; auto.
    + msimpl. flags_norm. exact Hs.
    + eapply decode_escape_length; eauto.
  - destruct (b =? chr "\").
    + simpl.
      destruct (Hq (bis (flags m1) flag_escaped) (bis (flags m2) flag_escaped) (ptr m1))
        as [Hp' Hi'].
      { ctl_norm. } { flags_norm. rewrite Hs. reflexivity. } { apply same_atoms_bis_escaped. }
      split; [|apply settled_string; msimpl; flags_norm; rewrite Hs; reflexivity].
      apply (paired_quiet m1 m2); msimpl; auto.
      * ctl_norm.
      * apply rewritten_refl.
    + destruct (b =? chr "034").
      * apply close_string_building; auto.
      * rewrite !STRING_ADD_add_utf8 in *. apply add_building; auto.
Qed.

(** ** New values *)

Lemma paired_push m1 m2 n1 n2 (a : addr) vnew v2' vF :
  paired hf m1 m2 -> a = length (heap (mem m1)) -> length (heap (mem n1)) = S a ->
  (S a <= length (heap hf))%nat ->
  (forall x v', shell (mem n1) x v' ->
                (x = a /\ v' = vnew) \/ exists v, shell (mem m1) x v /\ same_counts v v') ->
  shell (mem m2) a vF -> shell hf a vF ->
  pokes a (mem m2) (mem n2) -> shell (mem n2) a v2' ->
  parent v2' = parent vnew -> type v2' = type vF -> buffer_ok (mem n2) vnew v2' vF ->
  first_pass n2 = 0 -> ptr n2 = ptr n1 -> string_length n2 = string_length n1 ->
  ctl (flags n2) = ctl (flags n1) -> top n2 = top n1 -> root n2 = root n1 ->
  alloc n2 = (if (S a <? length (heap hf))%nat then Pblk (S a) 0 else nullptr) ->
  has (flags n1) flag_string = false ->
  paired hf n1 n2.
Proof.
  intros (P1 & P2 & P3 & P4 & P5 & P6 & P7 & P8 & P9)
    Ha L1 LN Hsh H2 HF Hpk Hv2 Hpar Hty Hbo Q1 Q2 Q3 Q4 Q5 Q6 Q7 Hs.
  unfold paired. rewrite L1, Hs. split_all; auto; try discriminate.
  apply (built_general hf (mem m1) (mem m2) (mem n1) (mem n2) a); auto; try lia.
  - apply Hpk.
  - intros x v Hx Hv. eapply pokes_shell; eauto.
  - eapply pokes_buffers; eauto.
  - intros x v' Hx Hv'. destruct (Hsh x v' Hv') as [[? _]|H]; [contradiction|exact H].
  - intros v1' Hv1'. destruct (Hsh a v1' Hv1') as [[_ ->]|(v & Hv & _)].
    + exists v2', vF. auto.
    + apply shell_lt in Hv. lia.
Qed.

Lemma json_alloc_total m size zero shape :
  exists p m', json_alloc cfg m size zero shape = Some (p, m').
Proof.
  unfold json_alloc. destruct (ulong_max - used_memory m <? size); [eauto|].
  match goal with |- context [if ?c then _ else _] => destruct c end; [eauto|].
  destruct (mem_alloc cfg) as [f|]; [|contradiction].
  destruct (call_mem_alloc _ _ _ _ _ _) as [p mm]. eauto.
Qed.

(** The payload buffer of the shell at [a]: allocated, linked, and the fill
    cursor reset by [g]. *)
Lemma payload_alloc r2 (a : addr) vF size shape (g : pointer -> json_value -> json_value) :
  shell (mem r2) a vF ->
  match
    '(p, m) ← json_alloc cfg r2 size false shape;
    mm ← update_value (mem m) (Pblk a 0) (set_values p);
    if is_null p then Some (false, set_mem mm m)
    else mm ← update_value mm (Pblk a 0) (g p); Some (true, set_mem mm m)
  with
  | Some (true, n2) =>
      let b := length (heap (mem r2)) in
      same_locals r2 n2 /\ pokes a (mem r2) (mem n2)
      /\ shell (mem n2) a (g (Pblk b 0) (set_values (Pblk b 0) vF))
      /\ heap (mem n2) !! b = Some (Some shape)
  | Some (false, _) => True
  | None => False
  end.
Proof.
  intros Hv. destruct (json_alloc_total r2 size false shape) as (p & m & E). rewrite E.
  simpl. destruct (json_alloc_inv _ _ _ _ _ _ _ E) as [Hloc Hcase].
  assert (Hlt : (a < length (heap (mem r2)))%nat) by (eapply shell_lt; eauto).
  assert (Hpk : pokes a (mem r2) (mem m)).
  { destruct Hcase as [[_ H]|[_ H]]; [eapply pokes_eq | eapply pokes_app]; eauto. }
  assert (Hvm : shell (mem m) a vF).
  { unfold shell. destruct Hcase as [[_ H]|[_ H]]; rewrite H; auto.
    rewrite lookup_app_l; auto. }
  rewrite (proj2 (update_value_shell _ _ _ _)) by eauto. simpl.
  destruct Hcase as [[-> H]|[-> H]]; simpl; [exact I|].
  assert (Hlm : (a < length (heap (mem m)))%nat) by (eapply shell_lt; eauto).
  rewrite (proj2 (update_value_shell _ _ _ _))
    by (do 2 eexists; split_all; [reflexivity| |reflexivity];
        apply shell_store_eq; [exact Hlm|reflexivity]).
  simpl. msimpl. split_all.
  - destruct Hloc as (? & ? & ? & ? & ? & ? & ? & ? & ? & ? & ? & ? & ?).
    repeat split; msimpl; auto.
  - eapply pokes_trans; [exact Hpk|]. eapply pokes_trans; apply pokes_store.
  - apply shell_store_eq; [rewrite length_store; exact Hlm|reflexivity].
  - rewrite !list_lookup_insert_ne by lia. rewrite H. rewrite lookup_app_r by lia.
    rewrite Nat.sub_diag. reflexivity.
Qed.

Lemma new_value_building m1 m2 ty n1 :
  paired hf m1 m2 -> base_inv cfg m1 -> has (flags m1) flag_string = false ->
  (top m1 = nullptr \/ top_is m1 (fun v => is_container (type v) = true)) ->
  new_value cfg m1 ty = Some (true, n1) -> heap_le (mem n1) hf ->
  match new_value cfg m2 ty with
  | Some (true, n2) =>
      paired hf n1 n2 /\ string_ n2 = string_ m2
      /\ exists v2 vF, shell (mem n2) (length (heap (mem m1))) v2
                       /\ shell hf (length (heap (mem m1))) vF
                       /\ type v2 = type vF /\ type_le ty (type vF)
  | Some (false, _) => True
  | None => False
  end.
Proof.
  intros Hp Hb Hs Htop Hnew Hle.
  pose proof Hp as (P1 & P2 & P3 & P4 & P5 & P6 & P7 & P8 & P9).
  pose proof (new_value_counting cfg m1 ty Hb Htop) as H. rewrite Hnew in H.
  cbv zeta in H.
  destruct H as (N1 & N2 & N3 & N4 & N5 & N6 & N7 & N8 & N9 & N10 & N11 & N12 & N13).
  set (a := length (heap (mem m1))) in *.
  set (vnew := set_parent (top m1) (set_type ty zeroed_value)) in *.
  assert (HaN : (S a <= length (heap hf))%nat) by (rewrite <- N11; apply Hle).
  destruct (proj2 Hle a vnew N10) as (vF & HF & Hvle).
  destruct (proj2 Hhf a vF HF) as (_ & HlF & (names & HnF & Hn0) & HrF).
  destruct Hvle as (VP & VT & _ & _). simpl in VP, VT.
  assert (H2 : shell (mem m2) a vF).
  { destruct P8 as (_ & Hun & _). apply Hun; auto. }
  assert (Halloc2 : alloc m2 = Pblk a 0).
  { rewrite P7. fold a. destruct (Nat.ltb_spec a (length (heap hf))); [reflexivity|lia]. }
  unfold new_value. rewrite P1. simpl. rewrite Halloc2, (load_value_at _ _ _ H2). simpl.
  set (r2 := if is_null (root m2)
             then set_root (Pblk a 0) (set_alloc (_reserved vF) (set_top (Pblk a 0) m2))
             else set_alloc (_reserved vF) (set_top (Pblk a 0) m2)).
  assert (R : first_pass r2 = 0 /\ ptr r2 = ptr m2 /\ string_length r2 = string_length m2
              /\ flags r2 = flags m2 /\ top r2 = Pblk a 0 /\ alloc r2 = _reserved vF
              /\ mem r2 = mem m2 /\ string_ r2 = string_ m2 /\ root r2 = Pblk 0%nat 0).
  { unfold r2. msimpl. rewrite P6.
    destruct (bi_ptrs _ _ Hb) as [(E & _ & Er & _) | (_ & Er & _)]; rewrite Er; simpl;
      split_all; auto.
    - unfold a. rewrite E. reflexivity.
    - congruence. }
  clearbody r2. destruct R as (R1 & R2 & R3 & R4 & R5 & R6 & R7 & R8 & R9).
  assert (Hfin : forall n2 v2',
    same_locals r2 n2 -> pokes a (mem r2) (mem n2) -> shell (mem n2) a v2' ->
    parent v2' = parent vF -> type v2' = type vF -> buffer_ok (mem n2) vnew v2' vF ->
    paired hf n1 n2 /\ string_ n2 = string_ m2
    /\ exists v2 vF, shell (mem n2) a v2 /\ shell hf a vF
                     /\ type v2 = type vF /\ type_le ty (type vF)).
  { intros n2 v2' (L1 & L2 & L3 & L4 & L5 & L6 & L7 & L8 & L9 & L10 & _) Hpk Hv2 Hpar Hty Hbo.
    split_all; [|congruence|eauto 10].
    eapply (paired_push m1 m2 n1 n2 a vnew v2' vF); eauto; try congruence.
    rewrite Hpar. exact VP. }
  assert (Hr2 : shell (mem r2) a vF) by (rewrite R7; exact H2).
  assert (Hplain : type vF <> json_array -> type vF <> json_object ->
                   type vF <> json_string ->
                   paired hf n1 r2 /\ string_ r2 = string_ m2
                   /\ exists v2 vF, shell (mem r2) a v2 /\ shell hf a vF
                                    /\ type v2 = type vF /\ type_le ty (type vF)).
  { intros T1 T2 T3. apply (Hfin r2 vF); auto.
    - repeat split.
    - apply pokes_refl.
    - unfold buffer_ok. destruct (type vF); auto; contradiction. }
  destruct (type vF) eqn:TF; try (apply Hplain; discriminate).
  - (* an object *)
    destruct (u_length vF =? 0) eqn:Hz.
    + apply (Hfin r2 vF); auto.
      * repeat split.
      * apply pokes_refl.
      * unfold buffer_ok. rewrite TF. simpl. split; [|left]; lia.
    + rewrite HnF.
      destruct (objects_fit_shell hf a vF Hfit HF TF) as [Hf1 Hf2].
      unfold names_of in Hf2. rewrite HnF in Hf2. unfold int_max in Hf1.
      assert (Hvs : wrap_s32 (wrap_u64 (sizeof_object_entry * u_length vF))
                    = sizeof_object_entry * u_length vF).
      { unfold sizeof_object_entry in *. rewrite wrap_u64_small by lia.
        unfold wrap_s32. rewrite Z.mod_small; lia. }
      rewrite Hvs.
      assert (Hsz : wrap_u64 (sizeof_object_entry * u_length vF + names)
                    = sizeof_object_entry * u_length vF + names).
      { unfold sizeof_object_entry in *. apply wrap_u64_small. lia. }
      rewrite Hsz.
      assert (Hshape : object_buffer (sizeof_object_entry * u_length vF)
                         (sizeof_object_entry * u_length vF + names)
                       = Bobject (replicate (Z.to_nat (u_length vF)) zero_entry)
                                 (sizeof_object_entry * u_length vF)
                                 (replicate (Z.to_nat names) 0)).
      { unfold object_buffer. cbv zeta.
        rewrite Z.max_r by (unfold sizeof_object_entry; lia).
        replace (sizeof_object_entry * u_length vF / sizeof_object_entry)
          with (u_length vF)
          by (unfold sizeof_object_entry; rewrite Z.mul_comm, Z.div_mul; lia).
        replace (sizeof_object_entry * u_length vF + names
                 - sizeof_object_entry * u_length vF) with names by lia.
        reflexivity. }
      rewrite Hshape.
      pose proof (payload_alloc r2 a vF
        (sizeof_object_entry * u_length vF + names)
        (Bobject (replicate (Z.to_nat (u_length vF)) zero_entry)
                 (sizeof_object_entry * u_length vF)
                 (replicate (Z.to_nat names) 0))
        (fun p v => set_length 0
            (set_reserved (ptr_add p (sizeof_object_entry * u_length vF)) v))
        Hr2) as H.
      cbv beta in H.
      match type of H with match ?t with _ => _ end =>
        destruct t as [[[|] n2]|] eqn:E end; try exact I; try contradiction.
      cbv zeta in H. destruct H as (L & Hpk & Hv2 & Hblk).
      eapply Hfin; eauto.
      unfold buffer_ok. rewrite TF. simpl. split; auto. right.
      do 4 eexists. split_all; [reflexivity|exact Hblk| | |].
      * rewrite length_replicate. lia.
      * rewrite length_replicate. unfold names_of. rewrite HnF. lia.
      * unfold names_of, vnew. simpl. f_equal. lia.
  - (* an array *)
    destruct (u_length vF =? 0) eqn:Hz.
    + apply (Hfin r2 vF); auto.
      * repeat split.
      * apply pokes_refl.
      * unfold buffer_ok. rewrite TF. simpl. split; [|left]; lia.
    + assert (Hshape : array_buffer (wrap_u64 (u_length vF * sizeof_value_ptr))
                       = Bptrs (replicate (Z.to_nat (u_length vF)) nullptr)).
      { unfold array_buffer, sizeof_value_ptr, uint_max in *.
        rewrite wrap_u64_small by lia. rewrite Z.div_mul by lia. reflexivity. }
      rewrite Hshape.
      pose proof (payload_alloc r2 a vF
        (wrap_u64 (u_length vF * sizeof_value_ptr))
        (Bptrs (replicate (Z.to_nat (u_length vF)) nullptr))
        (fun _ => set_length 0) Hr2) as H.
      cbv beta in H.
      match type of H with match ?t with _ => _ end =>
        destruct t as [[[|] n2]|] eqn:E end; try exact I; try contradiction.
      cbv zeta in H. destruct H as (L & Hpk & Hv2 & Hblk).
      eapply Hfin; eauto.
      unfold buffer_ok. rewrite TF. simpl. split; auto. right.
      do 2 eexists. split_all; [reflexivity|exact Hblk|].
      rewrite length_replicate. lia.
  - (* a string *)
    assert (Hshape : string_buffer (wrap_u64 (wrap_u32 (u_length vF + 1) * 1))
                     = Bchars (replicate (Z.to_nat (wrap_u32 (u_length vF + 1))) 0)).
    { unfold string_buffer, uint_max in *. rewrite Z.mul_1_r.
      rewrite wrap_u32_small by lia. rewrite wrap_u64_small by lia. reflexivity. }
    rewrite Hshape.
    pose proof (payload_alloc r2 a vF
      (wrap_u64 (wrap_u32 (u_length vF + 1) * 1))
      (Bchars (replicate (Z.to_nat (wrap_u32 (u_length vF + 1))) 0))
      (fun _ => set_length 0) Hr2) as H.
    cbv beta in H.
    match type of H with match ?t with _ => _ end =>
      destruct t as [[[|] n2]|] eqn:E end; try exact I; try contradiction.
    cbv zeta in H. destruct H as (L & Hpk & Hv2 & Hblk).
    eapply Hfin; eauto.
    unfold buffer_ok. rewrite TF. simpl. split; auto.
    do 2 eexists. split_all; [reflexivity|exact Hblk|].
    rewrite length_replicate, wrap_u32_small; unfold uint_max in HlF; lia.
Qed.

(** ** The end of the loop body *)

Lemma next_climb m : next m = climb (reproc_step m).
Proof. reflexivity. Qed.

Lemma paired_shell m1 m2 a v1 :
  paired hf m1 m2 -> heap_le (mem m1) hf -> shell (mem m1) a v1 ->
  exists v2 vF, shell (mem m2) a v2 /\ shell hf a vF /\ value_le v1 vF
                /\ parent v2 = parent v1 /\ type v2 = type vF
                /\ buffer_ok (mem m2) v1 v2 vF.
Proof.
  intros (_ & _ & _ & _ & _ & _ & _ & (_ & _ & Hvis) & _) Hle Hv1.
  destruct (Hvis a v1 Hv1) as (v2 & vF & H2 & HF & Hp & Ht & Hbo).
  destruct (proj2 Hle a v1 Hv1) as (vF' & HF' & Hvle).
  rewrite (shell_inj _ _ _ _ HF' HF) in Hvle. exists v2, vF. auto 10.
Qed.

Lemma container_type v vF :
  is_container (type v) = true -> value_le v vF -> type vF = type v.
Proof.
  intros Hc (_ & Ht & _). apply (type_le_not_number _ _ Ht).
  destruct (type v); try discriminate; reflexivity.
Qed.

Lemma reproc_building m1 m2 :
  paired hf m1 m2 -> paired hf (reproc_step m1) (reproc_step m2).
Proof.
  intros Hp. pose proof Hp as (P1 & P2 & P3 & P4 & P5 & P6 & P7 & P8 & P9).
  unfold reproc_step. rewrite (paired_flag m1 m2 flag_reproc Hp eq_refl).
  destruct (has (flags m1) flag_reproc); auto.
  apply (paired_quiet m1 m2); msimpl; auto; try congruence.
  - ctl_norm.
  - apply rewritten_refl.
  - flags_norm. auto.
Qed.

Lemma link_building m1 m2 a t1 t2 p p1 p2 pF :
  paired hf m1 m2 -> first_pass m1 = 1 -> heap_wf (mem m1) ->
  has (flags m1) flag_string = false ->
  top m1 = Pblk a 0 -> shell (mem m1) a t1 -> shell (mem m2) a t2 ->
  parent t1 = Pblk p 0 -> parent t2 = parent t1 ->
  shell (mem m1) p p1 -> shell (mem m2) p p2 -> shell hf p pF ->
  is_container (type p1) = true -> type pF = type p1 ->
  parent p2 = parent p1 -> type p2 = type pF -> buffer_ok (mem m2) p1 p2 pF ->
  u_length p1 + 1 <= u_length pF ->
  (has (flags m1) flag_seek_value = true \/ type p1 = json_object) ->
  building_step hf (link m1 t1 p1) (link m2 t2 p2).
Proof.
  intros Hp Hfp Hwf Hs Ha Ht1 Ht2 Hpa Htp Hp1 Hp2 HpF Hcont HTF Hpp Hpt Hpb Hcount Hsett.
  pose proof Hp as (P1 & P2 & P3 & P4 & P5 & P6 & P7 & P8 & P9).
  destruct (proj2 Hwf p p1 Hp1) as (_ & Hl1 & _).
  unfold link. rewrite Hfp, P1, Htp, Hpa, Hpt, HTF. simpl.
  unfold buffer_ok in Hpb. rewrite HTF in Hpb.
  assert (Hw : exists mm,
    match type p1 with
    | json_object => update_entry (mem m2) (u_values p2) (u_length p2) (set_value (top m2))
    | json_array => store_cell (mem m2) (u_values p2) (u_length p2) (top m2)
    | _ => Some (mem m2)
    end = Some mm /\ rewritten (mem m2) mm /\ u_length p2 = u_length p1).
  { destruct (type p1); try discriminate.
    - destruct Hpb as (El & [H0 | (b & es & at_ & ns & E1 & E2 & E3 & E4 & E5)]); [lia|].
      rewrite E1. destruct (update_entry_room (mem m2) b es at_ ns (u_length p2)
                              (set_value (top m2)) E2) as (mm & E & Hw); [lia|].
      exists mm. auto.
    - destruct Hpb as (El & [H0 | (b & cells & E1 & E2 & E3)]); [lia|].
      rewrite E1. destruct (store_cell_room (mem m2) b cells (u_length p2)
                              (top m2) E2) as (mm & E & Hw); [lia|].
      exists mm. auto. }
  destruct Hw as (mm & -> & Hw & El). simpl.
  assert (Hp2' : shell mm p p2) by (apply Hw; exact Hp2).
  rewrite (proj2 (update_value_shell _ _ _ _)) by eauto.
  rewrite (proj2 (update_value_shell mm _ _ _)) by eauto.
  simpl. rewrite El.
  destruct (wrap_u32 (u_length p1 + 1) >? uint_max); [exact I|].
  assert (Hlenw : length (heap mm) = length (heap (mem m2))) by apply Hw.
  split.
  2:{ destruct Hsett as [Hk|Hobj]; [apply settled_seek; exact Hk|].
      apply settled_object. exists p, (set_length (wrap_u32 (u_length p1 + 1)) p1).
      msimpl. split_all; auto.
      apply shell_store_eq; [eapply shell_lt; eauto|reflexivity]. }
  eapply (paired_update m1 m2 _ _ p (set_length (wrap_u32 (u_length p1 + 1)) p1)
            (set_length (wrap_u32 (u_length p1 + 1)) p2) pF); msimpl; eauto;
    rewrite ?length_store; try lia.
  - eapply shell_lt; eauto.
  - intros x v' Hx. apply shell_store_ne. auto.
  - intros v'. rewrite shell_store_eq by (eapply shell_lt; eauto). congruence.
  - apply store_shell_shells. auto.
  - eapply store_shell_buffers; eauto.
  - apply shell_store_eq; [eapply shell_lt; eauto|reflexivity].
  - rewrite <- HTF in Hpb. fold (buffer_ok (mem m2) p1 p2 pF) in Hpb.
    eapply (buffer_ok_step (mem m2) _ p1 p2 pF); [exact Hpb | | | |]; simpl; auto.
    eapply store_shell_buffers; eauto.
Qed.

Lemma climb_building m1 m2 :
  paired hf m1 m2 -> (has (flags m1) flag_next = false -> settled m1) ->
  (has (flags m1) flag_next = true ->
   base_inv cfg m1 /\ has (flags m1) flag_string = false /\ heap_le (mem m1) hf
   /\ forall a t p vp, top m1 = Pblk a 0 -> shell (mem m1) a t -> parent t = Pblk p 0 ->
                       shell (mem m1) p vp ->
                       exists vf, shell hf p vf /\ u_length vp + 1 <= u_length vf) ->
  building_step hf (climb m1) (climb m2).
Proof.
  intros Hp Hsett Hfacts. pose proof Hp as (P1 & P2 & P3 & P4 & P5 & P6 & P7 & P8 & P9).
  unfold climb. rewrite (paired_flag m1 m2 flag_next Hp eq_refl).
  destruct (has (flags m1) flag_next) eqn:Hn; [|split; auto].
  destruct (Hfacts eq_refl) as (Hb & Hs & Hle & Hpend). cbv zeta. msimpl.
  pose proof (bi_first _ _ Hb) as Hfp. pose proof (bi_heap _ _ Hb) as Hwf.
  destruct (load_value (mem m1) (top m1)) as [t1|] eqn:Lt; [|exact I].
  apply load_value_shell in Lt as (a & Ha & Ht1).
  destruct (paired_shell m1 m2 a t1 Hp Hle Ht1) as (t2 & tF & Ht2 & HtF & Htle & Htp & Htt & Htb).
  rewrite P5, Ha, (load_value_at _ _ _ Ht2). simpl. rewrite Htp.
  destruct (is_null (parent t1)) eqn:Hnull.
  { split; [|apply settled_done; msimpl; flags_norm; reflexivity].
    apply (paired_quiet m1 m2); msimpl; auto; try congruence.
    - ctl_norm.
    - apply rewritten_refl.
    - flags_norm. rewrite Hs. discriminate. }
  destruct (load_value (mem m1) (parent t1)) as [p1|] eqn:Lp; [|exact I].
  apply load_value_shell in Lp as (p & Hpa & Hp1).
  destruct (paired_shell m1 m2 p p1 Hp Hle Hp1) as (p2 & pF & Hp2 & HpF & Hple & Hpp & Hpt & Hpb).
  destruct (proj2 Hwf a t1 Ht1) as ([(_ & Hpn) | (p' & vp' & E1 & _ & E2 & E3)] & _).
  { rewrite Hpn in Hnull. discriminate. }
  rewrite Hpa in E1. injection E1 as <-. rewrite (shell_inj _ _ _ _ E2 Hp1) in E3.
  pose proof (container_type _ _ E3 Hple) as HTF.
  destruct (Hpend a t1 p p1 Ha Ht1 Hpa Hp1) as (vf & Hvf & Hcount).
  rewrite (shell_inj _ _ _ _ Hvf HpF) in Hcount.
  rewrite Hpa, (load_value_at _ _ _ Hp2). simpl. rewrite Hpt, HTF.
  assert (Hq : forall f1 f2, ctl f2 = ctl f1 -> has f1 flag_string = false ->
    paired hf (set_flags f1 m1) (set_flags f2 m2)).
  { intros f1 f2 Hc Hs1.
    apply (paired_quiet m1 m2); msimpl; auto.
    - apply rewritten_refl.
    - rewrite Hs1. discriminate. }
  destruct (type_eqb (type p1) json_array) eqn:Harr.
  - eapply (link_building _ _ a t1 t2 p p1 p2 pF); msimpl; eauto.
    + apply Hq; [ctl_norm | flags_norm; auto].
    + flags_norm. auto.
    + left. flags_norm. reflexivity.
  - eapply (link_building _ _ a t1 t2 p p1 p2 pF); msimpl; eauto.
    + apply Hq; [ctl_norm | flags_norm; auto].
    + flags_norm. auto.
    + right. unfold is_container in E3. rewrite Harr in E3. simpl in E3.
      apply type_eqb_eq. exact E3.
Qed.

Lemma pending_top m :
  future hf m -> has (flags m) flag_done = false ->
  forall a t p vp, top m = Pblk a 0 -> shell (mem m) a t -> parent t = Pblk p 0 ->
                   shell (mem m) p vp ->
                   exists vf, shell hf p vf /\ u_length vp + 1 <= u_length vf.
Proof.
  intros Hfu Hd a t p vp Ha Ht Hp Hvp. apply (fu_pending _ _ Hfu).
  right. left. split; auto. exists a, t, vp. rewrite Ha. split_all; auto.
  - constructor.
  - lia.
Qed.

Lemma reproc_step_same m :
  same_core m (reproc_step m) /\ string_length (reproc_step m) = string_length m
  /\ forall x, Z.land (Z.lnot 2) x = x ->
               has (flags (reproc_step m)) x = has (flags m) x.
Proof.
  unfold reproc_step. destruct (has (flags m) flag_reproc); split_all; try repeat split.
  intros x Hx. msimpl. rewrite has_bic. change flag_reproc with 2. rewrite Hx. reflexivity.
Qed.

Lemma next_building mid1 mid2 :
  paired hf mid1 mid2 -> (has (flags mid1) flag_next = false -> settled mid1) ->
  (has (flags mid1) flag_next = true ->
   next_ready cfg mid1 /\ forall m1', next mid1 = Continue m1' -> future hf m1') ->
  building_step hf (next mid1) (next mid2).
Proof.
  intros Hp Hsett Hfacts.
  destruct (next mid1) as [m1'| | | |] eqn:En; try exact I;
    try (destruct (has (flags mid1) flag_next) eqn:Hn;
         [ destruct (Hfacts eq_refl) as [Hr _]; pose proof (next_counting cfg mid1 Hr) as H;
           rewrite En in H; contradiction
         | rewrite next_plain in En by exact Hn; discriminate ]).
  rewrite <- En. rewrite !next_climb.
  destruct (reproc_step_same mid1) as ((C1 & C2 & C3 & C4 & C5) & Cl & Cf).
  apply climb_building; [apply reproc_building; exact Hp| |].
  { rewrite (Cf flag_next eq_refl). intros Hn.
    apply (settled_same mid1); auto; apply Cf; reflexivity. }
  rewrite (Cf flag_next eq_refl). intros Hn.
  destruct (Hfacts Hn) as [Hr Hfut]. specialize (Hfut _ eq_refl).
  pose proof (next_counting cfg mid1 Hr) as H. rewrite En in H. destruct H as [Hi' Hsf].
  assert (Hfu : future hf mid1).
  { eapply future_of_step; eauto; [apply Hr | apply Hi']. }
  rewrite (Cf flag_string eq_refl), C2, C3. split_all.
  - apply (base_inv_same cfg mid1).
    + repeat split; auto.
    + rewrite Cl. apply Hr.
    + intros Hc. destruct (bi_comments _ _ (nr_base _ _ Hr) Hc). unfold no_comment.
      rewrite (Cf flag_line_comment eq_refl), (Cf flag_block_comment eq_refl). auto.
    + apply Hr.
  - apply Hr.
  - apply Hfu.
  - apply pending_top; auto. apply Hr.
Qed.

(** ** Stages that only move the cursor and the flags *)

Lemma paired_ptr_flags m1 m2 f1 f2 p :
  paired hf m1 m2 -> ctl f2 = ctl f1 ->
  (has f1 flag_string = true -> has (flags m1) flag_string = true) ->
  paired hf (set_ptr p (set_flags f1 m1)) (set_ptr p (set_flags f2 m2)).
Proof.
  intros Hp Hc Hs. pose proof Hp as (P1 & P2 & P3 & P4 & P5 & P6 & P7 & P8 & P9).
  apply (paired_quiet m1 m2); msimpl; auto. apply rewritten_refl.
Qed.

Lemma paired_flags m1 m2 f1 f2 :
  paired hf m1 m2 -> ctl f2 = ctl f1 ->
  (has f1 flag_string = true -> has (flags m1) flag_string = true) ->
  paired hf (set_flags f1 m1) (set_flags f2 m2).
Proof.
  intros Hp Hc Hs. pose proof Hp as (P1 & P2 & P3 & P4 & P5 & P6 & P7 & P8 & P9).
  apply (paired_quiet m1 m2); msimpl; auto. apply rewritten_refl.
Qed.

Lemma paired_whitespace m1 m2 b m1' :
  paired hf m1 m2 -> WHITESPACE b m1 = Some m1' ->
  exists m2', WHITESPACE b m2 = Some m2' /\ paired hf m1' m2'.
Proof.
  intros Hp. pose proof Hp as (P1 & P2 & P3 & P4 & P5 & P6 & P7 & P8 & P9).
  unfold WHITESPACE. destruct (b =? chr "010").
  - intros [= <-]. eexists. split; [reflexivity|].
    apply (paired_quiet m1 m2); msimpl; auto. apply rewritten_refl.
  - destruct ((b =? chr " ") || (b =? chr "009") || (b =? chr "013")); [|discriminate].
    intros [= <-]. eauto.
Qed.

Lemma WHITESPACE_none m1 m2 b : WHITESPACE b m1 = None -> WHITESPACE b m2 = None.
Proof.
  unfold WHITESPACE. destruct (b =? chr "010"); [discriminate|].
  destruct ((b =? chr " ") || (b =? chr "009") || (b =? chr "013")); [discriminate|auto].
Qed.

Lemma top_type_eqb m1 m2 t1 ty :
  paired hf m1 m2 -> heap_le (mem m1) hf -> is_number ty = false ->
  load_value (mem m1) (top m1) = Some t1 ->
  exists t2, load_value (mem m2) (top m2) = Some t2
             /\ type_eqb (type t2) ty = type_eqb (type t1) ty.
Proof.
  intros Hp Hle Hn Lt. pose proof Hp as (P1 & P2 & P3 & P4 & P5 & P6 & P7 & P8 & P9).
  apply load_value_shell in Lt as (a & Ha & Ht1).
  destruct (paired_shell m1 m2 a t1 Hp Hle Ht1) as (t2 & tF & Ht2 & HtF & Htle & Htp & Htt & Htb).
  exists t2. rewrite P5, Ha. split; [apply load_value_at; auto|].
  rewrite Htt. destruct Htle as (_ & [->| [-> ->]] & _); auto.
  destruct ty; try discriminate; reflexivity.
Qed.

Lemma comments_building m1 m2 b :
  paired hf m1 m2 -> heap_le (mem m1) hf -> settled m1 ->
  building_step hf (comments json m1 b) (comments json m2 b).
Proof.
  intros Hp Hle Hsett. pose proof Hp as (P1 & P2 & P3 & P4 & P5 & P6 & P7 & P8 & P9).
  assert (Hsame : forall f p, has f flag_string = has (flags m1) flag_string ->
            has f flag_done = has (flags m1) flag_done ->
            has f flag_seek_value = has (flags m1) flag_seek_value ->
            settled (set_ptr p (set_flags f m1))).
  { intros f p H1 H2 H3. apply (settled_same m1); auto. }
  unfold comments.
  rewrite !(paired_flag m1 m2 _ Hp eq_refl), P2.
  destruct (has (flags m1) (Z.lor flag_line_comment flag_block_comment)).
  - destruct (has (flags m1) flag_line_comment).
    + destruct ((b =? chr "013") || (b =? chr "010") || (b =? 0)); [|split; auto].
      split; [|apply Hsame; flags_norm; auto].
      apply paired_ptr_flags; auto; [ctl_norm | flags_norm; auto].
    + destruct (has (flags m1) flag_block_comment); [|exact Hp].
      destruct (b =? 0); [exact I|].
      destruct ((b =? chr "*") && (ptr m1 <? end_ json - 1)); [|split; auto].
      destruct (deref json (ptr m1 + 1)) as [c|]; [|exact I]. simpl.
      destruct (c =? chr "/"); [|split; auto].
      split; [|apply Hsame; flags_norm; auto].
      apply paired_ptr_flags; auto; [ctl_norm | flags_norm; auto].
  - destruct (b =? chr "/"); [|exact Hp].
    assert (Ha : forall allowed,
      (if has (flags m1) (Z.lor flag_seek_value flag_done) then Some true
       else t ← load_value (mem m1) (top m1); Some (type_eqb (type t) json_object))
      = Some allowed ->
      (if has (flags m1) (Z.lor flag_seek_value flag_done) then Some true
       else t ← load_value (mem m2) (top m2); Some (type_eqb (type t) json_object))
      = Some allowed).
    { intros al. destruct (has (flags m1) (Z.lor flag_seek_value flag_done)); auto.
      destruct (load_value (mem m1) (top m1)) as [t1|] eqn:Lt; [|discriminate].
      destruct (top_type_eqb m1 m2 t1 json_object Hp Hle eq_refl Lt) as (t2 & -> & E).
      simpl. rewrite E. auto. }
    match goal with |- building_step _ (defined ?o _) _ =>
      destruct o as [allowed|] eqn:E; [|exact I] end.
    rewrite (Ha _ eq_refl). simpl.
    destruct (negb allowed); [exact I|]. msimpl.
    destruct (ptr m1 + 1 =? end_ json); [exact I|].
    destruct (deref json (ptr m1 + 1)) as [c|]; [|exact I]. simpl.
    destruct (c =? chr "/").
    + split; [|apply (settled_same m1); msimpl; auto; flags_norm; auto].
      apply (paired_quiet m1 m2); msimpl; auto.
      * ctl_norm.
      * apply rewritten_refl.
      * flags_norm. auto.
    + destruct (c =? chr "*"); [|exact I].
      split; [|apply (settled_same m1); msimpl; auto; flags_norm; auto].
      apply (paired_quiet m1 m2); msimpl; auto.
      * ctl_norm.
      * apply rewritten_refl.
      * flags_norm. auto.
Qed.

Lemma done_building m1 m2 b :
  paired hf m1 m2 -> has (flags m1) flag_done = true ->
  building_step hf (done_ m1 b) (done_ m2 b).
Proof.
  intros Hp Hd. unfold done_. destruct (b =? 0); [exact Hp|].
  destruct (WHITESPACE b m1) as [m1'|] eqn:E.
  - destruct (paired_whitespace _ _ _ _ Hp E) as (m2' & -> & Hp'). split; auto.
    apply WHITESPACE_same in E as (_ & Hf & _). apply settled_done. congruence.
  - exact I.
Qed.

Lemma and_then_building f1 f2 k1 k2 :
  building_step hf f1 f2 ->
  (forall m1 m2, f1 = Fall m1 -> f2 = Fall m2 -> paired hf m1 m2 ->
                 building_step hf (k1 m1) (k2 m2)) ->
  building_step hf (and_then f1 k1) (and_then f2 k2).
Proof.
  intros H Hk. destruct f1 as [m1|m1|m1| |]; destruct f2 as [m2|m2|m2|e m2|];
    simpl in *; try contradiction; auto.
  subst e. destruct (k1 m1); simpl; auto.
Qed.

Lemma next_ready_flags m f :
  base_inv cfg m -> top_is m (fun _ => True) ->
  has f flag_next = true -> has f flag_string = false -> has f flag_done = false ->
  has f flag_seek_value = false -> (allow_comments cfg = false -> no_comment f) ->
  next_ready cfg (set_flags f m).
Proof.
  intros Hb Ht H1 H2 H3 H4 H5. split; msimpl; auto.
  eapply base_inv_same; eauto; msimpl.
  - repeat split.
  - apply Hb.
Qed.

Lemma paired_start_string m1 m2 a t2 s1 :
  paired hf m1 m2 -> top m2 = Pblk a 0 -> shell (mem m2) a t2 ->
  paired hf
    (set_string_length 0 (set_string s1 (set_flags (bis (flags m1) flag_string) m1)))
    (set_string_length 0
       (set_string (if type_eqb (type t2) json_string then u_values t2 else _reserved t2)
          (set_flags (bis (flags m2) flag_string) m2))).
Proof.
  intros Hp Ha Ht2. pose proof Hp as (P1 & P2 & P3 & P4 & P5 & P6 & P7 & P8 & P9).
  unfold paired. msimpl. split_all; auto.
  - ctl_norm.
  - intros _ x v2 Hx Hv2. rewrite Ha in Hx. injection Hx as <-.
    rewrite (shell_inj _ _ _ _ Hv2 Ht2). reflexivity.
Qed.

(** ** The object state *)

Lemma in_object_building m1 m2 a t1 t2 b :
  paired hf m1 m2 -> counting_inv cfg m1 ->
  has (flags m1) flag_string = false -> has (flags m1) flag_done = false ->
  has (flags m1) flag_seek_value = false -> no_comment (flags m1) ->
  top m1 = Pblk a 0 -> shell (mem m1) a t1 -> shell (mem m2) a t2 ->
  type t1 = json_object -> type t2 = json_object ->
  (forall m1', and_then (in_object m1 t1 b) next = Continue m1' -> future hf m1') ->
  building_step hf (and_then (in_object m1 t1 b) next) (and_then (in_object m2 t2 b) next).
Proof.
  intros Hp [Hb Hf] Hs Hd Hk [Hlc Hbc] Ha Ht1 Ht2 Hty1 Hty2 Hfut.
  pose proof Hp as (P1 & P2 & P3 & P4 & P5 & P6 & P7 & P8 & P9).
  pose proof (proj1 (fi_clean _ Hf)) as Hn.
  assert (Hobj : forall x, top x = top m1 -> mem x = mem m1 -> settled x).
  { intros x Hx Hm. apply settled_object. exists a, t1. rewrite Hx, Hm. auto. }
  unfold in_object in *.
  destruct (WHITESPACE b m1) as [m1'|] eqn:E.
  { destruct (paired_whitespace _ _ _ _ Hp E) as (m2' & -> & Hp'). split; auto.
    apply WHITESPACE_same in E as ((_ & Hm & Ht & _) & _). auto. }
  rewrite (WHITESPACE_none m1 m2 b E).
  rewrite !(paired_flag m1 m2 _ Hp eq_refl).
  destruct (b =? chr "034").
  { destruct (has (flags m1) flag_need_comma); [exact I|]. simpl.
    apply next_building.
    - pose proof (paired_start_string m1 m2 a t2 (_reserved t1) Hp) as H.
      rewrite Hty2 in H. simpl in H. apply H; auto. congruence.
    - intros _. apply settled_string. msimpl. flags_norm. reflexivity.
    - msimpl. flags_norm. rewrite Hn. discriminate. }
  destruct (b =? chr "}").
  { simpl in *. apply next_building.
    - apply paired_flags; auto; [ctl_norm | flags_norm; auto].
    - msimpl. flags_norm. discriminate.
    - intros _. split; auto. apply next_ready_flags; auto; flags_norm; auto.
      + exists a, t1. auto.
      + intros _. unfold no_comment. flags_norm. auto. }
  destruct ((b =? chr ",") && has (flags m1) flag_need_comma); [|exact I].
  simpl. apply next_building.
  - apply paired_flags; auto; [ctl_norm | flags_norm; auto].
  - intros _. apply Hobj; reflexivity.
  - msimpl. flags_norm. rewrite Hn. discriminate.
Qed.

(** ** Seeking a value *)

Lemma building_step_failed f1 m2 :
  building_step hf f1 (Failed alloc_failure m2).
Proof. destruct f1; simpl; auto. Qed.

Lemma with_new_value_building m m1 m2 ty k1 k2 :
  paired hf m1 m2 -> base_inv cfg m1 -> has (flags m1) flag_string = false ->
  (top m1 = nullptr \/ top_is m1 (fun v => is_container (type v) = true)) ->
  counting_step cfg m (and_then (with_new_value cfg m1 ty k1) next) ->
  (forall m1', and_then (with_new_value cfg m1 ty k1) next = Continue m1' ->
               future hf m1') ->
  (forall n1 m1', new_value cfg m1 ty = Some (true, n1) ->
                  and_then (k1 n1) next = Continue m1' -> counting_inv cfg m1' ->
                  heap_le (mem n1) (mem m1')) ->
  (forall n1 n2,
     new_value cfg m1 ty = Some (true, n1) -> paired hf n1 n2 ->
     string_ n2 = string_ m2 ->
     (exists v2 vF, shell (mem n2) (length (heap (mem m1))) v2
                    /\ shell hf (length (heap (mem m1))) vF
                    /\ type v2 = type vF /\ type_le ty (type vF)) ->
     heap_le (mem n1) hf ->
     (forall m1', and_then (k1 n1) next = Continue m1' -> future hf m1') ->
     building_step hf (and_then (k1 n1) next) (and_then (k2 n2) next)) ->
  building_step hf (and_then (with_new_value cfg m1 ty k1) next)
                   (and_then (with_new_value cfg m2 ty k2) next).
Proof.
  intros Hp Hb Hs Htop Hcs Hfut Hle Hk. unfold with_new_value in *.
  destruct (new_value cfg m1 ty) as [[[|] n1]|] eqn:E1; cbn [defined fst snd] in *;
    try exact I.
  destruct (and_then (k1 n1) next) as [m1'| | | |] eqn:Ek; simpl in Hcs;
    try contradiction; try exact I.
  assert (Hn1 : heap_le (mem n1) hf).
  { eapply heap_le_trans; [eapply Hle; eauto; apply Hcs|]. apply (Hfut _ eq_refl). }
  pose proof (new_value_building m1 m2 ty n1 Hp Hb Hs Htop E1 Hn1) as H.
  destruct (new_value cfg m2 ty) as [[[|] n2]|]; cbn [defined fst snd]; try contradiction.
  - destruct H as (Hp' & Hstr & Hex). rewrite <- Ek. apply Hk; auto.
    intros m1'0 E. rewrite Ek in E. injection E as <-. apply (Hfut _ eq_refl).
  - apply (building_step_failed (Continue m1')).
Qed.

Lemma seek_value_building m1 m2 b :
  paired hf m1 m2 -> counting_inv cfg m1 ->
  has (flags m1) flag_string = false -> has (flags m1) flag_done = false ->
  has (flags m1) flag_seek_value = true -> no_comment (flags m1) ->
  future hf m1 ->
  (forall m1', and_then (seek_value cfg json m1 b) next = Continue m1' -> future hf m1') ->
  (has (flags m1) flag_need_comma = false -> has (flags m1) flag_need_colon = false ->
   (isdigit b || (b =? chr "-")) = false) ->
  building_step hf (and_then (seek_value cfg json m1 b) next)
                   (and_then (seek_value cfg json m2 b) next).
Proof.
  intros Hp Hi Hs Hd Hk Hnc Hfu Hfut Hnum. pose proof Hi as [Hb Hf].
  pose proof Hp as (P1 & P2 & P3 & P4 & P5 & P6 & P7 & P8 & P9).
  pose proof (seek_value_counting cfg json m1 b Hi Hs Hd Hk Hnc) as Hcs.
  destruct Hnc as [Hlc Hbc].
  pose proof (proj1 (fi_clean _ Hf)) as Hn. pose proof (proj2 (fi_clean _ Hf)) as Hr.
  pose proof (fu_heap _ _ Hfu) as Hle.
  unfold seek_value in *.
  destruct (WHITESPACE b m1) as [m1'|] eqn:E.
  { destruct (paired_whitespace _ _ _ _ Hp E) as (m2' & -> & Hp'). split; auto.
    apply WHITESPACE_same in E as (_ & Hfl & _). apply settled_seek. congruence. }
  rewrite (WHITESPACE_none m1 m2 b E).
  rewrite !(paired_flag m1 m2 _ Hp eq_refl), P5.
  destruct (b =? chr "]").
  { destruct (is_null (top m1)) eqn:Hnull; [exact I|].
    destruct (load_value (mem m1) (top m1)) as [t1|] eqn:Lt; [|exact I].
    destruct (top_type_eqb m1 m2 t1 json_array Hp Hle eq_refl Lt) as (t2 & Lt2 & Et).
    rewrite <- P5, Lt2. simpl in *. rewrite Et.
    destruct (type_eqb (type t1) json_array); [|exact I]. simpl in *.
    apply next_building.
    - apply paired_flags; auto; [ctl_norm | flags_norm; auto].
    - msimpl. flags_norm. discriminate.
    - intros _. split; auto. apply next_ready_flags; auto; flags_norm; auto.
      + apply load_value_shell in Lt as (a & Ha & Ht1). exists a, t1. auto.
      + intros _. unfold no_comment. flags_norm. auto. }
  destruct (has (flags m1) flag_need_comma) eqn:Hcm.
  { destruct (b =? chr ","); [|exact I]. simpl.
    split; [|apply settled_seek; msimpl; flags_norm; auto].
    apply paired_flags; auto; [ctl_norm | flags_norm; auto]. }
  destruct (has (flags m1) flag_need_colon) eqn:Hcl.
  { destruct (b =? chr ":"); [|exact I]. simpl.
    split; [|apply settled_seek; msimpl; flags_norm; auto].
    apply paired_flags; auto; [ctl_norm | flags_norm; auto]. }
  specialize (Hnum eq_refl eq_refl).
  cbv zeta in *.
  set (m01 := set_flags (bic (flags m1) flag_seek_value) m1) in *.
  set (m02 := set_flags (bic (flags m2) flag_seek_value) m2) in *.
  assert (Hp0 : paired hf m01 m02).
  { apply paired_flags; auto; [ctl_norm | flags_norm; auto]. }
  assert (Hp0' : forall p, paired hf (set_ptr p m01) (set_ptr p m02)).
  { intros p. apply paired_ptr_flags; auto; [ctl_norm | flags_norm; auto]. }
  assert (Hgen : forall x1, same_core m1 x1 -> flags x1 = flags m01 ->
                            string_length x1 = string_length m1 ->
    base_inv cfg x1 /\ has (flags x1) flag_string = false
    /\ (top x1 = nullptr \/ top_is x1 (fun v => is_container (type v) = true))
    /\ forall ty n1, new_value cfg x1 ty = Some (true, n1) ->
      let a := length (heap (mem m1)) in
      let vnew := set_parent (top m1) (set_type ty zeroed_value) in
      flags n1 = flags m01 /\ first_pass n1 = 1
      /\ string_length n1 = string_length m1
      /\ forall m'',
        first_pass m'' = first_pass n1 -> mem m'' = mem n1 -> top m'' = top n1 ->
        root m'' = root n1 -> alloc m'' = alloc n1 -> 0 <= string_length m'' ->
        (allow_comments cfg = false -> no_comment (flags m'')) ->
        has (flags m'') flag_done = false ->
        base_inv cfg m'' /\ step_facts m1 m'' /\ top m'' = Pblk a 0
        /\ shell (mem m'') a vnew).
  { intros x1 Hc Hfx Hlx. pose proof Hc as (C1 & C2 & C3 & C4 & C5).
    assert (Hcx : allow_comments cfg = false -> no_comment (flags x1)).
    { intros _. rewrite Hfx. unfold no_comment, m01. msimpl. flags_norm. auto. }
    split_all.
    - eapply base_inv_same; eauto. rewrite Hlx. apply Hb.
    - rewrite Hfx. unfold m01. msimpl. flags_norm. auto.
    - destruct (fi_seek _ Hf Hk Hd) as [_ [H|H]]; [left; congruence|right].
      eapply top_is_same; eauto.
    - intros ty n1 E1.
      destruct (push_step cfg m1 x1 ty n1 Hi Hs Hd Hk Hc Hlx Hcx E1)
        as (Q1 & Q2 & Q3 & Q4 & Q5).
      cbv zeta. split_all; auto. congruence. }
  assert (Hnv : forall x1 x2 ty k1 k2,
    same_core m1 x1 -> flags x1 = flags m01 -> string_length x1 = string_length m1 ->
    paired hf x1 x2 ->
    counting_step cfg m1 (and_then (with_new_value cfg x1 ty k1) next) ->
    (forall m1', and_then (with_new_value cfg x1 ty k1) next = Continue m1' ->
                 future hf m1') ->
    (forall n1 m1', new_value cfg x1 ty = Some (true, n1) ->
                    and_then (k1 n1) next = Continue m1' -> counting_inv cfg m1' ->
                    heap_le (mem n1) (mem m1')) ->
    (forall n1 n2,
       new_value cfg x1 ty = Some (true, n1) -> paired hf n1 n2 ->
       (exists v2 vF, shell (mem n2) (length (heap (mem m1))) v2
                      /\ shell hf (length (heap (mem m1))) vF
                      /\ type v2 = type vF /\ type_le ty (type vF)) ->
       heap_le (mem n1) hf ->
       (forall m1', and_then (k1 n1) next = Continue m1' -> future hf m1') ->
       building_step hf (and_then (k1 n1) next) (and_then (k2 n2) next)) ->
    building_step hf (and_then (with_new_value cfg x1 ty k1) next)
                     (and_then (with_new_value cfg x2 ty k2) next)).
  { intros x1 x2 ty k1 k2 Hc Hfx Hlx Hpx Hc1 Hf1 Hl1 Hk1.
    destruct (Hgen x1 Hc Hfx Hlx) as (G1 & G2 & G3 & G4).
    apply (with_new_value_building m1); auto.
    intros n1 n2 E1 Hpn Hstr Hex. destruct Hc as (_ & C2 & _). rewrite C2 in Hex.
    apply Hk1; auto. }
  assert (Hready : forall p ty n1, new_value cfg (set_ptr p m01) ty = Some (true, n1) ->
    base_inv cfg n1 /\ top n1 = Pblk (length (heap (mem m1))) 0
    /\ shell (mem n1) (length (heap (mem m1)))
             (set_parent (top m1) (set_type ty zeroed_value))
    /\ flags n1 = flags m01).
  { intros p ty n1 E1.
    destruct (Hgen (set_ptr p m01)) as (_ & _ & _ & G4); try reflexivity; [repeat split|].
    destruct (G4 _ _ E1) as (Q1 & Q2 & Q3 & Q4).
    destruct (Q4 n1) as (B1 & S1 & T1 & Sh1); auto.
    - rewrite Q3. apply Hb.
    - intros _. rewrite Q1. unfold no_comment, m01. msimpl. flags_norm. auto.
    - rewrite Q1. unfold m01. msimpl. flags_norm. auto. }
  destruct (b =? chr "{").
  { apply Hnv; auto; try reflexivity; try (repeat split; fail).
    - intros n1 m1' E1 Ec Hi'. simpl in Ec. injection Ec as <-. apply heap_le_refl. apply Hi'.
    - intros n1 n2 E1 Hpn Hex Hl1 Hf1. simpl. split; auto.
      destruct (Hready (ptr m01) _ n1 E1) as (B1 & T1 & Sh1 & Q1).
      apply settled_object. do 2 eexists. split_all; [exact T1|exact Sh1|reflexivity]. }
  destruct (b =? chr "[").
  { apply Hnv; auto; try reflexivity; try (repeat split; fail).
    - intros n1 m1' E1 Ec Hi'. simpl in Ec. injection Ec as <-. apply heap_le_refl. apply Hi'.
    - intros n1 n2 E1 Hpn Hex Hl1 Hf1. simpl.
      destruct (Hgen m01) as (_ & _ & _ & G4); try reflexivity; [repeat split|].
      destruct (G4 _ _ E1) as (Q1 & _).
      pose proof (paired_ctl _ _ Hpn).
      split; [|apply settled_seek; msimpl; flags_norm; auto].
      apply paired_flags; auto; [ctl_norm|].
      flags_norm. auto. }
  destruct (b =? chr "034").
  { apply Hnv; auto; try reflexivity; try (repeat split; fail).
    - intros n1 m1' E1 Ec Hi'.
      destruct (load_value (mem n1) (top n1)); [|discriminate].
      simpl in Ec. injection Ec as <-. apply heap_le_refl. apply Hi'.
    - intros n1 n2 E1 Hpn (v2 & vF & Hv2 & HvF & Ht2 & Htl) Hl1 Hf1.
      destruct (Hgen m01) as (_ & _ & _ & G4); try reflexivity; [repeat split|].
      destruct (G4 _ _ E1) as (Q1 & Q2 & Q3 & Q4).
      destruct (Q4 n1) as (B1 & S1 & T1 & Sh1); auto.
      { rewrite Q3. apply Hb. }
      { intros _. rewrite Q1. unfold no_comment, m01. msimpl. flags_norm. auto. }
      { rewrite Q1. unfold m01. msimpl. flags_norm. auto. }
      assert (T2 : top n2 = Pblk (length (heap (mem m1))) 0).
      { destruct Hpn as (_ & _ & _ & _ & -> & _). exact T1. }
      rewrite T1, T2, (load_value_at _ _ _ Sh1), (load_value_at _ _ _ Hv2). simpl.
      pose proof (paired_start_string n1 n2 _ v2
                    (u_values (set_parent (top m1) (set_type json_string zeroed_value)))
                    Hpn T2 Hv2) as H.
      rewrite Ht2, (type_le_not_number _ _ Htl eq_refl) in H.
      split; [exact H|]. apply settled_string. msimpl. flags_norm. reflexivity. }
  assert (Hmid : forall x, base_inv cfg x -> top_is x (fun _ => True) ->
    next_ready cfg (set_flags (bis (flags m01) flag_next) x)).
  { intros x B1 T1.
    apply (next_ready_flags x); auto; unfold m01; msimpl; flags_norm; auto.
    intros _. unfold no_comment. flags_norm. auto. }
  assert (Hkey : forall least cs ty k1 k2,
    counting_step cfg m1 (and_then (start_keyword cfg json m01 least cs ty k1) next) ->
    (forall m1', and_then (start_keyword cfg json m01 least cs ty k1) next = Continue m1' ->
                 future hf m1') ->
    (forall p n1 m1', new_value cfg (set_ptr p m01) ty = Some (true, n1) ->
                      and_then (k1 n1) next = Continue m1' -> counting_inv cfg m1' ->
                      heap_le (mem n1) (mem m1')) ->
    (forall p n1 n2,
       new_value cfg (set_ptr p m01) ty = Some (true, n1) -> paired hf n1 n2 ->
       (exists v2 vF, shell (mem n2) (length (heap (mem m1))) v2
                      /\ shell hf (length (heap (mem m1))) vF
                      /\ type v2 = type vF /\ type_le ty (type vF)) ->
       heap_le (mem n1) hf ->
       (forall m1', and_then (k1 n1) next = Continue m1' -> future hf m1') ->
       building_step hf (and_then (k1 n1) next) (and_then (k2 n2) next)) ->
    building_step hf (and_then (start_keyword cfg json m01 least cs ty k1) next)
                     (and_then (start_keyword cfg json m02 least cs ty k2) next)).
  { intros least cs ty k1 k2 Hc1 Hf1 Hl1 Hk1. unfold start_keyword in *.
    replace (ptr m02) with (ptr m01) by (unfold m01, m02; msimpl; congruence).
    destruct (end_ json - ptr m01 <? least); [exact I|].
    destruct (keyword json (ptr m01) (bytes_of_string cs)) as [[p|]|]; try exact I.
    cbn [defined] in *. apply Hnv; auto; try reflexivity; try (repeat split; fail).
    - apply Hl1.
    - apply Hk1. }
  assert (Hplain : forall ty,
    counting_step cfg m1
      (and_then (start_keyword cfg json m01 (if type_eqb ty json_boolean then 4 else 3)
                   (if type_eqb ty json_boolean then "alse" else "ull") ty
                   (fun m => Fall (set_flags (bis (flags m) flag_next) m))) next) ->
    (forall m1',
      and_then (start_keyword cfg json m01 (if type_eqb ty json_boolean then 4 else 3)
                   (if type_eqb ty json_boolean then "alse" else "ull") ty
                   (fun m => Fall (set_flags (bis (flags m) flag_next) m))) next
      = Continue m1' -> future hf m1') ->
    building_step hf
      (and_then (start_keyword cfg json m01 (if type_eqb ty json_boolean then 4 else 3)
                   (if type_eqb ty json_boolean then "alse" else "ull") ty
                   (fun m => Fall (set_flags (bis (flags m) flag_next) m))) next)
      (and_then (start_keyword cfg json m02 (if type_eqb ty json_boolean then 4 else 3)
                   (if type_eqb ty json_boolean then "alse" else "ull") ty
                   (fun m => Fall (set_flags (bis (flags m) flag_next) m))) next)).
  { intros ty Hc1 Hf1. apply Hkey; auto.
    - intros p n1 m1' E1 Ec Hi'. simpl in Ec.
      destruct (Hready p ty n1 E1) as (B1 & T1 & Sh1 & Q1).
      assert (Hrd : next_ready cfg (set_flags (bis (flags n1) flag_next) n1)).
      { rewrite Q1. apply Hmid; auto. do 2 eexists. split_all; [exact T1|exact Sh1|exact I]. }
      pose proof (next_counting cfg _ Hrd) as H. rewrite Ec in H. apply H.
    - intros p n1 n2 E1 Hpn Hex Hle1 Hf1'. simpl in *.
      destruct (Hready p ty n1 E1) as (B1 & T1 & Sh1 & Q1).
      pose proof (paired_ctl _ _ Hpn).
      apply next_building.
      + apply paired_flags; auto; [ctl_norm | flags_norm; auto].
      + msimpl. flags_norm. discriminate.
      + intros _. split; auto. rewrite Q1. apply Hmid; auto.
        do 2 eexists. split_all; [exact T1|exact Sh1|exact I]. }
  destruct (b =? chr "t").
  { assert (Hup : forall n1 a v, top n1 = Pblk a 0 -> shell (mem n1) a v ->
      update_value (mem n1) (top n1) (set_boolean true)
      = Some (store (mem n1) a (Bvalue (set_boolean true v)))).
    { intros n1 a v T Sh. apply update_value_shell. eauto. }
    assert (Hkp : forall v, kept v (set_boolean true v)).
    { intros v. unfold kept. simpl. split_all; auto. apply type_le_refl. }
    assert (Hrd : forall p n1, new_value cfg (set_ptr p m01) json_boolean = Some (true, n1) ->
      let a := length (heap (mem m1)) in
      let vnew := set_parent (top m1) (set_type json_boolean zeroed_value) in
      next_ready cfg (set_flags (bis (flags n1) flag_next)
                        (set_mem (store (mem n1) a (Bvalue (set_boolean true vnew))) n1))
      /\ heap_le (mem n1) (store (mem n1) a (Bvalue (set_boolean true vnew)))).
    { intros p n1 E1 a vnew. destruct (Hready p _ n1 E1) as (B1 & T1 & Sh1 & Q1).
      destruct (store_kept _ _ _ _ (bi_heap _ _ B1) Sh1 (Hkp vnew)) as (W1 & W2 & W3).
      split; auto. rewrite Q1. apply Hmid.
      - eapply (base_inv_store cfg n1); eauto; msimpl; try apply B1.
      - exists a, (set_boolean true vnew). msimpl. auto. }
    apply Hkey; auto.
    - intros p n1 m1' E1 Ec Hi'.
      destruct (Hready p _ n1 E1) as (B1 & T1 & Sh1 & Q1).
      destruct (Hrd p n1 E1) as (R1 & R2).
      rewrite (Hup n1 _ _ T1 Sh1) in Ec. simpl in Ec.
      pose proof (next_counting cfg _ R1) as H. rewrite Ec in H.
      eapply heap_le_trans; [exact R2|]. apply H.
    - intros p n1 n2 E1 Hpn (v2 & vF & Hv2 & HvF & Ht2 & Htl) Hle1 Hf1'.
      destruct (Hready p _ n1 E1) as (B1 & T1 & Sh1 & Q1).
      destruct (Hrd p n1 E1) as (R1 & R2).
      assert (T2 : top n2 = Pblk (length (heap (mem m1))) 0).
      { destruct Hpn as (_ & _ & _ & _ & -> & _). exact T1. }
      rewrite (Hup n1 _ _ T1 Sh1), (Hup n2 _ _ T2 Hv2) in *. simpl in *.
      pose proof Hpn as (N1 & N2 & N3 & N4 & N5 & N6 & N7 & N8 & N9).
      apply next_building; [|msimpl; flags_norm; discriminate|intros _; split; auto].
      assert (Hlt1 : (length (heap (mem m1)) < length (heap (mem n1)))%nat)
        by (eapply shell_lt; eauto).
      assert (Hlt2 : (length (heap (mem m1)) < length (heap (mem n2)))%nat)
        by (eapply shell_lt; eauto).
      eapply (paired_update n1 n2 _ _ (length (heap (mem m1)))
                (set_boolean true (set_parent (top m1) (set_type json_boolean zeroed_value)))
                (set_boolean true v2) vF); msimpl; eauto;
        rewrite ?length_store; try lia.
      + intros x v' Hx. apply shell_store_ne. auto.
      + intros v'. rewrite shell_store_eq by auto. congruence.
      + intros x v Hx Hv. apply shell_store_ne; auto.
      + eapply store_shell_buffers; eauto. apply rewritten_refl.
      + apply shell_store_eq; [auto|reflexivity].
      + simpl.
        destruct (paired_shell n1 n2 _ _ Hpn Hle1 Sh1)
          as (v2' & vF' & Hv2' & _ & _ & Hpar & _).
        rewrite (shell_inj _ _ _ _ Hv2' Hv2) in Hpar. exact Hpar.
      + unfold buffer_ok. rewrite (type_le_not_number _ _ Htl eq_refl). exact I.
      + ctl_norm.
      + rewrite Q1. unfold m01. msimpl. flags_norm. auto. }
  destruct (b =? chr "f"); [apply (Hplain json_boolean Hcs Hfut)|].
  destruct (b =? chr "n"); [apply (Hplain json_null Hcs Hfut)|].
  unfold start_number. rewrite Hnum. exact I.
Qed.

(** ** Numbers *)

Lemma number_flow_finish n b x :
  number_state cfg n x -> number_flow cfg n b (finish_number x).
Proof.
  intros HN. unfold finish_number.
  assert (H : exists mm, (if has (flags x) flag_num_negative then
       update_value (mem x) (top x)
         (fun v => if type_eqb (type v) json_integer
                   then set_integer (wrap_s64 (- u_integer v)) v
                   else set_dbl (PrimFloat.opp (u_dbl v)) v)
     else Some (mem x)) = Some mm /\ number_state cfg n (set_mem mm x)).
  { destruct (has (flags x) flag_num_negative).
    - apply number_state_update; auto. apply keeps_negation.
    - exists (mem x). split; auto. eapply number_state_flags; eauto. repeat split. }
  destruct H as (mm & -> & HN'). simpl. exists (set_mem mm x). split; auto.
Qed.

Ltac solve_number_char :=
  unfold number_char;
  repeat match goal with
    | H : context [isdigit ?b] |- _ => destruct (isdigit b)
    | H : context [?b =? ?c] |- _ => destruct (b =? c)
    | H : context [type_eqb ?a ?c] |- _ => destruct (type_eqb a c)
    end; simpl in *; try discriminate;
  repeat match goal with
    | |- context [isdigit ?b] => destruct (isdigit b)
    | |- context [?b =? ?c] => destruct (b =? c)
    end; try reflexivity.

Ltac solve_ctl2 :=
  msimpl;
  repeat first [rewrite ctl_bis_numeric by reflexivity | rewrite ctl_bic_numeric by reflexivity];
  reflexivity.

Ltac solve_number_state2 :=
  match goal with
  | HN : number_state ?c ?m0 ?y |- number_state ?c ?m0 ?x =>
      first [ exact HN
            | apply (number_state_flags c m0 y x HN);
              [repeat split | reflexivity | reflexivity | solve_ctl2] ]
  end.

Ltac number_update_flow :=
  match goal with
  | |- number_flow _ ?m0 _ ?g =>
    match g with
    | context [update_value (mem ?x) (top ?x) ?f] =>
      let mm := fresh "mm" in
      let E := fresh "E" in
      let HN := fresh "HN" in
      assert (exists mm, update_value (mem x) (top x) f = Some mm
                         /\ number_state cfg m0 (set_mem mm x)) as (mm & E & HN)
        by (apply number_state_update;
            [solve_number_state2 | apply keeps_number_intro; intros ?; simpl; auto 10]);
      rewrite E; cbn [and_then defined]
    end
  end.

Lemma in_number_flow n t b :
  counting_inv cfg n -> top_is n (fun v => is_number (type v) = true) ->
  number_flow cfg n b (in_number pow n t b).
Proof.
  intros Hi Ht.
  pose proof (number_state_refl cfg n Hi Ht) as HN0.
  unfold in_number. cbv zeta.
  repeat first
    [ exact I
    | progress cbn [and_then defined]
    | match goal with
      | |- number_flow _ _ _ (Continue _) =>
          split; [solve_number_state2 | solve_number_char]
      | |- number_flow _ _ _ (finish_number _) =>
          apply number_flow_finish; solve_number_state2
      | |- number_flow _ _ _ (defined (update_value _ _ _) _) => number_update_flow
      | |- number_flow _ _ _ (and_then (defined (update_value _ _ _) _) _) =>
          number_update_flow
      | |- number_flow _ _ _ (defined (if ?c then _ else _) _) => destruct c eqn:?
      | |- number_flow _ _ _ (and_then (if ?c then _ else _) _) => destruct c eqn:?
      | |- number_flow _ _ _ (if ?c then _ else _) => destruct c eqn:?
      | |- number_flow _ _ _ (Continue (if ?c then _ else _)) => destruct c eqn:?
      | |- context [update_value (mem (if ?c then _ else _))] => destruct c eqn:?
      end ].
Qed.

Lemma built_kept mm1 mm1' mm2 :
  built hf mm1 mm2 -> length (heap mm1') = length (heap mm1) ->
  (forall a v', shell mm1' a v' -> exists v, shell mm1 a v /\ kept v v') ->
  built hf mm1' mm2.
Proof.
  intros (B1 & B2 & B3) Hlen Hk. split; [|split].
  - rewrite Hlen. exact B1.
  - intros a vF HvF Ha. apply B2; auto. rewrite <- Hlen. exact Ha.
  - intros a v1' Hv1'. destruct (Hk a v1' Hv1') as (v1 & Hv1 & K1 & K2 & K3 & K4 & K5).
    destruct (B3 a v1 Hv1) as (v2 & vF & S2 & SF & Hp & Hty & Hbo).
    exists v2, vF. split_all; auto; try congruence.
    apply (buffer_ok_same mm2 mm2 v1 v1' v2 vF); [exact Hbo|exact K2|exact K3|].
    intros b blk Hb Hnv. exists blk. split; auto. apply same_shape_refl. exact Hnv.
Qed.

Lemma has_reading f x : has f x = negb (Z.land f x =? 0).
Proof. reflexivity. Qed.

(** The state of the counting pass inside a number, against the state of
    the building pass that has stepped over the number. *)
Lemma paired_number n x n' m2 f :
  number_state cfg n x ->
  top_is n (fun v => is_number (type v) = true) -> base_inv cfg n ->
  has (flags n) flag_string = false ->
  paired hf n' m2 ->
  mem n' = mem n -> top n' = top n -> root n' = root n ->
  string_length n' = string_length n -> flags n' = bis (flags n) f ->
  forall x', mem x' = mem x -> top x' = top x -> root x' = root x ->
             string_length x' = string_length x -> flags x' = bis (flags x) f ->
             ptr x' = ptr n' ->
             has f flag_string = false ->
  paired hf x' m2.
Proof.
  intros (Hb & Hle & Ht & Hn & Hc & Hp & Hsl & Hlen & Hk) Htn Hbn Hs
         (P1 & P2 & P3 & P4 & P5 & P6 & P7 & P8 & P9) M1 M2 M3 M4 M5 x' X1 X2 X3 X4 X5 X6 Hf.
  assert (Hroot : root x = root n).
  { destruct Htn as (a & v & _ & Hv & _). destruct Hn as (a' & v' & _ & Hv' & _).
    destruct (bi_ptrs _ _ Hb) as [(E & _) | (_ & R & _)].
    - apply shell_lt in Hv'. rewrite E in Hv'. simpl in Hv'. lia.
    - destruct (bi_ptrs _ _ Hbn) as [(E & _) | (_ & R' & _)].
      + apply shell_lt in Hv. rewrite E in Hv. simpl in Hv. lia.
      + congruence. }
  unfold paired. rewrite X1, X2, X3, X4, X5, X6. rewrite M1 in P7, P8.
  split_all; auto; try congruence.
  - rewrite P4, M5. unfold bis. unfold ctl in *. rewrite !Z.land_lor_distr_l. congruence.
  - rewrite Hlen. exact P7.
  - eapply built_kept; eauto.
  - intros H. exfalso. rewrite has_bis, Hf, orb_false_r in H.
    rewrite (ctl_agree_has _ _ flag_string Hc eq_refl) in H. congruence.
Qed.

Lemma comments_fall_inv m b m' :
  comments json m b = Fall m' -> m' = m /\ no_comment (flags m).
Proof.
  unfold comments. rewrite has_lor.
  destruct (has (flags m) flag_line_comment) eqn:Hl; simpl.
  - destruct ((b =? chr "013") || (b =? chr "010") || (b =? 0)); discriminate.
  - destruct (has (flags m) flag_block_comment) eqn:Hb.
    + destruct (b =? 0); [discriminate|].
      destruct ((b =? chr "*") && (ptr m <? end_ json - 1)); [|discriminate].
      destruct (deref json (ptr m + 1)); simpl; [|discriminate].
      destruct (z =? chr "/"); discriminate.
    + destruct (b =? chr "/").
      * destruct (if has (flags m) (Z.lor flag_seek_value flag_done) then Some true
                  else t ← load_value (mem m) (top m); Some (type_eqb (type t) json_object));
          simpl; [|discriminate].
        destruct (negb b0); [discriminate|]. msimpl.
        destruct (ptr m + 1 =? end_ json); [discriminate|].
        destruct (deref json (ptr m + 1)); simpl; [|discriminate].
        destruct (z =? chr "/"); [discriminate|]. destruct (z =? chr "*"); discriminate.
      * intros H. injection H as <-. split; [reflexivity|split; auto].
Qed.

(** ** One iteration *)

Lemma done_not_fall m b m' : done_ m b <> Fall m'.
Proof. unfold done_. destruct (b =? 0); [|destruct (WHITESPACE b m)]; discriminate. Qed.

Lemma type_le_string ty : type_le json_string ty -> ty = json_string.
Proof. intros [<-|[H _]]; [reflexivity|discriminate]. Qed.

Lemma type_le_object ty : type_le json_object ty -> ty = json_object.
Proof. intros [<-|[H _]]; [reflexivity|discriminate]. Qed.

Lemma iteration_building m1 m2 :
  paired hf m1 m2 -> counting_inv cfg m1 -> settled m1 -> future hf m1 ->
  (forall m1', iteration pow cfg json m1 = Continue m1' -> future hf m1') ->
  (forall b, byte_at json (ptr m1) = Some b -> starts_number (flags m1) b = false) ->
  building_step hf (iteration pow cfg json m1) (iteration pow cfg json m2).
Proof.
  intros Hp Hi Hset Hfu Hfut Hns. pose proof Hi as [Hb Hf].
  pose proof Hp as (P1 & P2 & _).
  unfold iteration in *. rewrite P2. unfold byte_at in Hns.
  destruct (if ptr m1 =? end_ json then Some 0 else deref json (ptr m1)) as [b|];
    cbn [defined] in *; [|exact I].
  specialize (Hns b eq_refl).
  rewrite (paired_flag _ _ flag_string Hp eq_refl).
  destruct (has (flags m1) flag_string) eqn:Hs.
  - (* inside a string *)
    pose proof (in_string_counting cfg json m1 b Hi Hs) as Hc.
    assert (Hbs : building_step hf (in_string json m1 b) (in_string json m2 b)).
    { apply in_string_building; auto. intros m1' E. apply Hfut. rewrite E. reflexivity. }
    apply and_then_building; [exact Hbs|].
    intros mid1 mid2 E1 E2 Hpm. rewrite E1 in Hc, Hfut. cbn [and_then] in Hfut.
    destruct Hc as (-> & Hr & Hsf & Hnc & (a & t & Ht & Hta & Hty)).
    assert (Hnc2 : no_comment (flags mid2)).
    { destruct Hnc. split.
      - rewrite (paired_flag _ _ flag_line_comment Hpm eq_refl). auto.
      - rewrite (paired_flag _ _ flag_block_comment Hpm eq_refl). auto. }
    assert (Hc1 : (if allow_comments cfg then comments json mid1 (chr "034") else Fall mid1)
                  = Fall mid1).
    { destruct (allow_comments cfg); auto. apply comments_fall; auto. }
    assert (Hc2 : (if allow_comments cfg then comments json mid2 (chr "034") else Fall mid2)
                  = Fall mid2).
    { destruct (allow_comments cfg); auto. apply comments_fall; auto. }
    rewrite Hc1 in *. rewrite Hc2. cbn [and_then] in *.
    rewrite (paired_flag _ _ flag_done Hpm eq_refl).
    rewrite (nr_done _ _ Hr) in *. cbn [and_then] in *.
    rewrite (paired_flag _ _ flag_seek_value Hpm eq_refl).
    rewrite (nr_seek _ _ Hr) in *.
    unfold in_value in *. rewrite Ht, (load_value_at _ _ _ Hta) in *. cbn [defined] in *.
    rewrite Hty in *. cbn [and_then] in *.
    pose proof (next_counting cfg mid1 Hr) as Hn.
    destruct (next mid1) as [m1'|?|?| |] eqn:En; try exact I; try contradiction.
    destruct Hn as [Hi' Hsf'].
    assert (Hle : heap_le (mem mid1) hf).
    { eapply heap_le_trans; [apply Hsf'|]. apply (Hfut m1' eq_refl). }
    destruct (paired_shell _ _ _ _ Hpm Hle Hta) as (t2 & tF & S2 & SF & Hvl & _ & Hty2 & _).
    destruct Hpm as (Q1 & Q2 & Q3 & Q4 & Q5 & Q6).
    rewrite Q5, Ht, (load_value_at _ _ _ S2). cbn [defined].
    destruct Hvl as (_ & Htl & _). rewrite Hty in Htl. apply type_le_string in Htl.
    rewrite Hty2, Htl. cbn [and_then]. rewrite <- En.
    apply next_building; auto.
    + unfold paired. split_all; auto; apply Q6.
    + intros Hnx. rewrite (nr_next _ _ Hr) in Hnx. discriminate.
    + intros _. split; auto. rewrite En. intros ? E. injection E as <-. apply Hfut. reflexivity.
  - (* between tokens *)
    cbn [and_then] in *.
    assert (Hstage : no_comment (flags m1) ->
      (forall m1',
        and_then (if has (flags m1) flag_done then done_ m1 b else Fall m1) (fun m =>
        and_then (if has (flags m) flag_seek_value then seek_value cfg json m b
                  else in_value pow m b) next) = Continue m1' -> future hf m1') ->
      building_step hf
        (and_then (if has (flags m1) flag_done then done_ m1 b else Fall m1) (fun m =>
         and_then (if has (flags m) flag_seek_value then seek_value cfg json m b
                   else in_value pow m b) next))
        (and_then (if has (flags m2) flag_done then done_ m2 b else Fall m2) (fun m =>
         and_then (if has (flags m) flag_seek_value then seek_value cfg json m b
                   else in_value pow m b) next))).
    { intros Hnc Hfut'. rewrite (paired_flag _ _ flag_done Hp eq_refl).
      destruct (has (flags m1) flag_done) eqn:Hd.
      - apply and_then_building; [apply done_building; auto|].
        intros x1 x2 E1 _ _. exfalso. exact (done_not_fall _ _ _ E1).
      - cbn [and_then] in *. rewrite (paired_flag _ _ flag_seek_value Hp eq_refl).
        destruct (has (flags m1) flag_seek_value) eqn:Hk.
        + apply seek_value_building; auto.
          intros C1 C2. unfold starts_number in Hns. destruct Hnc as [N1 N2].
          rewrite Hs, Hd, Hk, C1, C2, N1, N2 in Hns. exact Hns.
        + destruct (Hset Hs Hd Hk) as (a & t1 & Ht & Hta & Hty).
          destruct (paired_shell _ _ _ _ Hp (fu_heap _ _ Hfu) Hta)
            as (t2 & tF & S2 & SF & Hvl & _ & Hty2 & _).
          destruct Hvl as (_ & Htl & _). rewrite Hty in Htl. apply type_le_object in Htl.
          pose proof Hp as (Q1 & Q2 & Q3 & Q4 & Q5 & Q6).
          unfold in_value in *. rewrite Q5, Ht, (load_value_at _ _ _ S2).
          rewrite Ht, (load_value_at _ _ _ Hta) in *. cbn [defined] in *.
          rewrite Hty2, Htl. rewrite Hty in *.
          apply (in_object_building m1 m2 a t1 t2 b); auto. congruence. }
    destruct (allow_comments cfg) eqn:Hall.
    + apply and_then_building; [apply comments_building; auto; apply Hfu|].
      intros x1 x2 E1 E2 _. rewrite E1 in Hfut. cbn [and_then] in Hfut.
      apply comments_fall_inv in E1 as [-> Hnc], E2 as [-> _]. apply Hstage; auto.
    + cbn [and_then] in *. apply Hstage; auto. apply (bi_comments _ _ Hb Hall).
Qed.

(** ** The number state against the skipped number *)

(** Where the end of the loop body leaves the counting pass once a value is
    complete: a comma is due, and the value was the root, or its parent is
    an array that seeks the next value, or its parent is an object. *)
Lemma next_shape mid m' :
  next_ready cfg mid -> next mid = Continue m' ->
  has (flags m') flag_need_comma = true
  /\ ptr m' = ptr (reproc_step mid)
  /\ (has (flags m') flag_done = true \/ has (flags m') flag_seek_value = true
      \/ top_is m' (fun v => type v = json_object)).
Proof.
  intros [Hb Hnext Hstr Hdone Hseek (a & t & Ht & Hta & _)] E.
  pose proof (bi_first _ _ Hb) as Hfp. pose proof (bi_heap _ _ Hb) as Hwf.
  rewrite next_climb in E.
  destruct (reproc_step_same mid) as ((C1 & C2 & C3 & C4 & C5) & Hsl & Hfl).
  set (r := reproc_step mid) in *. clearbody r.
  unfold climb in E. rewrite (Hfl flag_next eq_refl), Hnext in E. cbv zeta in E. msimpl.
  rewrite C2, C3, Ht, (load_value_at _ _ _ Hta) in E. cbn [defined] in E.
  destruct (proj2 Hwf a t Hta) as (Hpar & _).
  destruct (is_null (parent t)) eqn:Hnull.
  - injection E as <-. msimpl. flags_norm. auto.
  - destruct Hpar as [(_ & Hpn) | (p & vp & Hp & Hlt & Hvp & Hcont)];
      [rewrite Hpn in Hnull; discriminate|].
    rewrite Hp, (load_value_at _ _ _ Hvp) in E. cbn [defined] in E.
    unfold link in E.
    destruct (type_eqb (type vp) json_array) eqn:Harr; msimpl;
      rewrite C1, Hfp in E; cbn [Z.eqb defined] in E; rewrite C2, Hp in E;
      destruct (update_value (mem mid) (Pblk p 0) (set_length (wrap_u32 (u_length vp + 1))))
        as [mm|] eqn:Hup; cbn [defined] in E; try discriminate;
      cbv zeta in E;
      destruct (wrap_u32 (u_length vp + 1) >? uint_max); try discriminate;
      injection E as <-; msimpl; flags_norm; split_all; auto.
    right. right. apply update_value_shell in Hup as (p' & vp' & Ep & Hvp' & ->).
    injection Ep as <-. rewrite (shell_inj _ _ _ _ Hvp' Hvp).
    exists p, (set_length (wrap_u32 (u_length vp + 1)) vp). msimpl. split_all; auto.
    + apply shell_store_eq; [eapply shell_lt; eauto|reflexivity].
    + simpl. unfold is_container in Hcont. rewrite Harr in Hcont. simpl in Hcont.
      apply type_eqb_eq. exact Hcont.
Qed.

Lemma number_char_other b c :
  number_char b = true -> number_char c = false -> (b =? c) = false.
Proof.
  intros Hb Hc. destruct (b =? c) eqn:E; auto. apply Z.eqb_eq in E. subst. congruence.
Qed.

Lemma number_char_WHITESPACE b m : number_char b = true -> WHITESPACE b m = None.
Proof.
  intros Hb. unfold WHITESPACE.
  rewrite !(number_char_other b _ Hb) by reflexivity. reflexivity.
Qed.

(** A number that ends at one of the characters of a number is followed by
    a byte that no state accepts: the counting pass fails there. *)
Lemma doomed d b :
  byte_at json (ptr d) = Some b -> number_char b = true ->
  has (flags d) flag_string = false -> no_comment (flags d) ->
  has (flags d) flag_need_comma = true ->
  (has (flags d) flag_done = true \/ has (flags d) flag_seek_value = true
   \/ top_is d (fun v => type v = json_object)) ->
  match iteration pow cfg json d with
  | Failed _ _ | Undefined => True
  | _ => False
  end.
Proof.
  intros Hbyte Hb Hs Hnc Hcomma Hcases. unfold iteration. unfold byte_at in Hbyte.
  rewrite Hbyte. cbn [defined]. rewrite Hs. cbn [and_then].
  assert (Hc : (if allow_comments cfg then comments json d b else Fall d) = Fall d).
  { destruct (allow_comments cfg); auto. apply comments_fall; auto.
    apply number_char_other; auto. }
  rewrite Hc. cbn [and_then].
  destruct (has (flags d) flag_done) eqn:Hd.
  - unfold done_. rewrite (number_char_other b 0 Hb eq_refl), number_char_WHITESPACE by auto.
    exact I.
  - cbn [and_then]. destruct (has (flags d) flag_seek_value) eqn:Hk.
    + unfold seek_value. rewrite number_char_WHITESPACE by auto.
      rewrite (number_char_other b _ Hb) by reflexivity. rewrite Hcomma.
      rewrite (number_char_other b _ Hb) by reflexivity. exact I.
    + destruct Hcases as [H|[H|(a & t & Ht & Hta & Hty)]]; try discriminate.
      unfold in_value. rewrite Ht, (load_value_at _ _ _ Hta). cbn [defined]. rewrite Hty.
      unfold in_object. rewrite number_char_WHITESPACE by auto.
      rewrite !(number_char_other b _ Hb) by reflexivity. exact I.
Qed.

Lemma skip_number_spec rest p :
  p + 1 <= skip_number rest p <= p + 1 + Z.of_nat (length rest)
  /\ (forall i, p + 1 <= i < skip_number rest p ->
        exists c, rest !! Z.to_nat (i - (p + 1)) = Some c /\ number_char c = true)
  /\ (skip_number rest p = p + 1 + Z.of_nat (length rest)
      \/ exists c, rest !! Z.to_nat (skip_number rest p - (p + 1)) = Some c
                   /\ number_char c = false).
Proof.
  revert p. induction rest as [|b rest IH]; intros p; simpl.
  - split; [lia|]. split; [intros; lia|left; lia].
  - destruct (number_char b) eqn:Hb.
    + destruct (IH (p + 1)) as (I1 & I2 & I3). split; [lia|]. split.
      * intros i Hi. destruct (Z.eq_dec i (p + 1)) as [->|Hne].
        -- rewrite Z.sub_diag. simpl. eauto.
        -- destruct (I2 i) as (c & Hc & Hn); [lia|]. exists c. split; auto.
           replace (Z.to_nat (i - (p + 1))) with (S (Z.to_nat (i - (p + 1 + 1)))) by lia.
           exact Hc.
      * destruct I3 as [I3|(c & Hc & Hn)]; [left; lia|right]. exists c. split; auto.
        replace (Z.to_nat (skip_number rest (p + 1) - (p + 1)))
          with (S (Z.to_nat (skip_number rest (p + 1) - (p + 1 + 1)))) by lia.
        exact Hc.
    + split; [lia|]. split; [intros; lia|]. right. exists b. rewrite Z.sub_diag. simpl. auto.
Qed.

Lemma skip_number_json p :
  0 <= p < end_ json ->
  p + 1 <= skip_number (drop (Z.to_nat (p + 1)) json) p <= end_ json
  /\ number_chars json (p + 1) (skip_number (drop (Z.to_nat (p + 1)) json) p)
  /\ (forall c, byte_at json (skip_number (drop (Z.to_nat (p + 1)) json) p) = Some c ->
                number_char c = false).
Proof.
  intros Hp. unfold end_ in *.
  destruct (skip_number_spec (drop (Z.to_nat (p + 1)) json) p) as (S1 & S2 & S3).
  set (q := skip_number (drop (Z.to_nat (p + 1)) json) p) in *.
  rewrite length_drop in *.
  assert (Hlook : forall i, p + 1 <= i < Z.of_nat (length json) ->
            drop (Z.to_nat (p + 1)) json !! Z.to_nat (i - (p + 1)) = deref json i).
  { intros i Hi. rewrite lookup_drop. unfold deref, end_.
    replace ((0 <=? i) && (i <? Z.of_nat (length json))) with true
      by (symmetry; apply andb_true_iff; split; [apply Z.leb_le|apply Z.ltb_lt]; lia).
    f_equal. lia. }
  split; [lia|]. split.
  - intros i Hi. destruct (S2 i Hi) as (c & Hc & Hn). exists c. split; auto.
    rewrite <- Hlook; auto. lia.
  - intros c Hc. unfold byte_at, end_ in Hc.
    destruct (q =? Z.of_nat (length json)) eqn:E.
    + injection Hc as <-. reflexivity.
    + apply Z.eqb_neq in E. destruct S3 as [S3|(c' & Hc' & Hn)]; [lia|].
      rewrite Hlook in Hc' by lia. congruence.
Qed.

Lemma next_atoms mid m' :
  next mid = Continue m' -> has (flags mid) flag_next = true ->
  has (flags m') flag_string = has (flags mid) flag_string
  /\ has (flags m') flag_line_comment = has (flags mid) flag_line_comment
  /\ has (flags m') flag_block_comment = has (flags mid) flag_block_comment.
Proof.
  intros E Hn. rewrite next_climb in E.
  destruct (reproc_step_same mid) as (_ & _ & Hfl).
  rewrite <- (Hfl flag_string eq_refl), <- (Hfl flag_line_comment eq_refl),
    <- (Hfl flag_block_comment eq_refl).
  rewrite <- (Hfl flag_next eq_refl) in Hn.
  set (r := reproc_step mid) in *. clearbody r.
  unfold climb in E. rewrite Hn in E. cbv zeta in E. msimpl.
  destruct (load_value (mem r) (top r)) as [t|]; cbn [defined] in E; [|discriminate].
  destruct (is_null (parent t)).
  - injection E as <-. msimpl. flags_norm. auto.
  - destruct (load_value (mem r) (parent t)) as [vp|]; cbn [defined] in E; [|discriminate].
    unfold link in E.
    destruct (type_eqb (type vp) json_array); msimpl;
      match type of E with
      | defined ?o _ = _ => destruct o; cbn [defined] in E; [|discriminate]
      end;
      match type of E with
      | defined ?o _ = _ => destruct o; cbn [defined] in E; [|discriminate]
      end;
      cbv zeta in E;
      destruct (wrap_u32 (u_length vp + 1) >? uint_max); try discriminate;
      injection E as <-; msimpl; flags_norm; auto.
Qed.

Lemma number_atoms n x :
  number_state cfg n x ->
  has (flags n) flag_string = false -> has (flags n) flag_done = false ->
  has (flags n) flag_seek_value = false -> no_comment (flags n) ->
  has (flags x) flag_string = false /\ has (flags x) flag_done = false
  /\ has (flags x) flag_seek_value = false /\ no_comment (flags x).
Proof.
  intros (_ & _ & _ & _ & Hc & _) Hs Hd Hk [N1 N2].
  pose proof (ctl_same_atoms _ _ Hc) as (A1 & A2 & A3 & A4 & A5 & A6 & A7).
  unfold no_comment. split_all; congruence.
Qed.

Lemma lag_continue n x mid2 :
  counting_inv cfg n -> lag json hf n mid2 -> number_state cfg n x ->
  ptr n < ptr mid2 ->
  lag json hf (set_ptr (ptr x + 1) x) mid2.
Proof.
  intros [Hb Hf] [Lt Ls Ld Lk Lc Lp Lptr Lch Lst] HN Hlt.
  destruct (number_atoms n x HN Ls Ld Lk Lc) as (X1 & X2 & X3 & X4).
  pose proof HN as (Hbx & Hle & Htx & Hnx & Hcx & Hpx & Hsx & Hlen & Hk).
  split; msimpl; auto.
  - eapply (paired_number n x _ mid2 (Z.lor flag_next flag_reproc) HN Lt Hb Ls Lp);
      msimpl; auto.
  - lia.
  - intros i Hi. apply Lch. lia.
Qed.

Lemma lag_step n mid2 :
  counting_inv cfg n -> lag json hf n mid2 ->
  (exists x, iteration pow cfg json n = Continue x /\ number_state cfg n x
             /\ ptr n < ptr mid2)
  \/ (exists mid1 b,
        iteration pow cfg json n = next mid1 /\ next_ready cfg mid1
        /\ has (flags mid1) flag_reproc = true /\ ptr mid1 = ptr n
        /\ no_comment (flags mid1)
        /\ byte_at json (ptr n) = Some b
        /\ (ptr n = ptr mid2 -> paired hf mid1 mid2)
        /\ (ptr n < ptr mid2 -> number_char b = true))
  \/ match iteration pow cfg json n with
     | Failed _ _ | Undefined => True
     | _ => False
     end.
Proof.
  intros Hi [Lt Ls Ld Lk Lc Lp Lptr Lch Lst]. pose proof Hi as [Hb Hf].
  destruct (byte_at json (ptr n)) as [b|] eqn:Hbyte.
  2: { right; right. unfold iteration. unfold byte_at in Hbyte. rewrite Hbyte. exact I. }
  pose proof Hbyte as Hbyte'. unfold byte_at in Hbyte'.
  pose proof Lt as (a & t & Ht & Hta & Hnum).
  unfold iteration. rewrite Hbyte'. cbn [defined]. rewrite Ls. cbn [and_then].
  assert (Hcom : (if allow_comments cfg then comments json n b else Fall n) = Fall n
                 \/ exists e x, (if allow_comments cfg then comments json n b else Fall n)
                                = Failed e x).
  { destruct (allow_comments cfg); auto. destruct (b =? chr "/") eqn:Hsl.
    - right. unfold comments. destruct Lc as [N1 N2].
      rewrite has_lor, N1, N2, Hsl. simpl. rewrite has_lor, Lk, Ld. simpl.
      rewrite Ht, (load_value_at _ _ _ Hta). simpl.
      destruct (type t); try discriminate; simpl; eauto.
    - left. apply comments_fall; auto. }
  destruct Hcom as [->|(e & x & ->)]; [|right; right; exact I].
  cbn [and_then]. rewrite Ld. cbn [and_then]. rewrite Lk.
  unfold in_value. rewrite Ht, (load_value_at _ _ _ Hta). cbn [defined].
  assert (Hin : match type t with
                | json_object => in_object n t b
                | json_integer | json_double => in_number pow n t b
                | _ => Fall n
                end = in_number pow n t b).
  { destruct (type t); try discriminate; reflexivity. }
  rewrite Hin.
  pose proof (in_number_flow n t b Hi Lt) as Hflow.
  destruct (in_number pow n t b) as [x|mid|?| |]; cbn [and_then]; simpl in Hflow.
  - destruct Hflow as [HN Hnc]. left. exists x. split; auto. split; auto.
    destruct (Z.eq_dec (ptr n) (ptr mid2)) as [e|e]; [|lia].
    rewrite e in Hbyte. rewrite (Lst b Hbyte) in Hnc. discriminate.
  - destruct Hflow as (x & HN & ->). right. left.
    destruct (number_atoms n x HN Ls Ld Lk Lc) as (X1 & X2 & X3 & X4).
    pose proof HN as (Hbx & Hle & Htx & Hnx & Hcx & Hpx & Hsx & Hlen & Hk).
    exists (set_flags (bis (flags x) (Z.lor flag_next flag_reproc)) x), b.
    destruct X4 as [X4 X5].
    split; [reflexivity|]. split; [|split; [|split; [|split; [|split; [|split]]]]]; msimpl; auto.
    + apply next_ready_flags; auto.
      * destruct Hnx as (a' & t' & ? & ? & _). exists a', t'. auto.
      * flags_norm. reflexivity.
      * flags_norm. exact X1.
      * flags_norm. exact X2.
      * flags_norm. exact X3.
      * intros _. unfold no_comment. flags_norm. auto.
    + flags_norm. reflexivity.
    + unfold no_comment. flags_norm. auto.
    + intros E.
      eapply (paired_number n x _ mid2 (Z.lor flag_next flag_reproc) HN Lt Hb Ls Lp);
        msimpl; auto. congruence.
    + intros Hlt. destruct (Lch (ptr n)) as (c & Hc & Hn); [lia|].
      assert (Hne : ptr n <> end_ json).
      { intros E'. unfold deref in Hc. rewrite E', Z.ltb_irrefl, andb_false_r in Hc.
        discriminate. }
      rewrite (proj2 (Z.eqb_neq _ _) Hne) in Hbyte'. congruence.
  - contradiction.
  - right; right; exact I.
  - right; right; exact I.
Qed.

Lemma bis_absorb f : bis (bic (bis f 2) 2) 3 = bis f 3.
Proof.
  unfold bis, bic. apply Z.bits_inj'. intros k Hk.
  rewrite !Z.lor_spec, Z.land_spec, Z.lor_spec, Z.lnot_spec by lia.
  destruct (Z.eq_dec k 1) as [->|Hne].
  - simpl. rewrite !orb_true_r. reflexivity.
  - change 2 with (2 ^ 1). rewrite Z.pow2_bits_false by lia. simpl.
    rewrite orb_false_r, andb_true_r. reflexivity.
Qed.

Lemma starts_number_flags fl b :
  starts_number fl b = true ->
  has fl flag_string = false /\ no_comment fl /\ has fl flag_done = false
  /\ has fl flag_seek_value = true /\ has fl flag_need_comma = false
  /\ has fl flag_need_colon = false /\ (isdigit b || (b =? chr "-")) = true.
Proof.
  unfold starts_number, no_comment. intros H.
  repeat match type of H with
    | _ && _ = true => apply andb_true_iff in H; destruct H as [H ?]
    end.
  repeat match goal with
    | H : negb _ = true |- _ => apply negb_true_iff in H
    end.
  split_all; auto.
Qed.

Lemma starts_number_char b :
  (isdigit b || (b =? chr "-")) = true -> number_char b = true.
Proof.
  unfold number_char. intros H.
  destruct (isdigit b); simpl in *; [reflexivity|]. rewrite H.
  rewrite !orb_true_r. reflexivity.
Qed.

Lemma iteration_start_number m b :
  byte_at json (ptr m) = Some b -> starts_number (flags m) b = true ->
  iteration pow cfg json m
  = and_then (start_number cfg json (set_flags (bic (flags m) flag_seek_value) m) b) next.
Proof.
  intros Hbyte Hst.
  destruct (starts_number_flags _ _ Hst) as (Hs & Hnc & Hd & Hk & Hcm & Hcl & Hdig).
  pose proof (starts_number_char b Hdig) as Hb.
  unfold iteration. unfold byte_at in Hbyte. rewrite Hbyte. cbn [defined].
  rewrite Hs. cbn [and_then].
  assert (Hc : (if allow_comments cfg then comments json m b else Fall m) = Fall m).
  { destruct (allow_comments cfg); auto. apply comments_fall; auto.
    apply number_char_other; auto. }
  rewrite Hc. cbn [and_then]. rewrite Hd. cbn [and_then]. rewrite Hk.
  unfold seek_value. rewrite number_char_WHITESPACE by auto.
  rewrite (number_char_other b _ Hb) by reflexivity. rewrite Hcm, Hcl. cbv zeta.
  rewrite !(number_char_other b _ Hb) by reflexivity. reflexivity.
Qed.

Lemma start_number_counting m b n1 :
  (isdigit b || (b =? chr "-")) = true ->
  new_value cfg m json_integer = Some (true, n1) -> first_pass n1 = 1 ->
  has (flags n1) flag_next = false ->
  exists x, and_then (start_number cfg json m b) next = Continue x
            /\ mem x = mem n1 /\ top x = top n1 /\ root x = root n1
            /\ string_length x = string_length n1
            /\ ctl (bis (flags x) (Z.lor flag_next flag_reproc))
               = ctl (bis (flags n1) (Z.lor flag_next flag_reproc))
            /\ ptr n1 <= ptr x + 1 <= ptr n1 + 1.
Proof.
  intros Hdig E1 Hfp Hnx. unfold start_number, with_new_value. rewrite Hdig, E1.
  cbn [defined fst snd]. rewrite Hfp. change (1 =? 0) with false. cbv iota zeta.
  destruct (negb (b =? chr "-")); cbn [and_then].
  - rewrite next_plain by (msimpl; flags_norm; exact Hnx).
    msimpl. flags_norm. eexists. split; [reflexivity|]. msimpl.
    split_all; auto; try lia.
    change 3 with (Z.lor 1 2). flag_consts. change (Z.lor 1 2) with 3.
    rewrite bis_absorb. rewrite !ctl_bis. rewrite ctl_bic_numeric by reflexivity.
    reflexivity.
  - eexists. split; [reflexivity|]. msimpl. split_all; auto; try lia.
    rewrite ctl_bis, ctl_bis_numeric by reflexivity.
    rewrite ctl_bic_numeric by reflexivity. rewrite <- ctl_bis. reflexivity.
Qed.

Lemma start_number_building m b n2 :
  (isdigit b || (b =? chr "-")) = true ->
  new_value cfg m json_integer = Some (true, n2) -> first_pass n2 = 0 ->
  and_then (start_number cfg json m b) next
  = next (set_flags (bis (flags n2) (Z.lor flag_next flag_reproc))
            (set_ptr (skip_number (drop (Z.to_nat (ptr n2 + 1)) json) (ptr n2)) n2)).
Proof.
  intros Hdig E Hfp. unfold start_number, with_new_value. rewrite Hdig, E.
  cbn [defined fst snd]. rewrite Hfp. reflexivity.
Qed.

Lemma start_number_refused m b n :
  (isdigit b || (b =? chr "-")) = true ->
  new_value cfg m json_integer = Some (false, n) ->
  and_then (start_number cfg json m b) next = Failed alloc_failure n.
Proof.
  intros Hdig E. unfold start_number, with_new_value. rewrite Hdig, E. reflexivity.
Qed.

(** The iteration that meets the first byte of a number: the counting pass
    enters the number state, the building pass steps over the number. *)
Lemma number_start m1 m2 b :
  paired hf m1 m2 -> counting_inv cfg m1 ->
  byte_at json (ptr m1) = Some b -> starts_number (flags m1) b = true ->
  (forall x, iteration pow cfg json m1 = Continue x -> future hf x) ->
  match iteration pow cfg json m1 with
  | Continue x =>
      (exists y, iteration pow cfg json m2 = Failed alloc_failure y)
      \/ exists mid2, iteration pow cfg json m2 = next mid2
                      /\ lag json hf (set_ptr (ptr x + 1) x) mid2
  | Failed _ _ | Undefined => True
  | _ => False
  end.
Proof.
  intros Hp Hi Hbyte Hst Hfut. pose proof Hi as [Hb Hf].
  assert (Hst2 : starts_number (flags m2) b = true).
  { unfold starts_number in *.
    rewrite (paired_flag _ _ flag_string Hp eq_refl),
      (paired_flag _ _ flag_line_comment Hp eq_refl),
      (paired_flag _ _ flag_block_comment Hp eq_refl),
      (paired_flag _ _ flag_done Hp eq_refl),
      (paired_flag _ _ flag_seek_value Hp eq_refl),
      (paired_flag _ _ flag_need_comma Hp eq_refl),
      (paired_flag _ _ flag_need_colon Hp eq_refl). exact Hst. }
  assert (Hbyte2 : byte_at json (ptr m2) = Some b).
  { destruct Hp as (_ & -> & _). exact Hbyte. }
  rewrite (iteration_start_number m1 b Hbyte Hst) in *.
  rewrite (iteration_start_number m2 b Hbyte2 Hst2).
  destruct (starts_number_flags _ _ Hst) as (Hs & Hnc & Hd & Hk & Hcm & Hcl & Hdig).
  pose proof (starts_number_char b Hdig) as Hbc.
  destruct (fi_seek _ Hf Hk Hd) as [_ Htop].
  destruct (fi_clean _ Hf) as [Hnx Hrp].
  set (m1' := set_flags (bic (flags m1) flag_seek_value) m1) in *.
  set (m2' := set_flags (bic (flags m2) flag_seek_value) m2) in *.
  assert (Hp' : paired hf m1' m2').
  { apply paired_flags; auto.
    - pose proof (paired_ctl _ _ Hp). ctl_norm.
    - flags_norm. auto. }
  assert (Hb' : base_inv cfg m1').
  { eapply (base_inv_same cfg m1); eauto.
    - repeat split.
    - apply Hb.
    - intros _. unfold m1'. msimpl. destruct Hnc. unfold no_comment. flags_norm. auto. }
  assert (Hs' : has (flags m1') flag_string = false).
  { unfold m1'. msimpl. flags_norm. exact Hs. }
  assert (Htop' : top m1' = nullptr
                  \/ top_is m1' (fun v => is_container (type v) = true)) by exact Htop.
  pose proof (new_value_counting cfg m1' json_integer Hb' Htop') as Hnv.
  destruct (new_value cfg m1' json_integer) as [[[|] n1]|] eqn:E1.
  2: { rewrite (start_number_refused m1' b n1 Hdig E1). exact I. }
  2: { unfold start_number, with_new_value. rewrite Hdig, E1. exact I. }
  cbv zeta in Hnv.
  destruct Hnv as (N1 & N2 & N3 & N4 & N5 & N6 & N7 & N8 & N9 & N10 & N11 & N12 & N13).
  assert (Hfl1 : flags n1 = bic (flags m1) flag_seek_value) by (rewrite N2; reflexivity).
  assert (Hnx1 : has (flags n1) flag_next = false).
  { rewrite Hfl1. flags_norm. exact Hnx. }
  destruct (start_number_counting m1' b n1 Hdig E1 N1 Hnx1)
    as (x & Ex & X1 & X2 & X3 & X4 & X5 & X6).
  rewrite Ex in *.
  assert (Hle : heap_le (mem n1) hf).
  { rewrite <- X1. apply (Hfut x eq_refl). }
  pose proof (new_value_building m1' m2' json_integer n1 Hp' Hb' Hs' Htop' E1 Hle) as H2.
  destruct (new_value cfg m2' json_integer) as [[[|] n2]|] eqn:E2; try contradiction.
  2: { left. exists n2. apply start_number_refused; auto. }
  destruct H2 as (Hpn & _ & _). right.
  pose proof Hpn as (Q1 & Q2 & Q3 & Q4 & Q5 & Q6 & Q7 & Q8 & Q9).
  eexists. split; [apply start_number_building; eauto|].
  assert (Hderef : deref json (ptr m1) = Some b /\ 0 <= ptr m1 < end_ json).
  { unfold byte_at in Hbyte. destruct (ptr m1 =? end_ json).
    - injection Hbyte as <-. discriminate.
    - split; auto. unfold deref in Hbyte.
      destruct ((0 <=? ptr m1) && (ptr m1 <? end_ json)) eqn:E; [|discriminate].
      apply andb_true_iff in E as [E E']. apply Z.leb_le in E. apply Z.ltb_lt in E'. lia. }
  destruct Hderef as [Hderef Hrange].
  assert (Hptr2 : ptr n2 = ptr m1) by (rewrite Q2, N4; reflexivity).
  destruct (skip_number_json (ptr n2)) as (K1 & K2 & K3); [lia|].
  assert (Hat : forall s, ctl s = s -> has (Z.lor flag_next flag_reproc) s = false ->
                          has (flags x) s = has (flags m1') s).
  { intros s Hs1 Hs2. pose proof (ctl_agree_has _ _ s X5 Hs1) as H.
    rewrite (has_bis (flags x)), (has_bis (flags n1)), Hs2, !orb_false_r in H.
    rewrite H, N2. reflexivity. }
  pose proof (Hat flag_string eq_refl eq_refl) as A1.
  pose proof (Hat flag_done eq_refl eq_refl) as A2.
  pose proof (Hat flag_seek_value eq_refl eq_refl) as A3.
  pose proof (Hat flag_line_comment eq_refl eq_refl) as A4.
  pose proof (Hat flag_block_comment eq_refl eq_refl) as A5.
  unfold m1' in A1, A2, A3, A4, A5. msimpl. destruct Hnc as [Hnc1 Hnc2].
  flags_norm. rewrite ?Hs, ?Hd, ?Hnc1, ?Hnc2 in *.
  split; msimpl; auto.
  - exists (length (heap (mem m1'))), (set_parent (top m1') (set_type json_integer zeroed_value)).
    msimpl. rewrite X1, X2. split_all; auto.
  - split; auto.
  - eapply (paired_quiet n1 n2); eauto; msimpl; auto.
    + congruence.
    + change (Z.lor flag_next flag_reproc) with 3. rewrite X5, !ctl_bis, Q4. reflexivity.
    + apply rewritten_refl.
    + flags_norm. rewrite A1. discriminate.
  - lia.
  - intros i Hin. destruct (Z.eq_dec i (ptr m1)) as [->|Hne].
    + exists b. split; auto.
    + apply K2. lia.
Qed.

(** ** The two passes *)

Lemma pass_resume fuel m :
  pass pow cfg json (S fuel) m = resume pow cfg json fuel (iteration pow cfg json m).
Proof. reflexivity. Qed.

Lemma paired_step m1 m2 :
  paired hf m1 m2 -> paired hf (set_ptr (ptr m1 + 1) m1) (set_ptr (ptr m2 + 1) m2).
Proof.
  intros Hp. pose proof Hp as (P1 & P2 & P3 & P4 & P5 & P6 & P7 & P8 & P9).
  eapply (paired_quiet m1 m2); eauto; msimpl; auto.
  - congruence.
  - apply rewritten_refl.
Qed.

Lemma settled_step m p : settled m -> settled (set_ptr p m).
Proof. intros H. eapply settled_same; eauto. Qed.

Lemma future_step m p : future hf (set_ptr p m) -> future hf m.
Proof. intros [H1 H2 H3 H4]. split; assumption. Qed.

Lemma future_rest fuel m mF :
  mem mF = hf -> counting_inv cfg m -> pass pow cfg json fuel m = Pass_done mF ->
  future hf m.
Proof.
  intros <- Hi Hpass. apply (pass_counting pow cfg json fuel m mF Hi Hpass).
Qed.

Lemma future_next fuel x mF :
  mem mF = hf -> counting_inv cfg x ->
  pass pow cfg json fuel (set_ptr (ptr x + 1) x) = Pass_done mF ->
  future hf x.
Proof.
  intros HmF Hi Hpass. apply (future_step x (ptr x + 1)).
  eapply future_rest; eauto. apply counting_inv_ptr. exact Hi.
Qed.

Lemma passes_run mF :
  mem mF = hf ->
  forall f1,
    (forall m1 m2 f2,
       counting_inv cfg m1 -> pass pow cfg json f1 m1 = Pass_done mF ->
       paired hf m1 m2 -> settled m1 -> (f1 <= f2)%nat ->
       in_step hf mF (pass pow cfg json f2 m2))
    /\ (forall n mid2 f2,
          counting_inv cfg n -> pass pow cfg json f1 n = Pass_done mF ->
          lag json hf n mid2 -> (f1 <= S f2)%nat ->
          in_step hf mF (resume pow cfg json f2 (next mid2))).
Proof.
  intros HmF. induction f1 as [|f1 [IHP IHL]].
  { split; intros; discriminate. }
  split.
  - (* in step *)
    intros m1 m2 f2 Hi Hpass Hp Hset Hle. destruct f2 as [|f2]; [lia|].
    pose proof (future_rest _ _ _ HmF Hi Hpass) as Hfu.
    rewrite pass_resume in *.
    pose proof (iteration_counting pow cfg json m1 Hi) as Hc.
    assert (Hfut : forall x, iteration pow cfg json m1 = Continue x -> future hf x).
    { intros x E. rewrite E in Hpass, Hc. simpl in Hpass.
      eapply future_next; eauto. apply Hc. }
    destruct (byte_at json (ptr m1)) as [b|] eqn:Hbyte.
    2: { unfold iteration in Hpass. unfold byte_at in Hbyte. rewrite Hbyte in Hpass.
         discriminate. }
    destruct (starts_number (flags m1) b) eqn:Hst.
    + pose proof (number_start m1 m2 b Hp Hi Hbyte Hst Hfut) as Hns.
      destruct (iteration pow cfg json m1) as [x|?|?|?|] eqn:E1; simpl in Hpass;
        try discriminate; try contradiction.
      destruct Hns as [(y & ->)|(mid2 & -> & Hlag)]; [reflexivity|].
      apply (IHL (set_ptr (ptr x + 1) x) mid2 f2); auto; [|lia].
      apply counting_inv_ptr. apply Hc.
    + assert (Hbs : building_step hf (iteration pow cfg json m1) (iteration pow cfg json m2)).
      { apply iteration_building; auto. intros b' Hb'. congruence. }
      destruct (iteration pow cfg json m1) as [m1'|?|m1'|?|] eqn:E1; simpl in Hpass;
        try discriminate; try contradiction.
      * destruct Hc as [Hi' _].
        destruct (iteration pow cfg json m2) as [m2'|?|?|?|]; simpl in Hbs |- *;
          try contradiction; [|exact Hbs].
        destruct Hbs as [Hp' Hset'].
        apply (IHP (set_ptr (ptr m1' + 1) m1') (set_ptr (ptr m2' + 1) m2') f2);
          [apply counting_inv_ptr; exact Hi' | exact Hpass | apply paired_step; exact Hp'
          |apply settled_step; exact Hset' | lia].
      * injection Hpass as <-.
        destruct (iteration pow cfg json m2) as [m2'|?|?|?|]; simpl in Hbs |- *;
          try contradiction; exact Hbs.
  - (* behind, inside a number *)
    intros n mid2 f2 Hi Hpass Hlag Hle.
    rewrite pass_resume in Hpass.
    pose proof (iteration_counting pow cfg json n Hi) as Hc.
    destruct (lag_step n mid2 Hi Hlag)
      as [(x & Ex & HN & Hlt)
         |[(mid1 & b & Ex & Hr & Hrep & Hptr & Hnc & Hbyte & Hpair & Hchar)|Hfail]].
    + rewrite Ex in Hpass, Hc. simpl in Hpass.
      apply (IHL (set_ptr (ptr x + 1) x) mid2 f2); auto; [| |lia].
      * apply counting_inv_ptr. apply Hc.
      * apply lag_continue with (n := n); auto.
    + rewrite Ex in Hpass.
      pose proof (next_counting cfg mid1 Hr) as Hn1.
      destruct (next mid1) as [m1'|?|?|?|] eqn:En; simpl in Hpass; try discriminate;
        try contradiction.
      destruct Hn1 as [Hi' Hsf].
      destruct (Z.eq_dec (ptr n) (ptr mid2)) as [Heq|Hne].
      * specialize (Hpair Heq).
        assert (Hbs : building_step hf (next mid1) (next mid2)).
        { apply next_building; auto.
          - intros Hx. rewrite (nr_next _ _ Hr) in Hx. discriminate.
          - intros _. split; auto. intros m1'' E. rewrite En in E. injection E as <-.
            eapply future_next; eauto. }
        rewrite En in Hbs.
        destruct (next mid2) as [m2'|?|?|?|]; simpl in Hbs |- *; try contradiction;
          [|exact Hbs].
        destruct Hbs as [Hp' Hset'].
        apply (IHP (set_ptr (ptr m1' + 1) m1') (set_ptr (ptr m2' + 1) m2') f2);
          [apply counting_inv_ptr; exact Hi' | exact Hpass | apply paired_step; exact Hp'
          |apply settled_step; exact Hset' | lia].
      * exfalso. pose proof (lag_ptr _ _ _ _ Hlag) as Hle'.
        assert (Hlt : ptr n < ptr mid2) by lia. specialize (Hchar Hlt).
        destruct (next_shape mid1 m1' Hr En) as (S1 & S2 & S3).
        destruct (next_atoms mid1 m1' En (nr_next _ _ Hr)) as (A1 & A2 & A3).
        unfold reproc_step in S2. rewrite Hrep in S2. msimpl.
        assert (Hd : match iteration pow cfg json (set_ptr (ptr m1' + 1) m1') with
                     | Failed _ _ | Undefined => True
                     | _ => False
                     end).
        { apply (doomed _ b); msimpl; auto.
          - rewrite S2, Hptr. replace (ptr n - 1 + 1) with (ptr n) by lia. exact Hbyte.
          - rewrite A1. apply Hr.
          - destruct Hnc. split; congruence. }
        destruct f1 as [|f1]; [discriminate|]. rewrite pass_resume in Hpass.
        destruct (iteration pow cfg json (set_ptr (ptr m1' + 1) m1')); simpl in Hpass;
          try discriminate; contradiction.
    + destruct (iteration pow cfg json n); simpl in Hpass; try discriminate; contradiction.
Qed.

End Building.

(** ** The building pass of a parse *)

Lemma paired_start cfg mm m1 :
  heap mm = [] -> counting_inv cfg m1 -> has (flags m1) flag_done = true ->
  paired (mem m1) (start_pass 1 (initial mm)) (start_pass 0 (set_alloc (root m1) m1)).
Proof.
  intros Hh [Hb Hf] Hd. destruct (fi_done _ Hf Hd) as [_ (a & t & Ht & Hta & _)].
  unfold paired. simpl. rewrite Hh. simpl. split_all; auto.
  - destruct (bi_ptrs _ _ Hb) as [(E & _)|(E & R & _)].
    + apply shell_lt in Hta. rewrite E in Hta. simpl in Hta. lia.
    + rewrite R. destruct (heap (mem m1)); [congruence|reflexivity].
  - split; [|split].
    + rewrite Hh. simpl. lia.
    + intros x vF HvF _. exact HvF.
    + intros x v1 Hv1. apply shell_lt in Hv1. rewrite Hh in Hv1. simpl in Hv1. lia.
  - discriminate.
Qed.

Lemma passes_in_step pow cfg json mm m1 :
  mem_alloc cfg <> None -> heap mm = [] ->
  pass pow cfg json (pass_fuel json) (start_pass 1 (initial mm)) = Pass_done m1 ->
  objects_fit (mem m1) = true ->
  in_step (mem m1) m1
    (pass pow cfg json (pass_fuel json) (start_pass 0 (set_alloc (root m1) m1))).
Proof.
  intros Hal Hh Hpass Hfit.
  pose proof (counting_inv_start cfg mm Hh) as Hi.
  destruct (pass_counting pow cfg json _ _ _ Hi Hpass) as (HiF & Hd & _).
  assert (Hwf : heap_wf (mem m1)) by apply HiF.
  destruct (passes_run pow cfg json (mem m1) Hwf Hal Hfit m1 eq_refl (pass_fuel json)) as [HP _].
  apply (HP (start_pass 1 (initial mm))); auto.
  - apply (paired_start cfg); auto.
  - apply settled_seek. reflexivity.
Qed.


(** * The counting pass stays inside the buffer *)

Section Reading.

Variable pow : float -> float -> float.
Variable cfg : settings.
Variable json : list Z.
Hypothesis Hallocator : mem_alloc cfg <> None.

Lemma linked_wf m :
  heap_wf (mem m) -> top_is m (fun _ => True) -> linked m.
Proof.
  intros Hwf (a & t & Ht & Hta & _). exists a, t. split_all; auto.
  destruct (proj2 Hwf a t Hta) as ([(_ & Hpn) | (p & vp & Hpp & Hlt & Hvp & Hcont)] & _); eauto.
Qed.

Lemma linked_store n a v v' x :
  heap_wf (mem n) -> top n = Pblk a 0 -> shell (mem n) a v -> parent v' = parent v ->
  top x = top n -> mem x = store (mem n) a (Bvalue v') -> linked x.
Proof.
  intros Hwf Ht Hv Hp Tx Mx. exists a, v'. rewrite Tx, Mx. split_all; auto.
  - apply shell_store_eq; [eapply shell_lt; eauto|reflexivity].
  - rewrite Hp.
    destruct (proj2 Hwf a v Hv) as ([(_ & Hpn) | (p & vp & Hpp & Hlt & Hvp & Hcont)] & _); auto.
    right. exists p, vp. split; auto. apply shell_store_ne; auto. lia.
Qed.

Lemma next_reads x :
  closing json x ->
  match next x with
  | Continue m' => -1 <= ptr m' < end_ json
  | Failed _ _ => True
  | _ => False
  end.
Proof.
  intros (Hfp & Htop & Hptr). rewrite next_climb.
  destruct (reproc_step_same x) as ((C1 & C2 & C3 & C4 & C5) & Hsl & Hfl).
  assert (Hp : -1 <= ptr (reproc_step x) < end_ json).
  { unfold reproc_step. destruct (has (flags x) flag_reproc); msimpl; lia. }
  set (r := reproc_step x) in *. clearbody r.
  unfold climb. rewrite (Hfl flag_next eq_refl).
  destruct (has (flags x) flag_next) eqn:Hn; [|exact Hp].
  destruct (Htop eq_refl) as (a & t & Ht & Hta & Hpar).
  cbv zeta. msimpl. rewrite C2, C3, Ht, (load_value_at _ _ _ Hta). cbn [defined].
  destruct (is_null (parent t)) eqn:Hnull; [exact Hp|].
  destruct Hpar as [Hpn | (p & vp & Hpp & Hvp)];
    [rewrite Hpn in Hnull; discriminate|].
  rewrite Hpp, (load_value_at _ _ _ Hvp). cbn [defined]. unfold link.
  assert (Hup : forall f, update_value (mem x) (Pblk p 0) f
                          = Some (store (mem x) p (Bvalue (f vp)))).
  { intros f. apply update_value_shell. eauto. }
  destruct (type_eqb (type vp) json_array); msimpl; rewrite C1, Hfp;
    cbn [Z.eqb defined]; rewrite C2, Hpp, Hup; cbn [defined]; cbv zeta;
    destruct (wrap_u32 (u_length vp + 1) >? uint_max); simpl; auto.
Qed.

Lemma reads_next x : closing json x -> reads_inside json (next x).
Proof.
  intros H. pose proof (next_reads x H) as Hn.
  destruct (next x); simpl; auto; contradiction.
Qed.

Lemma byte_inside p b : byte_at json p = Some b -> b <> 0 -> 0 <= p < end_ json.
Proof.
  unfold byte_at. destruct (p =? end_ json); [congruence|].
  unfold deref. destruct ((0 <=? p) && (p <? end_ json)) eqn:E; [|discriminate].
  apply andb_true_iff in E as [E1 E2]. apply Z.leb_le in E1. apply Z.ltb_lt in E2. lia.
Qed.

Lemma deref_inside p : 0 <= p < end_ json -> exists c, deref json p = Some c.
Proof.
  intros Hp. unfold deref.
  replace ((0 <=? p) && (p <? end_ json)) with true
    by (symmetry; apply andb_true_iff; split; [apply Z.leb_le|apply Z.ltb_lt]; lia).
  apply lookup_lt_is_Some_2. unfold end_ in Hp. lia.
Qed.

Lemma byte_at_inside p : 0 <= p <= end_ json -> exists b, byte_at json p = Some b.
Proof.
  intros Hp. unfold byte_at. destruct (Z.eqb_spec p (end_ json)); [eauto|].
  apply deref_inside. lia.
Qed.

Lemma read_hex4_inside p :
  0 <= p -> p + 4 < end_ json -> exists r, read_hex4 json p = Some r.
Proof.
  intros H0 H4. unfold read_hex4.
  destruct (deref_inside (p + 1)) as [c1 ->]; [lia|].
  destruct (deref_inside (p + 2)) as [c2 ->]; [lia|].
  destruct (deref_inside (p + 3)) as [c3 ->]; [lia|].
  destruct (deref_inside (p + 4)) as [c4 ->]; [lia|].
  cbn [mbind option_bind].
  destruct (hex_value c1 =? 255); [eauto|]. destruct (hex_value c2 =? 255); [eauto|].
  destruct (hex_value c3 =? 255); [eauto|]. destruct (hex_value c4 =? 255); eauto.
Qed.

Lemma decode_escape_inside p b :
  0 <= p < end_ json ->
  match decode_escape json p b with
  | Dec_ok _ d => 0 <= d /\ p + d < end_ json
  | Dec_bad _ => True
  | Dec_undef => False
  end.
Proof.
  intros Hp. unfold decode_escape.
  repeat match goal with
    | |- context [if ?b =? ?c then _ else _] =>
        lazymatch c with
        | chr "u" => fail
        | _ => destruct (b =? c); [lia|]
        end
    end.
  destruct (b =? chr "u"); [|lia].
  destruct (Z.leb_spec (end_ json - p) 4); [exact I|].
  destruct (read_hex4_inside p ltac:(lia) ltac:(lia)) as [[uchar|] ->]; [|exact I].
  destruct (Z.land uchar 63488 =? 55296); [|lia].
  destruct (Z.leb_spec (end_ json - (p + 4)) 6); [exact I|].
  destruct (deref_inside (p + 4 + 1)) as [c1 ->]; [lia|].
  destruct (negb (c1 =? chr "\")); [exact I|].
  destruct (deref_inside (p + 4 + 2)) as [c2 ->]; [lia|].
  destruct (negb (c2 =? chr "u")); [exact I|].
  destruct (read_hex4_inside (p + 4 + 2) ltac:(lia) ltac:(lia)) as [[uchar2|] ->];
    [lia|exact I].
Qed.

Lemma STRING_ADD_first x c :
  first_pass x = 1 ->
  STRING_ADD x c = Some (set_string_length (wrap_u32 (string_length x + 1)) x).
Proof. intros H. unfold STRING_ADD. rewrite H. reflexivity. Qed.

Lemma in_string_reads m b :
  counting_inv cfg m -> has (flags m) flag_string = true ->
  byte_at json (ptr m) = Some b ->
  match in_string json m b with
  | Continue m' => -1 <= ptr m' < end_ json
  | Fall mid => ptr mid = ptr m /\ b <> 0 /\ has (flags mid) flag_reproc = false
  | Failed _ _ => True
  | _ => False
  end.
Proof.
  intros [Hb Hf] Hs Hbyte. pose proof (bi_first _ _ Hb) as Hfp.
  destruct (fi_clean _ Hf) as [_ Hrp].
  unfold in_string. destruct (Z.eqb_spec b 0) as [|Hb0]; [exact I|].
  pose proof (byte_inside _ _ Hbyte Hb0) as Hp.
  destruct (string_length m >? uint_max); [exact I|].
  destruct (has (flags m) flag_escaped).
  - rewrite escaped_decoded. pose proof (decode_escape_inside (ptr m) b Hp) as Hd.
    destruct (decode_escape json (ptr m) b) as [cs d| |]; [|exact I|contradiction].
    rewrite add_utf8_first by (msimpl; exact Hfp). cbn [defined]. msimpl. lia.
  - destruct (b =? chr "\"); [msimpl; lia|].
    destruct (b =? chr "034").
    + unfold close_string. rewrite Hfp. cbn [Z.eqb defined]. cbv zeta. msimpl.
      destruct (fi_string _ Hf Hs) as (_ & _ & _ & (a & t & Ht & Hta & Hty)).
      rewrite Ht, (load_value_at _ _ _ Hta). cbn [defined].
      assert (Hup : forall f, update_value (mem m) (Pblk a 0) f
                              = Some (store (mem m) a (Bvalue (f t)))).
      { intros f. apply update_value_shell. eauto. }
      destruct Hty as [[Hty _]|Hty]; rewrite Hty, Hup; cbn [defined]; msimpl.
      * split_all; auto. flags_norm. exact Hrp.
      * rewrite Hfp. cbn [Z.eqb defined]. msimpl. lia.
    + rewrite STRING_ADD_first by exact Hfp. cbn [defined]. msimpl. lia.
Qed.

Lemma comments_reads m b :
  counting_inv cfg m -> has (flags m) flag_string = false ->
  byte_at json (ptr m) = Some b -> in_buffer json m ->
  match comments json m b with
  | Continue m' => -1 <= ptr m' < end_ json
  | Fall m' => m' = m
  | Failed _ _ => True
  | _ => False
  end.
Proof.
  intros [Hb Hf] Hs Hbyte Hin. unfold in_buffer in Hin. unfold comments.
  assert (Hnz : (b =? 0) = false -> 0 <= ptr m < end_ json).
  { intros E. apply (byte_inside _ b); auto. apply Z.eqb_neq. exact E. }
  destruct (has (flags m) (Z.lor flag_line_comment flag_block_comment)).
  - destruct (has (flags m) flag_line_comment).
    + destruct ((b =? chr "013") || (b =? chr "010") || (b =? 0)) eqn:E; msimpl; [lia|].
      apply orb_false_iff in E as [_ E]. specialize (Hnz E). lia.
    + destruct (has (flags m) flag_block_comment); [|reflexivity].
      destruct (b =? 0) eqn:E0; [exact I|]. specialize (Hnz eq_refl).
      destruct ((b =? chr "*") && (ptr m <? end_ json - 1)) eqn:E; [|lia].
      apply andb_true_iff in E as [_ E]. apply Z.ltb_lt in E.
      destruct (deref_inside (ptr m + 1)) as [c ->]; [lia|]. cbn [defined].
      destruct (c =? chr "/"); msimpl; lia.
  - destruct (b =? chr "/") eqn:Esl; [|reflexivity].
    assert (Hp : 0 <= ptr m < end_ json).
    { apply Hnz. apply Z.eqb_eq in Esl. subst. reflexivity. }
    assert (Hal : exists allowed,
              (if has (flags m) (Z.lor flag_seek_value flag_done) then Some true
               else t ← load_value (mem m) (top m); Some (type_eqb (type t) json_object))
              = Some allowed).
    { rewrite has_lor.
      destruct (has (flags m) flag_seek_value) eqn:Hk; [eauto|].
      destruct (has (flags m) flag_done) eqn:Hd; [eauto|]. simpl.
      destruct (fi_value _ Hf Hk Hd Hs) as [(a & t & Ht & Hta & _)|[(a & t & Ht & Hta & _) _]];
        rewrite Ht, (load_value_at _ _ _ Hta); simpl; eauto. }
    destruct Hal as [allowed ->]. cbn [defined].
    destruct (negb allowed); [exact I|]. cbv zeta. msimpl.
    destruct (Z.eqb_spec (ptr m + 1) (end_ json)); [exact I|].
    destruct (deref_inside (ptr m + 1)) as [c ->]; [lia|]. cbn [defined].
    destruct (c =? chr "/"); [msimpl; lia|]. destruct (c =? chr "*"); [msimpl; lia|exact I].
Qed.

Lemma done_reads m b :
  byte_at json (ptr m) = Some b ->
  match done_ m b with
  | Continue m' => -1 <= ptr m' < end_ json
  | Fall _ | Undefined => False
  | _ => True
  end.
Proof.
  intros Hbyte. unfold done_. destruct (Z.eqb_spec b 0) as [|Hb0]; [exact I|].
  pose proof (byte_inside _ _ Hbyte Hb0) as Hp.
  unfold WHITESPACE. destruct (b =? chr "010"); [msimpl; lia|].
  destruct ((b =? chr " ") || (b =? chr "009") || (b =? chr "013")); [lia|exact I].
Qed.

Lemma new_value_defined m ty :
  base_inv cfg m -> exists ok m', new_value cfg m ty = Some (ok, m').
Proof.
  intros Hb. pose proof (bi_first _ _ Hb) as Hfp. pose proof (bi_heap _ _ Hb) as Hwf.
  unfold new_value. rewrite Hfp. cbn [Z.eqb].
  destruct (json_alloc_total cfg Hallocator m (shell_bytes cfg)
              true (Bvalue zeroed_value)) as (p & m1 & Hja).
  rewrite Hja. cbn [mbind option_bind].
  apply json_alloc_inv in Hja
    as ((L1 & L2 & L3 & L4 & L5 & L6 & L7 & L8 & L9 & L10 & L11 & L12 & L13)
        & [(-> & Hh) | (-> & Hh)]); [simpl; eauto|].
  cbn [is_null]. cbv zeta.
  set (a := length (heap (mem m))) in *.
  assert (Hup : forall mx f, mem mx = mem m1 ->
                update_value (mem mx) (Pblk a 0) f
                = Some (store (mem m1) a (Bvalue (f zeroed_value)))).
  { intros mx f Hmx. rewrite Hmx. apply update_value_shell.
    exists a, zeroed_value. repeat split.
    apply (shell_app_new (mem m) (mem m1)). exact Hh. }
  destruct (bi_ptrs _ _ Hb) as [(E & _ & R & Al) | (E & R & Al & _)].
  - rewrite L6, R. simpl. rewrite Hup by reflexivity. cbn [mbind option_bind]. msimpl.
    rewrite L7, Al. simpl. eauto.
  - rewrite L6, R. simpl. rewrite Hup by reflexivity. cbn [mbind option_bind]. msimpl.
    rewrite L7, Al. simpl.
    assert (Hlast : exists vlast, shell (mem m) (a - 1)%nat vlast).
    { destruct Hwf as [Hall _]. apply Hall. unfold a. destruct (heap (mem m)); [congruence|].
      simpl. lia. }
    destruct Hlast as (vlast & Hvlast).
    match goal with
    | |- context [update_value ?mm (Pblk ?x 0) ?f] =>
        assert (Hup2 : update_value mm (Pblk x 0) f
                       = Some (store mm (a - 1)%nat (Bvalue (f vlast))))
    end.
    { apply update_value_shell. exists (a - 1)%nat, vlast. repeat split.
      pose proof (shell_lt _ _ _ Hvlast) as Hlt. fold a in Hlt.
      apply shell_store_ne; [lia|].
      apply (shell_app_old (mem m) (mem m1) (Some (Bvalue zeroed_value))); auto. }
    rewrite Hup2. simpl. eauto.
Qed.

Lemma closing_intro x :
  first_pass x = 1 -> linked x -> 0 <= ptr x < end_ json -> closing json x.
Proof.
  intros H1 H2 H3. unfold closing. split_all; auto.
  destruct (has (flags x) flag_reproc); lia.
Qed.

Lemma deref_some p c : deref json p = Some c -> 0 <= p < end_ json /\ json !! Z.to_nat p = Some c.
Proof.
  unfold deref. destruct ((0 <=? p) && (p <? end_ json)) eqn:E; [|discriminate].
  apply andb_true_iff in E as [E1 E2]. apply Z.leb_le in E1. apply Z.ltb_lt in E2.
  intros H. split; [lia|exact H].
Qed.

(** A comparison that runs off the buffer has matched all of the keyword
    but its last byte. *)
Lemma keyword_none cs : forall p,
  0 <= p -> p + Z.of_nat (length cs) <= end_ json -> keyword json p cs = None ->
  cs <> [] /\ drop (Z.to_nat (p + 1)) json = removelast cs.
Proof.
  induction cs as [|c cs IH]; intros p H0 Hle Hk; simpl in Hk; [discriminate|].
  split; [discriminate|].
  destruct (deref json (p + 1)) as [x|] eqn:Ed; simpl in Hk.
  - destruct (Z.eqb_spec x c) as [->|]; [|discriminate].
    apply deref_some in Ed as [Hin Hl].
    destruct (IH (p + 1)) as [Hne Hdrop]; auto; [lia| simpl length in Hle; lia|].
    rewrite (drop_S _ _ _ Hl).
    replace (S (Z.to_nat (p + 1))) with (Z.to_nat (p + 1 + 1)) by lia.
    rewrite Hdrop. destruct cs; [congruence|reflexivity].
  - assert (Hend : end_ json <= p + 1).
    { destruct (Z.lt_ge_cases (p + 1) (end_ json)) as [Hlt|]; [|lia].
      destruct (deref_inside (p + 1)) as [x Hx]; [lia|congruence]. }
    simpl length in Hle. destruct cs; [|simpl length in Hle; lia].
    simpl. apply drop_ge. unfold end_ in Hend. lia.
Qed.

Lemma keyword_some cs : forall p q,
  0 <= p -> keyword json p cs = Some (Some q) ->
  q = p + Z.of_nat (length cs) /\ (cs <> [] -> q < end_ json).
Proof.
  induction cs as [|c cs IH]; intros p q H0 Hk; simpl in Hk.
  - injection Hk as <-. split; [simpl; lia|congruence].
  - destruct (deref json (p + 1)) as [x|] eqn:Ed; simpl in Hk; [|discriminate].
    destruct (x =? c); [|discriminate].
    apply deref_some in Ed as [Hin _].
    destruct (IH (p + 1) q) as [Hq Hlt]; auto; [lia|].
    split; [simpl length; lia|]. intros _.
    destruct cs; [simpl in Hq; lia|apply Hlt; discriminate].
Qed.

Lemma with_new_value_reads m0 ty k :
  base_inv cfg m0 ->
  (top m0 = nullptr \/ top_is m0 (fun v => is_container (type v) = true)) ->
  (forall m', first_pass m' = 1 -> flags m' = flags m0 -> ptr m' = ptr m0 ->
              heap_wf (mem m') -> top_is m' (fun v => type v = ty) ->
              reads_inside json (and_then (k m') next)) ->
  reads_inside json (and_then (with_new_value cfg m0 ty k) next).
Proof.
  intros Hb Ht Hk. unfold with_new_value.
  destruct (new_value_defined m0 ty Hb) as (ok & m' & E).
  pose proof (new_value_counting cfg m0 ty Hb Ht) as H. rewrite E in H. rewrite E.
  cbn [defined fst snd]. destruct ok; [|exact I].
  cbv zeta in H. destruct H as (H1 & H2 & H3 & H4 & H5 & H6 & H7 & H8 & H9 & H10 & _).
  apply Hk; auto. eexists _, _. split_all; eauto.
Qed.

Lemma start_keyword_reads m0 b least cs ty k :
  base_inv cfg m0 ->
  (top m0 = nullptr \/ top_is m0 (fun v => is_container (type v) = true)) ->
  byte_at json (ptr m0) = Some b -> b <> 0 ->
  least = Z.of_nat (length (bytes_of_string cs)) -> bytes_of_string cs <> [] ->
  (exists kw, In kw ["tru"; "fals"; "nul"]%string
              /\ bytes_of_string kw = b :: removelast (bytes_of_string cs)) ->
  (forall m', first_pass m' = 1 -> flags m' = flags m0 -> 0 <= ptr m' < end_ json ->
              heap_wf (mem m') -> top_is m' (fun v => type v = ty) ->
              reads_inside json (and_then (k m') next)) ->
  reads_inside json (and_then (start_keyword cfg json m0 least cs ty k) next).
Proof.
  intros Hb Ht Hbyte Hb0 Hleast Hne (kw & Hkw & Hbytes) Hk. unfold start_keyword.
  pose proof (byte_inside _ _ Hbyte Hb0) as Hp.
  destruct (Z.ltb_spec (end_ json - ptr m0) least) as [|Hlen]; [exact I|].
  destruct (keyword json (ptr m0) (bytes_of_string cs)) as [[q|]|] eqn:Ek; cbn [defined].
  - destruct (keyword_some _ _ _ (proj1 Hp) Ek) as [Hq Hlt]. specialize (Hlt Hne).
    apply with_new_value_reads.
    + apply (base_inv_same cfg m0); auto; [repeat split|apply Hb|apply Hb].
    + exact Ht.
    + intros m' F1 F2 F3 F4 F5. apply Hk; auto. rewrite F3. msimpl. lia.
  - exact I.
  - assert (Hfit : ptr m0 + Z.of_nat (length (bytes_of_string cs)) <= end_ json) by lia.
    destruct (keyword_none _ _ (proj1 Hp) Hfit Ek) as [_ Hdrop].
    exists (take (Z.to_nat (ptr m0)) json), kw. split; [|exact Hkw].
    rewrite Hbytes, <- Hdrop.
    replace (Z.to_nat (ptr m0 + 1)) with (S (Z.to_nat (ptr m0))) by lia.
    symmetry. apply take_drop_middle.
    unfold byte_at in Hbyte. destruct (Z.eqb_spec (ptr m0) (end_ json)); [lia|].
    apply deref_some in Hbyte. apply Hbyte.
Qed.

Ltac reads_done :=
  cbn [and_then defined reads_inside]; first [exact I | msimpl; lia].

Lemma seek_value_reads m b :
  counting_inv cfg m ->
  has (flags m) flag_string = false -> has (flags m) flag_done = false ->
  has (flags m) flag_seek_value = true -> byte_at json (ptr m) = Some b ->
  reads_inside json (and_then (seek_value cfg json m b) next).
Proof.
  intros [Hb Hf] Hs Hd Hk Hbyte.
  pose proof (bi_first _ _ Hb) as Hfp. pose proof (bi_heap _ _ Hb) as Hwf.
  destruct (fi_seek _ Hf Hk Hd) as [_ Htop].
  unfold seek_value, WHITESPACE.
  destruct (Z.eqb_spec b 0) as [->|Hb0].
  { repeat match goal with |- context [0 =? ?c] => change (0 =? c) with false end.
    cbn [orb]. destruct (has (flags m) flag_need_comma); [exact I|].
    destruct (has (flags m) flag_need_colon); [exact I|].
    unfold start_number. change (isdigit 0) with false.
    change (0 =? chr "-") with false. exact I. }
  pose proof (byte_inside _ _ Hbyte Hb0) as Hp.
  destruct (b =? chr "010"); [reads_done|].
  destruct ((b =? chr " ") || (b =? chr "009") || (b =? chr "013")); [reads_done|].
  destruct (b =? chr "]").
  { destruct Htop as [Ht|(a & t & Ht & Hta & Hcn)].
    - rewrite Ht. reads_done.
    - rewrite Ht. cbn [is_null]. rewrite (load_value_at _ _ _ Hta).
      cbn [mbind option_bind defined].
      destruct (type_eqb (type t) json_array); [|exact I]. cbn [and_then].
      apply reads_next. apply closing_intro; auto.
      apply (linked_wf m); auto. exists a, t. auto. }
  destruct (has (flags m) flag_need_comma).
  { destruct (b =? chr ","); reads_done. }
  destruct (has (flags m) flag_need_colon).
  { destruct (b =? chr ":"); reads_done. }
  cbv zeta.
  set (m1 := set_flags (bic (flags m) flag_seek_value) m).
  assert (Hb1 : base_inv cfg m1).
  { apply (base_inv_same cfg m); auto; [repeat split|apply Hb|].
    intros Hal. destruct (bi_comments _ _ Hb Hal) as [C1 C2].
    unfold m1. split; msimpl; flags_norm; assumption. }
  assert (Htop1 : top m1 = nullptr \/ top_is m1 (fun v => is_container (type v) = true))
    by exact Htop.
  assert (Hbyte1 : byte_at json (ptr m1) = Some b) by exact Hbyte.
  assert (Hfall : forall x, first_pass x = 1 -> 0 <= ptr x < end_ json ->
                            heap_wf (mem x) -> top_is x (fun _ => True) ->
                            reads_inside json (next x)).
  { intros x F1 F2 F3 F4. apply reads_next. apply closing_intro; auto.
    apply linked_wf; auto. }
  assert (Hany : forall x (P : json_value -> Prop), top_is x P -> top_is x (fun _ => True)).
  { intros x P (a & t & H1 & H2 & _). exists a, t. auto. }
  destruct (b =? chr "{").
  { apply with_new_value_reads; auto. intros m' F1 F2 F3 F4 F5.
    cbn [and_then reads_inside]. rewrite F3. unfold m1. msimpl. lia. }
  destruct (b =? chr "[").
  { apply with_new_value_reads; auto. intros m' F1 F2 F3 F4 F5.
    cbn [and_then reads_inside]. msimpl. rewrite F3. unfold m1. msimpl. lia. }
  destruct (b =? chr "034").
  { apply with_new_value_reads; auto. intros m' F1 F2 F3 F4 (a & t & Ht & Hta & Hty).
    rewrite Ht, (load_value_at _ _ _ Hta). cbn [defined and_then reads_inside].
    msimpl. rewrite F3. unfold m1. msimpl. lia. }
  destruct (Z.eqb_spec b (chr "t")) as [->|_].
  { apply (start_keyword_reads m1 (chr "t")); auto; try discriminate.
    - exists "tru"%string. split; [simpl; auto|reflexivity].
    - intros m' F1 F2 F3 F4 (a & t & Ht & Hta & Hty).
      assert (Hup : forall f, update_value (mem m') (Pblk a 0) f
                              = Some (store (mem m') a (Bvalue (f t)))).
      { intros f. apply update_value_shell. eauto. }
      rewrite Ht, Hup. cbn [defined and_then]. apply reads_next.
      apply closing_intro; msimpl; auto.
      apply (linked_store m' a t (set_boolean true t)); auto. }
  destruct (Z.eqb_spec b (chr "f")) as [->|_].
  { apply (start_keyword_reads m1 (chr "f")); auto; try discriminate.
    - exists "fals"%string. split; [simpl; auto|reflexivity].
    - intros m' F1 F2 F3 F4 F5. cbn [and_then]. apply Hfall; msimpl; eauto. }
  destruct (Z.eqb_spec b (chr "n")) as [->|_].
  { apply (start_keyword_reads m1 (chr "n")); auto; try discriminate.
    - exists "nul"%string. split; [simpl; auto|reflexivity].
    - intros m' F1 F2 F3 F4 F5. cbn [and_then]. apply Hfall; msimpl; eauto. }
  unfold start_number.
  destruct (isdigit b || (b =? chr "-")); [|exact I].
  apply with_new_value_reads; auto. intros m' F1 F2 F3 F4 F5.
  rewrite F1. cbn [Z.eqb]. cbv zeta.
  destruct (negb (b =? chr "-")); cbn [and_then reads_inside].
  - apply Hfall; msimpl; eauto. rewrite F3. unfold m1. msimpl. lia.
  - msimpl. rewrite F3. unfold m1. msimpl. lia.
Qed.

Lemma in_object_reads m t b :
  counting_inv cfg m -> top_is m (fun _ => True) -> byte_at json (ptr m) = Some b ->
  reads_inside json (and_then (in_object m t b) next).
Proof.
  intros [Hb Hf] Htop Hbyte.
  pose proof (bi_first _ _ Hb) as Hfp. pose proof (bi_heap _ _ Hb) as Hwf.
  unfold in_object, WHITESPACE.
  destruct (Z.eqb_spec b 0) as [->|Hb0].
  { repeat match goal with |- context [0 =? ?c] => change (0 =? c) with false end.
    cbn [orb andb]. exact I. }
  pose proof (byte_inside _ _ Hbyte Hb0) as Hp.
  assert (Hfall : forall x, first_pass x = 1 -> 0 <= ptr x < end_ json ->
                            heap_wf (mem x) -> top_is x (fun _ => True) ->
                            reads_inside json (next x)).
  { intros x F1 F2 F3 F4. apply reads_next. apply closing_intro; auto.
    apply linked_wf; auto. }
  destruct (b =? chr "010"); [reads_done|].
  destruct ((b =? chr " ") || (b =? chr "009") || (b =? chr "013")); [reads_done|].
  destruct (b =? chr "034").
  { destruct (has (flags m) flag_need_comma); [exact I|]. cbn [and_then].
    apply Hfall; auto. }
  destruct (b =? chr "}"); [cbn [and_then]; apply Hfall; auto|].
  destruct ((b =? chr ",") && has (flags m) flag_need_comma); [|exact I].
  cbn [and_then]. apply Hfall; auto.
Qed.

Lemma in_number_reads m t b :
  counting_inv cfg m -> top_is m (fun v => is_number (type v) = true) ->
  byte_at json (ptr m) = Some b -> in_buffer json m ->
  reads_inside json (and_then (in_number pow m t b) next).
Proof.
  intros Hi Htop Hbyte Hin. pose proof (in_number_flow pow cfg m t b Hi Htop) as H.
  destruct (in_number pow m t b) as [x|mid| | |]; cbn [and_then reads_inside];
    simpl in H; try exact I; try contradiction.
  - destruct H as [(_ & _ & _ & _ & _ & Hptr & _) Hnc].
    assert (Hb0 : b <> 0) by (intros ->; discriminate).
    pose proof (byte_inside _ _ Hbyte Hb0). lia.
  - destruct H as (x & (Hbx & _ & _ & Htx & _ & Hptr & _) & ->).
    apply reads_next. unfold closing. split_all.
    + apply Hbx.
    + intros _. apply (linked_wf x); [apply Hbx|].
      destruct Htx as (a & v & H1 & H2 & _). exists a, v. auto.
    + msimpl. rewrite has_bis.
      change (has (Z.lor flag_next flag_reproc) flag_reproc) with true.
      rewrite orb_true_r. unfold in_buffer in Hin. lia.
Qed.

Lemma in_value_reads m b :
  counting_inv cfg m ->
  has (flags m) flag_string = false -> has (flags m) flag_done = false ->
  has (flags m) flag_seek_value = false ->
  byte_at json (ptr m) = Some b -> in_buffer json m ->
  reads_inside json (and_then (in_value pow m b) next).
Proof.
  intros Hi Hs Hd Hk Hbyte Hin. pose proof Hi as [Hb Hf]. unfold in_value.
  destruct (fi_value _ Hf Hk Hd Hs) as [(a & t & Ht & Hta & Hty) | [Hnum _]].
  - rewrite Ht, (load_value_at _ _ _ Hta). cbn [defined]. rewrite Hty.
    apply in_object_reads; auto. exists a, t. auto.
  - pose proof Hnum as (a & t & Ht & Hta & Hty).
    rewrite Ht, (load_value_at _ _ _ Hta). cbn [defined].
    destruct (type t); try discriminate; apply in_number_reads; auto.
Qed.

Lemma iteration_reads m :
  counting_inv cfg m -> in_buffer json m -> reads_inside json (iteration pow cfg json m).
Proof.
  intros Hi Hin. pose proof Hi as [Hb Hf]. unfold iteration.
  destruct (byte_at_inside (ptr m) Hin) as [b Hbyte].
  change (if ptr m =? end_ json then Some 0 else deref json (ptr m))
    with (byte_at json (ptr m)).
  rewrite Hbyte. cbn [defined].
  destruct (has (flags m) flag_string) eqn:Hs.
  - pose proof (in_string_reads m b Hi Hs Hbyte) as H.
    pose proof (in_string_counting cfg json m b Hi Hs) as Hc.
    destruct (in_string json m b) as [m'|mid| | |]; cbn [and_then reads_inside]; auto;
      try contradiction.
    destruct Hc as (-> & Hr & Hsf & Hnc & (a & t & Ht & Hta & Hty)).
    destruct H as (Hptr & Hb0 & Hrp).
    assert (Hc : (if allow_comments cfg then comments json mid (chr "034") else Fall mid)
                 = Fall mid).
    { destruct (allow_comments cfg); auto. apply comments_fall; auto. }
    rewrite Hc. cbn [and_then]. rewrite (nr_done _ _ Hr). cbn [and_then].
    rewrite (nr_seek _ _ Hr).
    unfold in_value. rewrite Ht, (load_value_at _ _ _ Hta). cbn [defined]. rewrite Hty.
    cbn [and_then]. apply reads_next. apply closing_intro.
    + apply (bi_first _ _ (nr_base _ _ Hr)).
    + apply linked_wf; [apply (bi_heap _ _ (nr_base _ _ Hr))|apply (nr_top _ _ Hr)].
    + rewrite Hptr. apply (byte_inside _ _ Hbyte Hb0).
  - cbn [and_then].
    assert (Hstage :
      reads_inside json
        (and_then (if has (flags m) flag_done then done_ m b else Fall m) (fun m =>
         and_then (if has (flags m) flag_seek_value then seek_value cfg json m b
                   else in_value pow m b) next))).
    { destruct (has (flags m) flag_done) eqn:Hd.
      - pose proof (done_reads m b Hbyte) as H.
        destruct (done_ m b); cbn [and_then reads_inside]; auto; contradiction.
      - cbn [and_then]. destruct (has (flags m) flag_seek_value) eqn:Hk.
        + apply seek_value_reads; auto.
        + apply in_value_reads; auto. }
    destruct (allow_comments cfg) eqn:Hall.
    + pose proof (comments_reads m b Hi Hs Hbyte Hin) as H.
      destruct (comments json m b) as [m'|m'| | |]; cbn [and_then reads_inside]; auto;
        try contradiction.
      subst m'. exact Hstage.
    + cbn [and_then]. exact Hstage.
Qed.

Lemma pass_reads fuel : forall m,
  counting_inv cfg m -> in_buffer json m ->
  pass pow cfg json fuel m = Pass_undefined -> cut_short json.
Proof.
  induction fuel as [|fuel IH]; intros m Hi Hin Hp; [discriminate|].
  simpl in Hp. pose proof (iteration_counting pow cfg json m Hi) as Hc.
  pose proof (iteration_reads m Hi Hin) as Hr.
  destruct (iteration pow cfg json m) as [m'|m'|m'| |]; try discriminate;
    try contradiction.
  - destruct Hc as [Hi' _]. simpl in Hr.
    apply (IH (set_ptr (ptr m' + 1) m')); auto.
    + apply counting_inv_ptr. exact Hi'.
    + unfold in_buffer. msimpl. lia.
  - exact Hr.
Qed.

End Reading.

Lemma counting_pass_reads pow cfg json mm fuel :
  mem_alloc cfg <> None -> heap mm = [] ->
  pass pow cfg json fuel (start_pass 1 (initial mm)) = Pass_undefined -> cut_short json.
Proof.
  intros Hal Hh. apply (pass_reads pow cfg json Hal).
  - apply counting_inv_start. exact Hh.
  - unfold in_buffer, end_. simpl. lia.
Qed.


(** * A failed counting pass releases every block *)

Lemma update_value_chain mm p f mm' r al :
  update_value mm p f = Some mm' -> keeps_link f -> chain mm r al -> chain mm' r al.
Proof.
  intros Hu Hk [Hall Hp]. apply update_value_shell in Hu as (a & v & -> & Ha & ->).
  pose proof (shell_lt _ _ _ Ha) as Hlt.
  split.
  - rewrite length_store. intros x Hx. destruct (Nat.eq_dec a x) as [<-|Hne].
    + exists (f v). split; [apply shell_store_eq; auto|].
      rewrite Hk. destruct (Hall a Hlt) as (v' & Hv' & Hr).
      rewrite (shell_inj _ _ _ _ Ha Hv'). exact Hr.
    + destruct (Hall x Hx) as (v' & Hv' & Hr). exists v'. split; auto.
      apply shell_store_ne; auto.
  - rewrite length_store.
    assert (Hnil : heap (store mm a (Bvalue (f v))) = [] <-> heap mm = []).
    { rewrite <- !length_zero_iff_nil, length_store. reflexivity. }
    destruct Hp as [(H1 & H2 & H3)|(H1 & H2 & H3)]; [left|right]; split_all; auto.
    + apply Hnil. exact H1.
    + intros E. apply H1. apply Hnil. exact E.
Qed.

Lemma chain_heap mm mm' r al : heap mm' = heap mm -> chain mm r al -> chain mm' r al.
Proof. unfold chain, shell. intros ->. auto. Qed.

Lemma and_then_assoc f k1 k2 :
  and_then (and_then f k1) k2 = and_then f (fun m => and_then (k1 m) k2).
Proof. destruct f; reflexivity. Qed.

Section Chain.

Variable pow : float -> float -> float.
Variable cfg : settings.
Variable json : list Z.

Lemma new_value_chained m ty ok m' :
  chained m -> new_value cfg m ty = Some (ok, m') -> chained m'.
Proof.
  intros [Hfp [Hall Hp]]. unfold new_value. rewrite Hfp. cbn [Z.eqb].
  destruct (json_alloc cfg m (shell_bytes cfg) true
              (Bvalue zeroed_value)) as [[value m1]|] eqn:Ea; cbn [mbind option_bind];
    [|discriminate].
  apply json_alloc_inv in Ea
    as ((L1 & L2 & L3 & L4 & L5 & L6 & L7 & L8 & L9 & L10 & L11 & L12 & L13)
        & [(-> & Hh) | (-> & Hh)]).
  - cbn [is_null]. intros [= <- <-]. split; [congruence|].
    rewrite L6, L7. apply (chain_heap (mem m)); auto. split; auto.
  - cbn [is_null]. cbv zeta.
    set (a := length (heap (mem m))) in *.
    set (m2 := if is_null (root m1) then set_root (Pblk a 0) m1 else m1).
    assert (Hm2 : mem m2 = mem m1 /\ top m2 = top m /\ alloc m2 = alloc m
                  /\ first_pass m2 = 1).
    { unfold m2. destruct (is_null (root m1)); msimpl; split_all; congruence. }
    destruct Hm2 as (M1 & M2 & M3 & M4). rewrite M1, M3.
    assert (Hnew : shell (mem m1) a zeroed_value).
    { apply (shell_app_new (mem m) (mem m1)). exact Hh. }
    rewrite (proj2 (update_value_shell _ _ _ _) (ex_intro _ a (ex_intro _ zeroed_value
               (conj eq_refl (conj Hnew eq_refl))))).
    cbn [mbind option_bind].
    set (vnew := set_parent (top m2) (set_type ty zeroed_value)).
    assert (Hlen1 : length (heap (mem m1)) = S a).
    { rewrite Hh, length_app. simpl. unfold a. lia. }
    assert (Hroot : root m2 = Pblk 0%nat 0).
    { unfold m2. rewrite L6.
      destruct Hp as [(H1 & H2 & H3)|(H1 & H2 & H3)].
      - rewrite H2. cbn [is_null]. msimpl. unfold a. rewrite H1. reflexivity.
      - rewrite H2. cbn [is_null]. congruence. }
    destruct Hp as [(H1 & H2 & H3)|(H1 & H2 & H3)].
    + rewrite H3. cbn [is_null]. intros [= <- <-]. split; [msimpl; exact M4|]. msimpl.
      assert (Ha0 : a = 0%nat) by (unfold a; rewrite H1; reflexivity).
      split.
      * rewrite length_store, Hlen1. intros x Hx. assert (x = a) by lia. subst x.
        exists vnew. split; [apply shell_store_eq; [lia|reflexivity]|].
        replace (S a <? S a)%nat with false by (symmetry; apply Nat.ltb_ge; lia).
        reflexivity.
      * right. rewrite length_store, Hlen1. split_all; auto.
        -- intros E. apply (f_equal (@length _)) in E. rewrite length_store, Hlen1 in E.
           discriminate.
        -- rewrite Ha0. reflexivity.
    + rewrite H3. cbn [is_null].
      assert (Hpos : (0 < a)%nat).
      { unfold a. destruct (heap (mem m)); [congruence|simpl; lia]. }
      destruct (Hall (a - 1)%nat ltac:(fold a; lia)) as (vl & Hvl & Hrl).
      assert (Hvl1 : shell (store (mem m1) a (Bvalue vnew)) (a - 1)%nat vl).
      { apply shell_store_ne; [lia|].
        apply (shell_app_old (mem m) (mem m1) (Some (Bvalue zeroed_value)));
          [exact Hh|fold a; lia|exact Hvl]. }
      fold a.
      rewrite (proj2 (update_value_shell _ _ _ _) (ex_intro _ (a - 1)%nat (ex_intro _ vl
                 (conj eq_refl (conj Hvl1 eq_refl))))).
      cbn [mbind option_bind]. intros [= <- <-]. split; [msimpl; exact M4|]. msimpl.
      split.
      * rewrite !length_store, Hlen1. intros x Hx.
        destruct (Nat.eq_dec x (a - 1)%nat) as [->|Hne1].
        { exists (set_reserved (Pblk a 0) vl). split.
          - apply shell_store_eq; [rewrite length_store; lia|reflexivity].
          - simpl. replace (S (a - 1)%nat <? S a)%nat with true
              by (symmetry; apply Nat.ltb_lt; lia).
            replace (S (a - 1)%nat) with a by lia. reflexivity. }
        destruct (Nat.eq_dec x a) as [->|Hne2].
        { exists vnew. split.
          - apply shell_store_ne; [lia|]. apply shell_store_eq; [lia|reflexivity].
          - replace (S a <? S a)%nat with false by (symmetry; apply Nat.ltb_ge; lia).
            reflexivity. }
        destruct (Hall x ltac:(fold a; lia)) as (v & Hv & Hr). exists v. split.
        { apply shell_store_ne; [lia|]. apply shell_store_ne; [lia|].
          apply (shell_app_old (mem m) (mem m1) (Some (Bvalue zeroed_value)));
            [exact Hh|fold a; lia|exact Hv]. }
        rewrite Hr. fold a.
        replace (S x <? a)%nat with true by (symmetry; apply Nat.ltb_lt; lia).
        replace (S x <? S a)%nat with true by (symmetry; apply Nat.ltb_lt; lia).
        reflexivity.
      * right. rewrite !length_store, Hlen1. split_all; auto.
        -- intros E. apply (f_equal (@length _)) in E. rewrite !length_store, Hlen1 in E.
           discriminate.
        -- replace (S a - 1)%nat with a by lia. reflexivity.
Qed.

Lemma STRING_ADD_chained m b m' : chained m -> STRING_ADD m b = Some m' -> chained m'.
Proof.
  intros Hc. rewrite STRING_ADD_first by apply Hc. intros [= <-]. exact Hc.
Qed.

Lemma encode_utf8_chained m u m' : chained m -> encode_utf8 m u = Some m' -> chained m'.
Proof.
  intros Hc. rewrite encode_utf8_add, add_utf8_first by apply Hc. intros [= <-]. exact Hc.
Qed.

Lemma surrogate_chained m u u' m' :
  chained m -> surrogate json m u = Some (Some (u', m')) -> chained m'.
Proof.
  intros Hc. unfold surrogate. destruct (Z.land u 63488 =? 55296).
  - destruct (end_ json - ptr m <=? 6); [discriminate|].
    destruct (deref json (ptr m + 1)) as [c1|]; simpl; [|discriminate].
    destruct (negb (c1 =? chr "\")); [discriminate|].
    destruct (deref json (ptr m + 2)) as [c2|]; simpl; [|discriminate].
    destruct (negb (c2 =? chr "u")); [discriminate|].
    destruct (read_hex4 json (ptr m + 2)) as [[h|]|]; simpl; try discriminate.
    intros H. injection H as _ <-. exact Hc.
  - intros H. injection H as _ <-. exact Hc.
Qed.

Lemma WHITESPACE_chained b m m' : chained m -> WHITESPACE b m = Some m' -> chained m'.
Proof.
  intros Hc. unfold WHITESPACE. destruct (b =? chr "010").
  - intros H. injection H as <-. exact Hc.
  - destruct ((b =? chr " ") || (b =? chr "009") || (b =? chr "013")); [|discriminate].
    intros H. injection H as <-. exact Hc.
Qed.

Lemma and_then_chained f k :
  flow_chained f -> (forall m, chained m -> flow_chained (k m)) ->
  flow_chained (and_then f k).
Proof. destruct f; simpl; auto. Qed.

Ltac keeps :=
  intros ?;
  repeat match goal with |- context [if ?c then _ else _] => destruct c end;
  reflexivity.

Ltac chain_mem :=
  first
    [ eassumption
    | match goal with
      | H : update_value _ _ _ = Some ?mm |- chain ?mm _ _ =>
          apply (update_value_chain _ _ _ _ _ _ H); [keeps|chain_mem]
      end ].

Ltac chain_solve :=
  unfold chained; msimpl;
  repeat match goal with |- context [if ?c then _ else _] => destruct c end; msimpl;
  split; [assumption|chain_mem].

Ltac chain_facts :=
  repeat match goal with
    | H : chained _ |- _ => destruct H as [? ?]
    | H : STRING_ADD _ _ = Some _ |- _ => apply STRING_ADD_chained in H; [|chain_solve]
    | H : encode_utf8 _ _ = Some _ |- _ => apply encode_utf8_chained in H; [|chain_solve]
    | H : surrogate _ _ _ = Some (Some _) |- _ => apply surrogate_chained in H; [|chain_solve]
    | H : new_value _ _ _ = Some _ |- _ => apply new_value_chained in H; [|chain_solve]
    | H : WHITESPACE _ _ = Some _ |- _ => apply WHITESPACE_chained in H; [|chain_solve]
    | H : (if ?c then _ else _) = Some _ |- _ => destruct c
    | H : Some _ = Some _ |- _ => injection H as <-
    end.

Ltac chain_done :=
  chain_facts; cbn [and_then];
  unfold flow_chained, e_unknown_value, e_alloc_failure, e_overflow, invalid_character_value;
  first [exact I | chain_solve].

Ltac chain_branch :=
  repeat first
    [ progress cbv zeta
    | progress msimpl
    | progress cbn [defined and_then mbind option_bind]
    | match goal with
      | |- context [if ?c then ?a else _] =>
          lazymatch type of a with machine => destruct c eqn:? end
      | H : first_pass ?m = 1 |- context [first_pass ?m =? 0] =>
          rewrite H; cbn [Z.eqb negb]
      | |- flow_chained (and_then (and_then _ _) _) => rewrite and_then_assoc
      | |- flow_chained (defined ?o _) => destruct o eqn:?; cbn [defined]; [|exact I]
      | |- flow_chained (and_then (defined ?o _) _) =>
          destruct o eqn:?; cbn [defined and_then]; [|exact I]
      | |- flow_chained (and_then (if ?c then _ else _) _) => destruct c eqn:?
      | |- flow_chained (and_then (match ?x with _ => _ end) _) => destruct x eqn:?
      | |- flow_chained (if ?c then _ else _) => destruct c eqn:?
      | |- flow_chained (match ?x with _ => _ end) => destruct x eqn:?
      end ].

Lemma in_string_chained m b : chained m -> flow_chained (in_string json m b).
Proof.
  intros [Hfp Hch]. unfold in_string. chain_branch.
  - chain_done.
  - chain_done.
  - unfold escaped, escape_u. chain_branch; chain_done.
  - chain_done.
  - unfold close_string. chain_branch; chain_done.
  - chain_done.
Qed.

Lemma comments_chained m b : chained m -> flow_chained (comments json m b).
Proof. intros [Hfp Hch]. unfold comments. chain_branch; chain_done. Qed.

Lemma done_chained m b : chained m -> flow_chained (done_ m b).
Proof. intros [Hfp Hch]. unfold done_. chain_branch; chain_done. Qed.

Lemma next_chained m : chained m -> flow_chained (next m).
Proof. intros [Hfp Hch]. unfold next. chain_branch; chain_done. Qed.

Lemma with_new_value_chained m ty k :
  chained m -> (forall m', chained m' -> flow_chained (and_then (k m') next)) ->
  flow_chained (and_then (with_new_value cfg m ty k) next).
Proof.
  intros Hc Hk. unfold with_new_value.
  destruct (new_value cfg m ty) as [[ok m']|] eqn:E; cbn [defined fst snd]; [|exact I].
  apply new_value_chained in E; [|exact Hc]. destruct ok.
  - apply Hk. exact E.
  - exact E.
Qed.

Lemma start_keyword_chained m least cs ty k :
  chained m -> (forall m', chained m' -> flow_chained (and_then (k m') next)) ->
  flow_chained (and_then (start_keyword cfg json m least cs ty k) next).
Proof.
  intros Hc Hk. unfold start_keyword.
  destruct (end_ json - ptr m <? least); [exact Hc|].
  destruct (keyword json (ptr m) (bytes_of_string cs)) as [[p|]|]; cbn [defined];
    [|exact Hc|exact I].
  apply with_new_value_chained; auto.
Qed.

Lemma seek_value_chained m b :
  chained m -> flow_chained (and_then (seek_value cfg json m b) next).
Proof.
  intros Hc. pose proof Hc as [Hfp Hch]. unfold seek_value.
  destruct (WHITESPACE b m) as [m'|] eqn:Ew; [chain_done|].
  destruct (b =? chr "]").
  { chain_branch; try chain_done. apply next_chained. chain_solve. }
  destruct (has (flags m) flag_need_comma); [chain_branch; chain_done|].
  destruct (has (flags m) flag_need_colon); [chain_branch; chain_done|].
  cbv zeta.
  repeat match goal with
    | |- flow_chained (and_then (if ?c then _ else _) next) => destruct c
    end.
  - apply with_new_value_chained; [exact Hc|]. intros m' Hm'. chain_done.
  - apply with_new_value_chained; [exact Hc|]. intros m' Hm'. chain_done.
  - apply with_new_value_chained; [exact Hc|]. intros m' Hm'. cbn [and_then].
    destruct (load_value (mem m') (top m')); cbn [defined and_then]; [chain_done|exact I].
  - apply start_keyword_chained; [exact Hc|]. intros m' Hm'.
    destruct (update_value (mem m') (top m') (set_boolean true)) eqn:Eu;
      cbn [defined and_then]; [|exact I].
    apply next_chained. chain_facts. chain_solve.
  - apply start_keyword_chained; [exact Hc|]. intros m' Hm'. cbn [and_then].
    apply next_chained. exact Hm'.
  - apply start_keyword_chained; [exact Hc|]. intros m' Hm'. cbn [and_then].
    apply next_chained. exact Hm'.
  - unfold start_number. destruct (isdigit b || (b =? chr "-")); [|chain_done].
    apply with_new_value_chained; [exact Hc|]. intros m' Hm'.
    rewrite (proj1 Hm'). cbn [Z.eqb]. cbv zeta.
    destruct (negb (b =? chr "-")); cbn [and_then]; [apply next_chained; exact Hm'|chain_done].
Qed.

Ltac chain_next :=
  match goal with
  | |- flow_chained (next _) => apply next_chained; chain_facts; chain_solve
  | _ => chain_done
  end.

Lemma in_value_chained m b :
  chained m -> flow_chained (and_then (in_value pow m b) next).
Proof.
  intros Hc. pose proof Hc as [Hfp Hch]. unfold in_value.
  destruct (load_value (mem m) (top m)) as [t|]; cbn [defined]; [|exact I].
  destruct (type t); try (cbn [and_then]; apply next_chained; exact Hc).
  - unfold in_object. chain_branch; chain_next.
  - unfold in_number, finish_number. chain_branch; chain_next.
  - unfold in_number, finish_number. chain_branch; chain_next.
Qed.

Lemma iteration_chained m : chained m -> flow_chained (iteration pow cfg json m).
Proof.
  intros H. unfold iteration.
  destruct (if ptr m =? end_ json then Some 0 else deref json (ptr m)) as [b|];
    cbn [defined]; [|exact I].
  apply and_then_chained.
  { destruct (has (flags m) flag_string); [apply in_string_chained; exact H|exact H]. }
  intros m1 H1. apply and_then_chained.
  { destruct (allow_comments cfg); [apply comments_chained; exact H1|exact H1]. }
  intros m2 H2. apply and_then_chained.
  { destruct (has (flags m2) flag_done); [apply done_chained; exact H2|exact H2]. }
  intros m3 H3. destruct (has (flags m3) flag_seek_value).
  - apply seek_value_chained. exact H3.
  - apply in_value_chained. exact H3.
Qed.

Lemma pass_chained fuel : forall m,
  chained m ->
  match pass pow cfg json fuel m with
  | Pass_done m' | Pass_failed _ m' => chained m'
  | Pass_undefined | Pass_out_of_fuel => True
  end.
Proof.
  induction fuel as [|fuel IH]; intros m H; [exact I|].
  cbn [pass]. pose proof (iteration_chained m H) as Hi.
  destruct (iteration pow cfg json m); simpl in Hi; auto; apply IH; exact Hi.
Qed.

End Chain.

Lemma chained_start mm : heap mm = [] -> chained (start_pass 1 (initial mm)).
Proof.
  intros Hh. split; [reflexivity|]. simpl. split.
  - rewrite Hh. simpl. intros a Ha. lia.
  - left. auto.
Qed.

Lemma released_live mm : all_released mm -> live_blocks mm = 0%nat.
Proof.
  unfold all_released, live_blocks. generalize (heap mm). clear mm.
  induction l as [|x l IH]; intros H; [reflexivity|].
  pose proof (H 0%nat ltac:(simpl; lia)) as H0. simpl in H0. injection H0 as ->.
  rewrite filter_cons_False by (intros [y Hy]; discriminate).
  apply IH. intros a Ha. apply (H (S a)). simpl. lia.
Qed.

(** The walk of [e_failed] along the chain, from the shell at [a] on: it
    releases every shell once and stops at the end of the chain. *)
Lemma free_chain_releases cfg f n : forall k mm a,
  mem_free cfg = Some f -> length (heap mm) = n -> (a + k = n)%nat ->
  (forall i, (i < a)%nat -> heap mm !! i = Some None) ->
  (forall i, (a <= i < n)%nat ->
     exists v, shell mm i v
               /\ _reserved v = (if (S i <? n)%nat then Pblk (S i) 0 else nullptr)) ->
  forall fuel, (k < fuel)%nat ->
  exists mm', free_chain cfg fuel mm (if (a <? n)%nat then Pblk a 0 else nullptr) = Ok mm'
              /\ all_released mm'.
Proof.
  induction k as [|k IH]; intros mm a Hf Hlen Hak Hlow Hhigh fuel Hfuel;
    (destruct fuel as [|fuel]; [lia|]).
  - replace (a <? n)%nat with false by (symmetry; apply Nat.ltb_ge; lia).
    exists mm. split; [reflexivity|]. intros i Hi. apply Hlow. lia.
  - replace (a <? n)%nat with true by (symmetry; apply Nat.ltb_lt; lia).
    destruct (Hhigh a ltac:(lia)) as (v & Hv & Hr).
    cbn [free_chain is_null]. rewrite (load_value_at _ _ _ Hv). cbn [result_of result_bind].
    unfold settings_mem_free. rewrite Hf. unfold call_mem_free.
    unfold shell in Hv. rewrite Hv. cbn [mjoin option_join result_of result_bind].
    rewrite Hr.
    match goal with |- context [free_chain cfg fuel ?m1 _] => set (mm1 := m1) end.
    apply (IH mm1 (S a)); auto; try lia.
    + unfold mm1. simpl. rewrite length_insert. exact Hlen.
    + intros i Hi. unfold mm1. simpl. destruct (Nat.eq_dec i a) as [->|Hne].
      * apply list_lookup_insert_eq. lia.
      * rewrite list_lookup_insert_ne by lia. apply Hlow. lia.
    + intros i Hi. destruct (Hhigh i ltac:(lia)) as (vi & Hvi & Hri). exists vi.
      split; [|exact Hri]. unfold shell, mm1. simpl.
      rewrite list_lookup_insert_ne by lia. exact Hvi.
Qed.

(** [e_failed] after a failure of the counting pass *)
Lemma e_failed_counting cfg error_buf e m :
  mem_free cfg <> None -> chained m ->
  exists mm', e_failed cfg error_buf e m
              = No_tree (if error_buf
                         then Some (if (format e =? EmptyString)%string
                                    then sprintf "Unknown error" [] else e)
                         else None) mm'
              /\ live_blocks mm' = 0%nat.
Proof.
  intros Hfree [Hfp [Hall Hp]]. destruct (mem_free cfg) as [f|] eqn:Hf; [|congruence].
  unfold e_failed. rewrite Hfp. cbn [Z.eqb negb]. cbv zeta.
  destruct (free_chain_releases cfg f (length (heap (mem m))) (length (heap (mem m)))
              (mem m) 0%nat Hf eq_refl eq_refl ltac:(intros; lia)
              ltac:(intros i Hi; apply Hall; lia) (S (length (heap (mem m)))) ltac:(lia))
    as (mm' & Hfc & Hrel).
  assert (Hroot : root m = if (0 <? length (heap (mem m)))%nat then Pblk 0%nat 0 else nullptr).
  { destruct Hp as [(H1 & H2 & _)|(H1 & H2 & _)]; rewrite H2.
    - rewrite H1. reflexivity.
    - destruct (heap (mem m)); [congruence|reflexivity]. }
  rewrite Hroot, Hfc. exists mm'. split; [reflexivity|]. apply released_live. exact Hrel.
Qed.

(** A failure of the counting pass releases every shell. *)
Lemma counting_failure_releases pow mm st json error_buf e m :
  heap mm = [] ->
  pass pow (state_settings st) (skip_bom json) (pass_fuel (skip_bom json))
    (start_pass 1 (initial mm)) = Pass_failed e m ->
  failure (parse_in pow mm st json error_buf)
  = Some (if error_buf
          then Some (if (format e =? EmptyString)%string then sprintf "Unknown error" [] else e)
          else None, 0%nat).
Proof.
  intros Hh Hp. unfold parse_in, two_passes. rewrite Hp.
  pose proof (pass_chained pow (state_settings st) (skip_bom json)
                (pass_fuel (skip_bom json)) _ (chained_start mm Hh)) as Hc.
  rewrite Hp in Hc.
  destruct (e_failed_counting (state_settings st) error_buf e m ltac:(discriminate) Hc)
    as (mm' & -> & Hl).
  simpl. rewrite Hl. reflexivity.
Qed.


(** * [json::value_free] releases a tree *)

Lemma layout_induction (P : layout -> Prop) :
  (forall a, P (Lscalar a)) -> (forall a b, P (Lstring a b)) -> (forall a, P (Lempty a)) ->
  (forall a b kids, Forall P kids -> P (Lnode a b kids)) ->
  forall l, P l.
Proof.
  intros H1 H2 H3 H4. fix IH 1. intros [a|a b|a|a b kids]; [apply H1|apply H2|apply H3|].
  apply H4. induction kids as [|k kids IHk]; constructor; [apply IH|exact IHk].
Qed.

Lemma pointer_eqb_eq p q : pointer_eqb p q = true <-> p = q.
Proof.
  destruct p as [x|a x], q as [y|b y]; simpl; split; try discriminate.
  - intros H. apply Z.eqb_eq in H. congruence.
  - intros [= ->]. apply Z.eqb_refl.
  - intros H. apply andb_true_iff in H as [H1 H2]. apply Nat.eqb_eq in H1.
    apply Z.eqb_eq in H2. congruence.
  - intros [= -> ->]. rewrite Nat.eqb_refl, Z.eqb_refl. reflexivity.
Qed.

Lemma pointers_eqb_eq ps : forall qs, pointers_eqb ps qs = true -> ps = qs.
Proof.
  induction ps as [|p ps IH]; intros [|q qs] H; simpl in H; try discriminate; auto.
  apply andb_true_iff in H as [H1 H2]. apply pointer_eqb_eq in H1. apply IH in H2.
  congruence.
Qed.

Lemma load_block mm a blk : load mm (Pblk a 0) = Some blk <-> heap mm !! a = Some (Some blk).
Proof.
  unfold load. destruct (heap mm !! a) as [[x|]|]; simpl; split; congruence.
Qed.

Lemma well_laid_sits mm : forall l q, well_laid mm q l = true -> sits mm q l.
Proof.
  induction l as [a|a b|a|a b kids IH] using layout_induction; intros q H;
    cbn [well_laid] in H.
  - destruct (load_value mm (Pblk a 0)) as [v|] eqn:Ev; [|discriminate].
    apply load_value_shell in Ev as (a' & [= <-] & Hv).
    apply andb_true_iff in H as [H1 H2]. apply pointer_eqb_eq in H1.
    eapply sits_scalar; eauto.
  - destruct (load_value mm (Pblk a 0)) as [v|] eqn:Ev; [|discriminate].
    apply load_value_shell in Ev as (a' & [= <-] & Hv).
    destruct (load mm (Pblk b 0)) as [blk|] eqn:Eb; [|discriminate].
    apply load_block in Eb.
    apply andb_true_iff in H as [H H3]. apply andb_true_iff in H as [H1 H2].
    apply pointer_eqb_eq in H1, H3. apply type_eqb_eq in H2.
    eapply sits_string; eauto.
  - destruct (load_value mm (Pblk a 0)) as [v|] eqn:Ev; [|discriminate].
    apply load_value_shell in Ev as (a' & [= <-] & Hv).
    apply andb_true_iff in H as [H H4]. apply andb_true_iff in H as [H H3].
    apply andb_true_iff in H as [H1 H2].
    apply pointer_eqb_eq in H1, H4. apply Z.eqb_eq in H3.
    eapply sits_empty; eauto.
  - destruct (load_value mm (Pblk a 0)) as [v|] eqn:Ev; [|discriminate].
    apply load_value_shell in Ev as (a' & [= <-] & Hv).
    destruct (load mm (Pblk b 0)) as [blk|] eqn:Eb; [|discriminate].
    apply load_block in Eb.
    destruct (slots (type v) blk) as [ps|] eqn:Es; [|discriminate].
    apply andb_true_iff in H as [H H7]. apply andb_true_iff in H as [H H6].
    apply andb_true_iff in H as [H H5]. apply andb_true_iff in H as [H H4].
    apply andb_true_iff in H as [H H3]. apply andb_true_iff in H as [H1 H2].
    apply pointer_eqb_eq in H1, H5. apply Z.eqb_eq in H3. apply Z.ltb_lt in H4.
    apply pointers_eqb_eq in H6.
    eapply sits_node; eauto.
    + rewrite H6. apply take_ge. rewrite length_fmap. lia.
    + clear -IH H7. induction kids as [|k kids IHk]; [constructor|].
      simpl in H7. apply andb_true_iff in H7 as [Hk Hks].
      inversion IH as [|? ? Hk' Hks']; subst. constructor; auto.
Qed.

(** ** Blocks released, blocks untouched *)

Lemma in_kids (k : layout) (kids : list layout) (x : addr) :
  k ∈ kids -> x ∈ footprint k -> x ∈ concat (map footprint kids).
Proof.
  induction kids as [|k' kids IH]; intros Hk Hx; [inversion Hk|].
  simpl. apply elem_of_app. apply elem_of_cons in Hk as [<-|Hk]; auto.
Qed.

Lemma footprint_snoc (ks : list layout) (k : layout) :
  concat (map footprint (ks ++ [k])) = concat (map footprint ks) ++ footprint k.
Proof. rewrite map_app, concat_app. simpl. rewrite app_nil_r. reflexivity. Qed.

Lemma within_store mm a blk : within [a] mm (store mm a blk).
Proof.
  unfold within. split_all; [apply length_store| |reflexivity].
  intros x Hx. unfold store. simpl. apply list_lookup_insert_ne.
  intros ->. apply Hx. apply list_elem_of_here.
Qed.

Lemma released_trans fp1 fp2 fp mm mm1 mm2 :
  released fp1 mm mm1 -> released fp2 mm1 mm2 ->
  (forall x, x ∈ fp <-> x ∈ fp1 \/ x ∈ fp2) -> released fp mm mm2.
Proof.
  intros (L1 & R1 & K1 & A1) (L2 & R2 & K2 & A2) Hfp. unfold released.
  split_all; try congruence.
  - intros x Hx. destruct (decide (x ∈ fp2)) as [H2|H2]; [auto|].
    rewrite K2 by exact H2. apply R1. apply Hfp in Hx. tauto.
  - intros x Hx. rewrite K2, K1; auto; intros H; apply Hx, Hfp; auto.
Qed.

Lemma within_released fp0 fp mm mm1 mm2 :
  within fp0 mm mm1 -> released fp mm1 mm2 -> (forall x, x ∈ fp0 -> x ∈ fp) ->
  released fp mm mm2.
Proof.
  intros (L1 & K1 & A1) (L2 & R2 & K2 & A2) Hfp. unfold released.
  split_all; try congruence; auto.
  intros x Hx. rewrite K2, K1; auto.
Qed.

Lemma released_same fp fp' mm mm' :
  released fp mm mm' -> (forall x, x ∈ fp' <-> x ∈ fp) -> released fp' mm mm'.
Proof.
  intros (L & R & K & A) Hfp. unfold released. split_all; auto.
  - intros x Hx. apply R, Hfp, Hx.
  - intros x Hx. apply K. intros H. apply Hx, Hfp, H.
Qed.

Lemma sits_frame mm mm' : forall l q,
  sits mm q l -> (forall x, x ∈ footprint l -> heap mm' !! x = heap mm !! x) ->
  sits mm' q l.
Proof.
  induction l as [a|a b|a|a b kids IH] using layout_induction; intros q Hs Hx;
    inversion Hs; subst.
  - eapply sits_scalar; eauto. unfold shell. rewrite Hx; [assumption|]. simpl.
    apply list_elem_of_here.
  - eapply sits_string; eauto.
    + unfold shell. rewrite Hx; [assumption|]. simpl. apply list_elem_of_here.
    + rewrite Hx; [eassumption|]. simpl. apply list_elem_of_further, list_elem_of_here.
  - eapply sits_empty; eauto. unfold shell. rewrite Hx; [assumption|]. simpl.
    apply list_elem_of_here.
  - eapply sits_node; eauto.
    + unfold shell. rewrite Hx; [assumption|]. simpl. apply list_elem_of_here.
    + rewrite Hx; [eassumption|]. simpl. apply list_elem_of_further, list_elem_of_here.
    + rewrite Forall_forall in *. intros k Hk. apply IH; auto.
      intros x Hxk. apply Hx. simpl.
      apply list_elem_of_further, list_elem_of_further. eapply in_kids; eauto.
Qed.

Lemma sits_live mm : forall l q x,
  sits mm q l -> x ∈ footprint l -> exists blk, heap mm !! x = Some (Some blk).
Proof.
  induction l as [a|a b|a|a b kids IH] using layout_induction; intros q x Hs Hx;
    simpl in Hx.
  - inversion Hs; subst. apply list_elem_of_singleton in Hx as ->. eauto.
  - inversion Hs; subst. apply elem_of_cons in Hx as [->|Hx]; [eauto|].
    apply list_elem_of_singleton in Hx as ->. eauto.
  - inversion Hs; subst. apply list_elem_of_singleton in Hx as ->. eauto.
  - inversion Hs as [| | |? ? ? v blk ps ? Hv Hp Hc Hl Hlt Hu Hb Hsl Htk Hkids]; subst.
    apply elem_of_cons in Hx as [->|Hx]; [eauto|].
    apply elem_of_cons in Hx as [->|Hx]; [eauto|].
    clear -IH Hx Hkids. induction kids as [|k kids IHk]; [inversion Hx|].
    simpl in Hx. apply elem_of_app in Hx.
    inversion IH as [|? ? Hk Hks]; subst. inversion Hkids as [|? ? Sk Sks]; subst.
    destruct Hx as [Hx|Hx]; eauto.
Qed.

(** ** The walk *)

Lemma NoDup_bound (l : list nat) (n : nat) :
  NoDup l -> (forall x, x ∈ l -> (x < n)%nat) -> (length l <= n)%nat.
Proof.
  intros Hnd Hlt. assert (H : (length l <= length (seq 0%nat n))%nat).
  { apply submseteq_length. apply NoDup_submseteq; auto.
    intros x Hx. apply elem_of_seq. specialize (Hlt x Hx). lia. }
  rewrite length_seq in H. exact H.
Qed.

Lemma turns_bound : forall l, (turns l <= 2 * length (footprint l) - 1)%nat.
Proof.
  induction l as [a|a b|a|a b kids IH] using layout_induction; simpl; try lia.
  assert (H : (list_sum (map (fun k => S (turns k)) kids)
               <= 2 * length (concat (map footprint kids)))%nat).
  { induction kids as [|k kids IHk]; simpl; [lia|].
    inversion IH as [|? ? Hk Hks]; subst. specialize (IHk Hks).
    rewrite length_app.
    assert (1 <= length (footprint k))%nat by (destruct k; simpl; lia). lia. }
  lia.
Qed.

Section Walk.

Variable st : settings.
Variable f : free_fn.
Hypothesis Hfree : mem_free st = Some f.

Lemma free_block mm a blk :
  heap mm !! a = Some (Some blk) ->
  exists mm', settings_mem_free st mm (Pblk a 0) = Some mm' /\ released [a] mm mm'.
Proof.
  intros Ha. unfold settings_mem_free. rewrite Hfree. unfold call_mem_free. rewrite Ha.
  simpl. eexists. split; [reflexivity|]. unfold released. simpl. split_all; auto.
  - apply length_insert.
  - intros x Hx. apply list_elem_of_singleton in Hx as ->. apply list_lookup_insert_eq.
    eapply lookup_lt_Some; eauto.
  - intros x Hx. apply list_lookup_insert_ne. intros ->. apply Hx, list_elem_of_here.
Qed.

Lemma free_null mm :
  exists mm', settings_mem_free st mm nullptr = Some mm' /\ released [] mm mm'.
Proof.
  unfold settings_mem_free. rewrite Hfree. simpl. eexists. split; [reflexivity|].
  unfold released. simpl. split_all; auto. intros x Hx. inversion Hx.
Qed.

Lemma loop_leaf mm a v :
  shell mm a v -> is_scalar (type v) = true ->
  exists mm',
    (forall fuel, value_free_loop (S fuel) st mm (Pblk a 0)
                  = value_free_loop fuel st mm' (parent v))
    /\ released [a] mm mm'.
Proof.
  intros Hv Hs. destruct (free_block mm a _ Hv) as (mm' & Hf & Hr).
  exists mm'. split; [|exact Hr]. intros fuel.
  cbn [value_free_loop is_null]. rewrite (load_value_at _ _ _ Hv).
  cbn [result_of result_bind].
  destruct (type v); try discriminate; rewrite Hf; reflexivity.
Qed.

Lemma loop_empty mm a v :
  shell mm a v -> is_container (type v) = true -> u_length v = 0 ->
  u_values v = nullptr ->
  exists mm',
    (forall fuel, value_free_loop (S fuel) st mm (Pblk a 0)
                  = value_free_loop fuel st mm' (parent v))
    /\ released [a] mm mm'.
Proof.
  intros Hv Hc Hl Hu. destruct (free_null mm) as (mm0 & Hf0 & Hr0).
  assert (Hv0 : heap mm0 !! a = Some (Some (Bvalue v))).
  { destruct Hr0 as (_ & _ & K & _). rewrite K; [exact Hv|]. intros H. inversion H. }
  destruct (free_block mm0 a _ Hv0) as (mm' & Hf & Hr).
  exists mm'. split.
  - intros fuel. cbn [value_free_loop is_null]. rewrite (load_value_at _ _ _ Hv).
    cbn [result_of result_bind].
    destruct (type v); try discriminate; rewrite Hl, Hu; cbn [Z.eqb]; rewrite Hf0;
      cbn [result_of result_bind]; rewrite Hf; reflexivity.
  - apply (released_trans [] [a] [a] mm mm0 mm'); auto.
    intros x. split; auto. intros [H|H]; [inversion H|exact H].
Qed.

Lemma loop_buffer mm a b v blk :
  shell mm a v ->
  type v = json_string \/ (is_container (type v) = true /\ u_length v = 0) ->
  u_values v = Pblk b 0 -> heap mm !! b = Some (Some blk) -> a <> b ->
  exists mm',
    (forall fuel, value_free_loop (S fuel) st mm (Pblk a 0)
                  = value_free_loop fuel st mm' (parent v))
    /\ released [a; b] mm mm'.
Proof.
  intros Hv Hty Hu Hb Hab. destruct (free_block mm b _ Hb) as (mm0 & Hf0 & Hr0).
  assert (Hv0 : heap mm0 !! a = Some (Some (Bvalue v))).
  { destruct Hr0 as (_ & _ & K & _). rewrite K; [exact Hv|].
    intros H. apply list_elem_of_singleton in H. contradiction. }
  destruct (free_block mm0 a _ Hv0) as (mm' & Hf & Hr).
  exists mm'. split.
  - intros fuel. cbn [value_free_loop is_null]. rewrite (load_value_at _ _ _ Hv).
    cbn [result_of result_bind].
    destruct Hty as [Hty|[Hc Hl]].
    + rewrite Hty, Hu, Hf0. cbn [result_of result_bind]. rewrite Hf. reflexivity.
    + destruct (type v); try discriminate; rewrite Hl, Hu; cbn [Z.eqb]; rewrite Hf0;
        cbn [result_of result_bind]; rewrite Hf; reflexivity.
  - apply (released_trans [b] [a] [a; b] mm mm0 mm'); auto.
    intros x. rewrite !elem_of_cons, !elem_of_nil. tauto.
Qed.

Lemma loop_descend mm a b v blk ps j child :
  shell mm a v -> is_container (type v) = true -> u_length v = Z.of_nat (S j) ->
  u_length v < 2 ^ 32 -> u_values v = Pblk b 0 -> a <> b ->
  heap mm !! b = Some (Some blk) -> slots (type v) blk = Some ps ->
  ps !! j = Some child ->
  forall fuel,
    value_free_loop (S fuel) st mm (Pblk a 0)
    = value_free_loop fuel st (store mm a (Bvalue (set_length (Z.of_nat j) v))) child.
Proof.
  intros Hv Hc Hl Hlt Hu Hab Hb Hs Hj fuel.
  cbn [value_free_loop is_null]. rewrite (load_value_at _ _ _ Hv).
  cbn [result_of result_bind].
  assert (Hn : wrap_u32 (u_length v - 1) = Z.of_nat j).
  { unfold wrap_u32. rewrite Z.mod_small; lia. }
  assert (Hz : (u_length v =? 0) = false) by (apply Z.eqb_neq; lia).
  assert (Hup : update_value mm (Pblk a 0) (set_length (Z.of_nat j))
                = Some (store mm a (Bvalue (set_length (Z.of_nat j) v)))).
  { apply update_value_shell. eauto. }
  assert (Hb1 : load (store mm a (Bvalue (set_length (Z.of_nat j) v))) (Pblk b 0)
                = Some blk).
  { apply load_block. unfold store. simpl. rewrite list_lookup_insert_ne by exact Hab.
    exact Hb. }
  assert (Hidx : Z_index (Z.of_nat j) = Some j).
  { unfold Z_index. replace (Z.of_nat j <? 0) with false by (symmetry; apply Z.ltb_ge; lia).
    rewrite Nat2Z.id. reflexivity. }
  destruct (type v) eqn:Ety; try discriminate; destruct blk; try discriminate;
    injection Hs as <-; rewrite Hz; cbv zeta; rewrite Hn, Hup; cbn [result_of result_bind];
    rewrite Hu.
  - unfold load_entry. rewrite Hb1. unfold read_at. rewrite Hidx.
    rewrite list_lookup_fmap in Hj. destruct (entries !! j) as [e|]; [|discriminate].
    simpl in Hj. injection Hj as <-. reflexivity.
  - unfold load_cell. rewrite Hb1. unfold read_at. rewrite Hidx, Hj. reflexivity.
Qed.

Lemma walk_node a b q : forall ks,
  Forall (fun k => forall q mm, sits mm q k -> NoDup (footprint k) ->
                               exists mm', walked st k q mm mm') ks ->
  forall mm v blk ps,
  shell mm a v -> parent v = q -> is_container (type v) = true ->
  u_length v = Z.of_nat (length ks) -> u_length v < 2 ^ 32 ->
  u_values v = Pblk b 0 -> heap mm !! b = Some (Some blk) ->
  slots (type v) blk = Some ps -> take (length ks) ps = ptr_of <$> ks ->
  Forall (sits mm (Pblk a 0)) ks ->
  NoDup (a :: b :: concat (map footprint ks)) ->
  exists mm', walked st (Lnode a b ks) q mm mm'.
Proof.
  induction ks as [|kid ks IHks] using rev_ind;
    intros IH mm v blk ps Hv Hp Hc Hl Hlt Hu Hb Hs Ht Hk Hnd.
  - assert (Hab : a <> b).
    { apply NoDup_cons in Hnd as [Hnd _]. intros ->. apply Hnd, list_elem_of_here. }
    destruct (loop_buffer mm a b v blk Hv (or_intror (conj Hc Hl)) Hu Hb Hab)
      as (mm' & Hloop & Hrel).
    exists mm'. split; [|exact Hrel]. intros k.
    change (turns (Lnode a b []) + k)%nat with (S k). rewrite Hloop, Hp. reflexivity.
  - rewrite length_app in Hl, Ht. simpl in Hl, Ht.
    replace (length ks + 1)%nat with (S (length ks)) in Hl, Ht by lia.
    rewrite fmap_app in Ht. change (ptr_of <$> [kid]) with [ptr_of kid] in Ht.
    apply Forall_app in IH as [IHall IHkid]. apply Forall_app in Hk as [Hks Hkid].
    inversion IHkid as [|? ? IHk _]; subst. inversion Hkid as [|? ? Hsk _]; subst.
    rewrite footprint_snoc in Hnd.
    apply NoDup_cons in Hnd as [Ha Hnd]. apply NoDup_cons in Hnd as [Hb' Hnd].
    apply NoDup_app in Hnd as (HndC & Hdisj & HndK).
    assert (Hab : a <> b) by (intros ->; apply Ha, list_elem_of_here).
    assert (HaK : a ∉ footprint kid).
    { intros H. apply Ha. apply list_elem_of_further, elem_of_app. auto. }
    assert (HbK : b ∉ footprint kid).
    { intros H. apply Hb'. apply elem_of_app. auto. }
    assert (Hchild : ps !! length ks = Some (ptr_of kid)).
    { rewrite <- (lookup_take_lt ps (S (length ks))) by lia. rewrite Ht.
      apply list_lookup_middle. rewrite length_fmap. reflexivity. }
    set (v1 := set_length (Z.of_nat (length ks)) v).
    set (mm1 := store mm a (Bvalue v1)).
    pose proof (loop_descend mm a b v blk ps (length ks) (ptr_of kid)
                  Hv Hc Hl Hlt Hu Hab Hb Hs Hchild) as Hdesc.
    fold v1 mm1 in Hdesc.
    pose proof (within_store mm a (Bvalue v1)) as (W1 & W2 & W3). fold mm1 in W1, W2, W3.
    assert (Hnota : forall x, x <> a -> x ∉ [a]).
    { intros x Hx H. apply list_elem_of_singleton in H. contradiction. }
    assert (Hsk1 : sits mm1 (Pblk a 0) kid).
    { apply (sits_frame mm); auto. intros x Hx. apply W2, Hnota. intros ->. auto. }
    destruct (IHk (Pblk a 0) mm1 Hsk1 HndK) as (mm2 & Hwalk2 & Hrel2).
    pose proof Hrel2 as (R1 & R2 & R3 & R4).
    assert (Hv2 : shell mm2 a v1).
    { unfold shell. rewrite R3 by exact HaK. unfold mm1, store. simpl.
      apply list_lookup_insert_eq. eapply lookup_lt_Some; eauto. }
    assert (Hb2 : heap mm2 !! b = Some (Some blk)).
    { rewrite R3 by exact HbK. rewrite W2 by (apply Hnota; auto). exact Hb. }
    assert (Hks2 : Forall (sits mm2 (Pblk a 0)) ks).
    { rewrite Forall_forall in *. intros k Hkin. apply (sits_frame mm); auto.
      intros x Hx. assert (HxC : x ∈ concat (map footprint ks)) by (eapply in_kids; eauto).
      rewrite R3 by (apply Hdisj; exact HxC). apply W2, Hnota. intros ->.
      apply Ha. apply list_elem_of_further, elem_of_app. auto. }
    assert (Ht2 : take (length ks) ps = ptr_of <$> ks).
    { replace (take (length ks) ps) with (take (length ks) (take (S (length ks)) ps))
        by (rewrite take_take; f_equal; lia).
      rewrite Ht. apply take_app_length'. rewrite length_fmap. reflexivity. }
    destruct (IHks IHall mm2 v1 blk ps Hv2 eq_refl Hc eq_refl ltac:(simpl; lia) Hu Hb2 Hs Ht2 Hks2)
      as (mm3 & Hwalk3 & Hrel3).
    { apply NoDup_cons. split; [|apply NoDup_cons; split; auto].
      - intros H. apply Ha. apply elem_of_cons in H as [->|H]; [apply list_elem_of_here|].
        apply list_elem_of_further, elem_of_app. auto.
      - intros H. apply Hb', elem_of_app. auto. }
    exists mm3. split.
    + intros k.
      assert (Hturns : (turns (Lnode a b (ks ++ [kid])) + k
                        = S (turns kid + (turns (Lnode a b ks) + k)))%nat).
      { cbn [turns]. rewrite map_app, list_sum_app. simpl. lia. }
      rewrite Hturns. change (ptr_of (Lnode a b (ks ++ [kid]))) with (Pblk a 0).
      rewrite Hdesc, Hwalk2. apply Hwalk3.
    + simpl footprint. rewrite footprint_snoc.
      apply (within_released [a] _ mm mm1 mm3); [exact (conj W1 (conj W2 W3))| |].
      * apply (released_trans (footprint kid) (a :: b :: concat (map footprint ks)) _
                 mm1 mm2 mm3); auto.
        intros x. rewrite !elem_of_cons, !elem_of_app. tauto.
      * intros x Hx. apply list_elem_of_singleton in Hx as ->. apply list_elem_of_here.
Qed.

Lemma walk : forall l q mm,
  sits mm q l -> NoDup (footprint l) -> exists mm', walked st l q mm mm'.
Proof.
  induction l as [a|a b|a|a b kids IH] using layout_induction; intros q mm Hs Hnd.
  - inversion Hs as [? ? v Hv Hp Hsc| | |]; subst.
    destruct (loop_leaf mm a v Hv Hsc) as (mm' & Hloop & Hrel).
    exists mm'. split; [|exact Hrel]. intros k. apply Hloop.
  - inversion Hs as [|? ? ? v blk Hv Hp Hty Hu Hb| |]; subst.
    assert (Hab : a <> b).
    { apply NoDup_cons in Hnd as [Hnd _]. intros ->. apply Hnd, list_elem_of_here. }
    destruct (loop_buffer mm a b v blk Hv (or_introl Hty) Hu Hb Hab) as (mm' & Hloop & Hrel).
    exists mm'. split; [|exact Hrel]. intros k. apply Hloop.
  - inversion Hs as [| |? ? v Hv Hp Hc Hl Hu|]; subst.
    destruct (loop_empty mm a v Hv Hc Hl Hu) as (mm' & Hloop & Hrel).
    exists mm'. split; [|exact Hrel]. intros k. apply Hloop.
  - inversion Hs as [| | |? ? ? v blk ps ? Hv Hp Hc Hl Hlt Hu Hb Hsl Htk Hkids]; subst.
    eapply walk_node; eauto.
Qed.

End Walk.

Lemma addr_in_footprint l : addr_of l ∈ footprint l.
Proof. destruct l; simpl; apply list_elem_of_here. Qed.

Lemma sits_root mm q l : sits mm q l -> exists v, shell mm (addr_of l) v.
Proof. intros H. inversion H; subst; simpl; eauto. Qed.

(** The first statement of [json::value_free]: [value->parent = nullptr]. *)
Lemma sits_reparent mm l q q' v :
  sits mm q l -> NoDup (footprint l) -> shell mm (addr_of l) v ->
  sits (store mm (addr_of l) (Bvalue (set_parent q' v))) q' l.
Proof.
  intros Hs Hnd Hv. set (mm0 := store mm (addr_of l) (Bvalue (set_parent q' v))).
  assert (Hroot : shell mm0 (addr_of l) (set_parent q' v)).
  { apply shell_store_eq; [eapply shell_lt; eauto|reflexivity]. }
  assert (Hother : forall x, x <> addr_of l -> heap mm0 !! x = heap mm !! x).
  { intros x Hx. unfold mm0, store. simpl. apply list_lookup_insert_ne. auto. }
  destruct l as [a|a b|a|a b kids]; simpl in *.
  - inversion Hs as [? ? v0 Hv0 Hp Hsc| | |]; subst.
    rewrite (shell_inj _ _ _ _ Hv0 Hv) in *. eapply sits_scalar; eauto.
  - inversion Hs as [|? ? ? v0 blk Hv0 Hp Hty Hu Hb| |]; subst.
    rewrite (shell_inj _ _ _ _ Hv0 Hv) in *.
    eapply (sits_string _ _ _ _ _ blk); eauto. rewrite Hother; auto.
    intros ->. apply NoDup_cons in Hnd as [Hnd _]. apply Hnd, list_elem_of_here.
  - inversion Hs as [| |? ? v0 Hv0 Hp Hc Hl Hu|]; subst.
    rewrite (shell_inj _ _ _ _ Hv0 Hv) in *. eapply sits_empty; eauto.
  - inversion Hs as [| | |? ? ? v0 blk ps ? Hv0 Hp Hc Hl Hlt Hu Hb Hsl Htk Hkids]; subst.
    rewrite (shell_inj _ _ _ _ Hv0 Hv) in *.
    apply NoDup_cons in Hnd as [Ha Hnd].
    eapply (sits_node _ _ _ _ _ blk ps); eauto.
    + rewrite Hother; auto. intros ->. apply Ha, list_elem_of_here.
    + rewrite Forall_forall in *. intros k Hk. apply (sits_frame mm); auto.
      intros x Hx. apply Hother. intros ->. apply Ha.
      apply list_elem_of_further. eapply in_kids; eauto.
Qed.

Lemma value_free_tree st mm l q :
  mem_free st <> None -> sits mm q l -> NoDup (footprint l) ->
  exists mm', value_free st mm (ptr_of l) = Ok mm' /\ released (footprint l) mm mm'.
Proof.
  intros Hf Hs Hnd. destruct (mem_free st) as [f|] eqn:Ef; [|congruence].
  destruct (sits_root _ _ _ Hs) as [v Hv].
  unfold value_free, ptr_of. cbn [is_null].
  rewrite (proj2 (update_value_shell mm (Pblk (addr_of l) 0) (set_parent nullptr) _)
             (ex_intro _ _ (ex_intro _ v (conj eq_refl (conj Hv eq_refl))))).
  cbn [result_of result_bind].
  set (mm0 := store mm (addr_of l) (Bvalue (set_parent nullptr v))).
  pose proof (sits_reparent mm l q nullptr v Hs Hnd Hv) as Hs0. fold mm0 in Hs0.
  destruct (walk st f Ef l nullptr mm0 Hs0 Hnd) as (mm' & Hw & Hr).
  exists mm'. split.
  - assert (Hlen : (length (footprint l) <= length (heap mm0))%nat).
    { apply NoDup_bound; auto. intros x Hx.
      destruct (sits_live _ _ _ _ Hs0 Hx) as [blk Hblk].
      eapply lookup_lt_Some; eauto. }
    pose proof (turns_bound l) as Ht.
    replace (2 * length (heap mm0) + 2)%nat
      with (turns l + S (2 * length (heap mm0) + 1 - turns l))%nat by lia.
    rewrite Hw. reflexivity.
  - apply (within_released [addr_of l] _ mm mm0 mm'); auto.
    + apply within_store.
    + intros x Hx. apply list_elem_of_singleton in Hx as ->. apply addr_in_footprint.
Qed.

Lemma released_all fp mm mm' :
  released fp mm mm' -> (forall a, (a < length (heap mm))%nat -> a ∈ fp) ->
  live_blocks mm' = 0%nat.
Proof.
  intros (L & R & _ & _) Hall. apply released_live. intros a Ha. apply R, Hall. lia.
Qed.


(** * The ceiling on memory is kept *)

Lemma update_value_log mm p f mm' :
  update_value mm p f = Some mm' -> alloc_log mm' = alloc_log mm.
Proof. intros H. apply update_value_shell in H as (a & v & _ & _ & ->). reflexivity. Qed.

Lemma store_char_log mm s i c mm' :
  store_char mm s i c = Some mm' -> alloc_log mm' = alloc_log mm.
Proof.
  unfold store_char. destruct s as [|a off]; [discriminate|].
  destruct (mjoin (heap mm !! a)) as [[| | |]|]; try discriminate.
  - destruct (write_at _ _ _); [|discriminate]. intros [= <-]. reflexivity.
  - destruct (write_at _ _ _); [|discriminate]. intros [= <-]. reflexivity.
Qed.

Lemma store_cell_log mm p i c mm' :
  store_cell mm p i c = Some mm' -> alloc_log mm' = alloc_log mm.
Proof.
  unfold store_cell. destruct p as [|a off]; [discriminate|].
  destruct (load mm (Pblk a off)) as [[| | |]|]; try discriminate.
  destruct (write_at _ _ _); [|discriminate]. intros [= <-]. reflexivity.
Qed.

Lemma update_entry_log mm p i f mm' :
  update_entry mm p i f = Some mm' -> alloc_log mm' = alloc_log mm.
Proof.
  unfold update_entry. destruct p as [|a off]; [discriminate|].
  destruct (load mm (Pblk a off)) as [[| | |]|]; try discriminate.
  destruct (read_at _ _); [|discriminate].
  destruct (write_at _ _ _); [|discriminate]. intros [= <-]. reflexivity.
Qed.

Lemma mem_free_log st mm p mm' :
  settings_mem_free st mm p = Some mm' -> alloc_log mm' = alloc_log mm.
Proof.
  unfold settings_mem_free. destruct (mem_free st); [|discriminate].
  unfold call_mem_free. destruct p as [z|a off].
  - destruct z; try discriminate. intros [= <-]. reflexivity.
  - destruct off; try discriminate. destruct (mjoin (heap mm !! a)); [|discriminate].
    intros [= <-]. reflexivity.
Qed.

Lemma same_quota_refl m : same_quota m m.
Proof. split; reflexivity. Qed.

Lemma same_quota_trans m1 m2 m3 : same_quota m1 m2 -> same_quota m2 m3 -> same_quota m1 m3.
Proof. intros [A B] [C D]. split; congruence. Qed.

Lemma quota_same cfg base m m' :
  within_quota cfg base m -> same_quota m m' -> within_quota cfg base m'.
Proof. unfold within_quota. intros H [-> ->]. exact H. Qed.

Lemma store_chars_quota cs : forall m m', store_chars m cs = Some m' -> same_quota m m'.
Proof.
  induction cs as [|c cs IH]; intros m m' H; simpl in H.
  - injection H as <-. split; reflexivity.
  - destruct (store_char (mem m) (string_ m) (string_length m) c) as [mm|] eqn:E;
      simpl in H; [|discriminate].
    apply IH in H. apply store_char_log in E. destruct H as [A B]. simpl in *.
    split; congruence.
Qed.

Lemma STRING_ADD_quota m b m' : STRING_ADD m b = Some m' -> same_quota m m'.
Proof.
  unfold STRING_ADD. destruct (first_pass m =? 0); simpl.
  - destruct (store_char (mem m) (string_ m) (string_length m) b) eqn:E; simpl;
      [|discriminate].
    intros H. injection H as <-. apply store_char_log in E. split; simpl; auto.
  - intros H. injection H as <-. split; reflexivity.
Qed.

Lemma add_utf8_quota m cs m' : add_utf8 m cs = Some m' -> same_quota m m'.
Proof.
  unfold add_utf8. destruct (first_pass m =? 0).
  - apply store_chars_quota.
  - intros H. injection H as <-. split; reflexivity.
Qed.

Lemma encode_utf8_quota m u m' : encode_utf8 m u = Some m' -> same_quota m m'.
Proof.
  unfold encode_utf8.
  destruct (u <=? 127); [apply STRING_ADD_quota|].
  destruct (u <=? 2047); [apply add_utf8_quota|].
  destruct (u <=? 65535); apply add_utf8_quota.
Qed.

Lemma surrogate_quota json m u u' m' :
  surrogate json m u = Some (Some (u', m')) -> same_quota m m'.
Proof.
  unfold surrogate. destruct (Z.land u 63488 =? 55296).
  - destruct (end_ json - ptr m <=? 6); [discriminate|].
    destruct (deref json (ptr m + 1)) as [c1|]; simpl; [|discriminate].
    destruct (negb (c1 =? chr "\")); [discriminate|].
    destruct (deref json (ptr m + 2)) as [c2|]; simpl; [|discriminate].
    destruct (negb (c2 =? chr "u")); [discriminate|].
    destruct (read_hex4 json (ptr m + 2)) as [[h|]|]; simpl; try discriminate.
    intros H. injection H as _ <-. split; reflexivity.
  - intros H. injection H as _ <-. split; reflexivity.
Qed.

Lemma WHITESPACE_quota b m m' : WHITESPACE b m = Some m' -> same_quota m m'.
Proof.
  unfold WHITESPACE. destruct (b =? chr "010").
  - intros H. injection H as <-. split; reflexivity.
  - destruct ((b =? chr " ") || (b =? chr "009") || (b =? chr "013")); [|discriminate].
    intros H. injection H as <-. split; reflexivity.
Qed.

Section Quota.

Variable pow : float -> float -> float.
Variable cfg : settings.
Variable json : list Z.
Variable base : Z.
Hypothesis Hceiling : 0 < max_memory cfg.

Lemma json_alloc_quota m size zero shape p m' :
  within_quota cfg base m -> 0 <= size ->
  json_alloc cfg m size zero shape = Some (p, m') -> within_quota cfg base m'.
Proof.
  intros [[H0 H1] H2] Hsize. unfold json_alloc.
  destruct (Z.ltb_spec (ulong_max - used_memory m) size) as [|Hfit].
  { intros [= <- <-]. split; auto. }
  replace (max_memory cfg =? 0) with false by (symmetry; apply Z.eqb_neq; lia).
  cbn [negb andb]. cbv zeta. msimpl.
  assert (Hw : wrap_u64 (used_memory m + size) = used_memory m + size).
  { apply wrap_u64_small. unfold ulong_max in Hfit. lia. }
  rewrite Hw.
  destruct (Z.gtb_spec (used_memory m + size) (max_memory cfg)) as [|Hmax].
  { intros [= <- <-]. unfold within_quota. msimpl. lia. }
  destruct (mem_alloc cfg) as [f|]; [|discriminate].
  unfold call_mem_alloc.
  destruct (alloc_grants f (alloc_log (mem m)) size zero (user_data cfg));
    intros [= <- <-]; unfold within_quota; msimpl; simpl; lia.
Qed.

Lemma wrap_u64_pos z : 0 <= wrap_u64 z.
Proof. unfold wrap_u64. apply Z.mod_pos_bound. lia. Qed.

Lemma new_value_quota m ty ok m' :
  within_quota cfg base m -> new_value cfg m ty = Some (ok, m') -> within_quota cfg base m'.
Proof.
  intros Hq. unfold new_value. destruct (first_pass m =? 0).
  - destruct (load_value (mem m) (alloc m)) as [v|]; simpl; [|discriminate].
    msimpl.
    match goal with
    | |- context [if is_null (root m) then ?a else ?b] =>
        set (m0 := if is_null (root m) then a else b)
    end.
    assert (H0 : within_quota cfg base m0).
    { apply (quota_same cfg base m); auto. unfold m0.
      destruct (is_null (root m)); split; reflexivity. }
    clearbody m0.
    assert (Hpay : forall size shape (f : pointer -> json_value -> json_value),
      ('(p, m1) ← json_alloc cfg m0 (wrap_u64 size) false shape;
       mm ← update_value (mem m1) (alloc m) (set_values p);
       if is_null p then Some (false, set_mem mm m1)
       else mm0 ← update_value mm (alloc m) (f p); Some (true, set_mem mm0 m1))
      = Some (ok, m') -> within_quota cfg base m').
    { intros size shape f H.
      destruct (json_alloc cfg m0 (wrap_u64 size) false shape) as [[p m1]|] eqn:Ea;
        simpl in H; [|discriminate].
      apply json_alloc_quota in Ea; auto using wrap_u64_pos.
      destruct (update_value (mem m1) (alloc m) (set_values p)) as [mm|] eqn:E1;
        simpl in H; [|discriminate].
      apply update_value_log in E1.
      destruct (is_null p).
      - injection H as _ <-. apply (quota_same cfg base m1); auto. split; simpl; auto.
      - destruct (update_value mm (alloc m) (f p)) as [mm2|] eqn:E2; simpl in H;
          [|discriminate].
        apply update_value_log in E2.
        injection H as _ <-. apply (quota_same cfg base m1); auto.
        split; simpl; congruence. }
    destruct (type v).
    + intros H. injection H as _ <-. exact H0.
    + destruct (u_length v =? 0).
      * intros H. injection H as _ <-. exact H0.
      * destruct (u_values v) as [names|]; [|discriminate]. cbv zeta.
        apply (Hpay _ _ (fun p v => set_length 0 (set_reserved (ptr_add p _) v))).
    + destruct (u_length v =? 0).
      * intros H. injection H as _ <-. exact H0.
      * apply (Hpay _ _ (fun _ => set_length 0)).
    + intros H. injection H as _ <-. exact H0.
    + intros H. injection H as _ <-. exact H0.
    + apply (Hpay _ _ (fun _ => set_length 0)).
    + intros H. injection H as _ <-. exact H0.
    + intros H. injection H as _ <-. exact H0.
  - destruct (json_alloc cfg m _ true (Bvalue zeroed_value)) as [[value m1]|] eqn:Ea;
      simpl; [|discriminate].
    apply json_alloc_quota in Ea; [|exact Hq|apply wrap_u64_pos]. destruct (is_null value).
    + intros H. injection H as _ <-. exact Ea.
    + match goal with |- context [update_value (mem ?x) value ?f] =>
        destruct (update_value (mem x) value f) as [mm|] eqn:E1 end; simpl; [|discriminate].
      apply update_value_log in E1.
      match goal with |- context [mbind _ ?o] => destruct o as [mm'|] eqn:E2 end; simpl;
        [|discriminate].
      intros H. injection H as _ <-. apply (quota_same cfg base m1); auto.
      split; [simpl; destruct (is_null (root m1)); reflexivity|]. simpl.
      destruct (is_null (alloc _)).
      * injection E2 as <-. rewrite E1. destruct (is_null (root m1)); reflexivity.
      * apply update_value_log in E2. rewrite E2, E1.
        destruct (is_null (root m1)); reflexivity.
Qed.

Lemma and_then_quota f k :
  flow_quota cfg base f -> (forall m, within_quota cfg base m -> flow_quota cfg base (k m)) ->
  flow_quota cfg base (and_then f k).
Proof. destruct f; simpl; auto. Qed.

Ltac quota_facts :=
  repeat match goal with
    | H : STRING_ADD _ _ = Some _ |- _ => apply STRING_ADD_quota in H
    | H : encode_utf8 _ _ = Some _ |- _ => apply encode_utf8_quota in H
    | H : surrogate _ _ _ = Some (Some _) |- _ => apply surrogate_quota in H
    | H : WHITESPACE _ _ = Some _ |- _ => apply WHITESPACE_quota in H
    | H : update_value _ _ _ = Some _ |- _ => apply update_value_log in H
    | H : store_char _ _ _ _ = Some _ |- _ => apply store_char_log in H
    | H : store_cell _ _ _ _ = Some _ |- _ => apply store_cell_log in H
    | H : update_entry _ _ _ _ = Some _ |- _ => apply update_entry_log in H
    | H : (if ?c then _ else _) = Some _ |- _ => destruct c
    | H : match ?x with _ => _ end = Some _ |- _ => destruct x eqn:?; try discriminate H
    | H : mbind _ ?o = Some _ |- _ => destruct o eqn:?; simpl in H; [|discriminate H]
    | H : Some _ = Some _ |- _ => injection H as <-
    | H : same_quota _ _ |- _ => destruct H as [? ?]
    end.

Ltac quota_solve :=
  msimpl;
  repeat match goal with |- context [if ?c then _ else _] => destruct c end; msimpl;
  match goal with
  | H : within_quota _ _ ?m |- within_quota _ _ ?x =>
      apply (quota_same _ _ m x H); unfold same_quota; msimpl; split; congruence
  end.

Ltac quota_done :=
  quota_facts; cbn [and_then];
  unfold flow_quota, e_unknown_value, e_alloc_failure, e_overflow, invalid_character_value;
  first [exact I | quota_solve].

Ltac quota_branch :=
  repeat first
    [ progress cbv zeta
    | progress cbn [defined and_then]
    | match goal with
      | |- context [if ?c then ?a else _] =>
          lazymatch type of a with machine => destruct c eqn:? end
      | |- flow_quota _ _ (and_then (and_then _ _) _) => rewrite and_then_assoc
      | |- flow_quota _ _ (defined ?o _) => destruct o eqn:?; cbn [defined]; [|exact I]
      | |- flow_quota _ _ (and_then (defined ?o _) _) =>
          destruct o eqn:?; cbn [defined and_then]; [|exact I]
      | |- flow_quota _ _ (and_then (if ?c then _ else _) _) => destruct c eqn:?
      | |- flow_quota _ _ (and_then (match ?x with _ => _ end) _) => destruct x eqn:?
      | |- flow_quota _ _ (if ?c then _ else _) => destruct c eqn:?
      | |- flow_quota _ _ (match ?x with _ => _ end) => destruct x eqn:?
      end ].

Lemma in_string_quota m b :
  within_quota cfg base m -> flow_quota cfg base (in_string json m b).
Proof.
  intros H. unfold in_string. quota_branch.
  - quota_done.
  - quota_done.
  - unfold escaped, escape_u. quota_branch; quota_done.
  - quota_done.
  - unfold close_string. quota_branch; quota_done.
  - quota_done.
Qed.

Lemma comments_quota m b :
  within_quota cfg base m -> flow_quota cfg base (comments json m b).
Proof. intros H. unfold comments. quota_branch; quota_done. Qed.

Lemma done_quota m b : within_quota cfg base m -> flow_quota cfg base (done_ m b).
Proof. intros H. unfold done_. quota_branch; quota_done. Qed.

Lemma next_quota m : within_quota cfg base m -> flow_quota cfg base (next m).
Proof. intros H. unfold next. quota_branch; quota_done. Qed.

Lemma with_new_value_quota m ty k :
  within_quota cfg base m ->
  (forall m', within_quota cfg base m' -> flow_quota cfg base (and_then (k m') next)) ->
  flow_quota cfg base (and_then (with_new_value cfg m ty k) next).
Proof.
  intros H Hk. unfold with_new_value.
  destruct (new_value cfg m ty) as [[ok m']|] eqn:E; cbn [defined fst snd]; [|exact I].
  apply new_value_quota in E; [|exact H]. destruct ok.
  - apply Hk. exact E.
  - exact E.
Qed.

Lemma start_keyword_quota m least cs ty k :
  within_quota cfg base m ->
  (forall m', within_quota cfg base m' -> flow_quota cfg base (and_then (k m') next)) ->
  flow_quota cfg base (and_then (start_keyword cfg json m least cs ty k) next).
Proof.
  intros H Hk. unfold start_keyword.
  destruct (end_ json - ptr m <? least); [exact H|].
  destruct (keyword json (ptr m) (bytes_of_string cs)) as [[p|]|]; cbn [defined];
    [|exact H|exact I].
  apply with_new_value_quota; auto.
Qed.

Ltac quota_next :=
  match goal with
  | |- flow_quota _ _ (next _) => apply next_quota; quota_facts; quota_solve
  | _ => quota_done
  end.

Lemma seek_value_quota m b :
  within_quota cfg base m -> flow_quota cfg base (and_then (seek_value cfg json m b) next).
Proof.
  intros H. unfold seek_value.
  destruct (WHITESPACE b m) as [m'|] eqn:Ew; [quota_done|].
  destruct (b =? chr "]").
  { quota_branch; try quota_done. apply next_quota. quota_solve. }
  destruct (has (flags m) flag_need_comma); [quota_branch; quota_done|].
  destruct (has (flags m) flag_need_colon); [quota_branch; quota_done|].
  cbv zeta.
  repeat match goal with
    | |- flow_quota _ _ (and_then (if ?c then _ else _) next) => destruct c
    end.
  - apply with_new_value_quota; [exact H|]. intros m' Hm'. quota_done.
  - apply with_new_value_quota; [exact H|]. intros m' Hm'. quota_done.
  - apply with_new_value_quota; [exact H|]. intros m' Hm'. cbn [and_then].
    destruct (load_value (mem m') (top m')); cbn [defined and_then]; [quota_done|exact I].
  - apply start_keyword_quota; [exact H|]. intros m' Hm'.
    destruct (update_value (mem m') (top m') (set_boolean true)) eqn:Eu;
      cbn [defined and_then]; [|exact I].
    quota_next.
  - apply start_keyword_quota; [exact H|]. intros m' Hm'. cbn [and_then]. quota_next.
  - apply start_keyword_quota; [exact H|]. intros m' Hm'. cbn [and_then]. quota_next.
  - unfold start_number. destruct (isdigit b || (b =? chr "-")); [|quota_done].
    apply with_new_value_quota; [exact H|]. intros m' Hm'.
    destruct (first_pass m' =? 0); cbv zeta.
    + cbn [and_then]. quota_next.
    + destruct (negb (b =? chr "-")); cbn [and_then]; quota_next.
Qed.

Lemma in_value_quota m b :
  within_quota cfg base m -> flow_quota cfg base (and_then (in_value pow m b) next).
Proof.
  intros H. unfold in_value.
  destruct (load_value (mem m) (top m)) as [t|]; cbn [defined]; [|exact I].
  destruct (type t); try (cbn [and_then]; apply next_quota; exact H).
  - unfold in_object. quota_branch; quota_next.
  - unfold in_number, finish_number. quota_branch; quota_next.
  - unfold in_number, finish_number. quota_branch; quota_next.
Qed.

Lemma iteration_quota m :
  within_quota cfg base m -> flow_quota cfg base (iteration pow cfg json m).
Proof.
  intros H. unfold iteration.
  destruct (if ptr m =? end_ json then Some 0 else deref json (ptr m)) as [b|];
    cbn [defined]; [|exact I].
  apply and_then_quota.
  { destruct (has (flags m) flag_string); [apply in_string_quota; exact H|exact H]. }
  intros m1 H1. apply and_then_quota.
  { destruct (allow_comments cfg); [apply comments_quota; exact H1|exact H1]. }
  intros m2 H2. apply and_then_quota.
  { destruct (has (flags m2) flag_done); [apply done_quota; exact H2|exact H2]. }
  intros m3 H3. destruct (has (flags m3) flag_seek_value).
  - apply seek_value_quota. exact H3.
  - apply in_value_quota. exact H3.
Qed.

Lemma pass_quota fuel : forall m,
  within_quota cfg base m ->
  match pass pow cfg json fuel m with
  | Pass_done m' | Pass_failed _ m' => within_quota cfg base m'
  | Pass_undefined | Pass_out_of_fuel => True
  end.
Proof.
  induction fuel as [|fuel IH]; intros m H; [exact I|].
  cbn [pass]. pose proof (iteration_quota m H) as Hi.
  destruct (iteration pow cfg json m); simpl in Hi; auto; apply IH; exact Hi.
Qed.

End Quota.

Lemma free_chain_log cfg fuel : forall mm a mm',
  free_chain cfg fuel mm a = Ok mm' -> alloc_log mm' = alloc_log mm.
Proof.
  induction fuel as [|fuel IH]; intros mm a mm' H; [discriminate|].
  cbn [free_chain] in H. destruct (is_null a); [injection H as <-; reflexivity|].
  destruct (load_value mm a) as [v|]; [|discriminate]. cbn [result_of result_bind] in H.
  destruct (settings_mem_free cfg mm a) as [mm1|] eqn:E; [|discriminate].
  cbn [result_of result_bind] in H. apply IH in H. apply mem_free_log in E. congruence.
Qed.

Lemma value_free_loop_log st fuel : forall mm p mm',
  value_free_loop fuel st mm p = Ok mm' -> alloc_log mm' = alloc_log mm.
Proof.
  induction fuel as [|fuel IH]; intros mm p mm' H; [discriminate|].
  cbn [value_free_loop] in H. destruct (is_null p); [injection H as <-; reflexivity|].
  destruct (load_value mm p) as [v|]; [|discriminate]. cbn [result_of result_bind] in H.
  assert (Hrel : forall mm0,
            result_bind (result_of (settings_mem_free st mm0 p))
              (fun mm1 => value_free_loop fuel st mm1 (parent v)) = Ok mm' ->
            alloc_log mm' = alloc_log mm0).
  { intros mm0 H0. destruct (settings_mem_free st mm0 p) as [mm1|] eqn:E; [|discriminate].
    cbn [result_of result_bind] in H0. apply IH in H0. apply mem_free_log in E. congruence. }
  assert (Hpay : forall q,
            result_bind (result_of (settings_mem_free st mm q))
              (fun mm0 => result_bind (result_of (settings_mem_free st mm0 p))
                 (fun mm1 => value_free_loop fuel st mm1 (parent v))) = Ok mm' ->
            alloc_log mm' = alloc_log mm).
  { intros q H0. destruct (settings_mem_free st mm q) as [mm0|] eqn:E; [|discriminate].
    cbn [result_of result_bind] in H0. apply Hrel in H0. apply mem_free_log in E.
    congruence. }
  destruct (type v); auto.
  - destruct (u_length v =? 0); [apply (Hpay _ H)|].
    destruct (update_value mm p _) as [mm1|] eqn:E1; [|discriminate].
    cbn [result_of result_bind] in H.
    destruct (load_entry mm1 _ _) as [e|]; [|discriminate].
    cbn [result_of result_bind] in H. apply IH in H. apply update_value_log in E1.
    congruence.
  - destruct (u_length v =? 0); [apply (Hpay _ H)|].
    destruct (update_value mm p _) as [mm1|] eqn:E1; [|discriminate].
    cbn [result_of result_bind] in H.
    destruct (load_cell mm1 _ _) as [c|]; [|discriminate].
    cbn [result_of result_bind] in H. apply IH in H. apply update_value_log in E1.
    congruence.
  - apply (Hpay _ H).
Qed.

Lemma value_free_log st mm p mm' :
  value_free st mm p = Ok mm' -> alloc_log mm' = alloc_log mm.
Proof.
  unfold value_free. destruct (is_null p); [intros [= <-]; reflexivity|].
  destruct (update_value mm p (set_parent nullptr)) as [mm0|] eqn:E; [|discriminate].
  cbn [result_of result_bind]. intros H. apply value_free_loop_log in H.
  apply update_value_log in E. congruence.
Qed.

Lemma e_failed_log cfg error_buf e m text mm' :
  e_failed cfg error_buf e m = No_tree text mm' -> alloc_log mm' = alloc_log (mem m).
Proof.
  unfold e_failed. cbv zeta.
  destruct (free_chain cfg _ (mem m) _) as [mm0| |] eqn:E; try discriminate.
  apply free_chain_log in E. destruct (first_pass m =? 0).
  - destruct (value_free cfg mm0 (root m)) as [mm1| |] eqn:E1; try discriminate.
    apply value_free_log in E1. intros [= _ <-]. congruence.
  - intros [= _ <-]. exact E.
Qed.

Lemma parse_quota pow mm st json error_buf :
  0 < max_memory st ->
  match parse_in pow mm st json error_buf with
  | Tree _ mm' | No_tree _ mm' =>
      requested (alloc_log mm') - requested (alloc_log mm) <= max_memory st
  | _ => True
  end.
Proof.
  intros Hmax. unfold parse_in, two_passes.
  set (cfg := state_settings st). set (j := skip_bom json).
  set (base := requested (alloc_log mm)).
  assert (Hc : 0 < max_memory cfg) by exact Hmax.
  assert (H0 : within_quota cfg base (start_pass 1 (initial mm))).
  { unfold within_quota, base. simpl. lia. }
  assert (Hfail : forall e0 m, within_quota cfg base m ->
            match e_failed cfg error_buf e0 m with
            | Tree _ mm' | No_tree _ mm' => requested (alloc_log mm') - base <= max_memory st
            | _ => True
            end).
  { intros e0 m [_ Hm]. destruct (e_failed cfg error_buf e0 m) as [r mm'|t mm'| |] eqn:E; auto.
    - unfold e_failed in E. cbv zeta in E.
      destruct (free_chain cfg _ (mem m) _); try discriminate.
      destruct (first_pass m =? 0); try discriminate.
      destruct (value_free cfg a (root m)); discriminate.
    - apply e_failed_log in E. rewrite E. exact Hm. }
  pose proof (pass_quota pow cfg j base Hc (pass_fuel j) _ H0) as H1.
  destruct (pass pow cfg j (pass_fuel j) (start_pass 1 (initial mm))) as [m1|e1 m1| |];
    [|apply Hfail; exact H1|exact I|exact I].
  assert (H1' : within_quota cfg base (start_pass 0 (set_alloc (root m1) m1))) by exact H1.
  pose proof (pass_quota pow cfg j base Hc (pass_fuel j) _ H1') as H2.
  destruct (pass pow cfg j (pass_fuel j) (start_pass 0 (set_alloc (root m1) m1)))
    as [m2|e2 m2| |]; [apply H2|apply Hfail; exact H2|exact I|exact I].
Qed.


(** * The length of a container is the number of its members *)

Lemma filter_insert_same {A} (f : A -> bool) (l : list A) : forall (a : nat) (x y : A),
  l !! a = Some x -> f y = f x ->
  length (List.filter f (<[a := y]> l)) = length (List.filter f l).
Proof.
  induction l as [|z l IH]; intros a x y Hl Hf; [discriminate|].
  destruct a as [|a]; simpl in *.
  - injection Hl as ->. rewrite Hf. destruct (f x); reflexivity.
  - destruct (f z); simpl; rewrite (IH a x y Hl Hf); reflexivity.
Qed.





Lemma children_other mm (a : addr) v v' p q :
  shell mm a v -> parent v = nullptr -> parent v' = Pblk p 0 -> q <> p ->
  children (store mm a (Bvalue v')) q = children mm q.
Proof.
  intros Hv Hn Hp Hq. unfold children, store. simpl. f_equal.
  apply (filter_insert_same _ _ _ (Some (Bvalue v))); [exact Hv|].
  simpl. rewrite Hn, Hp. simpl.
  destruct (Nat.eqb_spec p q); [congruence|reflexivity].
Qed.











Section Members.

Variable pow : float -> float -> float.
Variable cfg : settings.
Variable json : list Z.


























End Members.




(** * The passes of a parse: what a caller can rely on *)

(** X1: let a shell have room for a [json_value] ([shell_room]: the
    request for it, [sizeof(value) + value_extra] with [value] a pointer,
    is for 40 bytes at least), and let the counting pass have accepted a
    text without counting an object so large that [values_size], an [int],
    cannot hold the size of its entries ([objects_fit]).  Then the building
    pass over the same text never reads or writes outside a buffer or
    through a null pointer and always comes to its end within the same
    number of iterations; it either finishes, with the same root and
    [flag_done], or stops with "Memory allocation failure".  No other error
    can come from the building pass. *)
Theorem building_pass_safe (pow : float -> float -> float) (cfg : settings)
  (json : list Z) (mm : memory) (m1 : machine) :
  shell_room cfg -> mem_alloc cfg <> None -> heap mm = [] ->
  pass pow cfg json (pass_fuel json) (start_pass 1 (initial mm)) = Pass_done m1 ->
  objects_fit (mem m1) = true ->
  match pass pow cfg json (pass_fuel json) (start_pass 0 (set_alloc (root m1) m1)) with
  | Pass_done m2 => root m2 = root m1 /\ has (flags m2) flag_done = true
  | Pass_failed e _ => e = sprintf "Memory allocation failure" []
  | Pass_undefined | Pass_out_of_fuel => False
  end.
Proof.
  intros _ Hal Hh Hpass Hfit.
  pose proof (passes_in_step pow cfg json mm m1 Hal Hh Hpass Hfit) as H.
  pose proof (counting_inv_start cfg mm Hh) as Hi.
  destruct (pass_counting pow cfg json _ _ _ Hi Hpass) as (_ & Hd & _).
  destruct (pass pow cfg json (pass_fuel json) (start_pass 0 (set_alloc (root m1) m1)))
    as [m2|e m2| |]; simpl in H; auto.
  split; [apply H|]. rewrite (paired_flag _ _ _ flag_done H eq_refl). exact Hd.
Qed.

Lemma building_pass_safe_witness :
  match pass pow_whole roomy_settings sample_text (pass_fuel sample_text)
          (start_pass 0
             (set_alloc (root (counted pow_whole roomy_settings sample_text empty_memory))
                (counted pow_whole roomy_settings sample_text empty_memory))) with
  | Pass_done m2 =>
      root m2 = root (counted pow_whole roomy_settings sample_text empty_memory)
      /\ has (flags m2) flag_done = true
  | Pass_failed e _ => e = sprintf "Memory allocation failure" []
  | Pass_undefined | Pass_out_of_fuel => False
  end.
Proof.
  exact (building_pass_safe pow_whole roomy_settings sample_text empty_memory
           (counted pow_whole roomy_settings sample_text empty_memory)
           ltac:(vm_compute; discriminate) ltac:(discriminate) eq_refl
           ltac:(vm_compute; reflexivity) ltac:(vm_compute; reflexivity)).
Defined.

(** X2: under the same two conditions ([shell_room], [objects_fit]), when
    both passes have come to their end, every value of the tree has in the
    building pass exactly what the counting pass counted for it: the same
    parent and type, the same length, and a payload buffer of exactly the
    counted size.  A string has [length + 1] bytes, an array with members
    has [length] cells, an object with members has [length] entries
    followed by as many bytes for the names as the counting pass added up,
    and the cursor that hands out the room for the names has come to the
    end of these bytes. *)
Theorem building_pass_fills_exactly (pow : float -> float -> float) (cfg : settings)
  (json : list Z) (mm : memory) (m1 m2 : machine) (a : addr) (v1 : json_value) :
  shell_room cfg -> mem_alloc cfg <> None -> heap mm = [] ->
  pass pow cfg json (pass_fuel json) (start_pass 1 (initial mm)) = Pass_done m1 ->
  objects_fit (mem m1) = true ->
  pass pow cfg json (pass_fuel json) (start_pass 0 (set_alloc (root m1) m1)) = Pass_done m2 ->
  shell (mem m1) a v1 ->
  exists v2, shell (mem m2) a v2 /\ parent v2 = parent v1 /\ type v2 = type v1
             /\ buffer_ok (mem m2) v1 v2 v1.
Proof.
  intros _ Hal Hh Hpass Hfit Hpass2 Hv1.
  pose proof (passes_in_step pow cfg json mm m1 Hal Hh Hpass Hfit) as H.
  rewrite Hpass2 in H. simpl in H.
  destruct H as (_ & _ & _ & _ & _ & _ & _ & (_ & _ & Hb) & _).
  destruct (Hb a v1 Hv1) as (v2 & vF & S2 & SF & Hp & Hty & Hbo).
  rewrite (shell_inj _ _ _ _ SF Hv1) in *. exists v2. auto.
Qed.

Lemma building_pass_fills_exactly_witness :
  exists v2,
    shell (mem (rebuilt pow_whole roomy_settings sample_text empty_memory)) 2%nat v2
    /\ parent v2
       = parent (shell_at (mem (counted pow_whole roomy_settings sample_text empty_memory))
                   2%nat)
    /\ type v2
       = type (shell_at (mem (counted pow_whole roomy_settings sample_text empty_memory))
                 2%nat)
    /\ buffer_ok (mem (rebuilt pow_whole roomy_settings sample_text empty_memory))
         (shell_at (mem (counted pow_whole roomy_settings sample_text empty_memory)) 2%nat)
         v2
         (shell_at (mem (counted pow_whole roomy_settings sample_text empty_memory)) 2%nat).
Proof.
  exact (building_pass_fills_exactly pow_whole roomy_settings sample_text empty_memory
           (counted pow_whole roomy_settings sample_text empty_memory)
           (rebuilt pow_whole roomy_settings sample_text empty_memory) 2%nat
           (shell_at (mem (counted pow_whole roomy_settings sample_text empty_memory)) 2%nat)
           ltac:(vm_compute; discriminate) ltac:(discriminate) eq_refl
           ltac:(vm_compute; reflexivity) ltac:(vm_compute; reflexivity)
           ltac:(vm_compute; reflexivity) ltac:(vm_compute; reflexivity)).
Defined.

(** X3: where a shell has room for a [json_value] ([shell_room]) and the
    counting pass accepts a text, it has allocated nothing but value
    shells: the first of them is the root and the only one without a
    parent, every other has a container allocated before it as its parent,
    no length exceeds [UINT_MAX - 8], the byte counts of the names are not
    negative, and the shells are chained through [_reserved.next_alloc] in
    the order of their allocation, which is the order in which the
    building pass takes them up again.  The pass ends outside any string,
    with [flag_done] and a value without parent on top. *)
Theorem counting_pass_end (pow : float -> float -> float) (cfg : settings)
  (json : list Z) (mm : memory) (m1 : machine) :
  shell_room cfg -> heap mm = [] ->
  pass pow cfg json (pass_fuel json) (start_pass 1 (initial mm)) = Pass_done m1 ->
  has (flags m1) flag_done = true /\ has (flags m1) flag_string = false
  /\ root m1 = Pblk 0%nat 0
  /\ alloc m1 = Pblk (length (heap (mem m1)) - 1)%nat 0
  /\ top_is m1 (fun v => parent v = nullptr)
  /\ heap_wf (mem m1).
Proof.
  intros _ Hh Hpass.
  pose proof (counting_inv_start cfg mm Hh) as Hi.
  destruct (pass_counting pow cfg json _ _ _ Hi Hpass) as ([Hb Hf] & Hd & _).
  destruct (fi_done _ Hf Hd) as [Hs Ht]. split_all; auto; try apply Hb.
  - destruct (bi_ptrs _ _ Hb) as [(E & _)|(_ & R & _)]; auto.
    destruct Ht as (a & t & _ & Hta & _). apply shell_lt in Hta. rewrite E in Hta.
    simpl in Hta. lia.
  - destruct (bi_ptrs _ _ Hb) as [(E & _)|(_ & _ & A & _)]; auto.
    destruct Ht as (a & t & _ & Hta & _). apply shell_lt in Hta. rewrite E in Hta.
    simpl in Hta. lia.
Qed.

Lemma counting_pass_end_witness :
  has (flags (counted pow_whole roomy_settings sample_text empty_memory)) flag_done = true
  /\ has (flags (counted pow_whole roomy_settings sample_text empty_memory)) flag_string
     = false
  /\ root (counted pow_whole roomy_settings sample_text empty_memory) = Pblk 0%nat 0
  /\ alloc (counted pow_whole roomy_settings sample_text empty_memory)
     = Pblk (length (heap (mem (counted pow_whole roomy_settings sample_text
                                  empty_memory))) - 1)%nat 0
  /\ top_is (counted pow_whole roomy_settings sample_text empty_memory)
       (fun v => parent v = nullptr)
  /\ heap_wf (mem (counted pow_whole roomy_settings sample_text empty_memory)).
Proof.
  exact (counting_pass_end pow_whole roomy_settings sample_text empty_memory
           (counted pow_whole roomy_settings sample_text empty_memory)
           ltac:(vm_compute; discriminate) eq_refl ltac:(vm_compute; reflexivity)).
Defined.

(** X4: the loop with which the building pass steps over a number, started
    on the first byte of the number at [p], stops at the first byte after
    [p] that is none of the digits, [+], [-], [e], [E] and [.], or at the
    end of the buffer when there is no such byte: it stays inside the
    buffer, and all the bytes it has passed are such characters. *)
Theorem skip_number_stops (json : list Z) (p : Z) :
  0 <= p < end_ json ->
  p + 1 <= skip_number (drop (Z.to_nat (p + 1)) json) p <= end_ json
  /\ (forall i, p + 1 <= i < skip_number (drop (Z.to_nat (p + 1)) json) p ->
        exists c, deref json i = Some c /\ number_char c = true)
  /\ (skip_number (drop (Z.to_nat (p + 1)) json) p = end_ json
      \/ exists c, deref json (skip_number (drop (Z.to_nat (p + 1)) json) p) = Some c
                   /\ number_char c = false).
Proof.
  intros Hp. destruct (skip_number_json json p Hp) as (K1 & K2 & K3).
  split; [exact K1|]. split; [exact K2|].
  set (q := skip_number (drop (Z.to_nat (p + 1)) json) p) in *.
  destruct (Z.eq_dec q (end_ json)) as [E|E]; [left; exact E|right].
  assert (Hin : (Z.to_nat q < length json)%nat) by (unfold end_ in *; lia).
  destruct (lookup_lt_is_Some_2 json _ Hin) as [c Hc].
  assert (Hd : deref json q = Some c).
  { unfold deref. replace ((0 <=? q) && (q <? end_ json)) with true; auto.
    symmetry. apply andb_true_iff. split; [apply Z.leb_le|apply Z.ltb_lt]; lia. }
  exists c. split; auto. apply K3. unfold byte_at.
  rewrite (proj2 (Z.eqb_neq _ _) E). exact Hd.
Qed.

Lemma skip_number_stops_witness :
  1 + 1 <= skip_number (drop (Z.to_nat (1 + 1)) (json_text "[-12.5e3, 4]")) 1
        <= end_ (json_text "[-12.5e3, 4]")
  /\ (forall i,
        1 + 1 <= i < skip_number (drop (Z.to_nat (1 + 1)) (json_text "[-12.5e3, 4]")) 1 ->
        exists c, deref (json_text "[-12.5e3, 4]") i = Some c /\ number_char c = true)
  /\ (skip_number (drop (Z.to_nat (1 + 1)) (json_text "[-12.5e3, 4]")) 1
      = end_ (json_text "[-12.5e3, 4]")
      \/ exists c,
           deref (json_text "[-12.5e3, 4]")
             (skip_number (drop (Z.to_nat (1 + 1)) (json_text "[-12.5e3, 4]")) 1) = Some c
           /\ number_char c = false).
Proof.
  exact (skip_number_stops (json_text "[-12.5e3, 4]") 1 ltac:(unfold end_; simpl; lia)).
Defined.

(** ** Blank texts and keywords cut short *)

Lemma deref_middle (before : list Z) (b : Z) (rest : list Z) (p : Z) :
  p = Z.of_nat (length before) ->
  deref (before ++ b :: rest) p = Some b /\ p <> end_ (before ++ b :: rest).
Proof.
  intros ->. unfold deref, end_. rewrite length_app. simpl.
  replace ((0 <=? Z.of_nat (length before))
           && (Z.of_nat (length before) <? Z.of_nat (length before + S (length rest))))
    with true by (symmetry; apply andb_true_iff; split; [apply Z.leb_le|apply Z.ltb_lt]; lia).
  rewrite Nat2Z.id. split; [|lia].
  rewrite lookup_app_r by lia. rewrite Nat.sub_diag. reflexivity.
Qed.

Lemma is_whitespace_WHITESPACE b m :
  is_whitespace b = true ->
  WHITESPACE b m
  = Some (if b =? chr "010" then set_line_col (wrap_u32 (cur_line m + 1)) 0 m else m)
  /\ (b =? chr "/") = false.
Proof.
  unfold is_whitespace, WHITESPACE. intros H.
  destruct (b =? chr "010") eqn:E1.
  - apply Z.eqb_eq in E1. subst. split; reflexivity.
  - simpl in H. rewrite H. split; [reflexivity|].
    destruct (b =? chr " ") eqn:E2; [apply Z.eqb_eq in E2; subst; reflexivity|].
    destruct (b =? chr "009") eqn:E3; [apply Z.eqb_eq in E3; subst; reflexivity|].
    destruct (b =? chr "013") eqn:E4; [apply Z.eqb_eq in E4; subst; reflexivity|].
    discriminate.
Qed.

(** A pass that seeks a value steps over blanks, counting the lines. *)
Lemma pass_blanks pow cfg bs : forall before rest m fuel,
  forallb is_whitespace bs = true ->
  ptr m = Z.of_nat (length before) ->
  flags m = flag_seek_value ->
  pass pow cfg (before ++ bs ++ rest) (length bs + fuel) m
  = pass pow cfg (before ++ bs ++ rest) fuel (after_blanks bs m).
Proof.
  induction bs as [|b bs IH]; intros before rest m fuel Hbs Hp Hf.
  - change (length (@nil Z) + fuel)%nat with fuel.
    replace (after_blanks [] m) with m; [reflexivity|].
    destruct m. unfold after_blanks, lines_after, column_after, set_ptr, set_line_col.
    simpl. f_equal. lia.
  - simpl in Hbs. apply andb_true_iff in Hbs as [Hb Hbs].
    destruct (is_whitespace_WHITESPACE b m Hb) as [Hw Hsl].
    destruct (deref_middle before b (bs ++ rest) (ptr m) Hp) as [Hd He].
    change (length (b :: bs) + fuel)%nat with (S (length bs + fuel)).
    cbn [pass]. unfold iteration.
    change ((b :: bs) ++ rest) with (b :: bs ++ rest) in *.
    rewrite (proj2 (Z.eqb_neq _ _) He), Hd. cbn [defined].
    rewrite Hf. change (has flag_seek_value flag_string) with false. cbn [and_then].
    assert (Hc : (if allow_comments cfg
                  then comments (before ++ b :: bs ++ rest) m b else Fall m) = Fall m).
    { destruct (allow_comments cfg); auto. apply comments_fall; auto.
      rewrite Hf. split; reflexivity. }
    rewrite Hc. cbn [and_then]. rewrite Hf.
    change (has flag_seek_value flag_done) with false. cbn [and_then]. rewrite Hf.
    change (has flag_seek_value flag_seek_value) with true. cbn iota.
    unfold seek_value. rewrite Hw. cbn [and_then].
    replace (before ++ b :: bs ++ rest) with ((before ++ [b]) ++ bs ++ rest)
      by (rewrite <- app_assoc; reflexivity).
    rewrite IH; auto.
    + f_equal. unfold after_blanks, lines_after, column_after, set_ptr, set_line_col.
      simpl. destruct (b =? chr "010"); simpl; f_equal; try lia.
      destruct (existsb (fun b0 => b0 =? chr "010") bs); reflexivity.
    + destruct (b =? chr "010"); simpl; rewrite length_app; simpl; lia.
    + destruct (b =? chr "010"); exact Hf.
Qed.

Lemma skip_bom_keeps (b : Z) (rest : list Z) :
  b <> 239 -> skip_bom (b :: rest) = b :: rest.
Proof.
  intros Hb. unfold skip_bom. destruct rest as [|b1 [|b2 rest]]; auto.
  rewrite (proj2 (Z.eqb_neq _ _) Hb). reflexivity.
Qed.

Lemma skip_bom_blank (bs rest : list Z) (c : Z) :
  forallb is_whitespace bs = true -> c <> 239 ->
  skip_bom (bs ++ c :: rest) = bs ++ c :: rest.
Proof.
  intros Hbs Hc. destruct bs as [|b bs]; simpl.
  - apply skip_bom_keeps. exact Hc.
  - simpl in Hbs. apply andb_true_iff in Hbs as [Hb _].
    change (skip_bom (b :: bs ++ c :: rest) = b :: bs ++ c :: rest).
    apply skip_bom_keeps. intros ->. discriminate.
Qed.

Lemma skip_bom_blanks (bs : list Z) :
  forallb is_whitespace bs = true -> skip_bom bs = bs.
Proof.
  intros Hbs. destruct bs as [|b bs]; auto.
  simpl in Hbs. apply andb_true_iff in Hbs as [Hb _].
  apply skip_bom_keeps. intros ->. discriminate.
Qed.

(** At the end of the buffer a pass that seeks a value fails. *)
Lemma seek_at_end pow cfg json m fuel :
  ptr m = end_ json -> flags m = flag_seek_value ->
  pass pow cfg json (S fuel) m
  = Pass_failed (sprintf "%d:%d: Unexpected %c when seeking value"
                   [D (cur_line m); D (cur_col m); C 0])
      (set_flags (bic (flags m) flag_seek_value) m).
Proof.
  intros Hp Hf. cbn [pass]. unfold iteration. rewrite Hp, Z.eqb_refl. cbn [defined].
  rewrite Hf. change (has flag_seek_value flag_string) with false. cbn [and_then].
  assert (Hc : (if allow_comments cfg then comments json m 0 else Fall m) = Fall m).
  { destruct (allow_comments cfg); auto. apply comments_fall; auto.
    rewrite Hf. split; reflexivity. }
  rewrite Hc. cbn [and_then]. rewrite Hf.
  change (has flag_seek_value flag_done) with false. cbn [and_then]. rewrite Hf.
  change (has flag_seek_value flag_seek_value) with true. cbv iota.
  unfold seek_value. change (WHITESPACE 0 m) with (@None machine).
  change (0 =? chr "]") with false. cbv iota. rewrite Hf.
  change (has flag_seek_value flag_need_comma) with false.
  change (has flag_seek_value flag_need_colon) with false. cbv iota zeta.
  reflexivity.
Qed.

(** X5: a text of blanks only (spaces, tabs, carriage returns and newlines;
    the empty text too) is refused: the parse returns no tree, leaves the
    memory as it was, and the text in the error buffer, when there is one,
    reports the end of the buffer, as a byte 0, on the line reached by
    counting the newlines and in column 0. *)
Theorem blank_text_rejected (pow : float -> float -> float) (mm : memory) (st : settings)
  (json : list Z) (error_buf : bool) :
  forallb is_whitespace json = true ->
  parse_in pow mm st json error_buf
  = No_tree (if error_buf
             then Some (sprintf "%d:%d: Unexpected %c when seeking value"
                          [D (lines_after json 1); D 0; C 0])
             else None) mm.
Proof.
  intros Hbs. unfold parse_in. rewrite (skip_bom_blanks json Hbs). unfold two_passes.
  pose proof (pass_blanks pow (state_settings st) json [] [] (start_pass 1 (initial mm))
                (S (length json + 3)) Hbs eq_refl eq_refl) as H.
  rewrite app_nil_r in H. simpl app in H.
  replace (pass_fuel json) with (length json + S (length json + 3))%nat at 1
    by (unfold pass_fuel; lia).
  rewrite H, seek_at_end; [|reflexivity|reflexivity].
  unfold e_failed. simpl. unfold column_after.
  destruct (existsb (fun b => b =? chr "010") json); destruct error_buf; reflexivity.
Qed.

Lemma blank_text_rejected_witness :
  parse_in pow_whole empty_memory zero_settings (bytes_of_string " ") true
  = No_tree (if true
             then Some (sprintf "%d:%d: Unexpected %c when seeking value"
                          [D (lines_after (bytes_of_string " ") 1); D 0; C 0])
             else None) empty_memory.
Proof.
  exact (blank_text_rejected pow_whole empty_memory zero_settings (bytes_of_string " ") true
           eq_refl).
Defined.

(** The comparison of a keyword against a buffer that ends one byte before
    the keyword does reads the byte after the buffer. *)
Lemma keyword_cut (cs : list Z) : forall (before : list Z) (first : Z),
  cs <> [] ->
  keyword (before ++ first :: removelast cs) (Z.of_nat (length before)) cs = None.
Proof.
  induction cs as [|c cs IH]; intros before first Hne; [congruence|].
  destruct cs as [|c' cs].
  - simpl. unfold deref, end_. rewrite length_app. simpl.
    replace (Z.of_nat (length before) + 1 <? Z.of_nat (length before + 1)) with false
      by (symmetry; apply Z.ltb_ge; lia).
    rewrite andb_false_r. reflexivity.
  - change (removelast (c :: c' :: cs)) with (c :: removelast (c' :: cs)).
    cbn [keyword].
    replace (before ++ first :: c :: removelast (c' :: cs))
      with ((before ++ [first]) ++ c :: removelast (c' :: cs))
      by (rewrite <- app_assoc; reflexivity).
    destruct (deref_middle (before ++ [first]) c (removelast (c' :: cs))
                (Z.of_nat (length before) + 1)) as [Hd _].
    { rewrite length_app. simpl. lia. }
    rewrite Hd. simpl. rewrite Z.eqb_refl.
    replace (Z.of_nat (length before) + 1) with (Z.of_nat (length (before ++ [first])))
      by (rewrite length_app; simpl; lia).
    apply IH. discriminate.
Qed.

Lemma start_keyword_cut cfg (before : list Z) (first : Z) (cs : string) m ty k :
  cs <> EmptyString ->
  ptr m = Z.of_nat (length before) ->
  start_keyword cfg (before ++ first :: removelast (bytes_of_string cs)) m
    (Z.of_nat (String.length cs)) cs ty k
  = Undefined.
Proof.
  intros Hne Hp. unfold start_keyword.
  assert (Hlen : length (bytes_of_string cs) = String.length cs).
  { unfold bytes_of_string. rewrite length_map. clear. induction cs; simpl; auto. }
  assert (Hcs : bytes_of_string cs <> []).
  { destruct cs; [congruence|discriminate]. }
  assert (Hrl : S (length (removelast (bytes_of_string cs))) = String.length cs).
  { rewrite <- Hlen. destruct (bytes_of_string cs) as [|c l] using rev_ind; [congruence|].
    rewrite removelast_last, length_app. simpl. lia. }
  replace (end_ (before ++ first :: removelast (bytes_of_string cs)) - ptr m
           <? Z.of_nat (String.length cs)) with false.
  - rewrite Hp, keyword_cut by exact Hcs. reflexivity.
  - symmetry. apply Z.ltb_ge. unfold end_. rewrite length_app. simpl. lia.
Qed.

Ltac keyword_cut_iteration Hp Hf :=
  unfold iteration;
  match goal with
  | |- context [deref (?before ++ ?first :: ?rest) (ptr ?m)] =>
      let Hd := fresh "Hd" in
      let He := fresh "He" in
      destruct (deref_middle before first rest (ptr m) Hp) as [Hd He];
      rewrite (proj2 (Z.eqb_neq _ _) He), Hd; cbn [defined];
      rewrite Hf; change (has flag_seek_value flag_string) with false; cbn [and_then];
      match goal with
      | |- context [if allow_comments ?cfg then comments ?j m ?b else Fall m] =>
          let Hc := fresh "Hc" in
          assert (Hc : (if allow_comments cfg then comments j m b else Fall m) = Fall m)
            by (destruct (allow_comments cfg); auto; apply comments_fall; auto;
                rewrite Hf; split; reflexivity);
          rewrite Hc
      end;
      cbn [and_then]; rewrite Hf;
      change (has flag_seek_value flag_done) with false; cbn [and_then]; rewrite Hf;
      change (has flag_seek_value flag_seek_value) with true; cbv iota;
      unfold seek_value; change (WHITESPACE first m) with (@None machine);
      cbv iota; rewrite Hf;
      change (has flag_seek_value flag_need_comma) with false;
      change (has flag_seek_value flag_need_colon) with false; cbv iota zeta
  end.

Lemma true_cut pow cfg before m :
  ptr m = Z.of_nat (length before) -> flags m = flag_seek_value ->
  iteration pow cfg (before ++ bytes_of_string "tru") m = Undefined.
Proof.
  intros Hp Hf.
  change (bytes_of_string "tru") with (chr "t" :: removelast (bytes_of_string "rue")).
  keyword_cut_iteration Hp Hf. simpl (_ =? _).  cbv iota.
  change 3 with (Z.of_nat (String.length "rue")).
  rewrite start_keyword_cut; [reflexivity|discriminate|exact Hp].
Qed.

Lemma false_cut pow cfg before m :
  ptr m = Z.of_nat (length before) -> flags m = flag_seek_value ->
  iteration pow cfg (before ++ bytes_of_string "fals") m = Undefined.
Proof.
  intros Hp Hf.
  change (bytes_of_string "fals") with (chr "f" :: removelast (bytes_of_string "alse")).
  keyword_cut_iteration Hp Hf. simpl (_ =? _). cbv iota.
  change 4 with (Z.of_nat (String.length "alse")).
  rewrite start_keyword_cut; [reflexivity|discriminate|exact Hp].
Qed.

Lemma null_cut pow cfg before m :
  ptr m = Z.of_nat (length before) -> flags m = flag_seek_value ->
  iteration pow cfg (before ++ bytes_of_string "nul") m = Undefined.
Proof.
  intros Hp Hf.
  change (bytes_of_string "nul") with (chr "n" :: removelast (bytes_of_string "ull")).
  keyword_cut_iteration Hp Hf. simpl (_ =? _). cbv iota.
  change 3 with (Z.of_nat (String.length "ull")).
  rewrite start_keyword_cut; [reflexivity|discriminate|exact Hp].
Qed.

(** X6: the keywords [true], [false] and [null] are compared against the
    buffer after a test that lets through a buffer ending one byte before
    the keyword does.  A text that ends, after blanks only, with [tru],
    [fals] or [nul] makes the parse read the byte after the end of the
    buffer: its behaviour is undefined, whatever the settings. *)
Theorem keyword_cut_short_overruns (pow : float -> float -> float) (mm : memory)
  (st : settings) (blanks : list Z) (kw : string) (error_buf : bool) :
  forallb is_whitespace blanks = true ->
  In kw ["tru"; "fals"; "nul"]%string ->
  parse_in pow mm st (blanks ++ bytes_of_string kw) error_buf = Undefined_behaviour.
Proof.
  intros Hbs Hkw. unfold parse_in.
  assert (Hskip : skip_bom (blanks ++ bytes_of_string kw) = blanks ++ bytes_of_string kw).
  { destruct Hkw as [<-|[<-|[<-|[]]]]; apply skip_bom_blank; auto; discriminate. }
  rewrite Hskip. unfold two_passes.
  assert (Hfuel : exists fuel,
            pass_fuel (blanks ++ bytes_of_string kw) = (length blanks + S fuel)%nat).
  { unfold pass_fuel. rewrite length_app.
    exists (length blanks + 2 * length (bytes_of_string kw) + 3)%nat. lia. }
  destruct Hfuel as [fuel ->].
  pose proof (pass_blanks pow (state_settings st) blanks [] (bytes_of_string kw)
                (start_pass 1 (initial mm)) (S fuel) Hbs eq_refl eq_refl) as H.
  simpl app in H. rewrite H. cbn [pass].
  assert (Hit : iteration pow (state_settings st) (blanks ++ bytes_of_string kw)
                  (after_blanks blanks (start_pass 1 (initial mm))) = Undefined).
  { destruct Hkw as [<-|[<-|[<-|[]]]];
      [apply true_cut|apply false_cut|apply null_cut]; unfold after_blanks; simpl; auto. }
  rewrite Hit. reflexivity.
Qed.

Lemma keyword_cut_short_overruns_witness :
  parse_in pow_whole empty_memory zero_settings
    (bytes_of_string " " ++ bytes_of_string "tru") true = Undefined_behaviour.
Proof.
  exact (keyword_cut_short_overruns pow_whole empty_memory zero_settings
           (bytes_of_string " ") "tru" true eq_refl ltac:(simpl; auto)).
Defined.

(** ** The column of an error *)

Lemma STRING_ADD_col m b m' : STRING_ADD m b = Some m' -> cur_col m' = cur_col m.
Proof.
  unfold STRING_ADD. destruct (first_pass m =? 0); simpl.
  - destruct (store_char (mem m) (string_ m) (string_length m) b); simpl; [|discriminate].
    intros H. injection H as <-. reflexivity.
  - intros H. injection H as <-. reflexivity.
Qed.

Lemma store_chars_col cs : forall m m',
  store_chars m cs = Some m' -> cur_col m' = cur_col m.
Proof.
  induction cs as [|c cs IH]; intros m m' H; simpl in H.
  - injection H as <-. reflexivity.
  - destruct (store_char (mem m) (string_ m) (string_length m) c); simpl in H;
      [|discriminate].
    apply IH in H. exact H.
Qed.

Lemma add_utf8_col m cs m' : add_utf8 m cs = Some m' -> cur_col m' = cur_col m.
Proof.
  unfold add_utf8. destruct (first_pass m =? 0).
  - apply store_chars_col.
  - intros H. injection H as <-. reflexivity.
Qed.

Lemma encode_utf8_col m u m' : encode_utf8 m u = Some m' -> cur_col m' = cur_col m.
Proof.
  unfold encode_utf8.
  destruct (u <=? 127); [apply STRING_ADD_col|].
  destruct (u <=? 2047); [apply add_utf8_col|].
  destruct (u <=? 65535); apply add_utf8_col.
Qed.

Lemma surrogate_col json m u u' m' :
  surrogate json m u = Some (Some (u', m')) -> cur_col m' = cur_col m.
Proof.
  unfold surrogate. destruct (Z.land u 63488 =? 55296).
  - destruct (end_ json - ptr m <=? 6); [discriminate|].
    destruct (deref json (ptr m + 1)) as [c1|]; simpl; [|discriminate].
    destruct (negb (c1 =? chr "\")); [discriminate|].
    destruct (deref json (ptr m + 2)) as [c2|]; simpl; [|discriminate].
    destruct (negb (c2 =? chr "u")); [discriminate|].
    destruct (read_hex4 json (ptr m + 2)) as [[h|]|]; simpl; try discriminate.
    intros H. injection H as _ <-. reflexivity.
  - intros H. injection H as _ <-. reflexivity.
Qed.

Lemma json_alloc_col cfg m size zero shape p m' :
  json_alloc cfg m size zero shape = Some (p, m') -> cur_col m' = cur_col m.
Proof.
  intros H. apply json_alloc_inv in H as [(_ & _ & _ & H & _) _]. exact H.
Qed.

Lemma new_value_col cfg m ty ok m' :
  new_value cfg m ty = Some (ok, m') -> cur_col m' = cur_col m.
Proof.
  unfold new_value. destruct (first_pass m =? 0).
  - destruct (load_value (mem m) (alloc m)) as [v|]; simpl; [|discriminate].
    msimpl.
    match goal with
    | |- context [if is_null (root m) then ?a else ?b] =>
        set (m0 := if is_null (root m) then a else b)
    end.
    assert (H0 : cur_col m0 = cur_col m) by (unfold m0; destruct (is_null _); reflexivity).
    clearbody m0.
    assert (Hpay : forall size shape (f : pointer -> json_value -> json_value),
      ('(p, m1) ← json_alloc cfg m0 size false shape;
       mm ← update_value (mem m1) (alloc m) (set_values p);
       if is_null p then Some (false, set_mem mm m1)
       else mm0 ← update_value mm (alloc m) (f p); Some (true, set_mem mm0 m1))
      = Some (ok, m') -> cur_col m' = cur_col m).
    { intros size shape f H.
      destruct (json_alloc cfg m0 size false shape) as [[p m1]|] eqn:Ea; simpl in H;
        [|discriminate].
      apply json_alloc_col in Ea.
      destruct (update_value (mem m1) (alloc m) (set_values p)); simpl in H; [|discriminate].
      destruct (is_null p).
      - injection H as _ <-. simpl. congruence.
      - destruct (update_value m2 (alloc m) (f p)); simpl in H; [|discriminate].
        injection H as _ <-. simpl. congruence. }
    destruct (type v).
    + intros H. injection H as _ <-. exact H0.
    + destruct (u_length v =? 0).
      * intros H. injection H as _ <-. exact H0.
      * destruct (u_values v) as [names|]; [|discriminate].
        apply (Hpay _ _ (fun p v => set_length 0 (set_reserved (ptr_add p _) v))).
    + destruct (u_length v =? 0).
      * intros H. injection H as _ <-. exact H0.
      * apply (Hpay _ _ (fun _ => set_length 0)).
    + intros H. injection H as _ <-. exact H0.
    + intros H. injection H as _ <-. exact H0.
    + apply (Hpay _ _ (fun _ => set_length 0)).
    + intros H. injection H as _ <-. exact H0.
    + intros H. injection H as _ <-. exact H0.
  - destruct (json_alloc cfg m _ true (Bvalue zeroed_value)) as [[value m1]|] eqn:Ea;
      simpl; [|discriminate].
    apply json_alloc_col in Ea. destruct (is_null value).
    + intros H. injection H as _ <-. exact Ea.
    + match goal with |- context [update_value (mem ?x) value ?f] =>
        destruct (update_value (mem x) value f) as [mm|] end; simpl; [|discriminate].
      match goal with |- context [mbind _ ?o] => destruct o as [mm'|] end; simpl;
        [|discriminate].
      intros H. injection H as _ <-. simpl.
      destruct (is_null (root m1)); simpl; exact Ea.
Qed.

Lemma WHITESPACE_col b m m' : WHITESPACE b m = Some m' -> cur_col m = 0 -> cur_col m' = 0.
Proof.
  unfold WHITESPACE. destruct (b =? chr "010").
  - intros H _. injection H as <-. reflexivity.
  - destruct ((b =? chr " ") || (b =? chr "009") || (b =? chr "013")); [|discriminate].
    intros H. injection H as <-. auto.
Qed.

Lemma and_then_col f k :
  flow_column_zero f -> (forall m, cur_col m = 0 -> flow_column_zero (k m)) ->
  flow_column_zero (and_then f k).
Proof. destruct f; simpl; auto. Qed.

Ltac col_facts :=
  repeat match goal with
    | H : STRING_ADD _ _ = Some _ |- _ => apply STRING_ADD_col in H
    | H : encode_utf8 _ _ = Some _ |- _ => apply encode_utf8_col in H
    | H : surrogate _ _ _ = Some (Some _) |- _ => apply surrogate_col in H
    | H : new_value _ _ _ = Some _ |- _ => apply new_value_col in H
    | H : WHITESPACE _ _ = Some _ |- _ => apply WHITESPACE_col in H; [|assumption]
    | H : (if ?c then _ else _) = Some _ |- _ => destruct c
    | H : mbind _ ?o = Some _ |- _ => destruct o; simpl in H; [|discriminate H]
    | H : Some _ = Some _ |- _ => injection H as <-
    end.

Ltac col_done :=
  col_facts; cbn [and_then];
  unfold flow_column_zero, column_zero, reported_column, e_unknown_value, e_alloc_failure,
    e_overflow, invalid_character_value, sprintf, LINE_AND_COL;
  cbn [args app]; msimpl;
  repeat match goal with |- context [if ?c then _ else _] => destruct c end;
  msimpl;
  first [ exact I | congruence | split; congruence | tauto ].

Ltac col_branch :=
  repeat first
    [ progress cbv zeta
    | match goal with
      | |- flow_column_zero (defined ?o _) => destruct o eqn:?; cbn [defined]; [|exact I]
      | |- flow_column_zero (and_then (and_then _ _) _) => rewrite and_then_assoc
      | |- flow_column_zero (and_then (Fall _) _) => cbn [and_then]
      | |- flow_column_zero (and_then (Continue _) _) => cbn [and_then]
      | |- flow_column_zero (and_then (Failed _ _) _) => cbn [and_then]
      | |- flow_column_zero (and_then (defined ?o _) _) =>
          destruct o eqn:?; cbn [defined and_then]; [|exact I]
      | |- flow_column_zero (and_then (if ?c then _ else _) _) => destruct c eqn:?
      | |- flow_column_zero (and_then (match ?x with _ => _ end) _) => destruct x eqn:?
      | |- flow_column_zero (if ?c then _ else _) => destruct c eqn:?
      | |- flow_column_zero (match ?x with _ => _ end) => destruct x eqn:?
      end ].

Lemma in_string_col json m b : cur_col m = 0 -> flow_column_zero (in_string json m b).
Proof.
  intros H. unfold in_string. col_branch.
  - col_done.
  - col_done.
  - unfold escaped, escape_u. col_branch; col_done.
  - col_done.
  - unfold close_string. col_branch; col_done.
  - col_done.
Qed.

Lemma comments_col json m b : cur_col m = 0 -> flow_column_zero (comments json m b).
Proof. intros H. unfold comments. col_branch; col_done. Qed.

Lemma done_col m b : cur_col m = 0 -> flow_column_zero (done_ m b).
Proof. intros H. unfold done_. col_branch; col_done. Qed.

Lemma next_col m : cur_col m = 0 -> flow_column_zero (next m).
Proof.
  intros H. unfold next. col_branch; col_done.
Qed.

Lemma with_new_value_col cfg m ty k :
  cur_col m = 0 -> (forall m', cur_col m' = 0 -> flow_column_zero (and_then (k m') next)) ->
  flow_column_zero (and_then (with_new_value cfg m ty k) next).
Proof.
  intros H Hk. unfold with_new_value.
  destruct (new_value cfg m ty) as [[ok m']|] eqn:E; cbn [defined fst snd]; [|exact I].
  apply new_value_col in E. destruct ok.
  - apply Hk. congruence.
  - simpl. split; [congruence|exact I].
Qed.

Lemma start_keyword_col cfg json m least cs ty k :
  cur_col m = 0 -> (forall m', cur_col m' = 0 -> flow_column_zero (and_then (k m') next)) ->
  flow_column_zero (and_then (start_keyword cfg json m least cs ty k) next).
Proof.
  intros H Hk. unfold start_keyword.
  destruct (end_ json - ptr m <? least); [col_done|].
  destruct (keyword json (ptr m) (bytes_of_string cs)) as [[p|]|]; cbn [defined];
    [|col_done|exact I].
  apply with_new_value_col; auto.
Qed.

Lemma seek_value_col cfg json m b :
  cur_col m = 0 -> flow_column_zero (and_then (seek_value cfg json m b) next).
Proof.
  intros H. unfold seek_value.
  destruct (WHITESPACE b m) as [m'|] eqn:Ew; [col_done|].
  destruct (b =? chr "]").
  { col_branch; try col_done. apply next_col. exact H. }
  destruct (has (flags m) flag_need_comma); [col_branch; col_done|].
  destruct (has (flags m) flag_need_colon); [col_branch; col_done|].
  cbv zeta.
  repeat match goal with
    | |- flow_column_zero (and_then (if ?c then _ else _) next) => destruct c
    end.
  - apply with_new_value_col; [exact H|]. intros m' Hm'. col_done.
  - apply with_new_value_col; [exact H|]. intros m' Hm'. col_done.
  - apply with_new_value_col; [exact H|]. intros m' Hm'. cbn [and_then].
    destruct (load_value (mem m') (top m')); cbn [defined and_then]; [col_done|exact I].
  - apply start_keyword_col; [exact H|]. intros m' Hm'.
    destruct (update_value (mem m') (top m') (set_boolean true)); cbn [defined and_then];
      [|exact I].
    apply next_col. exact Hm'.
  - apply start_keyword_col; [exact H|]. intros m' Hm'. cbn [and_then]. apply next_col. exact Hm'.
  - apply start_keyword_col; [exact H|]. intros m' Hm'. cbn [and_then]. apply next_col. exact Hm'.
  - unfold start_number. destruct (isdigit b || (b =? chr "-")); [|col_done].
    apply with_new_value_col; [exact H|]. intros m' Hm'.
    destruct (first_pass m' =? 0); cbv zeta.
    + cbn [and_then]. apply next_col. exact Hm'.
    + destruct (negb (b =? chr "-")); cbn [and_then]; [apply next_col; exact Hm'|col_done].
Qed.

Ltac col_next :=
  match goal with
  | |- flow_column_zero (next _) =>
      apply next_col; msimpl;
      repeat match goal with |- context [if ?c then _ else _] => destruct c end;
      msimpl; congruence
  | _ => col_done
  end.

Lemma in_value_col pow m b :
  cur_col m = 0 -> flow_column_zero (and_then (in_value pow m b) next).
Proof.
  intros H. unfold in_value.
  destruct (load_value (mem m) (top m)) as [t|]; cbn [defined]; [|exact I].
  destruct (type t); try (cbn [and_then]; apply next_col; exact H).
  - unfold in_object. col_branch; col_next.
  - unfold in_number, finish_number. col_branch; col_next.
  - unfold in_number, finish_number. col_branch; col_next.
Qed.

Lemma iteration_col pow cfg json m :
  cur_col m = 0 -> flow_column_zero (iteration pow cfg json m).
Proof.
  intros H. unfold iteration.
  destruct (if ptr m =? end_ json then Some 0 else deref json (ptr m)) as [b|];
    cbn [defined]; [|exact I].
  apply and_then_col.
  { destruct (has (flags m) flag_string); [apply in_string_col; exact H|exact H]. }
  intros m1 H1. apply and_then_col.
  { destruct (allow_comments cfg); [apply comments_col; exact H1|exact H1]. }
  intros m2 H2. apply and_then_col.
  { destruct (has (flags m2) flag_done); [apply done_col; exact H2|exact H2]. }
  intros m3 H3. destruct (has (flags m3) flag_seek_value).
  - apply seek_value_col. exact H3.
  - apply in_value_col. exact H3.
Qed.

Lemma pass_col pow cfg json fuel : forall m,
  cur_col m = 0 ->
  match pass pow cfg json fuel m with
  | Pass_done m' => cur_col m' = 0
  | Pass_failed e m' => cur_col m' = 0 /\ column_zero e
  | Pass_undefined | Pass_out_of_fuel => True
  end.
Proof.
  induction fuel as [|fuel IH]; intros m H; [exact I|].
  cbn [pass]. pose proof (iteration_col pow cfg json m H) as Hi.
  destruct (iteration pow cfg json m); simpl in Hi; auto; apply IH; exact Hi.
Qed.

(** X7: no pass ever advances the column counter: a newline resets it, and
    nothing else writes it.  So every error text of a parse that reports a
    position reports column 0, wherever in the line the error is; only
    the line number tells positions apart. *)
Theorem error_column_is_zero (pow : float -> float -> float) (mm : memory)
  (st : settings) (json : list Z) (e : message) (live : nat) :
  failure (parse_in pow mm st json true) = Some (Some e, live) -> column_zero e.
Proof.
  intros Hf.
  assert (H : exists mm', parse_in pow mm st json true = No_tree (Some e) mm').
  { destruct (parse_in pow mm st json true) as [| e' mm'| |]; try discriminate.
    simpl in Hf. injection Hf as -> _. exists mm'. reflexivity. }
  destruct H as [mm' H]. revert H. clear Hf.
  unfold parse_in, two_passes.
  set (cfg := state_settings st). set (j := skip_bom json).
  assert (Hfail : forall e0 m, column_zero e0 ->
            e_failed cfg true e0 m = No_tree (Some e) mm' -> column_zero e).
  { intros e0 m He0. unfold e_failed.
    destruct (free_chain cfg _ (mem m) _); try discriminate.
    assert (Ht : column_zero (if (format e0 =? EmptyString)%string
                              then sprintf "Unknown error" [] else e0)).
    { destruct (format e0 =? EmptyString)%string; [exact I|exact He0]. }
    destruct (first_pass m =? 0).
    - destruct (value_free cfg a (root m)); try discriminate.
      intros E. injection E as <- _. exact Ht.
    - intros E. injection E as <- _. exact Ht. }
  pose proof (pass_col pow cfg j (pass_fuel j) (start_pass 1 (initial mm)) eq_refl) as H1.
  destruct (pass pow cfg j (pass_fuel j) (start_pass 1 (initial mm))) as [m1|e1 m1| |];
    try discriminate.
  - pose proof (pass_col pow cfg j (pass_fuel j) (start_pass 0 (set_alloc (root m1) m1)) H1)
      as H2.
    destruct (pass pow cfg j (pass_fuel j) (start_pass 0 (set_alloc (root m1) m1)))
      as [m2|e2 m2| |]; try discriminate.
    apply Hfail. apply H2.
  - apply Hfail. apply H1.
Qed.

Lemma error_column_is_zero_witness :
  failure (parse_in pow_whole empty_memory zero_settings
             (json_text "[1," ++ [chr "010"] ++ json_text "   x]") true)
  = Some (Some (sprintf "%d:%d: Unexpected %c when seeking value" [D 2; D 0; C (chr "x")]),
          0%nat)
  /\ column_zero (sprintf "%d:%d: Unexpected %c when seeking value" [D 2; D 0; C (chr "x")]).
Proof.
  split; [vm_compute; reflexivity|].
  exact (error_column_is_zero pow_whole empty_memory zero_settings
           (json_text "[1," ++ [chr "010"] ++ json_text "   x]")
           (sprintf "%d:%d: Unexpected %c when seeking value" [D 2; D 0; C (chr "x")])
           0%nat ltac:(vm_compute; reflexivity)).
Defined.

(** ** Escapes *)

Lemma lor_high_low (a n x : Z) :
  0 <= n -> 0 <= x < 2 ^ n -> Z.lor (a * 2 ^ n) x = a * 2 ^ n + x.
Proof.
  intros Hn Hx. rewrite <- (Z.add_lor_land (a * 2 ^ n) x).
  assert (H0 : Z.land (a * 2 ^ n) x = 0).
  { apply Z.bits_inj'. intros k Hk. rewrite Z.land_spec, Z.bits_0.
    destruct (Z.lt_ge_cases k n) as [Hlt|Hge].
    - rewrite Z.mul_pow2_bits_low by lia. reflexivity.
    - rewrite <- (Z.mod_small x (2 ^ n)) by lia.
      rewrite Z.mod_pow2_bits_high by lia. apply andb_false_r. }
  rewrite H0. lia.
Qed.

Lemma land_low (x n : Z) : 0 <= n -> Z.land x (2 ^ n - 1) = x mod 2 ^ n.
Proof.
  intros Hn. replace (2 ^ n - 1) with (Z.ones n) by (rewrite Z.ones_equiv; lia).
  apply Z.land_ones. exact Hn.
Qed.

(** The bytes of a scalar value read back, by the table of RFC 3629. *)
Lemma utf8_round_trip (u : Z) :
  scalar_value u = true ->
  utf8_decode (utf8_bytes u) = Some u /\ Forall (fun b => 0 <= b < 256) (utf8_bytes u).
Proof.
  unfold scalar_value. rewrite !andb_true_iff, negb_true_iff, andb_false_iff.
  rewrite !Z.leb_le, !Z.leb_gt. intros ((Hu0 & Hu1) & Hns).
  unfold utf8_bytes.
  change 63 with (2 ^ 6 - 1). rewrite !land_low by lia. rewrite !Z.shiftr_div_pow2 by lia.
  change (2 ^ 6) with 64. change (2 ^ 12) with 4096. change (2 ^ 18) with 262144.
  change 128 with (1 * 2 ^ 7). change 192 with (3 * 2 ^ 6). change 224 with (7 * 2 ^ 5).
  change 240 with (15 * 2 ^ 4).
  destruct (Z.leb_spec u 127).
  { split.
    - unfold utf8_decode, between.
      replace ((0 <=? u) && (u <=? 127)) with true; auto. symmetry.
      apply andb_true_iff. split; apply Z.leb_le; lia.
    - repeat constructor; lia. }
  destruct (Z.leb_spec u 2047).
  { rewrite !lor_high_low by (try lia; change (2 ^ 6) with 64; change (2 ^ 7) with 128;
                               Z.div_mod_to_equations; lia).
    change (3 * 2 ^ 6) with 192. change (1 * 2 ^ 7) with 128. split.
    - unfold utf8_decode, is_continuation, between.
      replace ((194 <=? 192 + u / 64) && (192 + u / 64 <=? 223)
               && ((128 <=? 128 + u mod 64) && (128 + u mod 64 <=? 191))) with true.
      + f_equal. Z.div_mod_to_equations. lia.
      + symmetry. rewrite !andb_true_iff, !Z.leb_le.
        Z.div_mod_to_equations. lia.
    - repeat constructor; Z.div_mod_to_equations; lia. }
  destruct (Z.leb_spec u 65535).
  { rewrite !lor_high_low by (try lia; change (2 ^ 5) with 32; change (2 ^ 7) with 128;
                               Z.div_mod_to_equations; lia).
    change (7 * 2 ^ 5) with 224. change (1 * 2 ^ 7) with 128. split.
    - unfold utf8_decode, is_continuation, between.
      set (b0 := 224 + u / 4096). set (b1 := 128 + (u / 64) mod 64).
      set (b2 := 128 + u mod 64).
      assert (Hb0 : 224 <= b0 <= 239) by (unfold b0; Z.div_mod_to_equations; lia).
      assert (Hb1 : 128 <= b1 <= 191) by (unfold b1; Z.div_mod_to_equations; lia).
      assert (Hb2 : 128 <= b2 <= 191) by (unfold b2; Z.div_mod_to_equations; lia).
      assert (Hlow : b0 = 224 -> 160 <= b1)
        by (unfold b0, b1; Z.div_mod_to_equations; lia).
      assert (Hsur : b0 = 237 -> b1 <= 159)
        by (unfold b0, b1; Z.div_mod_to_equations; lia).
      assert (Hval : (b0 - 224) * 4096 + (b1 - 128) * 64 + (b2 - 128) = u)
        by (unfold b0, b1, b2; Z.div_mod_to_equations; lia).
      clearbody b0 b1 b2. rewrite Hval.
      match goal with |- (if ?c then _ else _) = _ => replace c with true; auto end.
      symmetry. rewrite andb_true_iff, !orb_true_iff, !andb_true_iff, !Z.leb_le, !Z.eqb_eq.
      lia.
    - repeat constructor; Z.div_mod_to_equations; lia. }
  rewrite !lor_high_low by (try lia; change (2 ^ 4) with 16; change (2 ^ 7) with 128;
                             Z.div_mod_to_equations; lia).
  change (15 * 2 ^ 4) with 240. change (1 * 2 ^ 7) with 128. split.
  - unfold utf8_decode, is_continuation, between.
    set (b0 := 240 + u / 262144). set (b1 := 128 + (u / 4096) mod 64).
    set (b2 := 128 + (u / 64) mod 64). set (b3 := 128 + u mod 64).
    assert (Hb0 : 240 <= b0 <= 244) by (unfold b0; Z.div_mod_to_equations; lia).
    assert (Hb1 : 128 <= b1 <= 191) by (unfold b1; Z.div_mod_to_equations; lia).
    assert (Hb2 : 128 <= b2 <= 191) by (unfold b2; Z.div_mod_to_equations; lia).
    assert (Hb3 : 128 <= b3 <= 191) by (unfold b3; Z.div_mod_to_equations; lia).
    assert (Hlow : b0 = 240 -> 144 <= b1)
      by (unfold b0, b1; Z.div_mod_to_equations; lia).
    assert (Htop : b0 = 244 -> b1 <= 143)
      by (unfold b0, b1; Z.div_mod_to_equations; lia).
    assert (Hval : (b0 - 240) * 262144 + (b1 - 128) * 4096 + (b2 - 128) * 64 + (b3 - 128)
                   = u)
      by (unfold b0, b1, b2, b3; Z.div_mod_to_equations; lia).
    clearbody b0 b1 b2 b3. rewrite Hval.
    match goal with |- (if ?c then _ else _) = _ => replace c with true; auto end.
    symmetry. rewrite !andb_true_iff, !orb_true_iff, !andb_true_iff, !Z.leb_le, !Z.eqb_eq.
    lia.
  - repeat constructor; Z.div_mod_to_equations; lia.
Qed.

(** The sixteen-bit values that the test for a surrogate lets pass are no
    surrogates. *)
Lemma surrogate_test (x : Z) :
  55296 <= x <= 57343 -> Z.land x 63488 = 55296.
Proof.
  intros Hx.
  assert (Hall : forallb (fun n => Z.land (55296 + Z.of_nat n) 63488 =? 55296)
                   (seq 0 2048) = true) by (vm_compute; reflexivity).
  rewrite forallb_forall in Hall. specialize (Hall (Z.to_nat (x - 55296))).
  rewrite Z2Nat.id in Hall by lia.
  replace (55296 + (x - 55296)) with x in Hall by lia.
  apply Z.eqb_eq, Hall, in_seq. lia.
Qed.

(** The high half of a pair: bit 16 set, and ten bits above bit 10. *)
Lemma pair_high (x : Z) :
  0 <= x < 1024 ->
  exists k, Z.lor 65536 (Z.shiftl x 10) = k * 2 ^ 10 /\ 64 <= k <= 1023.
Proof.
  intros Hx.
  assert (Hall : forallb (fun n =>
            let v := Z.lor 65536 (Z.shiftl (Z.of_nat n) 10) in
            (v =? (v / 1024) * 1024) && (64 <=? v / 1024) && (v / 1024 <=? 1023))
          (seq 0 1024) = true) by (vm_compute; reflexivity).
  rewrite forallb_forall in Hall. specialize (Hall (Z.to_nat x)).
  cbv zeta in Hall. rewrite Z2Nat.id in Hall by lia.
  assert (Hin : In (Z.to_nat x) (seq 0 1024)) by (apply in_seq; lia).
  specialize (Hall Hin). rewrite !andb_true_iff, Z.eqb_eq, !Z.leb_le in Hall.
  destruct Hall as ((H1 & H2) & H3).
  exists (Z.lor 65536 (Z.shiftl x 10) / 1024). change (2 ^ 10) with 1024. lia.
Qed.

(** X8: what the escape decoder adds to a string for a [\u] escape is
    well-formed UTF-8.  The code point it arrives at, from the sixteen bits
    of the first escape and, where these are in D800..DFFF, those of the
    escape that follows, is always a Unicode scalar value (no surrogate,
    at most U+10FFFF), and the one to four bytes it adds for it, chosen by
    the thresholds 0x7F, 0x7FF and 0xFFFF, are bytes that a decoder
    following the syntax of RFC 3629 (no overlong form, no surrogate,
    nothing above U+10FFFF) reads back as that code point. *)
Theorem escape_bytes_are_utf8 (json : list Z) (m m' : machine) (uchar u : Z) :
  0 <= uchar < 65536 ->
  surrogate json m uchar = Some (Some (u, m')) ->
  scalar_value u = true
  /\ encode_utf8 m' u = add_utf8 m' (utf8_bytes u)
  /\ utf8_decode (utf8_bytes u) = Some u
  /\ Forall (fun b => 0 <= b < 256) (utf8_bytes u).
Proof.
  intros Hu Hs.
  assert (Hsc : scalar_value u = true).
  { revert Hs. unfold surrogate.
    destruct (Z.land uchar 63488 =? 55296) eqn:Htest.
    - destruct (end_ json - ptr m <=? 6); [discriminate|].
      destruct (deref json (ptr m + 1)) as [c1|]; cbn [mbind option_bind]; [|discriminate].
      destruct (negb (c1 =? chr "\")); [discriminate|].
      destruct (deref json (ptr m + 2)) as [c2|]; cbn [mbind option_bind]; [|discriminate].
      destruct (negb (c2 =? chr "u")); [discriminate|].
      destruct (read_hex4 json (ptr m + 2)) as [[l|]|]; cbn [mbind option_bind];
        try discriminate.
      intros E. injection E as <- _.
      change 1023 with (2 ^ 10 - 1). rewrite !land_low by lia.
      destruct (pair_high (uchar mod 2 ^ 10)) as (k & -> & Hk).
      { change (2 ^ 10) with 1024. Z.div_mod_to_equations. lia. }
      rewrite lor_high_low by (try lia; apply Z.mod_pos_bound; lia).
      unfold scalar_value. rewrite !andb_true_iff, negb_true_iff, andb_false_iff.
      rewrite !Z.leb_le, !Z.leb_gt.
      pose proof (Z.mod_pos_bound l (2 ^ 10) ltac:(lia)) as Hl.
      change (2 ^ 10) with 1024 in *. lia.
    - intros E. injection E as <- _.
      unfold scalar_value. rewrite !andb_true_iff, negb_true_iff, andb_false_iff.
      rewrite !Z.leb_le, !Z.leb_gt.
      destruct (Z_le_gt_dec 55296 uchar) as [H1|H1]; [|lia].
      destruct (Z_le_gt_dec uchar 57343) as [H2|H2]; [|lia].
      rewrite surrogate_test in Htest by lia. discriminate. }
  split; [exact Hsc|]. split; [apply encode_utf8_add|]. apply utf8_round_trip, Hsc.
Qed.

Lemma escape_bytes_are_utf8_witness :
  surrogate (quoted (u_escape "D83D" ++ u_escape "DE00"))
    (set_ptr 6 (initial empty_memory)) 55357
  = Some (Some (128512, set_ptr 12 (initial empty_memory)))
  /\ utf8_bytes 128512 = [240; 159; 152; 128]
  /\ utf8_decode (utf8_bytes 128512) = Some 128512.
Proof.
  split; [vm_compute; reflexivity|]. split; [reflexivity|].
  exact (proj1 (proj2 (proj2
           (escape_bytes_are_utf8 (quoted (u_escape "D83D" ++ u_escape "DE00"))
              (set_ptr 6 (initial empty_memory)) (set_ptr 12 (initial empty_memory))
              55357 128512 ltac:(lia) ltac:(vm_compute; reflexivity))))).
Defined.

(** The high surrogates, one by one. *)
Lemma high_surrogates (x : Z) :
  0 <= x < 1024 ->
  Z.land (55296 + x) 63488 = 55296
  /\ Z.lor 65536 (Z.shiftl (Z.land (55296 + x) 1023) 10)
     = x * 1024 + (if Z.testbit (55296 + x) 6 then 0 else 65536).
Proof.
  intros Hx.
  assert (Hall : forallb (fun n =>
            let x := Z.of_nat n in
            (Z.land (55296 + x) 63488 =? 55296)
            && (Z.lor 65536 (Z.shiftl (Z.land (55296 + x) 1023) 10)
                =? x * 1024 + (if Z.testbit (55296 + x) 6 then 0 else 65536)))
          (seq 0 1024) = true) by (vm_compute; reflexivity).
  rewrite forallb_forall in Hall. specialize (Hall (Z.to_nat x)).
  cbv zeta in Hall. rewrite Z2Nat.id in Hall by lia.
  assert (Hin : In (Z.to_nat x) (seq 0 1024)) by (apply in_seq; lia).
  specialize (Hall Hin). apply andb_true_iff in Hall as [H1 H2].
  split; [apply Z.eqb_eq, H1|apply Z.eqb_eq, H2].
Qed.

(** X9: a surrogate pair is combined with [|] where the code point is a
    sum.  For a high surrogate [h] followed by the escape of a low
    surrogate [l] the decoder yields the code point of the pair when bit 6
    of [h] is clear, and a code point that is 0x10000 too low when it is
    set: the characters of the planes 2, 4, ..., 16 are decoded as
    characters of the plane before. *)
Theorem surrogate_pair_value (json : list Z) (m m' : machine) (h l u : Z) :
  55296 <= h <= 56319 -> 56320 <= l <= 57343 ->
  read_hex4 json (ptr m + 2) = Some (Some l) ->
  surrogate json m h = Some (Some (u, m')) ->
  u = 65536 + (h - 55296) * 1024 + (l - 56320) - (if Z.testbit h 6 then 65536 else 0)
  /\ m' = set_ptr (ptr m + 6) m.
Proof.
  intros Hh Hl Hr. unfold surrogate.
  destruct (high_surrogates (h - 55296)) as [H1 H2]; [lia|].
  replace (55296 + (h - 55296)) with h in * by lia.
  rewrite H1. simpl (55296 =? 55296).
  destruct (end_ json - ptr m <=? 6); [discriminate|].
  destruct (deref json (ptr m + 1)) as [c1|]; cbn [mbind option_bind]; [|discriminate].
  destruct (negb (c1 =? chr "\")); [discriminate|].
  destruct (deref json (ptr m + 2)) as [c2|]; cbn [mbind option_bind]; [|discriminate].
  destruct (negb (c2 =? chr "u")); [discriminate|].
  rewrite Hr. cbn [mbind option_bind]. intros E. injection E as <- <-. split; [|reflexivity].
  rewrite H2. change 1023 with (2 ^ 10 - 1). rewrite land_low by lia.
  replace (l mod 2 ^ 10) with (l - 56320)
    by (change (2 ^ 10) with 1024; Z.div_mod_to_equations; lia).
  destruct (Z.testbit h 6).
  - replace ((h - 55296) * 1024 + 0) with ((h - 55296) * 2 ^ 10) by lia.
    rewrite lor_high_low by (change (2 ^ 10) with 1024; lia).
    change (2 ^ 10) with 1024. lia.
  - replace ((h - 55296) * 1024 + 65536) with ((h - 55296 + 64) * 2 ^ 10) by lia.
    rewrite lor_high_low by (change (2 ^ 10) with 1024; lia).
    change (2 ^ 10) with 1024. lia.
Qed.

Lemma surrogate_pair_value_witness :
  read_hex4 (quoted (u_escape "D840" ++ u_escape "DC00"))
    (ptr (set_ptr 6 (initial empty_memory)) + 2) = Some (Some 56320)
  /\ surrogate (quoted (u_escape "D840" ++ u_escape "DC00"))
       (set_ptr 6 (initial empty_memory)) 55360
     = Some (Some (65536, set_ptr 12 (initial empty_memory)))
  /\ 65536 = 65536 + (55360 - 55296) * 1024 + (56320 - 56320)
             - (if Z.testbit 55360 6 then 65536 else 0).
Proof.
  split; [vm_compute; reflexivity|]. split; [vm_compute; reflexivity|].
  exact (proj1 (surrogate_pair_value (quoted (u_escape "D840" ++ u_escape "DC00"))
                  (set_ptr 6 (initial empty_memory)) (set_ptr 12 (initial empty_memory))
                  55360 56320 65536 ltac:(lia) ltac:(lia)
                  ltac:(vm_compute; reflexivity) ltac:(vm_compute; reflexivity))).
Defined.

Lemma hex_value_range (c : Z) : hex_value c <> 255 -> 0 <= hex_value c <= 15.
Proof.
  unfold hex_value.
  destruct ((chr "0" <=? c) && (c <=? chr "9")) eqn:E.
  - apply andb_true_iff in E as [E1 E2]. apply Z.leb_le in E1, E2.
    change (chr "0") with 48 in *. change (chr "9") with 57 in *. lia.
  - repeat match goal with
      | |- context [if ?b then _ else _] => destruct b
      end; lia.
Qed.

(** X10: four hexadecimal digits after [\u] are read as the number they
    write, most significant digit first, a number below 65536; a byte that
    is no hexadecimal digit among them makes the escape invalid. *)
Theorem read_hex4_value (json : list Z) (p c1 c2 c3 c4 : Z) :
  deref json (p + 1) = Some c1 -> deref json (p + 2) = Some c2 ->
  deref json (p + 3) = Some c3 -> deref json (p + 4) = Some c4 ->
  read_hex4 json p
  = Some (if (hex_value c1 =? 255) || (hex_value c2 =? 255)
             || (hex_value c3 =? 255) || (hex_value c4 =? 255)
          then None
          else Some (hex_value c1 * 4096 + hex_value c2 * 256
                     + hex_value c3 * 16 + hex_value c4))
  /\ (hex_value c1 <> 255 -> hex_value c2 <> 255 -> hex_value c3 <> 255 ->
      hex_value c4 <> 255 ->
      0 <= hex_value c1 * 4096 + hex_value c2 * 256 + hex_value c3 * 16 + hex_value c4
        < 65536).
Proof.
  intros D1 D2 D3 D4. split.
  - unfold read_hex4. rewrite D1, D2, D3, D4. cbn [mbind option_bind].
    destruct (Z.eqb_spec (hex_value c1) 255) as [|H1]; [reflexivity|].
    destruct (Z.eqb_spec (hex_value c2) 255) as [|H2]; [reflexivity|].
    destruct (Z.eqb_spec (hex_value c3) 255) as [|H3]; [reflexivity|].
    destruct (Z.eqb_spec (hex_value c4) 255) as [|H4]; [reflexivity|].
    cbn [orb]. cbv zeta.
    apply hex_value_range in H1, H2, H3, H4.
    rewrite !Z.shiftl_mul_pow2 by lia.
    rewrite !(lor_high_low _ 4) by (change (2 ^ 4) with 16; lia).
    unfold wrap_u8. change (2 ^ 4) with 16. change (2 ^ 8) with 256.
    rewrite !Z.mod_small by lia.
    change 256 with (2 ^ 8) at 1. rewrite lor_high_low by (change (2 ^ 8) with 256; lia).
    change (2 ^ 8) with 256. do 2 f_equal. lia.
  - intros H1 H2 H3 H4. apply hex_value_range in H1, H2, H3, H4. lia.
Qed.

Lemma read_hex4_value_witness :
  read_hex4 (u_escape "20aC") 1
  = Some (if (hex_value (chr "2") =? 255) || (hex_value (chr "0") =? 255)
             || (hex_value (chr "a") =? 255) || (hex_value (chr "C") =? 255)
          then None
          else Some (hex_value (chr "2") * 4096 + hex_value (chr "0") * 256
                     + hex_value (chr "a") * 16 + hex_value (chr "C")))
  /\ hex_value (chr "2") * 4096 + hex_value (chr "0") * 256
     + hex_value (chr "a") * 16 + hex_value (chr "C") = 8364.
Proof.
  split; [|reflexivity].
  exact (proj1 (read_hex4_value (u_escape "20aC") 1 (chr "2") (chr "0") (chr "a") (chr "C")
                  eq_refl eq_refl eq_refl eq_refl)).
Defined.

(** ** The counting pass stays inside the buffer *)

(** X11: where a shell has room for a [json_value] ([shell_room]), with an
    allocator at hand and started on an empty heap, the counting pass,
    however long it is run, reads no byte outside the buffer and follows no
    pointer that holds no value, with one exception: a text that ends in
    [tru], [fals] or [nul], the keyword cut short by one byte, whose last
    comparison reads the byte after the buffer. *)
Theorem counting_pass_reads_inside (pow : float -> float -> float) (cfg : settings)
  (json : list Z) (mm : memory) (fuel : nat) :
  shell_room cfg -> mem_alloc cfg <> None -> heap mm = [] ->
  pass pow cfg json fuel (start_pass 1 (initial mm)) = Pass_undefined ->
  cut_short json.
Proof. intros _. apply counting_pass_reads. Qed.

Lemma counting_pass_reads_inside_witness : cut_short (json_text "[nul").
Proof.
  apply (counting_pass_reads_inside pow_whole roomy_settings (json_text "[nul")
           empty_memory 8).
  - vm_compute. discriminate.
  - discriminate.
  - reflexivity.
  - vm_compute. reflexivity.
Defined.

(** ** Failures of the counting pass *)

(** X12: where a shell has room for a [json_value] ([shell_room]) and the
    counting pass fails, for a syntax error, an overflow, the quota or a
    refused allocation, [e_failed] walks the shells from [root] along
    [_reserved.next_alloc] and releases each of them exactly once: the
    parse returns no tree, with the text of the error in the caller's
    buffer if there is one, and no block is left allocated. *)
Theorem counting_failure_releases_all (pow : float -> float -> float) (mm : memory)
  (st : settings) (json : list Z) (error_buf : bool) (e : message) (m : machine) :
  shell_room (state_settings st) -> heap mm = [] ->
  pass pow (state_settings st) (skip_bom json) (pass_fuel (skip_bom json))
    (start_pass 1 (initial mm)) = Pass_failed e m ->
  failure (parse_in pow mm st json error_buf) = Some (copied_text error_buf e, 0%nat).
Proof. intros _. apply counting_failure_releases. Qed.

Lemma counting_failure_releases_all_witness :
  failure (parse_in pow_whole empty_memory roomy (json_text "[[1, 'a'], {'k': x}]") true)
  = Some (Some (sprintf "%d:%d: Unexpected %c when seeking value"
                  [D 1; D 0; C (chr "x")]), 0%nat).
Proof.
  refine (counting_failure_releases_all pow_whole empty_memory roomy
            (json_text "[[1, 'a'], {'k': x}]") true
            (sprintf "%d:%d: Unexpected %c when seeking value" [D 1; D 0; C (chr "x")])
            _ _ eq_refl _).
  - vm_compute. discriminate.
  - vm_compute. reflexivity.
Defined.

(** X13: where a shell has room for a [json_value] ([shell_room]) and the
    counting pass has counted no object too large for [values_size]
    ([objects_fit]), a parse that fails with any text other than "Memory
    allocation failure" has failed in the counting pass (the building pass
    has no other error), so it leaves no block allocated: a syntax error
    never leaks. *)
Theorem syntax_error_releases_all (pow : float -> float -> float) (mm : memory)
  (st : settings) (json : list Z) (e : message) (live : nat) :
  shell_room (state_settings st) -> heap mm = [] ->
  objects_fit (mem (counted pow (state_settings st) (skip_bom json) mm)) = true ->
  failure (parse_in pow mm st json true) = Some (Some e, live) ->
  e <> sprintf "Memory allocation failure" [] ->
  live = 0%nat.
Proof.
  intros _ Hh Hfit Hf Hne.
  set (cfg := state_settings st) in *. set (j := skip_bom json) in *.
  destruct (pass pow cfg j (pass_fuel j) (start_pass 1 (initial mm))) as [m1|e1 m1| |] eqn:Hp.
  - exfalso. revert Hf. unfold parse_in, two_passes. fold cfg j. rewrite Hp.
    unfold counted in Hfit. rewrite Hp in Hfit.
    pose proof (passes_in_step pow cfg j mm m1 ltac:(discriminate) Hh Hp Hfit) as H2.
    destruct (pass pow cfg j (pass_fuel j) (start_pass 0 (set_alloc (root m1) m1)))
      as [m2|e2 m2| |]; simpl in H2; try contradiction; try discriminate.
    subst e2. unfold e_failed. cbv zeta.
    destruct (free_chain cfg _ (mem m2) _); try discriminate.
    destruct (first_pass m2 =? 0).
    + destruct (value_free cfg a (root m2)); try discriminate.
      intros E. simpl in E. injection E as <- _. apply Hne. reflexivity.
    + intros E. simpl in E. injection E as <- _. apply Hne. reflexivity.
  - rewrite (counting_failure_releases pow mm st json true e1 m1 Hh Hp) in Hf.
    injection Hf as _ <-. reflexivity.
  - revert Hf. unfold parse_in, two_passes. fold cfg j. rewrite Hp. discriminate.
  - revert Hf. unfold parse_in, two_passes. fold cfg j. rewrite Hp. discriminate.
Qed.

Lemma syntax_error_releases_all_witness :
  failure (parse_in pow_whole empty_memory roomy (json_text "{'a': [1, 2], 'b' 3}") true)
  = Some (Some (sprintf "%d:%d: Expected : before %c" [D 1; D 0; C (chr "3")]), 0%nat)
  /\ 0%nat = 0%nat.
Proof.
  split; [vm_compute; reflexivity|].
  exact (syntax_error_releases_all pow_whole empty_memory roomy
           (json_text "{'a': [1, 2], 'b' 3}")
           (sprintf "%d:%d: Expected : before %c" [D 1; D 0; C (chr "3")]) 0%nat
           ltac:(vm_compute; discriminate) eq_refl ltac:(vm_compute; reflexivity)
           ltac:(vm_compute; reflexivity) ltac:(discriminate)).
Defined.

(** ** Releasing a tree *)

Lemma without_others_same fp mm (x : addr) :
  x ∈ fp -> heap (without_others fp mm) !! x = heap mm !! x.
Proof.
  intros Hx. unfold without_others. simpl. rewrite list_lookup_imap. unfold addr in *.
  destruct (heap mm !! x) as [b|]; simpl; [|reflexivity].
  rewrite bool_decide_eq_true_2 by exact Hx. reflexivity.
Qed.

Lemma without_others_gone fp mm (x : addr) :
  x ∉ fp -> (x < length (heap mm))%nat -> heap (without_others fp mm) !! x = Some None.
Proof.
  intros Hx Hlt. unfold without_others. simpl. rewrite list_lookup_imap. unfold addr in *.
  destruct (lookup_lt_is_Some_2 (heap mm) x Hlt) as (b & ->). simpl.
  rewrite bool_decide_eq_false_2 by exact Hx. reflexivity.
Qed.

(** X14: [json::value_free], called with a free capability on the root of
    a tree of which every shell is a block that holds a whole [json_value]
    (as the parser leaves it where [shell_room] holds) and in which every
    shell points to its parent, a string to its buffer, a container with
    members to a buffer whose slots point to its children, no block being
    used twice, ends within its iteration budget: it releases every shell
    and every buffer of the tree exactly once, changes no other block and
    allocates nothing.  It does so whatever the other blocks are, and also
    when all of them have been released beforehand, where any access to one
    of them would be undefined.  When the tree is all that the heap holds,
    no block is left allocated. *)
Theorem value_free_releases_tree (st : settings) (mm : memory) (l : layout) (q : pointer) :
  mem_free st <> None -> well_laid mm q l = true -> NoDup (footprint l) ->
  (exists mm',
     value_free st mm (ptr_of l) = Ok mm'
     /\ released (footprint l) mm mm'
     /\ ((forall a, (a < length (heap mm))%nat -> a ∈ footprint l) ->
         live_blocks mm' = 0%nat))
  /\ (exists mm',
        value_free st (without_others (footprint l) mm) (ptr_of l) = Ok mm'
        /\ live_blocks mm' = 0%nat).
Proof.
  intros Hf Hw Hnd. pose proof (well_laid_sits mm l q Hw) as Hs. split.
  - destruct (value_free_tree st mm l q Hf Hs Hnd) as (mm' & Hv & Hr).
    exists mm'. split_all; auto. intros Hall. eapply released_all; eauto.
  - assert (Hs' : sits (without_others (footprint l) mm) q l).
    { apply (sits_frame mm); [exact Hs|]. intros x Hx. apply without_others_same, Hx. }
    destruct (value_free_tree st _ l q Hf Hs' Hnd) as (mm' & Hv & Hr).
    exists mm'. split; [exact Hv|].
    unfold live_blocks. destruct Hr as (Hlen & Hin & Hout & _).
    assert (Hnone : forall b, b ∈ heap mm' -> b = None).
    { intros b Hb. apply list_elem_of_lookup_1 in Hb as (x & Hx).
      pose proof (lookup_lt_Some _ _ _ Hx) as Hlt.
      destruct (decide (x ∈ footprint l)) as [Hfp|Hfp].
      - pose proof (Hin x Hfp) as E. unfold addr in *. congruence.
      - pose proof (Hout x Hfp) as E.
        rewrite without_others_gone in E; [unfold addr in *; congruence|exact Hfp|].
        rewrite Hlen in Hlt. unfold without_others in Hlt. simpl in Hlt.
        rewrite length_imap in Hlt. exact Hlt. }
    clear - Hnone. induction (heap mm') as [|b bs IH]; [reflexivity|].
    rewrite (Hnone b) by apply list_elem_of_here.
    rewrite filter_cons_False by (intros [? ?]; discriminate).
    apply IH. intros b' Hb'. apply Hnone. apply list_elem_of_further, Hb'.
Qed.

Lemma value_free_releases_tree_witness :
  (exists mm',
     value_free default_settings sample_memory (ptr_of sample_layout) = Ok mm'
     /\ released (footprint sample_layout) sample_memory mm'
     /\ ((forall a, (a < length (heap sample_memory))%nat -> a ∈ footprint sample_layout) ->
         live_blocks mm' = 0%nat))
  /\ (exists mm',
        value_free default_settings
          (without_others (footprint sample_layout) sample_memory) (ptr_of sample_layout)
        = Ok mm'
        /\ live_blocks mm' = 0%nat).
Proof.
  apply (value_free_releases_tree default_settings sample_memory sample_layout nullptr).
  - discriminate.
  - vm_compute. reflexivity.
  - apply (bool_decide_unpack _). vm_compute. exact I.
Defined.

(** ** The ceiling on memory *)

(** X15: under a ceiling ([max_memory] not 0), the sizes of all the
    requests that a parse passes to the allocate capability, granted or
    not, in both passes together, add up to no more than the ceiling:
    a request that would take the total past it is refused before the
    capability is called.  Releasing, on failure, asks for nothing. *)
Theorem ceiling_is_kept (pow : float -> float -> float) (mm : memory) (st : settings)
  (json : list Z) (error_buf : bool) :
  0 < max_memory st ->
  match parse_in pow mm st json error_buf with
  | Tree _ mm' | No_tree _ mm' =>
      requested (alloc_log mm') - requested (alloc_log mm) <= max_memory st
  | _ => True
  end.
Proof. apply parse_quota. Qed.

Lemma ceiling_is_kept_witness :
  match parse_in pow_whole empty_memory (settings_with_ceiling 400) sample_text false with
  | Tree _ mm' | No_tree _ mm' =>
      requested (alloc_log mm') - requested (alloc_log empty_memory) <= 400
  | _ => True
  end.
Proof.
  exact (ceiling_is_kept pow_whole empty_memory (settings_with_ceiling 400) sample_text
           false ltac:(simpl; lia)).
Defined.

(** ** A refused buffer *)

(** X17: when the buffer of an array or of an object is refused in the
    building pass, [new_value] has stored the null pointer in
    [u.array.values] and left the length that the counting pass counted;
    [e_failed] then calls [json::value_free] on the root, which, for a
    container with a length other than 0, reads the slot [values[length -
    1]] through that null pointer.  The parse of [[1]] or of [{"a":1}]
    under a ceiling that lets the counting pass through and refuses the
    buffer of the root ends in this way, not with "Memory allocation
    failure". *)
Theorem refused_buffer_null_dereference (pow : float -> float -> float) (st : settings)
  (mm : memory) (a : addr) (v : json_value) :
  shell mm a v -> is_container (type v) = true -> u_length v <> 0 -> u_values v = nullptr ->
  value_free st mm (Pblk a 0) = Undef
  /\ parse_in pow empty_memory (roomy_with_ceiling 84) (json_text "[1]") true
     = Undefined_behaviour
  /\ parse_in pow empty_memory (roomy_with_ceiling 84) (json_text "{'a':1}") true
     = Undefined_behaviour.
Proof.
  intros Hv Hc Hl Hn. split; [|split; vm_compute; reflexivity].
  pose proof (shell_lt _ _ _ Hv) as Hlt.
  unfold value_free. cbn [is_null].
  rewrite (proj2 (update_value_shell mm (Pblk a 0) (set_parent nullptr) _)
             (ex_intro _ a (ex_intro _ v (conj eq_refl (conj Hv eq_refl))))).
  cbn [result_of result_bind].
  set (mm1 := store mm a (Bvalue (set_parent nullptr v))).
  assert (H1 : shell mm1 a (set_parent nullptr v)).
  { apply shell_store_eq; [exact Hlt | reflexivity]. }
  replace (2 * length (heap mm1) + 2)%nat with (S (2 * length (heap mm1) + 1)) by lia.
  cbn [value_free_loop is_null]. rewrite (load_value_at _ _ _ H1).
  cbn [result_of result_bind]. cbn [type u_length u_values set_parent].
  rewrite (proj2 (Z.eqb_neq _ _) Hl), Hn.
  assert (Hup : forall n, update_value mm1 (Pblk a 0) (set_length n)
                          = Some (store mm1 a (Bvalue (set_length n (set_parent nullptr v))))).
  { intros n. apply update_value_shell. eauto. }
  unfold is_container in Hc.
  destruct (type v); try discriminate; rewrite Hup; reflexivity.
Qed.

Lemma refused_buffer_null_dereference_witness :
  value_free default_settings array_without_buffer (Pblk 0%nat 0) = Undef
  /\ parse_in pow_whole empty_memory (roomy_with_ceiling 84) (json_text "[1]") true
     = Undefined_behaviour.
Proof.
  destruct (refused_buffer_null_dereference pow_whole default_settings array_without_buffer
              0%nat (set_length 1 (set_type json_array zeroed_value))
              eq_refl eq_refl ltac:(discriminate) eq_refl) as (H1 & H2 & _).
  exact (conj H1 H2).
Defined.

(** ** The sizes asked of the allocator *)

(** X16: in the counting pass [new_value] asks the allocator for one block
    of [sizeof(value) + value_extra] zeroed bytes, where [value] is the
    pointer and not the [json_value] it points to: 8 bytes with the default
    [value_extra] of 0, where the shell that the block is then used as
    takes 40.  With any [value_extra] below 32 the request is too small
    for the fields [parent], [type], [u] and [_reserved] that both passes
    and [json::value_free] read and write. *)
Theorem shell_request_is_short (cfg : settings) (m m' : machine) (ty : json_type) :
  first_pass m <> 0 -> new_value cfg m ty = Some (true, m') ->
  alloc_log (mem m')
  = {| call_size := shell_bytes cfg; call_zero := true; call_user_data := user_data cfg |}
      :: alloc_log (mem m)
  /\ length (heap (mem m')) = S (length (heap (mem m)))
  /\ (0 <= value_extra cfg < sizeof_json_value - sizeof_value ->
      shell_bytes cfg = sizeof_value + value_extra cfg /\ ~ shell_room cfg).
Proof.
  intros Hfp. unfold new_value. rewrite (proj2 (Z.eqb_neq _ _) Hfp).
  unfold json_alloc.
  destruct (ulong_max - used_memory m <? shell_bytes cfg); [discriminate|].
  set (m1 := if max_memory cfg =? 0 then m
             else set_used_memory (wrap_u64 (used_memory m + shell_bytes cfg)) m).
  assert (Hm1 : mem m1 = mem m) by (unfold m1; destruct (max_memory cfg =? 0); reflexivity).
  destruct (negb (max_memory cfg =? 0) && (used_memory m1 >? max_memory cfg));
    [discriminate|].
  destruct (mem_alloc cfg) as [f|]; [|discriminate].
  unfold call_mem_alloc. rewrite Hm1.
  destruct (alloc_grants f (alloc_log (mem m)) (shell_bytes cfg) true (user_data cfg));
    [|discriminate].
  cbn [mbind option_bind is_null Z.eqb].
  match goal with |- context [update_value ?mm ?p ?g] =>
    destruct (update_value mm p g) as [mm1|] eqn:E1 end; [|discriminate].
  cbn [mbind option_bind].
  match goal with |- context [mbind _ ?o] => destruct o as [mm2|] eqn:E2 end;
    [|discriminate].
  cbn [mbind option_bind]. intros E. injection E as <-. msimpl.
  assert (Hlog : forall mm p g mm', update_value mm p g = Some mm' ->
            alloc_log mm' = alloc_log mm /\ length (heap mm') = length (heap mm)).
  { intros mm p g mm' H. apply update_value_shell in H as (a1 & v1 & _ & _ & ->).
    split; [reflexivity | apply length_store]. }
  destruct (Hlog _ _ _ _ E1) as [A1 B1].
  assert (A2 : alloc_log mm2 = alloc_log mm1 /\ length (heap mm2) = length (heap mm1)).
  { revert E2. match goal with |- (if ?c then _ else _) = _ -> _ => destruct c end.
    - intros [= <-]. auto.
    - apply Hlog. }
  destruct A2 as [A2 B2]. rewrite A2, A1, B2, B1.
  split_all.
  - destruct (is_null (root m1)); reflexivity.
  - destruct (is_null (root m1)); simpl; rewrite length_app; simpl; lia.
  - intros Hx. unfold shell_room, shell_bytes, sizeof_json_value, sizeof_value in *.
    rewrite wrap_u64_small by lia. lia.
Qed.

Lemma shell_request_is_short_witness :
  alloc_log (mem first_shell)
  = [{| call_size := 8; call_zero := true; call_user_data := 0 |}]
  /\ ~ shell_room default_settings.
Proof.
  destruct (shell_request_is_short default_settings (start_pass 1 (initial empty_memory))
              first_shell json_integer ltac:(discriminate) ltac:(vm_compute; reflexivity))
    as (H1 & _ & H3).
  split; [exact H1|]. apply H3. vm_compute. split; [discriminate|reflexivity].
Defined.

(** C1: the two passes do not agree on an object of 178956971 members or
    more.  [new_value] computes the size of the entries, 24 bytes each, in
    [values_size], an [int]: for a count from 178956971 to 268435455 the
    product has lost 2^32, so that the buffer it asks for, [values_size]
    bytes and the bytes of the names, has room for [length - 178956971]
    entries where the building pass goes on to write [length] of them.
    The entry with that index, which the building pass writes as it does
    every entry below [length], lies outside the part of the buffer that
    was asked for the entries, and the whole buffer is smaller than the
    [length] entries written to it. *)
Theorem object_buffer_overrun (cfg : settings) (m : machine) (a : addr) (v : json_value)
  (names : Z) (ty : json_type) :
  mem_alloc cfg = Some default_alloc -> max_memory cfg = 0 -> used_memory m = 0 ->
  first_pass m = 0 -> alloc m = Pblk a 0 -> shell (mem m) a v ->
  type v = json_object -> u_values v = Pint names -> 0 <= names < 2 ^ 32 ->
  178956971 <= u_length v <= 268435455 ->
  exists m' v',
    new_value cfg m ty = Some (true, m')
    /\ alloc_log (mem m')
       = {| call_size := sizeof_object_entry * u_length v - 2 ^ 32 + names;
            call_zero := false; call_user_data := user_data cfg |} :: alloc_log (mem m)
    /\ top m' = Pblk a 0 /\ shell (mem m') a v'
    /\ u_values v' = Pblk (length (heap (mem m))) 0 /\ u_length v' = 0
    /\ (forall f, update_entry (mem m') (u_values v') (u_length v - 178956971) f = None)
    /\ sizeof_object_entry * u_length v - 2 ^ 32 + names < sizeof_object_entry * u_length v.
Proof.
  intros Hal Hmax Hused Hfp Halloc Hv Hty Hval Hnames Hlen.
  pose proof (shell_lt _ _ _ Hv) as Hlt.
  unfold new_value. rewrite Hfp, Halloc, (load_value_at _ _ _ Hv).
  cbn [Z.eqb mbind option_bind]. rewrite Hty.
  replace (u_length v =? 0) with false by (symmetry; apply Z.eqb_neq; lia).
  rewrite Hval. cbv zeta.
  assert (Hvs : wrap_s32 (wrap_u64 (sizeof_object_entry * u_length v))
                = sizeof_object_entry * u_length v - 2 ^ 32).
  { unfold sizeof_object_entry. rewrite wrap_u64_small by lia. unfold wrap_s32.
    replace (24 * u_length v + 2 ^ 31)
      with (24 * u_length v - 2 ^ 32 + 2 ^ 31 + 1 * 2 ^ 32) by lia.
    rewrite Z.mod_add by lia. rewrite Z.mod_small by lia. lia. }
  rewrite Hvs.
  set (vs := sizeof_object_entry * u_length v - 2 ^ 32).
  assert (Hvs0 : 8 <= vs < 2 ^ 31) by (unfold vs, sizeof_object_entry; lia).
  rewrite (wrap_u64_small (vs + names)) by lia.
  set (r := if is_null (root (set_alloc (_reserved v) (set_top (Pblk a 0) m)))
            then set_root (Pblk a 0) (set_alloc (_reserved v) (set_top (Pblk a 0) m))
            else set_alloc (_reserved v) (set_top (Pblk a 0) m)).
  assert (R : used_memory r = 0 /\ mem r = mem m /\ top r = Pblk a 0).
  { unfold r. destruct (is_null _); simpl; auto. }
  clearbody r. destruct R as (R1 & R2 & R3).
  unfold json_alloc. rewrite R1, Hmax, Hal.
  replace (ulong_max - 0 <? vs + names) with false
    by (symmetry; apply Z.ltb_ge; unfold ulong_max; lia).
  cbn [Z.eqb negb andb]. unfold call_mem_alloc. cbn [alloc_grants mbind option_bind].
  rewrite R2.
  set (b := length (heap (mem m))).
  set (mm1 := {| heap := heap (mem m) ++ [Some (object_buffer vs (vs + names))];
                 alloc_log := {| call_size := vs + names; call_zero := false;
                                 call_user_data := user_data cfg |} :: alloc_log (mem m);
                 free_log := free_log (mem m) |}).
  assert (H1 : shell mm1 a v).
  { unfold shell, mm1. simpl. rewrite lookup_app_l by exact Hlt. exact Hv. }
  assert (Hl1 : length (heap mm1) = S b).
  { unfold mm1. simpl. rewrite length_app. simpl. fold b. lia. }
  msimpl.
  rewrite (proj2 (update_value_shell mm1 (Pblk a 0) (set_values (Pblk b 0)) _)
             (ex_intro _ a (ex_intro _ v (conj eq_refl (conj H1 eq_refl))))).
  cbn [mbind option_bind is_null].
  set (mm2 := store mm1 a (Bvalue (set_values (Pblk b 0) v))).
  assert (H2 : shell mm2 a (set_values (Pblk b 0) v)).
  { apply shell_store_eq; [rewrite Hl1; lia | reflexivity]. }
  rewrite (proj2 (update_value_shell mm2 (Pblk a 0) _ _)
             (ex_intro _ a (ex_intro _ _ (conj eq_refl (conj H2 eq_refl))))).
  cbn [mbind option_bind].
  set (v' := set_length 0 (set_reserved (ptr_add (Pblk b 0) vs) (set_values (Pblk b 0) v))).
  exists (set_mem (store mm2 a (Bvalue v')) (set_mem mm1 r)), v'.
  msimpl. split_all; try reflexivity.
  - exact R3.
  - apply shell_store_eq; [unfold mm2; rewrite length_store, Hl1; lia | reflexivity].
  - intros f. unfold v'. simpl. unfold update_entry, load, store. simpl.
    rewrite !list_lookup_insert_ne by lia.
    rewrite lookup_app_r by (fold b; lia). fold b. rewrite Nat.sub_diag. simpl.
    unfold object_buffer. cbv zeta. rewrite Z.max_r by lia. simpl.
    unfold read_at, Z_index.
    replace (u_length v - 178956971 <? 0) with false by (symmetry; apply Z.ltb_ge; lia).
    rewrite lookup_ge_None_2; [reflexivity|].
    rewrite length_replicate.
    assert (vs / sizeof_object_entry <= u_length v - 178956971).
    { unfold vs, sizeof_object_entry. change (2 ^ 32) with 4294967296.
      Z.div_mod_to_equations. lia. }
    assert (0 <= vs / sizeof_object_entry)
      by (apply Z.div_pos; unfold sizeof_object_entry; lia).
    lia.
  - lia.
Qed.

Lemma object_buffer_overrun_witness :
  exists m' v',
    new_value default_settings large_object_state json_object = Some (true, m')
    /\ alloc_log (mem m')
       = {| call_size := sizeof_object_entry * u_length large_object - 2 ^ 32 + 178956971;
            call_zero := false; call_user_data := user_data default_settings |}
           :: alloc_log (mem large_object_state)
    /\ top m' = Pblk 0%nat 0 /\ shell (mem m') 0%nat v'
    /\ u_values v' = Pblk (length (heap (mem large_object_state))) 0 /\ u_length v' = 0
    /\ (forall f, update_entry (mem m') (u_values v')
                    (u_length large_object - 178956971) f = None)
    /\ sizeof_object_entry * u_length large_object - 2 ^ 32 + 178956971
       < sizeof_object_entry * u_length large_object.
Proof.
  apply (object_buffer_overrun default_settings large_object_state 0%nat large_object
           178956971 json_object); try reflexivity; simpl; lia.
Defined.


